(** * pico_rda5807: RDS group parser and RDA5807 tuner driver

    A shallow embedding of [rds_parser.c] and [fm_rda5807.c].

    Conventions.
    - C unsigned integers ([uint8_t], [uint16_t], [uint64_t], [size_t]) are
      values of [Z]; every narrowing assignment is written out with [u8],
      [u16], [u64].
    - [char] is the unsigned 8-bit type of the ARM EABI the driver targets.
    - Fixed-size C arrays are [list Z]; the well-formedness predicates record
      the array lengths that the C types fix. Reads and writes by index use
      stdpp's list lookup and insert. *)

From Stdlib Require Import ZArith QArith Qpower Qabs Lia Lqa Bool List SpecFloat.
From stdpp Require Import base tactics option list numbers.
Import ListNotations.

#[local] Open Scope Z_scope.

(** ** Machine integers *)

Definition u8 (z : Z) : Z := z mod 256.
Definition u16 (z : Z) : Z := z mod 65536.
Definition u64 (z : Z) : Z := z mod 18446744073709551616.

Definition is_u8 (z : Z) : Prop := 0 <= z < 256.
Definition is_u16 (z : Z) : Prop := 0 <= z < 65536.

(** C truth value of an integer expression. *)
Definition to_bool (z : Z) : bool := negb (z =? 0).

(** [arr[i]] for a C array held as a list; an index outside the array reads 0
    here (the C behaviour is undefined; no such read is reachable from
    well-formed states). *)
Definition get (arr : list Z) (i : Z) : Z := default 0 (arr !! Z.to_nat i).

(** [arr[i] = v]. *)
Definition set (arr : list Z) (i : Z) (v : Z) : list Z := <[Z.to_nat i := v]> arr.

(** [memcpy(dst, src, n)] on two arrays. *)
Definition memcpy (dst src : list Z) (n : nat) : list Z := take n src ++ drop n dst.

(** The C string that starts at the beginning of a char array: the characters
    before the first NUL. *)
Fixpoint c_str (buf : list Z) : list Z :=
  match buf with
  | [] => []
  | ch :: rest => if ch =? 0 then [] else ch :: c_str rest
  end.

(** ** rds_parser.c *)

Module RdsParser.

(** [rds_group_t]: the four 16-bit blocks of an RDS group. *)
Record rds_group_t := mk_group { a : Z; b : Z; c : Z; d : Z }.

(** [rds_parser_t]. *)
Record rds_parser_t := mk_parser {
  pi : Z;                      (* uint16_t, program identification *)
  pty : Z;                     (* uint8_t, program type *)
  tp : bool;                   (* traffic program *)
  ta : bool;                   (* traffic announcement *)
  ms : bool;                   (* music / speech *)
  di : Z;                      (* uint8_t, decoder identification *)
  di_scratch : Z;              (* uint8_t *)
  ps_str : list Z;             (* char[9] *)
  ps_scratch_str : list Z;     (* char[9] *)
  rt_str : list Z;             (* char[65] *)
  rt_scratch_str : list Z;     (* char[65] *)
  rt_a_b : bool;
  rt_scratch_a_b : bool;
  alt_freq : list Z;           (* uint8_t[25] *)
  alt_freq_count : Z           (* uint8_t *)
}.

(** The array sizes fixed by the C declaration of [rds_parser_t]. *)
Definition parser_wf (p : rds_parser_t) : Prop :=
  length (ps_str p) = 9%nat /\ length (ps_scratch_str p) = 9%nat /\
  length (rt_str p) = 65%nat /\ length (rt_scratch_str p) = 65%nat /\
  length (alt_freq p) = 25%nat.

(** [rds_group_type_t]. *)
Definition RDS_GROUP_BASIC : Z := 0.
Definition RDS_GROUP_RT : Z := 2.

Definition rds_get_group_pi (g : rds_group_t) : Z := a g.
Definition rds_get_group_type (g : rds_group_t) : Z := Z.shiftr (b g) 12.
Definition rds_get_group_version (g : rds_group_t) : Z :=
  u8 (Z.land (Z.shiftr (b g) 11) 1).
Definition rds_get_group_tp (g : rds_group_t) : bool :=
  negb (Z.land (Z.shiftr (b g) 10) 1 =? 0).
Definition rds_get_group_pty (g : rds_group_t) : Z :=
  u8 (Z.land (Z.shiftr (b g) 5) 31).

(** [w >> 8] and [w & 0xFF] stored into a [char]. *)
Definition hi_char (w : Z) : Z := u8 (Z.shiftr w 8).
Definition lo_char (w : Z) : Z := u8 (Z.land w 255).

Definition rds_parse_group_basic_ps (p : rds_parser_t) (g : rds_group_t) : rds_parser_t :=
  let address := Z.land (b g) 3 in
  let char_index := 2 * address in
  let ch0 := hi_char (d g) in
  let ch1 := lo_char (d g) in
  let scratch := set (set (ps_scratch_str p) char_index ch0) (char_index + 1) ch1 in
  let finished := address =? 3 in
  mk_parser (pi p) (pty p) (tp p) (ta p) (ms p) (di p) (di_scratch p)
    (if finished then memcpy (ps_str p) scratch 8 else ps_str p)
    scratch
    (rt_str p) (rt_scratch_str p) (rt_a_b p) (rt_scratch_a_b p)
    (alt_freq p) (alt_freq_count p).

Definition rds_parse_group_basic_di (p : rds_parser_t) (g : rds_group_t) : rds_parser_t :=
  let di_bit_index := Z.land (Z.lnot (b g)) 3 in
  let di_bit := u8 (Z.land (Z.shiftr (b g) 2) 1) in
  let scratch1 := u8 (Z.land (di_scratch p) (Z.lnot (Z.shiftl 1 di_bit_index))) in
  let scratch2 := u8 (Z.lor scratch1 (Z.shiftl di_bit di_bit_index)) in
  let finished := di_bit_index =? 0 in
  mk_parser (pi p) (pty p) (tp p) (ta p) (ms p)
    (if finished then scratch2 else di p) scratch2
    (ps_str p) (ps_scratch_str p)
    (rt_str p) (rt_scratch_str p) (rt_a_b p) (rt_scratch_a_b p)
    (alt_freq p) (alt_freq_count p).

(** The duplicate search of [rds_add_alt_freq]:
    [for (i = 0; i < alt_freq_count; i++) if (alt_freq[i] == alt_freq) return;]
    with [n] iterations left, starting at index [i]. *)
Fixpoint alt_freq_dup (arr : list Z) (v : Z) (i : Z) (n : nat) : bool :=
  match n with
  | O => false
  | S n' => if get arr i =? v then true else alt_freq_dup arr v (i + 1) n'
  end.

Definition rds_add_alt_freq (p : rds_parser_t) (v : Z) : rds_parser_t :=
  if (v =? 0) || (205 <=? v) then p
  else if alt_freq_count p =? 25 then p
  else if alt_freq_dup (alt_freq p) v 0 (Z.to_nat (alt_freq_count p)) then p
  else
    mk_parser (pi p) (pty p) (tp p) (ta p) (ms p) (di p) (di_scratch p)
      (ps_str p) (ps_scratch_str p)
      (rt_str p) (rt_scratch_str p) (rt_a_b p) (rt_scratch_a_b p)
      (set (alt_freq p) (alt_freq_count p) v) (u8 (alt_freq_count p + 1)).

Definition rds_parse_group_basic_alt_freq (p : rds_parser_t) (g : rds_group_t) : rds_parser_t :=
  if negb (rds_get_group_version g =? 0) then p
  else
    let f0 := u8 (Z.shiftr (c g) 8) in
    let f1 := u8 (Z.land (c g) 255) in
    rds_add_alt_freq (rds_add_alt_freq p f0) f1.

Definition rds_parse_group_basic (p : rds_parser_t) (g : rds_group_t) : rds_parser_t :=
  rds_parse_group_basic_alt_freq
    (rds_parse_group_basic_di (rds_parse_group_basic_ps p g) g) g.

(** The [chars] array and [char_count] of [rds_parse_group_rt]. *)
Definition rt_chars (g : rds_group_t) : list Z :=
  if rds_get_group_version g =? 0
  then [hi_char (c g); lo_char (c g); hi_char (d g); lo_char (d g)]
  else [hi_char (d g); lo_char (d g)].

Definition rt_char_index (g : rds_group_t) : Z :=
  let address := Z.land (b g) 15 in
  if rds_get_group_version g =? 0 then address * 4 else address * 2.

(** The copy loop of [rds_parse_group_rt] over the characters still to be
    consumed; returns the scratch buffer and [finished]. *)
Fixpoint rt_consume (chars : list Z) (scratch : list Z) (char_index : Z) : list Z * bool :=
  match chars with
  | [] => (scratch, false)
  | ch :: rest =>
      if ch =? 13 then (set scratch char_index 0, true)
      else
        let scratch' := set scratch char_index ch in
        if char_index + 1 =? 64 then (scratch', true)
        else rt_consume rest scratch' (char_index + 1)
  end.

Definition rds_parse_group_rt (p : rds_parser_t) (g : rds_group_t) : rds_parser_t :=
  let scratch_a_b := to_bool (Z.land (Z.shiftr (b g) 4) 1) in
  let '(scratch, finished) := rt_consume (rt_chars g) (rt_scratch_str p) (rt_char_index g) in
  mk_parser (pi p) (pty p) (tp p) (ta p) (ms p) (di p) (di_scratch p)
    (ps_str p) (ps_scratch_str p)
    (if finished then memcpy (rt_str p) scratch 64 else rt_str p)
    scratch
    (if finished then scratch_a_b else rt_a_b p)
    scratch_a_b
    (alt_freq p) (alt_freq_count p).

(** [memset(parser, 0, sizeof(rds_parser_t))]. *)
Definition rds_parser_reset : rds_parser_t :=
  mk_parser 0 0 false false false 0 0
    (replicate 9 0) (replicate 9 0) (replicate 65 0) (replicate 65 0)
    false false (replicate 25 0) 0.

(** The first three statements of [rds_parser_update]: the fields every
    group carries. *)
Definition update_header (p : rds_parser_t) (g : rds_group_t) : rds_parser_t :=
  mk_parser (rds_get_group_pi g) (rds_get_group_pty g) (rds_get_group_tp g)
    (ta p) (ms p) (di p) (di_scratch p)
    (ps_str p) (ps_scratch_str p)
    (rt_str p) (rt_scratch_str p) (rt_a_b p) (rt_scratch_a_b p)
    (alt_freq p) (alt_freq_count p).

Definition rds_parser_update (p : rds_parser_t) (g : rds_group_t) : rds_parser_t :=
  let p1 := update_header p g in
  let ty := rds_get_group_type g in
  if ty =? RDS_GROUP_BASIC then rds_parse_group_basic p1 g
  else if ty =? RDS_GROUP_RT then rds_parse_group_rt p1 g
  else p1.

(** Feeding a sequence of groups, oldest first. *)
Definition rds_parser_feed (p : rds_parser_t) (gs : list rds_group_t) : rds_parser_t :=
  fold_left rds_parser_update gs p.

(** Accessors of [rds_parser.h]. *)
Definition rds_has_music (p : rds_parser_t) : bool := ms p.
Definition rds_has_traffic_program (p : rds_parser_t) : bool := tp p.
Definition rds_has_traffic_announcement (p : rds_parser_t) : bool := ta p.
Definition rds_get_program_service_name_str (p : rds_parser_t) : list Z := c_str (ps_str p).
Definition rds_get_radio_text_str (p : rds_parser_t) : list Z := c_str (rt_str p).
Definition rds_get_alternative_frequency_count (p : rds_parser_t) : Z := alt_freq_count p.
Definition rds_get_alternative_frequency (p : rds_parser_t) (index : Z) : Z :=
  get (alt_freq p) index.

(** The alternate-frequency list a reader sees through the two accessors:
    entries [0 .. count-1]. *)
Definition alt_freq_list (p : rds_parser_t) : list Z :=
  take (Z.to_nat (alt_freq_count p)) (alt_freq p).

(** The station-name buffer a reader sees: the eight characters of [ps_str]. *)
Definition ps_chars (p : rds_parser_t) : list Z := take 8 (ps_str p).

(** Group classification used in the statements. *)
Definition is_basic (g : rds_group_t) : Prop := rds_get_group_type g = RDS_GROUP_BASIC.
Definition is_rt (g : rds_group_t) : Prop := rds_get_group_type g = RDS_GROUP_RT.
Definition ps_address (g : rds_group_t) : Z := Z.land (b g) 3.
Definition group_wf (g : rds_group_t) : Prop :=
  is_u16 (a g) /\ is_u16 (b g) /\ is_u16 (c g) /\ is_u16 (d g).

(** *** Vocabulary of the statements about the parser *)

(** A candidate alternate frequency that [rds_add_alt_freq] has no reason to
    drop. *)
Definition alt_freq_ok (p : rds_parser_t) (v : Z) : Prop :=
  0 < v < 205 /\ alt_freq_count p < 25 /\ ~ In v (alt_freq_list p).

(** [buf[i] = chars[0]; buf[i+1] = chars[1]; ...] *)
Fixpoint write_at (buf : list Z) (i : Z) (chars : list Z) : list Z :=
  match chars with
  | [] => buf
  | ch :: rest => write_at (set buf i ch) (i + 1) rest
  end.

(** Radio-text groups of one version carrying the consecutive fragment
    addresses [k], [k+1], ... *)
Fixpoint rt_in_order (ver : Z) (k : Z) (gs : list rds_group_t) : Prop :=
  match gs with
  | [] => True
  | g :: rest =>
      is_rt g /\ rds_get_group_version g = ver /\ Z.land (b g) 15 = k /\
      rt_in_order ver (k + 1) rest
  end.

(** Characters per radio-text group: 4 in version A groups, 2 in version B. *)
Definition rt_char_count (ver : Z) : Z := if ver =? 0 then 4 else 2.

(** *** Sample groups *)

(** A group 0A whose block C carries the alternate-frequency bytes [f0], [f1]. *)
Definition af_group (f0 f1 : Z) : rds_group_t := mk_group 0 0 (f0 * 256 + f1) 0.

(** A group 0A with station-name fragment [address] and characters [ch0], [ch1]. *)
Definition ps_group (address ch0 ch1 : Z) : rds_group_t :=
  mk_group 0x1234 address 0 (ch0 * 256 + ch1).

(** A group 2A with radio-text fragment [address] and four characters. *)
Definition rt_group (address ch0 ch1 ch2 ch3 : Z) : rds_group_t :=
  mk_group 0x1234 (0x2000 + address) (ch0 * 256 + ch1) (ch2 * 256 + ch3).

(** *** The program identification as text, and the remaining accessors *)

(** [hex_to_char]; [None] is the failed [assert(value < 16)]. The result is
    the [int] expression converted to [char]. *)
Definition hex_to_char (value : Z) : option Z :=
  if value <? 16
  then Some (u8 (if value <? 10 then 48 + value else 65 - 10 + value))
  else None.

(** [rds_get_program_id_as_str]: [str] after the five stores. Each argument
    of [hex_to_char] is converted to its [uint8_t] parameter. *)
Definition rds_get_program_id_as_str (p : rds_parser_t) (str : list Z) : option (list Z) :=
  match hex_to_char (u8 (Z.shiftr (pi p) 12)),
        hex_to_char (u8 (Z.land (Z.shiftr (pi p) 8) 0xF)),
        hex_to_char (u8 (Z.land (Z.shiftr (pi p) 4) 0xF)),
        hex_to_char (u8 (Z.land (pi p) 0xF)) with
  | Some c0, Some c1, Some c2, Some c3 =>
      Some (set (set (set (set (set str 0 c0) 1 c1) 2 c2) 3 c3) 4 0)
  | _, _, _, _ => None
  end.

Definition rds_get_program_id (p : rds_parser_t) : Z := pi p.
Definition rds_get_program_type (p : rds_parser_t) : Z := pty p.
Definition rds_has_dynamic_program_type (p : rds_parser_t) : bool :=
  negb (Z.land (di p) 0x08 =? 0).
Definition rds_has_stereo (p : rds_parser_t) : bool :=
  negb (Z.land (di p) 0x01 =? 0).
Definition rds_has_alternative_radio_text (p : rds_parser_t) : bool := rt_a_b p.

(** The value of an upper-case hexadecimal digit character. *)
Definition hex_digit_value (ch : Z) : Z := if ch <=? 57 then ch - 48 else ch - 55.

(** ['0'..'9'] or ['A'..'F']. *)
Definition is_hex_digit (ch : Z) : Prop := 48 <= ch <= 57 \/ 65 <= ch <= 70.

(** The decoder-identification bit a group 0A / 0B carries: bit 2 of block B. *)
Definition di_flag (g : rds_group_t) : bool := Z.testbit (b g) 2.

(** The version bit and the text A/B flag of block B. *)
Definition is_version_a (g : rds_group_t) : Prop := rds_get_group_version g = 0.
Definition rt_flag (g : rds_group_t) : bool := Z.testbit (b g) 4.

(** A group 0A with station-name fragment [address] whose decoder
    identification bit is [flag]. *)
Definition di_group (address : Z) (flag : bool) : rds_group_t :=
  mk_group 0x1234 (address + (if flag then 4 else 0)) 0 0x2020.

End RdsParser.

(** ** IEEE 754 binary32, the C type [float]

    The operations are those of the Standard Library's [SpecFloat] at
    precision 24 and maximal exponent 128 (round to nearest, ties to even). *)

Module F32.

Definition float : Type := spec_float.

Definition prec : Z := 24.
Definition emax : Z := 128.

Definition add : float -> float -> float := SFadd prec emax.
Definition sub : float -> float -> float := SFsub prec emax.
Definition mul : float -> float -> float := SFmul prec emax.
Definition div : float -> float -> float := SFdiv prec emax.
Definition eqb : float -> float -> bool := SFeqb.
Definition ltb : float -> float -> bool := SFltb.
Definition leb : float -> float -> bool := SFleb.

(** Conversion of an integer to [float]. *)
Definition of_Z (z : Z) : float := binary_normalize prec emax z 0 false.

(** The decimal literal whose value is the fraction [num / den], converted to
    the nearest [float] as a C compiler does. *)
Definition lit (num den : Z) : float := div (of_Z num) (of_Z den).

(** [roundf]: the nearest integral value, halfway cases away from zero. *)
Definition roundf (x : float) : float :=
  match x with
  | S754_finite s m e =>
      if 0 <=? e then x
      else
        let k := - e in
        let q := Z.shiftr (Zpos m) k in
        let r := Z.land (Zpos m) (Z.ones k) in
        let n := if Z.shiftl 1 (k - 1) <=? r then q + 1 else q in
        binary_normalize prec emax (if s then - n else n) 0 s
  | _ => x
  end.

(** Conversion of a [float] to an integer type: the fractional part is
    discarded. NaN and the infinities (undefined in C) give 0 here. *)
Definition to_Z (x : float) : Z :=
  match x with
  | S754_finite s m e =>
      let n := if 0 <=? e then Z.shiftl (Zpos m) e else Z.shiftr (Zpos m) (- e) in
      if s then - n else n
  | _ => 0
  end.

(** The exact rational value [num / den] of a finite [float], as a pair of
    integers with [den > 0]. *)
Definition to_frac (x : float) : Z * Z :=
  match x with
  | S754_finite s m e =>
      let n := if s then Zneg m else Zpos m in
      if 0 <=? e then (n * 2 ^ e, 1) else (n, 2 ^ (- e))
  | _ => (0, 1)
  end.

(** Whether a value of [spec_float] is a binary32 number: a finite one has
    its mantissa and exponent in canonical form and in range. *)
Definition valid (x : float) : bool := valid_binary prec emax x.

(** The exact value of a finite [float] as a rational number. *)
Definition to_Q (x : float) : Q :=
  match x with
  | S754_finite s m e => (inject_Z (if s then Zneg m else Zpos m) * 2 ^ e)%Q
  | _ => 0%Q
  end.

(** The value of a finite [float] counted in units of 2^-28; exact for every
    number whose exponent is at least -28. *)
Definition units28 (x : float) : Z :=
  match x with
  | S754_finite s m e => (if s then Zneg m else Zpos m) * 2 ^ (e + 28)
  | _ => 0
  end.

Definition is_finite (x : float) : bool :=
  match x with
  | S754_finite _ _ _ | S754_zero _ => true
  | _ => false
  end.

End F32.

(** ** rds_parser.h: decoding a raw alternative frequency *)

Module RdsDecode.

(** [rds_decode_alternative_frequency]: [87.5f + alt_freq * 0.1f], the
    [uint8_t] converted to [float] for the product; [None] is the failed
    [assert(0 < alt_freq && alt_freq < 205)]. *)
Definition rds_decode_alternative_frequency (alt_freq : Z) : option F32.float :=
  if (0 <? alt_freq) && (alt_freq <? 205)
  then Some (F32.add (F32.lit 875 10) (F32.mul (F32.of_Z alt_freq) (F32.lit 1 10)))
  else None.

(** Whether the decoded value of the raw frequency [alt_freq] is a positive
    finite number within 2^-17 MHz of [87.5 + alt_freq / 10], and below the
    decoded value of [alt_freq + 1] when that one is valid too. *)
Definition decoded_ok (alt_freq : Z) : bool :=
  match rds_decode_alternative_frequency alt_freq with
  | Some (S754_finite false m e) =>
      let x := S754_finite false m e in
      Qle_bool (Qabs (F32.to_Q x - (875 # 10) - inject_Z alt_freq * (1 # 10))) (1 # 131072) &&
      match rds_decode_alternative_frequency (alt_freq + 1) with
      | Some y => F32.ltb x y
      | None => true
      end
  | _ => false
  end.

End RdsDecode.

(** ** fm_rda5807_regs.h *)

Module Regs.

Definition RDA5807_ADDR_SEQUENTIAL : Z := 0x10.
Definition RDA5807_ADDR_RANDOM_ACCESS : Z := 0x11.

(** Register 0x2 *)
Definition ENABLE_BIT : Z := Z.shiftl 1 0.
Definition SOFT_RESET_BIT : Z := Z.shiftl 1 1.
Definition NEW_METHOD_BIT : Z := Z.shiftl 1 2.
Definition RDS_EN_BIT : Z := Z.shiftl 1 3.
Definition SKMODE_BIT : Z := Z.shiftl 1 7.
Definition SEEK_BIT : Z := Z.shiftl 1 8.
Definition SEEKUP_BIT : Z := Z.shiftl 1 9.
Definition BASS_BIT : Z := Z.shiftl 1 12.
Definition MONO_BIT : Z := Z.shiftl 1 13.
Definition DMUTE_BIT : Z := Z.shiftl 1 14.
Definition DHIZ_BIT : Z := Z.shiftl 1 15.

(** Register 0x3 *)
Definition SPACE_LSB : Z := 0.
Definition SPACE_BITS : Z := Z.shiftl 0x3 SPACE_LSB.
Definition BAND_LSB : Z := 2.
Definition BAND_BITS : Z := Z.shiftl 0x3 BAND_LSB.
Definition TUNE_BIT : Z := Z.shiftl 1 4.
Definition CHAN_LSB : Z := 6.
Definition CHAN_BITS : Z := Z.shiftl 0x3FF CHAN_LSB.

(** Register 0x4 *)
Definition SOFTMUTE_EN_BIT : Z := Z.shiftl 1 9.
Definition DE_BIT : Z := Z.shiftl 1 11.

(** Register 0x5 *)
Definition VOLUME_LSB : Z := 0.
Definition VOLUME_BITS : Z := Z.shiftl 0xF VOLUME_LSB.
Definition SEEKTH_LSB : Z := 8.
Definition SEEKTH_BITS : Z := Z.shiftl 0xF SEEKTH_LSB.

(** Register 0x7 *)
Definition BAND_65M_50M_MODE_BIT : Z := Z.shiftl 1 9.

(** Register 0xA *)
Definition READCHAN_LSB : Z := 0.
Definition READCHAN_BITS : Z := Z.shiftr 0x3FF READCHAN_LSB.
Definition ST_BIT : Z := Z.shiftl 1 10.
Definition SF_BIT : Z := Z.shiftl 1 13.
Definition STC_BIT : Z := Z.shiftl 1 14.
Definition RDSR_BIT : Z := Z.shiftl 1 15.

(** Register 0xB *)
Definition RSSI_LSB : Z := 9.
Definition RSSI_BITS : Z := Z.shiftl 0x7F RSSI_LSB.

(** The bit-field macros of fm_rda5807.c, applied to a [uint16_t] register. *)
Definition fm_set_bit (reg bit : Z) (value : bool) : Z :=
  if value then u16 (Z.lor reg bit) else u16 (Z.land reg (Z.lnot bit)).

Definition fm_get_bit (reg bit : Z) : bool := negb (Z.land reg bit =? 0).

Definition fm_set_bits (reg bits lsb value : Z) : Z :=
  u16 (Z.lor (u16 (Z.land reg (Z.lnot bits))) (Z.shiftl value lsb)).

Definition fm_get_bits (reg bits lsb : Z) : Z := Z.shiftr (Z.land reg bits) lsb.

(** The mask of a field of [width] bits whose lowest bit is [lsb], as the
    header writes every [*_BITS] constant: [(2^width - 1) << lsb]. *)
Definition field_mask (width lsb : Z) : Z := Z.shiftl (Z.ones width) lsb.

(** Whether bit [n] lies in that field. *)
Definition in_field (width lsb n : Z) : bool := (lsb <=? n) && (n <? lsb + width).

End Regs.

(** ** fm_rda5807.h and fm_rda5807.c *)

Module Rda5807.

Import Regs.

Definition FM_MAX_SEEK_THRESHOLD : Z := 15.
Definition FM_MAX_VOLUME : Z := 15.

Definition TUNE_POLL_INTERVAL_MS : Z := 5.
Definition SEEK_POLL_INTERVAL_MS : Z := 200.

Inductive fm_band_t :=
  | FM_BAND_COMMON | FM_BAND_JAPAN | FM_BAND_JAPAN_WIDE
  | FM_BAND_EAST_EUROPE | FM_BAND_EAST_EUROPE_UPPER.

Inductive fm_channel_spacing_t :=
  | FM_CHANNEL_SPACING_200 | FM_CHANNEL_SPACING_100
  | FM_CHANNEL_SPACING_50 | FM_CHANNEL_SPACING_25.

Inductive fm_deemphasis_t := FM_DEEMPHASIS_75 | FM_DEEMPHASIS_50.

Inductive fm_seek_direction_t := FM_SEEK_DOWN | FM_SEEK_UP.

Record fm_config_t := mk_config {
  band : fm_band_t;
  channel_spacing : fm_channel_spacing_t;
  deemphasis : fm_deemphasis_t
}.

Record fm_frequency_range_t := mk_range {
  bottom : F32.float;
  top : F32.float;
  spacing : F32.float
}.

Record fm_async_progress_t := mk_progress { done : bool; result : Z }.

(** [fm_async_task_t]: the function pointer stored in [fm_async_state_t] is
    NULL or the address of one of the two task functions of the driver. *)
Inductive fm_async_task_t :=
  | NULL | fm_set_frequency_async_task_ptr | fm_seek_async_task_ptr.

Definition task_eqb (x y : fm_async_task_t) : bool :=
  match x, y with
  | NULL, NULL => true
  | fm_set_frequency_async_task_ptr, fm_set_frequency_async_task_ptr => true
  | fm_seek_async_task_ptr, fm_seek_async_task_ptr => true
  | _, _ => false
  end.

Record fm_async_state_t := mk_async {
  task : fm_async_task_t;
  state : Z;          (* uint8_t *)
  resume_time : Z     (* uint64_t *)
}.

(** [rda5807_t]. The [i2c_inst] pointer names the bus the chip sits on; the
    bus itself is the [hw] component of the environment below. *)
Record rda5807_t := mk_radio {
  sdio_pin : Z;
  sclk_pin : Z;
  enable_pull_ups : bool;
  config : fm_config_t;
  frequency_range : fm_frequency_range_t;
  seek_threshold : Z;
  frequency : F32.float;
  volume : Z;
  mute : bool;
  softmute : bool;
  bass_boost : bool;
  mono : bool;
  regs : list Z;      (* uint16_t[16] *)
  async : fm_async_state_t
}.

Definition with_seek_threshold (v : Z) (r : rda5807_t) : rda5807_t :=
  mk_radio (sdio_pin r) (sclk_pin r) (enable_pull_ups r) (config r) (frequency_range r)
    v (frequency r) (volume r) (mute r) (softmute r) (bass_boost r) (mono r)
    (regs r) (async r).
Definition with_frequency (v : F32.float) (r : rda5807_t) : rda5807_t :=
  mk_radio (sdio_pin r) (sclk_pin r) (enable_pull_ups r) (config r) (frequency_range r)
    (seek_threshold r) v (volume r) (mute r) (softmute r) (bass_boost r) (mono r)
    (regs r) (async r).
Definition with_volume (v : Z) (r : rda5807_t) : rda5807_t :=
  mk_radio (sdio_pin r) (sclk_pin r) (enable_pull_ups r) (config r) (frequency_range r)
    (seek_threshold r) (frequency r) v (mute r) (softmute r) (bass_boost r) (mono r)
    (regs r) (async r).
Definition with_mute (v : bool) (r : rda5807_t) : rda5807_t :=
  mk_radio (sdio_pin r) (sclk_pin r) (enable_pull_ups r) (config r) (frequency_range r)
    (seek_threshold r) (frequency r) (volume r) v (softmute r) (bass_boost r) (mono r)
    (regs r) (async r).
Definition with_softmute (v : bool) (r : rda5807_t) : rda5807_t :=
  mk_radio (sdio_pin r) (sclk_pin r) (enable_pull_ups r) (config r) (frequency_range r)
    (seek_threshold r) (frequency r) (volume r) (mute r) v (bass_boost r) (mono r)
    (regs r) (async r).
Definition with_bass_boost (v : bool) (r : rda5807_t) : rda5807_t :=
  mk_radio (sdio_pin r) (sclk_pin r) (enable_pull_ups r) (config r) (frequency_range r)
    (seek_threshold r) (frequency r) (volume r) (mute r) (softmute r) v (mono r)
    (regs r) (async r).
Definition with_mono (v : bool) (r : rda5807_t) : rda5807_t :=
  mk_radio (sdio_pin r) (sclk_pin r) (enable_pull_ups r) (config r) (frequency_range r)
    (seek_threshold r) (frequency r) (volume r) (mute r) (softmute r) (bass_boost r) v
    (regs r) (async r).
Definition with_regs (v : list Z) (r : rda5807_t) : rda5807_t :=
  mk_radio (sdio_pin r) (sclk_pin r) (enable_pull_ups r) (config r) (frequency_range r)
    (seek_threshold r) (frequency r) (volume r) (mute r) (softmute r) (bass_boost r) (mono r)
    v (async r).
Definition with_async (v : fm_async_state_t) (r : rda5807_t) : rda5807_t :=
  mk_radio (sdio_pin r) (sclk_pin r) (enable_pull_ups r) (config r) (frequency_range r)
    (seek_threshold r) (frequency r) (volume r) (mute r) (softmute r) (bass_boost r) (mono r)
    (regs r) v.

(** [regs[i] = v]. *)
Definition with_reg (i v : Z) (r : rda5807_t) : rda5807_t := with_regs (set (regs r) i v) r.

(** *** misc *)

Definition fm_frequency_range (band : fm_band_t) (channel_spacing : fm_channel_spacing_t)
    : fm_frequency_range_t :=
  let '(bottom, top) :=
    match band with
    | FM_BAND_COMMON => (F32.of_Z 87, F32.of_Z 108)
    | FM_BAND_JAPAN => (F32.of_Z 76, F32.of_Z 91)
    | FM_BAND_JAPAN_WIDE => (F32.of_Z 76, F32.of_Z 108)
    | FM_BAND_EAST_EUROPE => (F32.of_Z 50, F32.of_Z 76)
    | _ => (F32.of_Z 65, F32.of_Z 76)
    end in
  let spacing :=
    match channel_spacing with
    | FM_CHANNEL_SPACING_200 => F32.lit 2 10
    | FM_CHANNEL_SPACING_100 => F32.lit 1 10
    | _ => F32.lit 5 100
    end in
  mk_range bottom top spacing.

Definition fm_channel_to_frequency (channel : Z) (range : fm_frequency_range_t) : F32.float :=
  F32.add (F32.mul (F32.of_Z channel) (spacing range)) (bottom range).

Definition fm_frequency_to_channel (frequency : F32.float) (range : fm_frequency_range_t) : Z :=
  u16 (F32.to_Z (F32.roundf (F32.div (F32.sub frequency (bottom range)) (spacing range)))).

(** The channel spacing an enumerator of [fm_channel_spacing_t] names, in
    MHz: 200, 100, 50 and 25 kHz. *)
Definition spacing_mhz (channel_spacing : fm_channel_spacing_t) : Q :=
  match channel_spacing with
  | FM_CHANNEL_SPACING_200 => 1 # 5
  | FM_CHANNEL_SPACING_100 => 1 # 10
  | FM_CHANNEL_SPACING_50 => 1 # 20
  | FM_CHANNEL_SPACING_25 => 1 # 40
  end.

(** The spacings [fm_frequency_range] has a case for: 200 and 100 kHz by
    name, 50 kHz as the default (its comment names [FM_CHANNEL_SPACING_50]).
    [FM_CHANNEL_SPACING_25] has none. *)
Definition has_range_case (channel_spacing : fm_channel_spacing_t) : bool :=
  match channel_spacing with
  | FM_CHANNEL_SPACING_25 => false
  | _ => true
  end.

(** The highest channel of a band: its width in MHz (header comments of
    [fm_band_t]) times the channels per MHz of the spacing. *)
Definition max_channel (band : fm_band_t) (channel_spacing : fm_channel_spacing_t) : Z :=
  match band with
  | FM_BAND_COMMON => 21
  | FM_BAND_JAPAN => 15
  | FM_BAND_JAPAN_WIDE => 32
  | FM_BAND_EAST_EUROPE => 26
  | FM_BAND_EAST_EUROPE_UPPER => 11
  end *
  match channel_spacing with
  | FM_CHANNEL_SPACING_200 => 5
  | FM_CHANNEL_SPACING_100 => 10
  | FM_CHANNEL_SPACING_50 => 20
  | FM_CHANNEL_SPACING_25 => 40
  end.

(** Whether [fm_channel_to_frequency channel range] is a positive number
    within 1000 units of 2^-28 MHz (3.7 Hz) of the exact
    [bottom + channel * spacing]. *)
Definition channel_frequency_ok (range : fm_frequency_range_t) (channel : Z) : bool :=
  match fm_channel_to_frequency channel range with
  | S754_finite false m e =>
      (-28 <=? e) &&
      (Z.abs (F32.units28 (S754_finite false m e) - F32.units28 (bottom range)
              - channel * F32.units28 (spacing range)) <=? 1000)
  | _ => false
  end.

(** Modelled from the spec: the [MAX] and [MIN] macros come from the platform
    SDK headers, which are not part of the sources; the setters "clamp" with
    them. [MAX(a, b)] is [a] when [a > b] and [b] otherwise, [MIN(a, b)] is [a]
    when [b > a] and [b] otherwise. *)
Definition MAX_f (x y : F32.float) : F32.float := if F32.ltb y x then x else y.
Definition MIN_f (x y : F32.float) : F32.float := if F32.ltb x y then x else y.
Definition MIN_z (x y : Z) : Z := if x <? y then x else y.

(** *** The platform: I2C bus, clock and sleep

    The driver reaches the chip only through the SDK calls
    [i2c_write_blocking], [i2c_read_blocking], [time_us_64] and [sleep_ms].
    Their behaviour is a parameter: [hw] is the state of everything outside
    the driver. A transfer returns the number of bytes moved or a negative
    error code; a read also returns the bytes received. *)

Inductive i2c_event :=
  | I2cWrite (addr : Z) (bytes : list Z) (nostop : bool)
  | I2cRead (addr : Z) (len : Z) (nostop : bool).

Class Platform (hw : Type) := {
  i2c_write_blocking : hw -> Z -> list Z -> bool -> Z * hw;
  i2c_read_blocking : hw -> Z -> Z -> bool -> Z * list Z * hw;
  time_us_64 : hw -> Z;
  sleep_ms : Z -> hw -> hw
}.

Section Driver.

Context {hw : Type} {platform : Platform hw}.

(** What a driver call can see and change: the [rda5807_t] it is handed, the
    platform state, and the record of bus transfers issued so far. *)
Record world := mk_world {
  radio : rda5807_t;
  chip : hw;
  i2c_log : list i2c_event
}.

(** A call returns a value and a new world, stops at a failed [assert], or
    (blocking calls only) is still polling when the fuel runs out. *)
Inductive outcome (A : Type) :=
  | Ret (x : A) (w : world)
  | Abort
  | OutOfFuel.
Arguments Ret {A} x w.
Arguments Abort {A}.
Arguments OutOfFuel {A}.

Definition M (A : Type) : Type := world -> outcome A.

Definition ret {A} (x : A) : M A := fun w => Ret x w.

Definition bind {A B} (m : M A) (k : A -> M B) : M B :=
  fun w =>
    match m w with
    | Ret x w' => k x w'
    | Abort => Abort
    | OutOfFuel => OutOfFuel
    end.

Notation "x <- m ;; k" := (bind m (fun x => k))
  (at level 100, m at next level, k at level 200, right associativity).
Notation "m ;; k" := (bind m (fun _ => k))
  (at level 100, k at level 200, right associativity).

Definition assert (cond : bool) : M unit := fun w => if cond then Ret tt w else Abort.

Definition get_radio : M rda5807_t := fun w => Ret (radio w) w.

Definition modify_radio (f : rda5807_t -> rda5807_t) : M unit :=
  fun w => Ret tt (mk_world (f (radio w)) (chip w) (i2c_log w)).

Definition i2c_write (addr : Z) (bytes : list Z) (nostop : bool) : M Z :=
  fun w =>
    let '(n, chip') := i2c_write_blocking (chip w) addr bytes nostop in
    Ret n (mk_world (radio w) chip' (i2c_log w ++ [I2cWrite addr bytes nostop])).

Definition i2c_read (addr : Z) (len : Z) (nostop : bool) : M (Z * list Z) :=
  fun w =>
    let '(n, bytes, chip') := i2c_read_blocking (chip w) addr len nostop in
    Ret (n, bytes) (mk_world (radio w) chip' (i2c_log w ++ [I2cRead addr len nostop])).

Definition now : M Z := fun w => Ret (time_us_64 (chip w)) w.

Definition sleep (ms : Z) : M unit :=
  fun w => Ret tt (mk_world (radio w) (sleep_ms ms (chip w)) (i2c_log w)).

(** *** register access *)

(** The unpacking loop of [fm_read_registers]: [n] registers from byte
    offset [i] of [buf] into [regs[p], regs[p+1], ...]. *)
Fixpoint unpack_registers (buf : list Z) (i : Z) (p : Z) (n : nat) (regs : list Z) : list Z :=
  match n with
  | O => regs
  | S n' =>
      let reg := u16 (Z.lor (u16 (Z.shiftl (get buf i) 8)) (get buf (i + 1))) in
      unpack_registers buf (i + 2) (p + 1) n' (set regs p reg)
  end.

Definition fm_read_registers (n : Z) : M bool :=
  assert (n <=? 6);;
  let data_size := n * 2 in
  r <- i2c_read RDA5807_ADDR_SEQUENTIAL data_size false;;
  let '(res, buf) := r in
  if negb (res =? data_size) then ret false
  else
    modify_radio (fun r => with_regs (unpack_registers buf 0 0xA (Z.to_nat n) (regs r)) r);;
    ret true.

Definition fm_read_registers_up_to (reg_index : Z) : M bool :=
  assert ((0xA <=? reg_index) && (reg_index <=? 0xF));;
  fm_read_registers (reg_index - 9).

(** The packing loop of [fm_write_registers]: bytes of [n] registers from
    [regs[p]] on, high byte first. *)
Fixpoint pack_registers (regs : list Z) (p : Z) (n : nat) : list Z :=
  match n with
  | O => []
  | S n' =>
      let reg := get regs p in
      u8 (Z.shiftr reg 8) :: u8 (Z.land reg 0xFF) :: pack_registers regs (p + 1) n'
  end.

Definition fm_write_registers (n : Z) : M bool :=
  assert (n <=? 7);;
  let data_size := n * 2 in
  r <- get_radio;;
  res <- i2c_write RDA5807_ADDR_SEQUENTIAL (pack_registers (regs r) 0x2 (Z.to_nat n)) false;;
  ret (res =? data_size).

Definition fm_write_registers_up_to (reg_index : Z) : M bool :=
  assert ((0x2 <=? reg_index) && (reg_index <=? 0x8));;
  fm_write_registers (reg_index - 1).

Definition fm_write_single_register (reg_index : Z) : M bool :=
  assert ((0x2 <=? reg_index) && (reg_index <=? 0x8));;
  if reg_index =? 0x2 then fm_write_registers 1
  else
    r <- get_radio;;
    let reg := get (regs r) reg_index in
    res <- i2c_write RDA5807_ADDR_RANDOM_ACCESS
             [u8 reg_index; u8 (Z.shiftr reg 8); u8 (Z.land reg 0xFF)] false;;
    ret (res =? 3).

Definition fm_read_single_register (reg_index : Z) : M bool :=
  assert (reg_index <=? 0xF);;
  if reg_index =? 0xA then fm_read_registers 1
  else
    res <- i2c_write RDA5807_ADDR_RANDOM_ACCESS [u8 reg_index] true;;
    if negb (res =? 1) then ret false
    else
      r <- i2c_read RDA5807_ADDR_RANDOM_ACCESS 2 false;;
      let '(res, buf) := r in
      if negb (res =? 2) then ret false
      else
        let reg := u16 (Z.lor (Z.shiftl (get buf 0) 8) (get buf 1)) in
        modify_radio (with_reg reg_index reg);;
        ret true.

(** *** public interface *)

Definition fm_is_powered_up (r : rda5807_t) : bool := fm_get_bit (get (regs r) 0x2) ENABLE_BIT.

Definition no_task : fm_async_state_t := mk_async NULL 0 0.

(** [radio->async.resume_time = time_us_64() + interval_ms * 1000]. *)
Definition schedule (interval_ms : Z) : M unit :=
  t <- now;;
  modify_radio (fun r =>
    with_async (mk_async (task (async r)) (state (async r)) (u64 (t + interval_ms * 1000))) r).

Definition fm_set_frequency_async_task (cancel : bool) : M fm_async_progress_t :=
  r <- get_radio;;
  assert (task_eqb (task (async r)) fm_set_frequency_async_task_ptr);;
  assert (state (async r) =? 1);;
  let finish (result : Z) : M fm_async_progress_t :=
    modify_radio (fun r => with_reg 0x3 (fm_set_bit (get (regs r) 0x3) TUNE_BIT false) r);;
    fm_write_single_register 0x3;;
    fm_read_single_register 0xA;;
    modify_radio (fun r =>
      let channel := u16 (fm_get_bits (get (regs r) 0xA) READCHAN_BITS READCHAN_LSB) in
      with_frequency (fm_channel_to_frequency channel (frequency_range r)) r);;
    ret (mk_progress true result) in
  if cancel then finish (-1)
  else
    fm_read_single_register 0xA;;
    r <- get_radio;;
    if negb (fm_get_bit (get (regs r) 0xA) STC_BIT) then
      schedule TUNE_POLL_INTERVAL_MS;;
      ret (mk_progress false 0)
    else finish 0.

Definition fm_set_frequency_async (frequency : F32.float) : M unit :=
  r <- get_radio;;
  assert (fm_is_powered_up r);;
  assert (task_eqb (task (async r)) NULL);;
  let frequency := MAX_f frequency (bottom (frequency_range r)) in
  let frequency := MIN_f frequency (top (frequency_range r)) in
  let channel := fm_frequency_to_channel frequency (frequency_range r) in
  modify_radio (fun r => with_reg 0x3 (fm_set_bits (get (regs r) 0x3) CHAN_BITS CHAN_LSB channel) r);;
  modify_radio (fun r => with_reg 0x3 (fm_set_bit (get (regs r) 0x3) TUNE_BIT true) r);;
  fm_write_single_register 0x3;;
  modify_radio (fun r =>
    with_async (mk_async fm_set_frequency_async_task_ptr 1 (resume_time (async r))) r);;
  schedule TUNE_POLL_INTERVAL_MS.

Definition fm_seek_async_task (cancel : bool) : M fm_async_progress_t :=
  r <- get_radio;;
  assert (task_eqb (task (async r)) fm_seek_async_task_ptr);;
  assert (state (async r) =? 1);;
  let read_channel : M unit :=
    modify_radio (fun r =>
      let channel := u16 (fm_get_bits (get (regs r) 0xA) READCHAN_BITS READCHAN_LSB) in
      with_frequency (fm_channel_to_frequency channel (frequency_range r)) r) in
  let finish (result : Z) : M fm_async_progress_t :=
    modify_radio (fun r => with_reg 0x2 (fm_set_bit (get (regs r) 0x2) SEEK_BIT false) r);;
    fm_write_single_register 0x2;;
    fm_read_single_register 0xA;;
    read_channel;;
    ret (mk_progress true result) in
  if cancel then finish (-1)
  else
    fm_read_single_register 0xA;;
    r <- get_radio;;
    if negb (fm_get_bit (get (regs r) 0xA) STC_BIT) then
      read_channel;;
      schedule SEEK_POLL_INTERVAL_MS;;
      ret (mk_progress false 0)
    else finish (if fm_get_bit (get (regs r) 0xA) SF_BIT then -1 else 0).

Definition fm_seek_async (direction : fm_seek_direction_t) : M unit :=
  r <- get_radio;;
  assert (fm_is_powered_up r);;
  assert (task_eqb (task (async r)) NULL);;
  modify_radio (fun r => with_reg 0x2 (fm_set_bit (get (regs r) 0x2) SKMODE_BIT false) r);;
  modify_radio (fun r => with_reg 0x2 (fm_set_bit (get (regs r) 0x2) SEEKUP_BIT
                  match direction with FM_SEEK_UP => true | FM_SEEK_DOWN => false end) r);;
  modify_radio (fun r => with_reg 0x2 (fm_set_bit (get (regs r) 0x2) SEEK_BIT true) r);;
  fm_write_single_register 0x2;;
  modify_radio (fun r => with_async (mk_async fm_seek_async_task_ptr 1 (resume_time (async r))) r);;
  schedule SEEK_POLL_INTERVAL_MS.

(** [radio->async.task(radio, cancel)]: the call through the stored pointer.
    Every caller asserts the pointer is not NULL first. *)
Definition call_task (t : fm_async_task_t) (cancel : bool) : M fm_async_progress_t :=
  match t with
  | fm_set_frequency_async_task_ptr => fm_set_frequency_async_task cancel
  | fm_seek_async_task_ptr => fm_seek_async_task cancel
  | NULL => fun _ => Abort
  end.

Definition fm_async_task_tick : M fm_async_progress_t :=
  r <- get_radio;;
  assert (negb (task_eqb (task (async r)) NULL));;
  t <- now;;
  if t <? resume_time (async r) then ret (mk_progress false 0)
  else
    progress <- call_task (task (async r)) false;;
    (if done progress then modify_radio (with_async no_task) else ret tt);;
    ret progress.

Definition fm_async_task_cancel : M unit :=
  r <- get_radio;;
  assert (negb (task_eqb (task (async r)) NULL));;
  call_task (task (async r)) true;;
  modify_radio (with_async no_task).

(** The polling loop of the blocking calls:
    [do { sleep_ms(interval); progress = fm_async_task_tick(radio); } while (!progress.done);] *)
Fixpoint poll (interval_ms : Z) (fuel : nat) : M fm_async_progress_t :=
  match fuel with
  | O => fun _ => OutOfFuel
  | S fuel' =>
      sleep interval_ms;;
      progress <- fm_async_task_tick;;
      if done progress then ret progress else poll interval_ms fuel'
  end.

Definition fm_set_frequency_blocking (fuel : nat) (frequency : F32.float) : M unit :=
  r <- get_radio;;
  assert (fm_is_powered_up r);;
  assert (task_eqb (task (async r)) NULL);;
  if F32.eqb (Rda5807.frequency r) frequency then ret tt
  else
    fm_set_frequency_async frequency;;
    poll TUNE_POLL_INTERVAL_MS fuel;;
    ret tt.

Definition fm_seek_blocking (fuel : nat) (direction : fm_seek_direction_t) : M bool :=
  r <- get_radio;;
  assert (fm_is_powered_up r);;
  assert (task_eqb (task (async r)) NULL);;
  fm_seek_async direction;;
  progress <- poll SEEK_POLL_INTERVAL_MS fuel;;
  ret (result progress =? 0).

Definition fm_power_down : M unit :=
  r <- get_radio;;
  assert (fm_is_powered_up r);;
  (if negb (task_eqb (task (async r)) NULL) then fm_async_task_cancel else ret tt);;
  modify_radio (fun r => with_reg 0x2 (fm_set_bit (get (regs r) 0x2) ENABLE_BIT false) r);;
  fm_write_single_register 0x2;;
  ret tt.

Definition fm_set_seek_threshold (seek_threshold : Z) : M unit :=
  r <- get_radio;;
  assert (fm_is_powered_up r);;
  assert (task_eqb (task (async r)) NULL);;
  let seek_threshold := MIN_z seek_threshold FM_MAX_SEEK_THRESHOLD in
  if seek_threshold =? Rda5807.seek_threshold r then ret tt
  else
    modify_radio (fun r =>
      with_reg 0x5 (fm_set_bits (get (regs r) 0x5) SEEKTH_BITS SEEKTH_LSB seek_threshold) r);;
    fm_write_single_register 0x5;;
    modify_radio (with_seek_threshold seek_threshold).

Definition fm_set_mute (mute : bool) : M unit :=
  r <- get_radio;;
  assert (fm_is_powered_up r);;
  assert (task_eqb (task (async r)) NULL);;
  if Bool.eqb (Rda5807.mute r) mute then ret tt
  else
    modify_radio (fun r => with_reg 0x2 (fm_set_bit (get (regs r) 0x2) DMUTE_BIT (negb mute)) r);;
    fm_write_single_register 0x2;;
    modify_radio (with_mute mute).

Definition fm_set_softmute (softmute : bool) : M unit :=
  r <- get_radio;;
  assert (fm_is_powered_up r);;
  assert (task_eqb (task (async r)) NULL);;
  if Bool.eqb (Rda5807.softmute r) softmute then ret tt
  else
    modify_radio (fun r => with_reg 0x4 (fm_set_bit (get (regs r) 0x4) SOFTMUTE_EN_BIT softmute) r);;
    fm_write_registers_up_to 0x4;;
    modify_radio (with_softmute softmute).

Definition fm_set_bass_boost (bass_boost : bool) : M unit :=
  r <- get_radio;;
  assert (fm_is_powered_up r);;
  assert (task_eqb (task (async r)) NULL);;
  if Bool.eqb (Rda5807.bass_boost r) bass_boost then ret tt
  else
    modify_radio (fun r => with_reg 0x2 (fm_set_bit (get (regs r) 0x2) BASS_BIT bass_boost) r);;
    fm_write_single_register 0x2;;
    modify_radio (with_bass_boost bass_boost).

Definition fm_set_mono (mono : bool) : M unit :=
  r <- get_radio;;
  assert (fm_is_powered_up r);;
  assert (task_eqb (task (async r)) NULL);;
  if Bool.eqb (Rda5807.mono r) mono then ret tt
  else
    modify_radio (fun r => with_reg 0x2 (fm_set_bit (get (regs r) 0x2) MONO_BIT mono) r);;
    fm_write_single_register 0x2;;
    modify_radio (with_mono mono).

Definition fm_set_volume (volume : Z) : M unit :=
  r <- get_radio;;
  assert (fm_is_powered_up r);;
  assert (task_eqb (task (async r)) NULL);;
  let volume := MIN_z volume FM_MAX_VOLUME in
  if volume =? Rda5807.volume r then ret tt
  else
    modify_radio (fun r =>
      with_reg 0x5 (fm_set_bits (get (regs r) 0x5) VOLUME_BITS VOLUME_LSB volume) r);;
    fm_write_single_register 0x5;;
    modify_radio (with_volume volume).

End Driver.

Arguments world hw : clear implicits.
Arguments mk_world {hw} radio chip i2c_log.
Arguments outcome hw A : clear implicits.
Arguments Ret {hw A} x w.
Arguments Abort {hw A}.
Arguments OutOfFuel {hw A}.
Arguments M hw A : clear implicits.

(** *** Vocabulary of the statements about the driver *)

(** The array size and element type fixed by the C declaration of [regs]. *)
Definition radio_wf (r : rda5807_t) : Prop :=
  length (regs r) = 16%nat /\ Forall is_u16 (regs r).

(** The bus transfer [fm_write_single_register] issues for [reg_index]. *)
Definition write_single_event (r : rda5807_t) (reg_index : Z) : i2c_event :=
  if reg_index =? 0x2
  then I2cWrite RDA5807_ADDR_SEQUENTIAL (pack_registers (regs r) 0x2 1) false
  else
    let reg := get (regs r) reg_index in
    I2cWrite RDA5807_ADDR_RANDOM_ACCESS
      [u8 reg_index; u8 (Z.shiftr reg 8); u8 (Z.land reg 0xFF)] false.

(** The radio [fm_power_down] leaves behind when it starts from [r] with no
    task to cancel: bit ENABLE of [regs[2]] cleared. *)
Definition powered_down (r : rda5807_t) : rda5807_t :=
  with_reg 0x2 (fm_set_bit (get (regs r) 0x2) ENABLE_BIT false) r.

(** *** Sample platforms and states *)

(** A chip whose state is its clock in microseconds. On [dead_bus] every
    transfer fails with [PICO_ERROR_GENERIC]. *)
Definition dead_bus : Platform Z :=
  Build_Platform Z
    (fun chip _ _ _ => (-1, chip))
    (fun chip _ _ _ => (-1, [], chip))
    (fun chip => chip)
    (fun ms chip => chip + ms * 1000).

(** On [stub_chip] every transfer succeeds and every read returns the bytes
    of a status register 0xA = 0x400A (tune complete, channel 10) followed
    by zeros. *)
Definition stub_chip : Platform Z :=
  Build_Platform Z
    (fun chip _ bytes _ => (Z.of_nat (length bytes), chip))
    (fun chip _ len _ => (len, take (Z.to_nat len) ([0x40; 0x0A] ++ replicate 10 0), chip))
    (fun chip => chip)
    (fun ms chip => chip + ms * 1000).

(** A powered-up radio in the European configuration, tuned to 87.0 MHz,
    muted, volume 0, no task in flight. *)
Definition sample_radio : rda5807_t :=
  mk_radio 4 5 true
    (mk_config FM_BAND_COMMON FM_CHANNEL_SPACING_100 FM_DEEMPHASIS_50)
    (fm_frequency_range FM_BAND_COMMON FM_CHANNEL_SPACING_100)
    8 (F32.of_Z 87) 0 true true false false
    [0x5804; 0; 0x800D; 0; 0x0A00; 0x8880; 0; 0x42C6; 0; 0; 0x4000; 0; 0; 0; 0; 0]
    no_task.

Definition sample_world : world Z := mk_world sample_radio 1000 [].

(** The sample radio after [fm_set_frequency_async(radio, 88.0f)] on the
    stub chip: a tune task is in flight. *)
Definition tuning_world : world Z :=
  match @fm_set_frequency_async Z stub_chip (F32.of_Z 88) sample_world with
  | Ret _ w => w
  | _ => sample_world
  end.

(** *** The rest of the driver: power up, status and RDS reads *)

(** The updaters of the two fields [fm_power_up] assigns. *)
Definition with_config (v : fm_config_t) (r : rda5807_t) : rda5807_t :=
  mk_radio (sdio_pin r) (sclk_pin r) (enable_pull_ups r) v (frequency_range r)
    (seek_threshold r) (frequency r) (volume r) (mute r) (softmute r) (bass_boost r) (mono r)
    (regs r) (async r).
Definition with_frequency_range (v : fm_frequency_range_t) (r : rda5807_t) : rda5807_t :=
  mk_radio (sdio_pin r) (sclk_pin r) (enable_pull_ups r) (config r) v
    (seek_threshold r) (frequency r) (volume r) (mute r) (softmute r) (bass_boost r) (mono r)
    (regs r) (async r).

(** The regional presets of fm_rda5807.h. *)
Definition fm_config_usa : fm_config_t :=
  mk_config FM_BAND_COMMON FM_CHANNEL_SPACING_200 FM_DEEMPHASIS_75.
Definition fm_config_europe : fm_config_t :=
  mk_config FM_BAND_COMMON FM_CHANNEL_SPACING_100 FM_DEEMPHASIS_50.
Definition fm_config_japan : fm_config_t :=
  mk_config FM_BAND_JAPAN FM_CHANNEL_SPACING_100 FM_DEEMPHASIS_50.
Definition fm_config_japan_wide : fm_config_t :=
  mk_config FM_BAND_JAPAN_WIDE FM_CHANNEL_SPACING_100 FM_DEEMPHASIS_50.

Definition fm_set_channel_spacing_bits (regs : list Z) (channel_spacing : fm_channel_spacing_t)
    : list Z :=
  match channel_spacing with
  | FM_CHANNEL_SPACING_200 => set regs 0x3 (fm_set_bits (get regs 0x3) SPACE_BITS SPACE_LSB 1)
  | FM_CHANNEL_SPACING_100 => set regs 0x3 (fm_set_bits (get regs 0x3) SPACE_BITS SPACE_LSB 0)
  | FM_CHANNEL_SPACING_50 => set regs 0x3 (fm_set_bits (get regs 0x3) SPACE_BITS SPACE_LSB 2)
  | FM_CHANNEL_SPACING_25 => set regs 0x3 (fm_set_bits (get regs 0x3) SPACE_BITS SPACE_LSB 3)
  end.

Definition fm_set_band_bits (regs : list Z) (band : fm_band_t) : list Z :=
  match band with
  | FM_BAND_COMMON => set regs 0x3 (fm_set_bits (get regs 0x3) BAND_BITS BAND_LSB 0)
  | FM_BAND_JAPAN => set regs 0x3 (fm_set_bits (get regs 0x3) BAND_BITS BAND_LSB 1)
  | FM_BAND_JAPAN_WIDE => set regs 0x3 (fm_set_bits (get regs 0x3) BAND_BITS BAND_LSB 2)
  | FM_BAND_EAST_EUROPE =>
      let regs := set regs 0x3 (fm_set_bits (get regs 0x3) BAND_BITS BAND_LSB 3) in
      set regs 0x7 (fm_set_bit (get regs 0x7) BAND_65M_50M_MODE_BIT false)
  | FM_BAND_EAST_EUROPE_UPPER =>
      let regs := set regs 0x3 (fm_set_bits (get regs 0x3) BAND_BITS BAND_LSB 3) in
      set regs 0x7 (fm_set_bit (get regs 0x7) BAND_65M_50M_MODE_BIT true)
  end.

(** [fm_init]: the struct after the [memset] and the seven assignments. The
    zeroed fields are the enumerators of value 0, [+0.0f], register contents
    0 and a NULL task. *)
Definition fm_init (sdio_pin sclk_pin : Z) (enable_pull_ups : bool) : rda5807_t :=
  mk_radio sdio_pin sclk_pin enable_pull_ups
    (mk_config FM_BAND_COMMON FM_CHANNEL_SPACING_200 FM_DEEMPHASIS_75)
    (mk_range (S754_zero false) (S754_zero false) (S754_zero false))
    8 (S754_zero false) 0 true true false false
    (replicate 16 0) no_task.

(** The accessors that return a cached field. *)
Definition fm_get_config (r : rda5807_t) : fm_config_t := config r.
Definition fm_get_frequency_range (r : rda5807_t) : fm_frequency_range_t := frequency_range r.
Definition fm_get_frequency (r : rda5807_t) : F32.float := frequency r.
Definition fm_get_seek_threshold (r : rda5807_t) : Z := seek_threshold r.
Definition fm_get_mute (r : rda5807_t) : bool := mute r.
Definition fm_get_softmute (r : rda5807_t) : bool := softmute r.
Definition fm_get_bass_boost (r : rda5807_t) : bool := bass_boost r.
Definition fm_get_mono (r : rda5807_t) : bool := mono r.
Definition fm_get_volume (r : rda5807_t) : Z := volume r.

(** The "setup" block of [fm_power_up]: the control bits written into the
    mirror between the read-back of registers 3..8 and the sequential
    write. *)
Definition setup_registers (config : fm_config_t) (r : rda5807_t) : rda5807_t :=
  let regs := regs r in
  let regs := set regs 0x2 (fm_set_bit (get regs 0x2) NEW_METHOD_BIT true) in
  let regs := set regs 0x2 (fm_set_bit (get regs 0x2) RDS_EN_BIT true) in
  let regs := set regs 0x2 (fm_set_bit (get regs 0x2) BASS_BIT (bass_boost r)) in
  let regs := set regs 0x2 (fm_set_bit (get regs 0x2) MONO_BIT (mono r)) in
  let regs := set regs 0x2 (fm_set_bit (get regs 0x2) DMUTE_BIT (negb (mute r))) in
  let regs := set regs 0x2 (fm_set_bit (get regs 0x2) DHIZ_BIT true) in
  let regs := set regs 0x3 (fm_set_bits (get regs 0x3) CHAN_BITS CHAN_LSB 0) in
  let regs := set regs 0x4 (fm_set_bit (get regs 0x4) SOFTMUTE_EN_BIT (softmute r)) in
  let regs := set regs 0x4 (fm_set_bit (get regs 0x4) DE_BIT
                              match deemphasis config with
                              | FM_DEEMPHASIS_50 => true
                              | FM_DEEMPHASIS_75 => false
                              end) in
  let regs := set regs 0x5 (fm_set_bits (get regs 0x5) VOLUME_BITS VOLUME_LSB (volume r)) in
  let regs := fm_set_band_bits regs (band config) in
  let regs := fm_set_channel_spacing_bits regs (channel_spacing config) in
  with_regs regs r.

(** The GPIO calls of the SDK, used by [fm_power_up] to hand the two pads to
    the I2C block. They act on the platform state only. *)
Inductive gpio_function_t := GPIO_FUNC_I2C.

Class Gpio (hw : Type) := {
  gpio_set_function : Z -> gpio_function_t -> hw -> hw;
  gpio_pull_up : Z -> hw -> hw
}.

Section DriverRest.

Context {hw : Type} {platform : Platform hw} {gpio : Gpio hw}.

Notation "x <- m ;; k" := (bind m (fun x => k))
  (at level 100, m at next level, k at level 200, right associativity).
Notation "m ;; k" := (bind m (fun _ => k))
  (at level 100, k at level 200, right associativity).

(** A call that changes the platform state only. *)
Definition on_chip (f : hw -> hw) : M hw unit :=
  fun w => Ret tt (mk_world (radio w) (f (chip w)) (i2c_log w)).

(** [panic] of the SDK does not return: the program stops, as at a failed
    [assert]. *)
Definition panic {A : Type} : M hw A := fun _ => Abort.

Definition fm_power_up (fuel : nat) (config : fm_config_t) : M hw unit :=
  r <- get_radio;;
  assert (negb (fm_is_powered_up r));;
  modify_radio (with_config config);;
  modify_radio (with_frequency_range
                  (fm_frequency_range (band config) (channel_spacing config)));;
  (* configure GPIO *)
  on_chip (gpio_set_function (sdio_pin r) GPIO_FUNC_I2C);;
  on_chip (gpio_set_function (sclk_pin r) GPIO_FUNC_I2C);;
  (if enable_pull_ups r
   then on_chip (gpio_pull_up (sdio_pin r));; on_chip (gpio_pull_up (sclk_pin r))
   else ret tt);;
  modify_radio (with_regs (replicate 16 0));;
  ok <- fm_read_single_register 0x0;;
  (if negb ok then panic else ret tt);;
  r <- get_radio;;
  assert (get (regs r) 0 =? 0x5804);;
  (* reset *)
  modify_radio (with_reg 0x2 (u16 (Z.lor ENABLE_BIT SOFT_RESET_BIT)));;
  fm_write_single_register 0x2;;
  sleep 5;;
  (* clear reset bit *)
  modify_radio (with_reg 0x2 ENABLE_BIT);;
  fm_write_single_register 0x2;;
  sleep 5;;
  (* initialize control registers *)
  fm_read_single_register 0x3;;
  fm_read_single_register 0x4;;
  fm_read_single_register 0x5;;
  fm_read_single_register 0x6;;
  fm_read_single_register 0x7;;
  fm_read_single_register 0x8;;
  (* setup *)
  modify_radio (setup_registers config);;
  fm_write_registers_up_to 0x8;;
  r <- get_radio;;
  if negb (F32.eqb (frequency r) (S754_zero false)) then
    (* restore frequency if waking after power down *)
    let frequency := frequency r in
    modify_radio (with_frequency (S754_zero false));;
    fm_set_frequency_blocking fuel frequency
  else ret tt.

Definition fm_get_rssi : M hw Z :=
  r <- get_radio;;
  assert (fm_is_powered_up r);;
  fm_read_single_register 0xB;;
  r <- get_radio;;
  ret (u8 (fm_get_bits (get (regs r) 0xB) RSSI_BITS RSSI_LSB)).

Definition fm_get_stereo_indicator : M hw bool :=
  r <- get_radio;;
  assert (fm_is_powered_up r);;
  fm_read_single_register 0xA;;
  r <- get_radio;;
  ret (fm_get_bit (get (regs r) 0xA) ST_BIT).

(** [fm_read_rds_group]: the result and the caller's [blocks] array after
    the call. *)
Definition fm_read_rds_group (blocks : list Z) : M hw (bool * list Z) :=
  r <- get_radio;;
  assert (fm_is_powered_up r);;
  fm_read_registers_up_to 0xF;;
  r <- get_radio;;
  let rdsr := fm_get_bit (get (regs r) 0xA) RDSR_BIT in
  if negb rdsr then ret (false, blocks)
  else ret (true, memcpy blocks (drop 0xC (regs r)) 4).

End DriverRest.

(** *** More vocabulary of the statements about the driver *)

(** A call started in [w] returns, and its value and final state satisfy
    [Q]. *)
Definition returns {hw A : Type} (m : M hw A) (w : world hw)
    (Q : A -> world hw -> Prop) : Prop :=
  exists x w', m w = Ret x w' /\ Q x w'.

(** The cached settings agree with the control bits of the register mirror. *)
Definition mirror_in_sync (r : rda5807_t) : Prop :=
  fm_get_bit (get (regs r) 0x2) DMUTE_BIT = negb (mute r) /\
  fm_get_bit (get (regs r) 0x2) BASS_BIT = bass_boost r /\
  fm_get_bit (get (regs r) 0x2) MONO_BIT = mono r /\
  fm_get_bit (get (regs r) 0x4) SOFTMUTE_EN_BIT = softmute r /\
  fm_get_bits (get (regs r) 0x5) VOLUME_BITS VOLUME_LSB = volume r /\
  fm_get_bits (get (regs r) 0x5) SEEKTH_BITS SEEKTH_LSB = seek_threshold r.

(** A radio on which the setters may be called: well-formed, powered up, no
    task in flight, and with its mirror in sync. *)
Definition ready_in_sync (r : rda5807_t) : Prop :=
  radio_wf r /\ fm_is_powered_up r = true /\ task (async r) = NULL /\ mirror_in_sync r.

(** The frequency of the channel that the mirrored status register 0xA
    reports in its READCHAN field. *)
Definition reported_frequency (r : rda5807_t) : F32.float :=
  fm_channel_to_frequency
    (fm_get_bits (get (regs r) 0xA) READCHAN_BITS READCHAN_LSB) (frequency_range r).

(** The mirrors of [r] and [r'] agree in every register but those listed. *)
Definition regs_agree_except (skip : list Z) (r r' : rda5807_t) : Prop :=
  forall i, 0 <= i -> ~ In i skip -> get (regs r') i = get (regs r) i.

(** [r'] has the pins, the configuration, the range and the cached audio
    and seek settings of [r]. *)
Definition settings_kept (r r' : rda5807_t) : Prop :=
  sdio_pin r' = sdio_pin r /\ sclk_pin r' = sclk_pin r /\
  enable_pull_ups r' = enable_pull_ups r /\
  config r' = config r /\ frequency_range r' = frequency_range r /\
  seek_threshold r' = seek_threshold r /\ volume r' = volume r /\
  mute r' = mute r /\ softmute r' = softmute r /\
  bass_boost r' = bass_boost r /\ mono r' = mono r.

(** The 16-bit word made of two bytes read from the bus, high byte first. *)
Definition word_of_bytes (hi lo : Z) : Z := u16 (Z.lor (Z.shiftl hi 8) lo).

(** What the chip answers when register [reg_index] is read by random
    access in platform state [h]: the word, or [None] when one of the two
    transfers does not move all its bytes. *)
Definition register_answer {hw : Type} {platform : Platform hw} (reg_index : Z) (h : hw)
    : option Z :=
  let '(n, h1) := i2c_write_blocking h RDA5807_ADDR_RANDOM_ACCESS [u8 reg_index] true in
  if negb (n =? 1) then None
  else
    let '(n, buf, _) := i2c_read_blocking h1 RDA5807_ADDR_RANDOM_ACCESS 2 false in
    if negb (n =? 2) then None else Some (word_of_bytes (get buf 0) (get buf 1)).

(** What the chip answers when the status register 0xA is read
    sequentially in platform state [h]: the word, or [None] when the
    transfer does not move its two bytes. *)
Definition status_answer {hw : Type} {platform : Platform hw} (h : hw) : option Z :=
  let '(n, buf, _) := i2c_read_blocking h RDA5807_ADDR_SEQUENTIAL 2 false in
  if negb (n =? 2) then None
  else Some (u16 (Z.lor (u16 (Z.shiftl (get buf 0) 8)) (get buf 1))).

(** The status word the mirror of [r] holds after a poll in platform state
    [h]: the answer of the chip, or the old word when the read fails. *)
Definition polled_status {hw : Type} {platform : Platform hw} (r : rda5807_t) (h : hw) : Z :=
  default (get (regs r) 0xA) (status_answer h).

(** The platform state in which [fm_power_up] issues its first bus
    transfer: the two pads handed to the I2C block, pulled up on request. *)
Definition pads_configured {hw : Type} {gpio : Gpio hw} (r : rda5807_t) (h : hw) : hw :=
  let h := gpio_set_function (sdio_pin r) GPIO_FUNC_I2C h in
  let h := gpio_set_function (sclk_pin r) GPIO_FUNC_I2C h in
  if enable_pull_ups r then gpio_pull_up (sclk_pin r) (gpio_pull_up (sdio_pin r) h) else h.

(** The code of a band in the BAND field, and of a spacing in the SPACE
    field, as the datasheet numbers them. *)
Definition band_code (band : fm_band_t) : Z :=
  match band with
  | FM_BAND_COMMON => 0
  | FM_BAND_JAPAN => 1
  | FM_BAND_JAPAN_WIDE => 2
  | FM_BAND_EAST_EUROPE | FM_BAND_EAST_EUROPE_UPPER => 3
  end.
Definition spacing_code (channel_spacing : fm_channel_spacing_t) : Z :=
  match channel_spacing with
  | FM_CHANNEL_SPACING_100 => 0
  | FM_CHANNEL_SPACING_200 => 1
  | FM_CHANNEL_SPACING_50 => 2
  | FM_CHANNEL_SPACING_25 => 3
  end.

(** The result and the platform state after the bus transfer [e] is
    issued in platform state [h]. *)
Definition bus_transfer {hw : Type} {platform : Platform hw} (h : hw) (e : i2c_event)
    : Z * hw :=
  match e with
  | I2cWrite addr bytes nostop => i2c_write_blocking h addr bytes nostop
  | I2cRead addr len nostop =>
      let '(res, _, h') := i2c_read_blocking h addr len nostop in (res, h')
  end.

(** The control register and the flag that start the operation of a task:
    TUNE in register 3 for a tune, SEEK in register 2 for a seek. *)
Definition control_register (t : fm_async_task_t) : Z :=
  match t with fm_seek_async_task_ptr => 0x2 | _ => 0x3 end.
Definition start_flag (t : fm_async_task_t) : Z :=
  match t with fm_seek_async_task_ptr => SEEK_BIT | _ => TUNE_BIT end.

(** What [fm_power_up] establishes from the radio [r] it is given, before
    it restores a frequency: [r'] is powered up with the new configuration
    and its range, every cached setting of [r] is still cached, and the
    control bits of the mirror carry the cached audio settings, the band,
    the spacing and the de-emphasis, with channel 0 and RDS enabled. *)
Definition configured_for (config : fm_config_t) (r r' : rda5807_t) : Prop :=
  radio_wf r' /\
  fm_is_powered_up r' = true /\
  fm_get_config r' = config /\
  fm_get_frequency_range r' = fm_frequency_range (band config) (channel_spacing config) /\
  sdio_pin r' = sdio_pin r /\ sclk_pin r' = sclk_pin r /\
  enable_pull_ups r' = enable_pull_ups r /\
  seek_threshold r' = seek_threshold r /\ volume r' = volume r /\
  mute r' = mute r /\ softmute r' = softmute r /\
  bass_boost r' = bass_boost r /\ mono r' = mono r /\
  frequency r' = frequency r /\ async r' = async r /\
  get (regs r') 0x0 = 0x5804 /\
  (let reg2 := get (regs r') 0x2 in
   fm_get_bit reg2 SOFT_RESET_BIT = false /\ fm_get_bit reg2 NEW_METHOD_BIT = true /\
   fm_get_bit reg2 RDS_EN_BIT = true /\ fm_get_bit reg2 DHIZ_BIT = true /\
   fm_get_bit reg2 SEEK_BIT = false /\
   fm_get_bit reg2 BASS_BIT = bass_boost r /\ fm_get_bit reg2 MONO_BIT = mono r /\
   fm_get_bit reg2 DMUTE_BIT = negb (mute r)) /\
  (let reg3 := get (regs r') 0x3 in
   fm_get_bits reg3 CHAN_BITS CHAN_LSB = 0 /\
   fm_get_bits reg3 BAND_BITS BAND_LSB = band_code (band config) /\
   fm_get_bits reg3 SPACE_BITS SPACE_LSB = spacing_code (channel_spacing config)) /\
  (let reg4 := get (regs r') 0x4 in
   fm_get_bit reg4 SOFTMUTE_EN_BIT = softmute r /\
   fm_get_bit reg4 DE_BIT =
     match deemphasis config with FM_DEEMPHASIS_50 => true | FM_DEEMPHASIS_75 => false end) /\
  fm_get_bits (get (regs r') 0x5) VOLUME_BITS VOLUME_LSB = volume r /\
  match band config with
  | FM_BAND_EAST_EUROPE => fm_get_bit (get (regs r') 0x7) BAND_65M_50M_MODE_BIT = false
  | FM_BAND_EAST_EUROPE_UPPER => fm_get_bit (get (regs r') 0x7) BAND_65M_50M_MODE_BIT = true
  | _ => True
  end.

(** *** More sample platforms *)

(** The sample platforms do nothing on GPIO calls. *)
Definition no_gpio : Gpio Z := Build_Gpio Z (fun _ _ chip => chip) (fun _ chip => chip).

(** On [id_chip] every transfer succeeds and every read returns the bytes
    of the chip identification 0x5804 followed by zeros. *)
Definition id_chip : Platform Z :=
  Build_Platform Z
    (fun chip _ bytes _ => (Z.of_nat (length bytes), chip))
    (fun chip _ len _ => (len, take (Z.to_nat len) ([0x58; 0x04] ++ replicate 10 0), chip))
    (fun chip => chip)
    (fun ms chip => chip + ms * 1000).

(** On [wrapping_chip] the clock is the 64-bit counter of the SDK: the
    state counts microseconds and [time_us_64] is the count modulo 2^64.
    Every transfer succeeds and every read returns a status register
    0xA = 0x400A (tune or seek complete, no failure, channel 10) followed by
    zeros. *)
Definition wrapping_chip : Platform Z :=
  Build_Platform Z
    (fun chip _ bytes _ => (Z.of_nat (length bytes), chip))
    (fun chip _ len _ => (len, take (Z.to_nat len) ([0x40; 0x0A] ++ replicate 10 0), chip))
    (fun chip => u64 chip)
    (fun ms chip => chip + ms * 1000).

(** On [dead_chip] the state is a clock in microseconds that cannot be
    negative, on a bus where every transfer fails. *)
Definition dead_chip : Platform N :=
  Build_Platform N
    (fun chip _ _ _ => (-1, chip))
    (fun chip _ _ _ => (-1, [], chip))
    (fun chip => Z.of_N chip)
    (fun ms chip => (chip + Z.to_N (ms * 1000))%N).

(** The sample radio on those platforms, with a status mirror that does not
    show a completed operation. *)
Definition quiet_radio : rda5807_t := with_reg 0xA 0 sample_radio.
Definition quiet_world : world N := mk_world quiet_radio 1000%N [].

(** The same radio one millisecond before the 64-bit clock wraps, and the
    states in which the start of a tune to 88.0 MHz and of a seek upwards
    leave it on [wrapping_chip]. *)
Definition late_world : world Z := mk_world quiet_radio (2 ^ 64 - 1000) [].
Definition late_tuning_world : world Z :=
  match @fm_set_frequency_async Z wrapping_chip (F32.of_Z 88) late_world with
  | Ret _ w => w
  | _ => late_world
  end.
Definition late_seeking_world : world Z :=
  match @fm_seek_async Z wrapping_chip FM_SEEK_UP late_world with
  | Ret _ w => w
  | _ => late_world
  end.

(** The tune in flight of [tuning_world], and a seek upwards started on the
    sample radio, each at a clock reading past the time of its next poll. *)
Definition due_tuning_world : world Z :=
  mk_world (radio tuning_world) 10000 (i2c_log tuning_world).
Definition due_seeking_world : world Z :=
  match @fm_seek_async Z stub_chip FM_SEEK_UP sample_world with
  | Ret _ w => mk_world (radio w) 1000000 (i2c_log w)
  | _ => sample_world
  end.





(** A radio that was never powered up. *)
Definition fresh_world : world Z := mk_world (fm_init 4 5 true) 1000 [].

End Rda5807.

(** * Properties of the RDS parser *)

Module RdsParserProps.

Import RdsParser.

Lemma add_alt_freq_frame p v :
  let q := rds_add_alt_freq p v in
  ta q = ta p /\ ms q = ms p /\ ps_str q = ps_str p /\ ps_scratch_str q = ps_scratch_str p /\
  rt_str q = rt_str p /\ rt_scratch_str q = rt_scratch_str p.
Proof.
  unfold rds_add_alt_freq.
  destruct ((v =? 0) || (205 <=? v)); [tauto|].
  destruct (alt_freq_count p =? 25); [tauto|].
  destruct (alt_freq_dup _ _ _ _); cbn; tauto.
Qed.

Lemma basic_alt_freq_frame p g :
  let q := rds_parse_group_basic_alt_freq p g in
  ta q = ta p /\ ms q = ms p /\ ps_str q = ps_str p /\ ps_scratch_str q = ps_scratch_str p /\
  rt_str q = rt_str p /\ rt_scratch_str q = rt_scratch_str p.
Proof.
  unfold rds_parse_group_basic_alt_freq.
  destruct (negb _); [tauto|]. cbn zeta.
  pose proof (add_alt_freq_frame p (u8 (Z.shiftr (c g) 8))) as H1.
  pose proof (add_alt_freq_frame (rds_add_alt_freq p (u8 (Z.shiftr (c g) 8)))
                (u8 (Z.land (c g) 255))) as H2.
  cbn zeta in H1, H2.
  intuition congruence.
Qed.

Lemma basic_di_frame p g :
  let q := rds_parse_group_basic_di p g in
  ta q = ta p /\ ms q = ms p /\ ps_str q = ps_str p /\ ps_scratch_str q = ps_scratch_str p /\
  rt_str q = rt_str p /\ rt_scratch_str q = rt_scratch_str p /\
  alt_freq q = alt_freq p /\ alt_freq_count q = alt_freq_count p.
Proof. cbn. tauto. Qed.

Lemma basic_ps_frame p g :
  let q := rds_parse_group_basic_ps p g in
  ta q = ta p /\ ms q = ms p /\
  rt_str q = rt_str p /\ rt_scratch_str q = rt_scratch_str p /\
  alt_freq q = alt_freq p /\ alt_freq_count q = alt_freq_count p.
Proof. cbn. tauto. Qed.

Lemma basic_ps_scratch p g :
  ps_scratch_str (rds_parse_group_basic_ps p g) =
    set (set (ps_scratch_str p) (2 * ps_address g) (hi_char (d g)))
      (2 * ps_address g + 1) (lo_char (d g)).
Proof. reflexivity. Qed.

Lemma basic_ps_str p g :
  ps_str (rds_parse_group_basic_ps p g) =
    if ps_address g =? 3
    then memcpy (ps_str p) (ps_scratch_str (rds_parse_group_basic_ps p g)) 8
    else ps_str p.
Proof. reflexivity. Qed.

Lemma group_rt_frame p g :
  let q := rds_parse_group_rt p g in
  ta q = ta p /\ ms q = ms p /\ ps_str q = ps_str p /\ ps_scratch_str q = ps_scratch_str p /\
  alt_freq q = alt_freq p /\ alt_freq_count q = alt_freq_count p.
Proof.
  unfold rds_parse_group_rt. destruct (rt_consume _ _ _) as [scratch finished]. cbn. tauto.
Qed.

Lemma update_unfold p g :
  rds_parser_update p g =
    if rds_get_group_type g =? RDS_GROUP_BASIC then rds_parse_group_basic (update_header p g) g
    else if rds_get_group_type g =? RDS_GROUP_RT then rds_parse_group_rt (update_header p g) g
    else update_header p g.
Proof. reflexivity. Qed.

Lemma update_basic p g :
  is_basic g -> rds_parser_update p g = rds_parse_group_basic (update_header p g) g.
Proof. intros H. rewrite update_unfold, H. reflexivity. Qed.

Lemma update_rt p g :
  is_rt g -> rds_parser_update p g = rds_parse_group_rt (update_header p g) g.
Proof. intros H. rewrite update_unfold, H. reflexivity. Qed.

Lemma group_basic_frame p g :
  let q := rds_parse_group_basic p g in
  ta q = ta p /\ ms q = ms p /\
  rt_str q = rt_str p /\ rt_scratch_str q = rt_scratch_str p /\
  ps_str q = ps_str (rds_parse_group_basic_ps p g) /\
  ps_scratch_str q = ps_scratch_str (rds_parse_group_basic_ps p g).
Proof.
  unfold rds_parse_group_basic. cbn zeta.
  pose proof (basic_alt_freq_frame
    (rds_parse_group_basic_di (rds_parse_group_basic_ps p g) g) g) as H1.
  pose proof (basic_di_frame (rds_parse_group_basic_ps p g) g) as H2.
  pose proof (basic_ps_frame p g) as H3.
  cbn zeta in H1, H2, H3. intuition congruence.
Qed.

Lemma update_ta_ms p g :
  ta (rds_parser_update p g) = ta p /\ ms (rds_parser_update p g) = ms p.
Proof.
  rewrite update_unfold.
  pose proof (group_basic_frame (update_header p g) g) as H1.
  pose proof (group_rt_frame (update_header p g) g) as H2.
  cbn zeta in H1, H2.
  repeat case_match; [| |split; reflexivity]; intuition congruence.
Qed.

Lemma update_ps_scratch p g :
  is_basic g ->
  ps_scratch_str (rds_parser_update p g) =
    set (set (ps_scratch_str p) (2 * ps_address g) (hi_char (d g)))
      (2 * ps_address g + 1) (lo_char (d g)).
Proof.
  intros Hb. rewrite update_basic by assumption.
  pose proof (group_basic_frame (update_header p g) g) as H. cbn zeta in H.
  destruct H as (_ & _ & _ & _ & _ & ->). reflexivity.
Qed.

Lemma update_ps_str p g :
  is_basic g ->
  ps_str (rds_parser_update p g) =
    if ps_address g =? 3
    then memcpy (ps_str p) (ps_scratch_str (rds_parser_update p g)) 8
    else ps_str p.
Proof.
  intros Hb. rewrite update_ps_scratch by assumption.
  rewrite update_basic by assumption.
  pose proof (group_basic_frame (update_header p g) g) as H. cbn zeta in H.
  destruct H as (_ & _ & _ & _ & -> & _). reflexivity.
Qed.

Lemma length_9_inv (l : list Z) :
  length l = 9%nat -> exists x0 x1 x2 x3 x4 x5 x6 x7 x8, l = [x0;x1;x2;x3;x4;x5;x6;x7;x8].
Proof.
  intros H. do 9 (destruct l as [|? l]; [discriminate|]).
  destruct l; [|discriminate]. repeat eexists.
Qed.

Lemma feed_ps_str_unchanged p gs :
  Forall (fun g => is_basic g /\ In (ps_address g) [0; 1; 2]) gs ->
  ps_str (rds_parser_feed p gs) = ps_str p.
Proof.
  unfold rds_parser_feed. intros H. revert p.
  induction H as [|g gs [Hb Ha] _ IH]; intros p; simpl; [reflexivity|].
  rewrite IH, update_ps_str by assumption.
  simpl in Ha. destruct Ha as [<-|[<-|[<-|[]]]]; reflexivity.
Qed.

Lemma c_str_no_nul (l rest : list Z) :
  Forall (fun ch => ch <> 0) l -> c_str (l ++ 0 :: rest) = l.
Proof.
  induction 1 as [|ch l Hch _ IH]; simpl; [reflexivity|].
  destruct (Z.eqb_spec ch 0); [contradiction|]. now rewrite IH.
Qed.

(** Claim C3. Station-name atomicity. Starting from any parser state [p]:
    feeding any sequence [gs] of basic groups whose fragment addresses are 0,
    1 or 2 leaves the public station-name buffer [ps_str] (hence the string a
    reader gets) unchanged; feeding the four fragments with addresses 0, 1,
    2, 3 in order makes the eight public characters the concatenation of the
    four character pairs. When the buffer is NUL-terminated (byte 8, which no
    code writes after a reset) and the name holds no NUL, the accessor's C
    string is exactly that name. *)
Theorem ps_commit_atomic
    (p : rds_parser_t) (gs : list rds_group_t) (g0 g1 g2 g3 : rds_group_t)
    (Hgs : Forall (fun g => is_basic g /\ In (ps_address g) [0; 1; 2]) gs)
    (Hwf : parser_wf p)
    (Hb0 : is_basic g0) (Hb1 : is_basic g1) (Hb2 : is_basic g2) (Hb3 : is_basic g3)
    (Ha0 : ps_address g0 = 0) (Ha1 : ps_address g1 = 1)
    (Ha2 : ps_address g2 = 2) (Ha3 : ps_address g3 = 3) :
  let name := [hi_char (d g0); lo_char (d g0); hi_char (d g1); lo_char (d g1);
               hi_char (d g2); lo_char (d g2); hi_char (d g3); lo_char (d g3)] in
  ps_str (rds_parser_feed p gs) = ps_str p /\
  rds_get_program_service_name_str (rds_parser_feed p gs) =
    rds_get_program_service_name_str p /\
  ps_chars (rds_parser_feed p [g0; g1; g2; g3]) = name /\
  (get (ps_str p) 8 = 0 -> Forall (fun ch => ch <> 0) name ->
   rds_get_program_service_name_str (rds_parser_feed p [g0; g1; g2; g3]) = name).
Proof.
  intros name.
  assert (Hsame : ps_str (rds_parser_feed p gs) = ps_str p)
    by (apply feed_ps_str_unchanged; assumption).
  split; [exact Hsame|]. split.
  { unfold rds_get_program_service_name_str. now rewrite Hsame. }
  assert (Hps : ps_str (rds_parser_feed p [g0; g1; g2; g3]) = name ++ drop 8 (ps_str p)).
  { unfold rds_parser_feed. cbn [fold_left].
    rewrite (update_ps_str _ g3), Ha3 by assumption. cbn [Z.eqb Pos.eqb].
    rewrite (update_ps_scratch _ g3), (update_ps_scratch _ g2),
      (update_ps_scratch _ g1), (update_ps_scratch _ g0) by assumption.
    rewrite (update_ps_str _ g2), Ha2 by assumption. cbn [Z.eqb Pos.eqb].
    rewrite (update_ps_str _ g1), Ha1 by assumption. cbn [Z.eqb Pos.eqb].
    rewrite (update_ps_str _ g0), Ha0 by assumption. cbn [Z.eqb Pos.eqb].
    rewrite Ha3.
    destruct Hwf as (_ & Hlen & _).
    destruct (length_9_inv _ Hlen) as (x0 & x1 & x2 & x3 & x4 & x5 & x6 & x7 & x8 & ->).
    reflexivity. }
  split.
  - unfold ps_chars. rewrite Hps. reflexivity.
  - intros Hterm Hnz. unfold rds_get_program_service_name_str. rewrite Hps.
    destruct Hwf as (Hlen & _).
    destruct (length_9_inv _ Hlen) as (x0 & x1 & x2 & x3 & x4 & x5 & x6 & x7 & x8 & Hp).
    rewrite Hp in *. change (x8 = 0) in Hterm. rewrite Hterm. cbn [drop].
    apply c_str_no_nul. exact Hnz.
Qed.

(** Claim C10. The commit is triggered by fragment address 3 alone. From any
    parser state, one basic group with address 3 copies the whole scratch
    buffer to the public station name: the public characters are the six
    characters the scratch buffer already held at positions 0-5, whatever
    they are, followed by the group's two characters. Right after a reset the
    six are zeros. *)
Theorem ps_commit_on_address_3
    (p : rds_parser_t) (g : rds_group_t)
    (Hwf : parser_wf p) (Hb : is_basic g) (Ha : ps_address g = 3) :
  ps_chars (rds_parser_update p g) =
    take 6 (ps_scratch_str p) ++ [hi_char (d g); lo_char (d g)] /\
  ps_chars (rds_parser_update p g) = take 8 (ps_scratch_str (rds_parser_update p g)) /\
  ps_chars (rds_parser_update rds_parser_reset g) =
    [0; 0; 0; 0; 0; 0; hi_char (d g); lo_char (d g)].
Proof.
  unfold ps_chars.
  rewrite !update_ps_str, !update_ps_scratch, Ha by assumption. cbn [Z.eqb Pos.eqb].
  destruct Hwf as (Hlen1 & Hlen & _).
  destruct (length_9_inv _ Hlen) as (x0 & x1 & x2 & x3 & x4 & x5 & x6 & x7 & x8 & ->).
  repeat split; reflexivity.
Qed.

(** Claim C9. No update writes the traffic-announcement and music/speech
    flags: [rds_parser_update] preserves [ta] and [ms], so after a reset
    [rds_has_traffic_announcement] and [rds_has_music] return false whatever
    groups are fed. *)
Theorem ta_ms_never_written (p : rds_parser_t) (gs : list rds_group_t) :
  ta (rds_parser_feed p gs) = ta p /\
  ms (rds_parser_feed p gs) = ms p /\
  rds_has_traffic_announcement (rds_parser_feed rds_parser_reset gs) = false /\
  rds_has_music (rds_parser_feed rds_parser_reset gs) = false.
Proof.
  assert (H : forall q, ta (rds_parser_feed q gs) = ta q /\ ms (rds_parser_feed q gs) = ms q).
  { unfold rds_parser_feed. induction gs as [|g gs IH]; intros q; simpl; [tauto|].
    destruct (IH (rds_parser_update q g)) as [-> ->]. apply update_ta_ms. }
  unfold rds_has_traffic_announcement, rds_has_music.
  destruct (H p) as [-> ->]. destruct (H rds_parser_reset) as [-> ->].
  repeat split; reflexivity.
Qed.

Lemma alt_freq_dup_spec (arr : list Z) (v : Z) (n : nat) :
  forall i : nat,
    (i + n <= length arr)%nat ->
    alt_freq_dup arr v (Z.of_nat i) n = true <-> In v (take n (drop i arr)).
Proof.
  induction n as [|n IH]; intros i Hlen; simpl.
  - split; [discriminate|tauto].
  - destruct (drop i arr) as [|x rest] eqn:Hd.
    { apply (f_equal length) in Hd. rewrite length_drop in Hd. simpl in Hd. lia. }
    assert (Hx : get arr (Z.of_nat i) = x).
    { unfold get. rewrite Nat2Z.id.
      assert (Hl : arr !! i = Some x).
      { pose proof (lookup_drop arr i 0) as E. rewrite Nat.add_0_r in E.
        rewrite <- E, Hd. reflexivity. }
      now rewrite Hl. }
    assert (Hrest : drop (S i) arr = rest).
    { replace (S i) with (i + 1)%nat by lia. rewrite <- drop_drop, Hd. reflexivity. }
    rewrite Hx. simpl.
    destruct (Z.eqb_spec x v) as [->|Hne].
    + split; auto.
    + replace (Z.of_nat i + 1) with (Z.of_nat (S i)) by lia.
      rewrite IH by lia. rewrite Hrest. split; [auto|]. intros [?|?]; [contradiction|assumption].
Qed.

Lemma take_S_insert (l : list Z) (n : nat) (v : Z) :
  (n < length l)%nat -> take (S n) (<[n := v]> l) = take n l ++ [v].
Proof.
  revert n. induction l as [|x l IH]; intros n Hn; simpl in Hn; [lia|].
  destruct n as [|n]; simpl.
  - now rewrite take_0.
  - rewrite IH by lia. reflexivity.
Qed.

Lemma add_alt_freq_ok p v :
  parser_wf p -> 0 <= alt_freq_count p <= 25 -> alt_freq_ok p v ->
  alt_freq_list (rds_add_alt_freq p v) = alt_freq_list p ++ [v] /\
  alt_freq_count (rds_add_alt_freq p v) = alt_freq_count p + 1.
Proof.
  intros (_ & _ & _ & _ & Hlen) Hc (Hv & Hcap & Hnew).
  unfold alt_freq_list in *. unfold rds_add_alt_freq.
  destruct (Z.eqb_spec v 0); [lia|]. destruct (Z.leb_spec 205 v); [lia|]. cbn [orb].
  destruct (Z.eqb_spec (alt_freq_count p) 25); [lia|].
  destruct (alt_freq_dup _ _ _ _) eqn:Hdup.
  { exfalso. apply Hnew. apply (alt_freq_dup_spec _ _ _ 0%nat) in Hdup; [|lia].
    now rewrite drop_0 in Hdup. }
  cbn [alt_freq alt_freq_count]. unfold u8. rewrite Z.mod_small by lia. split; [|reflexivity].
  unfold set.
  replace (Z.to_nat (alt_freq_count p + 1)) with (S (Z.to_nat (alt_freq_count p))) by lia.
  apply take_S_insert. lia.
Qed.

Lemma add_alt_freq_drop p v :
  parser_wf p -> 0 <= alt_freq_count p <= 25 -> is_u8 v -> ~ alt_freq_ok p v ->
  rds_add_alt_freq p v = p.
Proof.
  intros (_ & _ & _ & _ & Hlen) Hc Hu Hno. unfold rds_add_alt_freq.
  destruct (Z.eqb_spec v 0); [reflexivity|]. destruct (Z.leb_spec 205 v); [reflexivity|].
  cbn [orb].
  destruct (Z.eqb_spec (alt_freq_count p) 25); [reflexivity|].
  destruct (alt_freq_dup _ _ _ _) eqn:Hdup; [reflexivity|].
  exfalso. apply Hno. unfold alt_freq_ok, alt_freq_list. unfold is_u8 in Hu.
  repeat split; try lia.
  intros Hin. rewrite <- (drop_0 (alt_freq p)) in Hin.
  apply (alt_freq_dup_spec _ _ _ 0%nat) in Hin; [|lia].
  change (Z.of_nat 0) with 0 in Hin. congruence.
Qed.

Lemma alt_freq_ok_dec p v : alt_freq_ok p v \/ ~ alt_freq_ok p v.
Proof.
  unfold alt_freq_ok.
  destruct (in_dec Z.eq_dec v (alt_freq_list p)); [right; tauto|].
  destruct (Z_lt_dec 0 v); [|right; lia].
  destruct (Z_lt_dec v 205); [|right; lia].
  destruct (Z_lt_dec (alt_freq_count p) 25); [left; tauto|right; lia].
Qed.

(** Claim C4. A candidate byte [v] is appended to the alternate-frequency
    list exactly when [0 < v < 205], the list holds fewer than 25 entries and
    [v] is not in it; otherwise the parser state is unchanged. Feeding 0, 205,
    100, 100, 101 into a reset parser, directly or packed in the C blocks of
    three 0A groups, yields the list [100; 101]. The hypotheses say that [p]
    is a well-formed C value: arrays of the declared sizes, a count that stays
    within the array (an invariant of every state reached from a reset, see
    [reachable_alt_freq_count]), and a [uint8_t] candidate. *)
Theorem alt_freq_append_iff
    (p : rds_parser_t) (v : Z)
    (Hwf : parser_wf p) (Hcnt : 0 <= alt_freq_count p <= 25) (Hv : is_u8 v) :
  (alt_freq_ok p v -> alt_freq_list (rds_add_alt_freq p v) = alt_freq_list p ++ [v]) /\
  (~ alt_freq_ok p v -> rds_add_alt_freq p v = p) /\
  (alt_freq_list (rds_add_alt_freq p v) = alt_freq_list p ++ [v] <-> alt_freq_ok p v) /\
  alt_freq_list (fold_left rds_add_alt_freq [0; 205; 100; 100; 101] rds_parser_reset)
    = [100; 101] /\
  alt_freq_list
    (rds_parser_feed rds_parser_reset [af_group 0 205; af_group 100 100; af_group 101 0])
    = [100; 101].
Proof.
  split; [intros Hok; now apply add_alt_freq_ok|].
  split; [intros Hno; now apply add_alt_freq_drop|].
  split; [|split; vm_compute; reflexivity].
  split; [|intros Hok; now apply add_alt_freq_ok].
  intros Heq. destruct (alt_freq_ok_dec p v) as [Hok|Hno]; [exact Hok|].
  rewrite add_alt_freq_drop in Heq by assumption.
  apply (f_equal length) in Heq. rewrite length_app in Heq. simpl in Heq. lia.
Qed.

Lemma write_at_length buf i chars : length (write_at buf i chars) = length buf.
Proof.
  revert buf i. induction chars as [|ch rest IH]; intros buf i; simpl; [reflexivity|].
  rewrite IH. unfold set. apply length_insert.
Qed.

Lemma write_at_app buf i l1 l2 :
  write_at buf i (l1 ++ l2) = write_at (write_at buf i l1) (i + Z.of_nat (length l1)) l2.
Proof.
  revert buf i. induction l1 as [|ch l1 IH]; intros buf i; simpl.
  - now rewrite Z.add_0_r.
  - rewrite IH. f_equal. lia.
Qed.

Lemma write_at_spec chars : forall buf (n : nat),
  (n + length chars <= length buf)%nat ->
  write_at buf (Z.of_nat n) chars = take n buf ++ chars ++ drop (n + length chars) buf.
Proof.
  induction chars as [|ch rest IH]; intros buf n Hlen; simpl in *.
  - rewrite Nat.add_0_r. now rewrite take_drop.
  - replace (Z.of_nat n + 1) with (Z.of_nat (S n)) by lia.
    unfold set. rewrite Nat2Z.id.
    rewrite IH by (rewrite length_insert; lia).
    rewrite take_S_insert by lia.
    rewrite drop_insert_lt by lia.
    rewrite <- app_assoc. simpl.
    replace (S (n + length rest))%nat with (n + S (length rest))%nat by lia. reflexivity.
Qed.

Lemma rt_consume_plain chars : forall scratch idx,
  ~ In 13 chars -> idx + Z.of_nat (length chars) < 64 ->
  rt_consume chars scratch idx = (write_at scratch idx chars, false).
Proof.
  induction chars as [|ch rest IH]; intros scratch idx Hno Hlt; simpl in *; [reflexivity|].
  destruct (Z.eqb_spec ch 13) as [->|_]; [tauto|].
  destruct (Z.eqb_spec (idx + 1) 64); [lia|].
  apply IH; [tauto|lia].
Qed.

Lemma rt_consume_cr pre post : forall scratch idx,
  ~ In 13 pre -> idx + Z.of_nat (length pre) < 64 ->
  rt_consume (pre ++ 13 :: post) scratch idx =
    (set (write_at scratch idx pre) (idx + Z.of_nat (length pre)) 0, true).
Proof.
  induction pre as [|ch rest IH]; intros scratch idx Hno Hlt.
  - simpl. now rewrite Z.add_0_r.
  - cbn [length] in Hlt. rewrite Nat2Z.inj_succ in Hlt.
    cbn [app rt_consume write_at length]. rewrite Nat2Z.inj_succ.
    destruct (Z.eqb_spec ch 13) as [->|_]; [exfalso; apply Hno; now left|].
    destruct (Z.eqb_spec (idx + 1) 64); [lia|].
    rewrite IH; [|intros Hin; apply Hno; now right|lia].
    replace (idx + 1 + Z.of_nat (length rest)) with (idx + Z.succ (Z.of_nat (length rest))) by lia.
    reflexivity.
Qed.

Lemma rt_consume_full pre post : forall scratch idx,
  ~ In 13 pre -> pre <> [] -> idx + Z.of_nat (length pre) = 64 ->
  rt_consume (pre ++ post) scratch idx = (write_at scratch idx pre, true).
Proof.
  induction pre as [|ch rest IH]; intros scratch idx Hno Hne Hlen; [congruence|].
  simpl in *.
  destruct (Z.eqb_spec ch 13) as [->|_]; [tauto|].
  destruct (Z.eqb_spec (idx + 1) 64) as [E|E].
  - destruct rest; [reflexivity|simpl in Hlen; lia].
  - destruct rest as [|ch' rest']; [simpl in Hlen; lia|].
    apply IH; [tauto|discriminate|lia].
Qed.

Lemma update_rt_fields p g :
  is_rt g ->
  let res := rt_consume (rt_chars g) (rt_scratch_str p) (rt_char_index g) in
  rt_scratch_str (rds_parser_update p g) = fst res /\
  rt_str (rds_parser_update p g) =
    (if snd res then memcpy (rt_str p) (fst res) 64 else rt_str p).
Proof.
  intros Hrt. rewrite update_rt by assumption. unfold rds_parse_group_rt.
  cbn [update_header rt_scratch_str rt_str].
  destruct (rt_consume _ _ _) as [scratch finished]. cbn. tauto.
Qed.

Lemma rt_chars_length g :
  Z.of_nat (length (rt_chars g)) = rt_char_count (rds_get_group_version g).
Proof. unfold rt_chars, rt_char_count. destruct (_ =? 0); reflexivity. Qed.

Lemma rt_char_index_eq g :
  rt_char_index g = Z.land (b g) 15 * rt_char_count (rds_get_group_version g).
Proof. unfold rt_char_index, rt_char_count. destruct (_ =? 0); reflexivity. Qed.

Lemma rt_address_range g : 0 <= Z.land (b g) 15 <= 15.
Proof.
  split; [apply Z.land_nonneg; right; lia|].
  assert (H : Z.land (b g) 15 = b g mod 2 ^ 4) by (apply (Z.land_ones _ 4); lia).
  rewrite H. pose proof (Z.mod_pos_bound (b g) (2 ^ 4)). lia.
Qed.

Lemma rt_char_count_range ver : rt_char_count ver = 4 \/ rt_char_count ver = 2.
Proof. unfold rt_char_count. destruct (_ =? 0); auto. Qed.

(** A group never runs past the 64-character capacity. *)
Lemma rt_group_fits g : 0 <= rt_char_index g /\ rt_char_index g + Z.of_nat (length (rt_chars g)) <= 64.
Proof.
  rewrite rt_chars_length, rt_char_index_eq.
  pose proof (rt_address_range g). destruct (rt_char_count_range (rds_get_group_version g)) as [-> | ->]; lia.
Qed.

Lemma feed_rt_plain ver gs : forall p k,
  rt_in_order ver k gs ->
  ~ In 13 (concat (map rt_chars gs)) ->
  (k + Z.of_nat (length gs)) * rt_char_count ver < 64 ->
  0 <= k ->
  rt_scratch_str (rds_parser_feed p gs) =
    write_at (rt_scratch_str p) (k * rt_char_count ver) (concat (map rt_chars gs)) /\
  rt_str (rds_parser_feed p gs) = rt_str p /\
  Z.of_nat (length (concat (map rt_chars gs))) = Z.of_nat (length gs) * rt_char_count ver.
Proof.
  induction gs as [|g gs IH]; intros p k Hord Hno Hfit Hk.
  - cbn. repeat split; lia.
  - destruct Hord as (Hrt & Hver & Haddr & Hord).
    cbn [map concat] in *. cbn [length] in *. rewrite Nat2Z.inj_succ in Hfit.
    assert (Hcc : 0 < rt_char_count ver) by (destruct (rt_char_count_range ver); lia).
    assert (Hlen : Z.of_nat (length (rt_chars g)) = rt_char_count ver)
      by (now rewrite rt_chars_length, Hver).
    assert (Hidx : rt_char_index g = k * rt_char_count ver)
      by (now rewrite rt_char_index_eq, Hver, Haddr).
    assert (Hno1 : ~ In 13 (rt_chars g)) by (intros H; apply Hno, in_or_app; now left).
    assert (Hno2 : ~ In 13 (concat (map rt_chars gs))) by (intros H; apply Hno, in_or_app; now right).
    pose proof (update_rt_fields p g Hrt) as Hu. cbn zeta in Hu.
    rewrite rt_consume_plain in Hu by (assumption || nia).
    cbn [fst snd] in Hu. destruct Hu as [Hs Hr].
    unfold rds_parser_feed in *. cbn [fold_left].
    destruct (IH (rds_parser_update p g) (k + 1) Hord Hno2) as (IH1 & IH2 & IH3); [nia|lia|].
    rewrite IH1, IH2, Hs, Hr, Hidx. rewrite write_at_app.
    rewrite length_app, Nat2Z.inj_add, IH3, Hlen.
    repeat split; [|lia].
    f_equal. lia.
Qed.

Lemma write_then_terminate (S0 : list Z) (text : list Z) :
  (length text < length S0)%nat ->
  set (write_at S0 0 text) (Z.of_nat (length text)) 0 =
    text ++ 0 :: drop (S (length text)) S0.
Proof.
  intros Hlen. change 0 with (Z.of_nat 0) at 1.
  rewrite (write_at_spec text S0 0) by (simpl; lia).
  rewrite take_0. cbn [app Nat.add]. unfold set. rewrite Nat2Z.id.
  rewrite <- (Nat.add_0_r (length text)) at 1.
  rewrite insert_app_r.
  destruct (drop (length text) S0) as [|x rest] eqn:Hd.
  { apply (f_equal length) in Hd. rewrite length_drop in Hd. simpl in Hd. lia. }
  cbn. f_equal. f_equal.
  replace (S (length text)) with (length text + 1)%nat by lia.
  rewrite <- drop_drop, Hd. reflexivity.
Qed.

Lemma commit_c_str (S0 R : list Z) (text : list Z) :
  (length text < 64)%nat -> (64 <= length S0)%nat ->
  Forall (fun ch => ch <> 0) text ->
  let committed := memcpy R (set (write_at S0 0 text) (Z.of_nat (length text)) 0) 64 in
  c_str committed = text /\ get committed (Z.of_nat (length text)) = 0.
Proof.
  intros Hlen HS Hnz committed. subst committed.
  rewrite write_then_terminate by lia. unfold memcpy.
  rewrite take_app.
  rewrite (take_ge text) by lia.
  destruct (64 - length text)%nat as [|m] eqn:Hm; [lia|]. cbn [take].
  rewrite <- !app_assoc. cbn [app]. split.
  - apply c_str_no_nul. exact Hnz.
  - unfold get. rewrite Nat2Z.id.
    rewrite lookup_app_r by lia. rewrite Nat.sub_diag. reflexivity.
Qed.

Lemma rt_in_order_app ver gs1 : forall k gs2,
  rt_in_order ver k (gs1 ++ gs2) <->
  rt_in_order ver k gs1 /\ rt_in_order ver (k + Z.of_nat (length gs1)) gs2.
Proof.
  induction gs1 as [|g gs1 IH]; intros k gs2.
  - cbn. rewrite Z.add_0_r. tauto.
  - cbn [app rt_in_order length]. rewrite Nat2Z.inj_succ, IH.
    replace (k + 1 + Z.of_nat (length gs1)) with (k + Z.succ (Z.of_nat (length gs1))) by lia.
    tauto.
Qed.

Lemma feed_app p gs1 gs2 :
  rds_parser_feed p (gs1 ++ gs2) = rds_parser_feed (rds_parser_feed p gs1) gs2.
Proof. unfold rds_parser_feed. apply fold_left_app. Qed.

Lemma rt_update_on_cr q h pre post :
  is_rt h -> rt_chars h = pre ++ 13 :: post -> ~ In 13 pre ->
  rt_scratch_str (rds_parser_update q h) =
    set (write_at (rt_scratch_str q) (rt_char_index h) pre)
      (rt_char_index h + Z.of_nat (length pre)) 0 /\
  rt_str (rds_parser_update q h) =
    memcpy (rt_str q) (rt_scratch_str (rds_parser_update q h)) 64.
Proof.
  intros Hrt Hch Hno.
  pose proof (update_rt_fields q h Hrt) as Hu. cbn zeta in Hu.
  pose proof (rt_group_fits h) as [Hi Hfit].
  rewrite Hch in Hu, Hfit. rewrite length_app in Hfit. cbn [length] in Hfit.
  rewrite rt_consume_cr in Hu by (assumption || lia).
  cbn [fst snd] in Hu. destruct Hu as [Hs Hr]. rewrite Hr, Hs. tauto.
Qed.

Lemma rt_update_on_full q h :
  is_rt h -> ~ In 13 (rt_chars h) ->
  rt_char_index h + Z.of_nat (length (rt_chars h)) = 64 ->
  rt_scratch_str (rds_parser_update q h) =
    write_at (rt_scratch_str q) (rt_char_index h) (rt_chars h) /\
  rt_str (rds_parser_update q h) =
    memcpy (rt_str q) (rt_scratch_str (rds_parser_update q h)) 64.
Proof.
  intros Hrt Hno Hfull.
  pose proof (update_rt_fields q h Hrt) as Hu. cbn zeta in Hu.
  assert (E : rt_consume (rt_chars h) (rt_scratch_str q) (rt_char_index h) =
              (write_at (rt_scratch_str q) (rt_char_index h) (rt_chars h), true)).
  { rewrite <- (app_nil_r (rt_chars h)) at 1.
    apply rt_consume_full; [assumption| |assumption].
    intros E. pose proof (rt_chars_length h) as Hl. rewrite E in Hl.
    destruct (rt_char_count_range (rds_get_group_version h)) as [H|H];
      rewrite H in Hl; discriminate. }
  rewrite E in Hu. cbn [fst snd] in Hu. destruct Hu as [Hs Hr]. rewrite Hr, Hs. tauto.
Qed.

Lemma rt_update_no_commit q h :
  is_rt h -> ~ In 13 (rt_chars h) ->
  rt_char_index h + Z.of_nat (length (rt_chars h)) < 64 ->
  rt_scratch_str (rds_parser_update q h) =
    write_at (rt_scratch_str q) (rt_char_index h) (rt_chars h) /\
  rt_str (rds_parser_update q h) = rt_str q.
Proof.
  intros Hrt Hno Hlt.
  pose proof (update_rt_fields q h Hrt) as Hu. cbn zeta in Hu.
  rewrite rt_consume_plain in Hu by assumption. exact Hu.
Qed.

Lemma Forall_plain_split (l : list Z) :
  Forall (fun ch => ch <> 0 /\ ch <> 13) l ->
  Forall (fun ch => ch <> 0) l /\ ~ In 13 l.
Proof.
  induction 1 as [|x l [H0 H13] _ [IH1 IH2]]; [split; [constructor|intros []]|].
  split; [constructor; assumption|]. intros [E|Hin]; [congruence|tauto].
Qed.

(** Claim C7, as amended. Free-text termination. Radio-text groups of one
    version with fragment addresses 0, 1, ..., fed in order to a well-formed
    parser, whose characters up to
    position 9 are ordinary (neither NUL nor carriage return) and whose
    character at position 10 is a carriage return, commit a public string of
    exactly those 10 characters, NUL-terminated at position 10. The three
    single-group facts that follow: at a carriage return the group stops
    consuming, writes the terminator and commits at once; when the write
    position reaches 64 it commits at once; otherwise nothing is committed. *)
Theorem rt_carriage_return_commit
    (p : rds_parser_t) (ver : Z) (gs : list rds_group_t) (g : rds_group_t)
    (j : nat) (text : list Z)
    (Hwf : parser_wf p)
    (Hord : rt_in_order ver 0 (gs ++ [g]))
    (Htext : text = concat (map rt_chars gs) ++ take j (rt_chars g))
    (Hcr : rt_chars g !! j = Some 13)
    (Hplain : Forall (fun ch => ch <> 0 /\ ch <> 13) text)
    (Hpos : length text = 10%nat) :
  let p' := rds_parser_feed p (gs ++ [g]) in
  rds_get_radio_text_str p' = text /\
  length (rds_get_radio_text_str p') = 10%nat /\
  get (rt_str p') 10 = 0 /\
  (forall q h pre post,
      is_rt h -> rt_chars h = pre ++ 13 :: post -> ~ In 13 pre ->
      rt_scratch_str (rds_parser_update q h) =
        set (write_at (rt_scratch_str q) (rt_char_index h) pre)
          (rt_char_index h + Z.of_nat (length pre)) 0 /\
      rt_str (rds_parser_update q h) =
        memcpy (rt_str q) (rt_scratch_str (rds_parser_update q h)) 64) /\
  (forall q h,
      is_rt h -> ~ In 13 (rt_chars h) ->
      rt_char_index h + Z.of_nat (length (rt_chars h)) = 64 ->
      rt_scratch_str (rds_parser_update q h) =
        write_at (rt_scratch_str q) (rt_char_index h) (rt_chars h) /\
      rt_str (rds_parser_update q h) =
        memcpy (rt_str q) (rt_scratch_str (rds_parser_update q h)) 64) /\
  (forall q h,
      is_rt h -> ~ In 13 (rt_chars h) ->
      rt_char_index h + Z.of_nat (length (rt_chars h)) < 64 ->
      rt_str (rds_parser_update q h) = rt_str q).
Proof.
  intros p'.
  assert (Hmain : rds_get_radio_text_str p' = text /\ get (rt_str p') 10 = 0).
  { subst p'. unfold rds_get_radio_text_str.
    apply rt_in_order_app in Hord. destruct Hord as [Hord1 Hord2].
    cbn [rt_in_order] in Hord2. destruct Hord2 as (Hrt & Hver & Haddr & _).
    pose proof (take_drop_middle _ _ _ Hcr) as Hsplit.
    assert (Hj : length (take j (rt_chars g)) = j).
    { rewrite length_take. apply lookup_lt_Some in Hcr. lia. }
    destruct (Forall_plain_split _ Hplain) as [Hnz Hno].
    rewrite Htext in Hno.
    assert (Hno1 : ~ In 13 (concat (map rt_chars gs))) by (intros H; apply Hno, in_or_app; now left).
    assert (Hno2 : ~ In 13 (take j (rt_chars g))) by (intros H; apply Hno, in_or_app; now right).
    assert (Hcc : 0 < rt_char_count ver) by (destruct (rt_char_count_range ver); lia).
    assert (Hcat : Z.of_nat (length (concat (map rt_chars gs))) =
                   Z.of_nat (length gs) * rt_char_count ver).
    { clear - Hord1. revert Hord1. generalize 0 at 1. induction gs as [|x gs IH]; intros k Ho.
      - reflexivity.
      - destruct Ho as (_ & Hv & _ & Ho). cbn [map concat length].
        rewrite length_app, Nat2Z.inj_add, Nat2Z.inj_succ, (IH _ Ho), rt_chars_length, Hv. lia. }
    assert (Hten : Z.of_nat (length gs) * rt_char_count ver + Z.of_nat j = 10).
    { rewrite <- Hcat. rewrite Htext, length_app, Hj in Hpos. lia. }
    destruct (feed_rt_plain ver gs p 0 Hord1 Hno1) as (Hs & Hr & _); [lia|lia|].
    destruct (rt_update_on_cr (rds_parser_feed p gs) g _ _ Hrt (eq_sym Hsplit) Hno2) as [Hs' Hr'].
    assert (Hidx : rt_char_index g = Z.of_nat (length (concat (map rt_chars gs))))
      by (rewrite rt_char_index_eq, Hver, Haddr, Hcat; lia).
    assert (Hfinal : rt_str (rds_parser_feed p (gs ++ [g])) =
              memcpy (rt_str p)
                (set (write_at (rt_scratch_str p) 0 text) (Z.of_nat (length text)) 0) 64).
    { rewrite feed_app. unfold rds_parser_feed at 1. cbn [fold_left].
      rewrite Hr', Hs', Hs, Hr, Hidx, Z.mul_0_l. f_equal.
      rewrite Htext, write_at_app, length_app, Nat2Z.inj_add, Z.add_0_l. reflexivity. }
    rewrite Hfinal.
    destruct Hwf as (_ & _ & _ & HS & _).
    assert (Hl1 : (length text < 64)%nat) by lia.
    assert (Hl2 : (64 <= length (rt_scratch_str p))%nat) by lia.
    pose proof (commit_c_str (rt_scratch_str p) (rt_str p) text Hl1 Hl2 Hnz) as Hc.
    cbn zeta in Hc. rewrite Hpos in Hc. rewrite Hpos. exact Hc. }
  destruct Hmain as [H1 H2].
  split; [exact H1|]. split; [rewrite H1; exact Hpos|]. split; [exact H2|].
  split; [intros q h pre post Hrt Hc Hno; now apply (rt_update_on_cr q h pre post)|].
  split; [intros; now apply rt_update_on_full|].
  intros q h Hrt Hno Hlt. now apply rt_update_no_commit.
Qed.

(** The alternate-frequency count stays within the array in every state
    reached from a reset, and the arrays keep their sizes. *)
Lemma add_alt_freq_inv p v :
  parser_wf p -> 0 <= alt_freq_count p <= 25 ->
  parser_wf (rds_add_alt_freq p v) /\ 0 <= alt_freq_count (rds_add_alt_freq p v) <= 25.
Proof.
  intros Hwf Hc. unfold rds_add_alt_freq.
  destruct ((v =? 0) || (205 <=? v)); [tauto|].
  destruct (Z.eqb_spec (alt_freq_count p) 25); [tauto|].
  destruct (alt_freq_dup _ _ _ _); [tauto|].
  destruct Hwf as (H1 & H2 & H3 & H4 & H5).
  unfold parser_wf, u8, set. cbn.
  rewrite length_insert, Z.mod_small by lia. repeat split; (assumption || lia).
Qed.

Lemma rt_consume_length chars : forall scratch idx,
  length (fst (rt_consume chars scratch idx)) = length scratch.
Proof.
  induction chars as [|ch rest IH]; intros scratch idx; cbn [rt_consume]; [reflexivity|].
  destruct (ch =? 13); [apply length_insert|].
  destruct (idx + 1 =? 64); [apply length_insert|].
  rewrite IH. apply length_insert.
Qed.

Lemma update_inv p g :
  parser_wf p -> 0 <= alt_freq_count p <= 25 ->
  parser_wf (rds_parser_update p g) /\ 0 <= alt_freq_count (rds_parser_update p g) <= 25.
Proof.
  intros Hwf Hc. rewrite update_unfold.
  assert (Hh : parser_wf (update_header p g) /\ 0 <= alt_freq_count (update_header p g) <= 25)
    by (split; assumption).
  destruct (rds_get_group_type g =? RDS_GROUP_BASIC).
  - unfold rds_parse_group_basic, rds_parse_group_basic_alt_freq.
    set (q := rds_parse_group_basic_di (rds_parse_group_basic_ps (update_header p g) g) g).
    assert (Hq : parser_wf q /\ 0 <= alt_freq_count q <= 25).
    { destruct Hwf as (H1 & H2 & H3 & H4 & H5). subst q. unfold parser_wf, memcpy, set. cbn.
      repeat split; try assumption; try lia; unfold memcpy, set.
      - destruct (Z.land (b g) 3 =? 3); [|assumption].
        rewrite length_app, length_take, length_drop, !length_insert. lia.
      - rewrite !length_insert. assumption. }
    destruct (negb _); [exact Hq|].
    destruct Hq as [Hq1 Hq2].
    destruct (add_alt_freq_inv q (u8 (Z.shiftr (c g) 8)) Hq1 Hq2) as [Hr1 Hr2].
    apply add_alt_freq_inv; assumption.
  - destruct (rds_get_group_type g =? RDS_GROUP_RT); [|exact Hh].
    unfold rds_parse_group_rt.
    pose proof (rt_consume_length (rt_chars g) (rt_scratch_str (update_header p g))
                  (rt_char_index g)) as Hlen.
    destruct (rt_consume _ _ _) as [scratch finished]. cbn [fst] in Hlen.
    destruct Hwf as (H1 & H2 & H3 & H4 & H5). unfold parser_wf, memcpy. cbn in *.
    repeat split; try assumption; try lia.
    destruct finished; [|assumption].
    rewrite length_app, length_take, length_drop. lia.
Qed.

Lemma reachable_alt_freq_count gs :
  parser_wf (rds_parser_feed rds_parser_reset gs) /\
  0 <= alt_freq_count (rds_parser_feed rds_parser_reset gs) <= 25.
Proof.
  assert (H : forall p, parser_wf p /\ 0 <= alt_freq_count p <= 25 ->
            parser_wf (rds_parser_feed p gs) /\ 0 <= alt_freq_count (rds_parser_feed p gs) <= 25).
  { unfold rds_parser_feed. induction gs as [|g gs IH]; intros p Hp; [exact Hp|].
    cbn [fold_left]. apply IH. destruct Hp. apply update_inv; assumption. }
  apply H. split; [repeat split|cbn; lia].
Qed.

(** The theorems above at concrete inputs. *)

Lemma parser_wf_reset : parser_wf rds_parser_reset.
Proof. repeat split. Defined.

Lemma ps_commit_atomic_witness :
  ps_str (rds_parser_feed rds_parser_reset
            [ps_group 0 82 65; ps_group 2 79 32; ps_group 1 68 73; ps_group 0 82 65])
    = ps_str rds_parser_reset /\
  ps_chars (rds_parser_feed rds_parser_reset
              [ps_group 0 82 65; ps_group 1 68 73; ps_group 2 79 32; ps_group 3 49 32])
    = [82; 65; 68; 73; 79; 32; 49; 32].
Proof.
  pose proof (ps_commit_atomic rds_parser_reset
    [ps_group 0 82 65; ps_group 2 79 32; ps_group 1 68 73; ps_group 0 82 65]
    (ps_group 0 82 65) (ps_group 1 68 73) (ps_group 2 79 32) (ps_group 3 49 32)) as H.
  destruct H as (H1 & _ & H3 & _).
  - repeat (constructor; [split; [reflexivity | vm_compute; tauto] |]). constructor.
  - exact parser_wf_reset.
  - reflexivity.
  - reflexivity.
  - reflexivity.
  - reflexivity.
  - reflexivity.
  - reflexivity.
  - reflexivity.
  - reflexivity.
  - split; [exact H1|exact H3].
Defined.

Lemma ps_commit_on_address_3_witness :
  ps_chars (rds_parser_update (rds_parser_update rds_parser_reset (ps_group 0 65 66))
              (ps_group 3 71 72))
    = [65; 66; 0; 0; 0; 0; 71; 72].
Proof.
  pose proof (ps_commit_on_address_3 (rds_parser_update rds_parser_reset (ps_group 0 65 66))
                (ps_group 3 71 72)) as H.
  destruct H as (H1 & _).
  - vm_compute. repeat split.
  - reflexivity.
  - reflexivity.
  - rewrite H1. reflexivity.
Defined.

Lemma alt_freq_append_iff_witness :
  alt_freq_list (rds_add_alt_freq rds_parser_reset 100) = [100] /\
  rds_add_alt_freq rds_parser_reset 205 = rds_parser_reset.
Proof.
  split.
  - apply (alt_freq_append_iff rds_parser_reset 100);
      [exact parser_wf_reset | cbn; lia | unfold is_u8; lia |].
    unfold alt_freq_ok. cbn. repeat split; try lia. intros [].
  - apply (alt_freq_append_iff rds_parser_reset 205);
      [exact parser_wf_reset | cbn; lia | unfold is_u8; lia |].
    unfold alt_freq_ok. lia.
Defined.

Lemma rt_carriage_return_commit_witness :
  rds_get_radio_text_str
    (rds_parser_feed rds_parser_reset
       ([rt_group 0 72 69 76 76; rt_group 1 79 32 87 79] ++ [rt_group 2 82 76 13 33]))
    = [72; 69; 76; 76; 79; 32; 87; 79; 82; 76].
Proof.
  apply (rt_carriage_return_commit rds_parser_reset 0
           [rt_group 0 72 69 76 76; rt_group 1 79 32 87 79] (rt_group 2 82 76 13 33) 2
           [72; 69; 76; 76; 79; 32; 87; 79; 82; 76]).
  - exact parser_wf_reset.
  - vm_compute. repeat split.
  - reflexivity.
  - reflexivity.
  - repeat constructor; lia.
  - reflexivity.
Defined.

(** Claim C7 as stated fails without conditions on the fragment sequence.
    Three version A groups with addresses 0, 1, 2 carry a carriage return at
    character position 10 and a NUL at position 1: the carriage return
    commits, and the public string is the one character before the NUL.
    A single group with address 2, whose third character (position 10) is a
    carriage return, fed after a reset commits the scratch buffer whose first
    eight bytes are still zero: the public string is empty. *)
Lemma rt_carriage_return_commit_needs_conditions :
  let with_nul := [rt_group 0 72 0 76 76; rt_group 1 79 32 87 79; rt_group 2 82 76 13 33] in
  let late := rt_group 2 82 76 13 33 in
  rt_in_order 0 0 with_nul /\
  concat (map rt_chars with_nul) !! 10%nat = Some 13 /\
  rds_get_radio_text_str (rds_parser_feed rds_parser_reset with_nul) = [72] /\
  is_rt late /\ rt_char_index late = 8 /\ rt_chars late !! 2%nat = Some 13 /\
  get (rt_str (rds_parser_feed rds_parser_reset [late])) 10 = 0 /\
  rds_get_radio_text_str (rds_parser_feed rds_parser_reset [late]) = [].
Proof. repeat split; vm_compute; reflexivity. Qed.

End RdsParserProps.

(** * Bit-level facts about machine integers *)

Module BitLemmas.

Lemma u8_testbit x j : 0 <= j < 8 -> Z.testbit (u8 x) j = Z.testbit x j.
Proof. intros Hj. unfold u8. change 256 with (2 ^ 8). apply Z.mod_pow2_bits_low. lia. Qed.

Lemma testbit_u8 x n : Z.testbit (u8 x) n = (n <? 8) && Z.testbit x n.
Proof. unfold u8. change 256 with (2 ^ 8). apply Z.testbit_mod_pow2. lia. Qed.

Lemma testbit_u16 x n : Z.testbit (u16 x) n = (n <? 16) && Z.testbit x n.
Proof. unfold u16. change 65536 with (2 ^ 16). apply Z.testbit_mod_pow2. lia. Qed.

Lemma is_u16_u16 x : is_u16 (u16 x).
Proof. unfold is_u16, u16. apply Z.mod_pos_bound. lia. Qed.

Lemma is_u16_high x n : is_u16 x -> 16 <= n -> Z.testbit x n = false.
Proof.
  intros [H0 H1] Hn.
  apply (proj1 (Z.bounded_iff_bits_nonneg 16 x ltac:(lia) H0)); assumption.
Qed.

Lemma is_u8_high x n : is_u8 x -> 8 <= n -> Z.testbit x n = false.
Proof.
  intros [H0 H1] Hn.
  apply (proj1 (Z.bounded_iff_bits_nonneg 8 x ltac:(lia) H0)); assumption.
Qed.

Lemma u16_small x : is_u16 x -> u16 x = x.
Proof. intros H. unfold u16. apply Z.mod_small. exact H. Qed.

Lemma u8_small x : is_u8 x -> u8 x = x.
Proof. intros H. unfold u8. apply Z.mod_small. exact H. Qed.

Lemma testbit_shiftl_b2z (f : bool) k j :
  0 <= k -> 0 <= j -> Z.testbit (Z.shiftl (Z.b2z f) k) j = (j =? k) && f.
Proof.
  intros Hk Hj. destruct f; cbn [Z.b2z].
  - rewrite Z.shiftl_1_l, Z.pow2_bits_eqb by lia.
    rewrite andb_true_r. apply Z.eqb_sym.
  - rewrite Z.shiftl_0_l, Z.bits_0, andb_false_r. reflexivity.
Qed.

Lemma flag_of_land z k :
  0 <= k -> negb (Z.land z (2 ^ k) =? 0) = Z.testbit z k.
Proof.
  intros Hk.
  destruct (Z.testbit z k) eqn:E.
  - apply negb_true_iff, Z.eqb_neq. intros H0.
    assert (Z.testbit (Z.land z (2 ^ k)) k = true).
    { rewrite Z.land_spec, E, Z.pow2_bits_true by lia. reflexivity. }
    rewrite H0, Z.bits_0 in H. discriminate.
  - apply negb_false_iff, Z.eqb_eq. apply Z.bits_inj'. intros n Hn.
    rewrite Z.land_spec, Z.bits_0, Z.pow2_bits_eqb by lia.
    destruct (Z.eqb_spec k n) as [<-|]; [rewrite E|]; cbn; [reflexivity|apply andb_false_r].
Qed.

End BitLemmas.

(** * More about the RDS parser: identification, flags and invariants *)

Module RdsParserMore.

Import RdsParser RdsParserProps BitLemmas.

(** ** Fields that a parsing step leaves alone *)

Lemma add_alt_freq_keeps p v :
  let q := rds_add_alt_freq p v in
  pi q = pi p /\ pty q = pty p /\ tp q = tp p /\ di q = di p /\ di_scratch q = di_scratch p /\
  rt_a_b q = rt_a_b p /\ rt_scratch_a_b q = rt_scratch_a_b p.
Proof.
  unfold rds_add_alt_freq.
  destruct ((v =? 0) || (205 <=? v)); [tauto|].
  destruct (alt_freq_count p =? 25); [tauto|].
  destruct (alt_freq_dup _ _ _ _); cbn; tauto.
Qed.

Lemma basic_alt_freq_keeps p g :
  let q := rds_parse_group_basic_alt_freq p g in
  pi q = pi p /\ pty q = pty p /\ tp q = tp p /\ di q = di p /\ di_scratch q = di_scratch p /\
  rt_a_b q = rt_a_b p /\ rt_scratch_a_b q = rt_scratch_a_b p.
Proof.
  unfold rds_parse_group_basic_alt_freq.
  destruct (negb _); [tauto|].
  cbn zeta.
  pose proof (add_alt_freq_keeps p (u8 (Z.shiftr (c g) 8))) as H1.
  pose proof (add_alt_freq_keeps (rds_add_alt_freq p (u8 (Z.shiftr (c g) 8)))
                (u8 (Z.land (c g) 255))) as H2.
  cbn zeta in H1, H2.
  destruct H1 as (A1 & A2 & A3 & A4 & A5 & A6 & A7).
  destruct H2 as (B1 & B2 & B3 & B4 & B5 & B6 & B7).
  repeat split; congruence.
Qed.

(** The header fields, the text flags and the decoder identification after a
    group 0A / 0B, in terms of the two steps that can write them. *)
Lemma group_basic_keeps p g :
  let q := rds_parse_group_basic p g in
  pi q = pi p /\ pty q = pty p /\ tp q = tp p /\
  rt_a_b q = rt_a_b p /\ rt_scratch_a_b q = rt_scratch_a_b p /\
  di q = di (rds_parse_group_basic_di p g) /\
  di_scratch q = di_scratch (rds_parse_group_basic_di p g).
Proof.
  unfold rds_parse_group_basic.
  pose proof (basic_alt_freq_keeps
                (rds_parse_group_basic_di (rds_parse_group_basic_ps p g) g) g) as H.
  cbn zeta in H. destruct H as (A1 & A2 & A3 & A4 & A5 & A6 & A7).
  cbn zeta. rewrite A1, A2, A3, A4, A5, A6, A7. cbn. tauto.
Qed.

Lemma group_rt_keeps p g :
  let q := rds_parse_group_rt p g in
  pi q = pi p /\ pty q = pty p /\ tp q = tp p /\ di q = di p /\ di_scratch q = di_scratch p.
Proof.
  unfold rds_parse_group_rt. destruct (rt_consume _ _ _) as [scratch finished]. cbn. tauto.
Qed.

Lemma update_keeps_header p g :
  pi (rds_parser_update p g) = rds_get_group_pi g /\
  pty (rds_parser_update p g) = rds_get_group_pty g /\
  tp (rds_parser_update p g) = rds_get_group_tp g.
Proof.
  rewrite update_unfold.
  destruct (rds_get_group_type g =? RDS_GROUP_BASIC).
  - pose proof (group_basic_keeps (update_header p g) g) as H. cbn zeta in H.
    destruct H as (-> & -> & -> & _). cbn. tauto.
  - destruct (rds_get_group_type g =? RDS_GROUP_RT).
    + pose proof (group_rt_keeps (update_header p g) g) as H. cbn zeta in H.
      destruct H as (-> & -> & -> & _). cbn. tauto.
    + cbn. tauto.
Qed.

(** ** The program identification as text *)

Lemma hex_to_char_digit v :
  0 <= v < 16 ->
  exists ch, hex_to_char v = Some ch /\ is_hex_digit ch /\ hex_digit_value ch = v /\ ch <> 0.
Proof.
  intros Hv. unfold hex_to_char. destruct (Z.ltb_spec v 16); [|lia].
  eexists; split; [reflexivity|]. unfold u8, is_hex_digit, hex_digit_value.
  destruct (Z.ltb_spec v 10).
  - rewrite Z.mod_small by lia. destruct (Z.leb_spec (48 + v) 57); lia.
  - rewrite Z.mod_small by lia. destruct (Z.leb_spec (65 - 10 + v) 57); lia.
Qed.

Lemma nibble_range x : 0 <= u8 (Z.land x 0xF) < 16 /\ u8 (Z.land x 0xF) = x mod 16.
Proof.
  change 0xF with (Z.ones 4). rewrite Z.land_ones by lia. change (2 ^ 4) with 16.
  pose proof (Z.mod_pos_bound x 16 ltac:(lia)).
  unfold u8. rewrite Z.mod_small by lia. lia.
Qed.

(** [rds_get_program_id_as_str] writes four upper-case hexadecimal digits
    and a NUL; every 16-bit identification passes the assertion of
    [hex_to_char], the characters after the fifth are left alone, and
    reading the four digits back as a base-16 number gives the
    identification again. *)
Theorem program_id_hex_round_trip
    (p : rds_parser_t) (str : list Z)
    (Hpi : is_u16 (pi p)) (Hlen : (5 <= length str)%nat) :
  exists c0 c1 c2 c3,
    rds_get_program_id_as_str p str = Some (c0 :: c1 :: c2 :: c3 :: 0 :: drop 5 str) /\
    Forall is_hex_digit [c0; c1; c2; c3] /\
    ((hex_digit_value c0 * 16 + hex_digit_value c1) * 16 + hex_digit_value c2) * 16
      + hex_digit_value c3 = rds_get_program_id p /\
    c_str (c0 :: c1 :: c2 :: c3 :: 0 :: drop 5 str) = [c0; c1; c2; c3].
Proof.
  unfold is_u16 in Hpi. unfold rds_get_program_id_as_str, rds_get_program_id.
  set (x := pi p) in *.
  rewrite !Z.shiftr_div_pow2 by lia.
  change (2 ^ 12) with 4096. change (2 ^ 8) with 256. change (2 ^ 4) with 16.
  assert (H3 : u8 (x / 4096) = x / 4096 /\ 0 <= x / 4096 < 16).
  { assert (0 <= x / 4096 < 16).
    { split; [apply Z.div_pos; lia|apply Z.div_lt_upper_bound; lia]. }
    unfold u8. rewrite Z.mod_small by lia. lia. }
  destruct H3 as [E3 R3].
  destruct (nibble_range (x / 256)) as [R2 E2].
  destruct (nibble_range (x / 16)) as [R1 E1].
  destruct (nibble_range x) as [R0 E0].
  rewrite E3.
  destruct (hex_to_char_digit (x / 4096) R3) as (c0 & -> & Hd0 & Hv0 & Hn0).
  destruct (hex_to_char_digit _ R2) as (c1 & -> & Hd1 & Hv1 & Hn1).
  destruct (hex_to_char_digit _ R1) as (c2 & -> & Hd2 & Hv2 & Hn2).
  destruct (hex_to_char_digit _ R0) as (c3 & -> & Hd3 & Hv3 & Hn3).
  exists c0, c1, c2, c3.
  split.
  { destruct str as [|x0 [|x1 [|x2 [|x3 [|x4 rest]]]]]; cbn in Hlen; try lia. reflexivity. }
  split; [repeat (constructor; [assumption|]); constructor|].
  split.
  { rewrite Hv0, Hv1, Hv2, Hv3, E2, E1, E0.
    pose proof (Z.div_mod x 4096 ltac:(lia)).
    pose proof (Z.div_mod x 256 ltac:(lia)).
    pose proof (Z.div_mod x 16 ltac:(lia)).
    pose proof (Z.div_mod (x / 256) 16 ltac:(lia)).
    pose proof (Z.div_mod (x / 16) 16 ltac:(lia)).
    rewrite Z.div_div in * by lia. change (256 * 16) with 4096 in *.
    change (16 * 16) with 256 in *. lia. }
  cbn [c_str].
  destruct (Z.eqb_spec c0 0); [contradiction|].
  destruct (Z.eqb_spec c1 0); [contradiction|].
  destruct (Z.eqb_spec c2 0); [contradiction|].
  destruct (Z.eqb_spec c3 0); [contradiction|].
  reflexivity.
Qed.

(** ** The header fields *)

(** The program identification, the program type and the traffic-program
    flag are taken from every group, whatever its type: after any non-empty
    sequence of groups they are those of the last group, and they are the
    16 bits of block A, bits 5..9 and bit 10 of block B. *)
Theorem header_fields_follow_last_group
    (p : rds_parser_t) (gs : list rds_group_t) (g : rds_group_t)
    (Hg : group_wf g) :
  let p' := rds_parser_feed p (gs ++ [g]) in
  rds_get_program_id p' = a g /\
  rds_get_program_type p' = (b g / 32) mod 32 /\
  rds_has_traffic_program p' = Z.testbit (b g) 10.
Proof.
  intros p'. subst p'. rewrite feed_app. cbn [rds_parser_feed fold_left].
  fold (rds_parser_feed p gs).
  destruct (update_keeps_header (rds_parser_feed p gs) g) as (H1 & H2 & H3).
  unfold rds_get_program_id, rds_get_program_type, rds_has_traffic_program.
  rewrite H1, H2, H3.
  unfold rds_get_group_pi, rds_get_group_pty, rds_get_group_tp.
  split; [reflexivity|]. split.
  - change 31 with (Z.ones 5). rewrite Z.land_ones, Z.shiftr_div_pow2 by lia.
    change (2 ^ 5) with 32. unfold u8.
    pose proof (Z.mod_pos_bound (b g / 32) 32 ltac:(lia)).
    apply Z.mod_small. lia.
  - change 1 with (Z.ones 1). rewrite Z.land_ones by lia. change (2 ^ 1) with 2.
    rewrite <- Z.bit0_mod, Z.shiftr_spec by lia. rewrite Z.add_0_l.
    destruct (Z.testbit (b g) 10); reflexivity.
Qed.

(** ** The decoder identification *)

Lemma lnot_land_3 x : Z.land (Z.lnot x) 3 = 3 - Z.land x 3.
Proof.
  change 3 with (Z.ones 2) at 1 3. rewrite !Z.land_ones by lia. change (2 ^ 2) with 4.
  unfold Z.lnot. replace (Z.pred (- x)) with (- x - 1) by lia.
  pose proof (Z.div_mod x 4 ltac:(lia)).
  pose proof (Z.mod_pos_bound x 4 ltac:(lia)).
  symmetry. apply (Z.mod_unique _ _ (- (x / 4) - 1)); lia.
Qed.

Lemma land_3_range x : 0 <= Z.land x 3 <= 3.
Proof.
  change 3 with (Z.ones 2) at 1 2. rewrite Z.land_ones by lia. change (2 ^ 2) with 4.
  pose proof (Z.mod_pos_bound x 4 ltac:(lia)). lia.
Qed.

Lemma di_bit_value x : u8 (Z.land (Z.shiftr x 2) 1) = Z.b2z (Z.testbit x 2).
Proof.
  change 1 with (Z.ones 1). rewrite Z.land_ones by lia. change (2 ^ 1) with 2.
  rewrite <- Z.bit0_mod, Z.shiftr_spec by lia. rewrite Z.add_0_l.
  destruct (Z.testbit x 2); reflexivity.
Qed.

(** One decoder-identification step on the scratch byte: the bit selected by
    the segment address takes the group's flag, the other bits stay. *)
Lemma basic_di_scratch_bit p g j :
  0 <= j < 8 ->
  Z.testbit (di_scratch (rds_parse_group_basic_di p g)) j =
    if j =? 3 - ps_address g then di_flag g else Z.testbit (di_scratch p) j.
Proof.
  intros Hj. unfold rds_parse_group_basic_di. cbn [di_scratch].
  rewrite lnot_land_3, di_bit_value. fold (ps_address g). fold (di_flag g).
  pose proof (land_3_range (b g)) as Ha. fold (ps_address g) in Ha.
  rewrite u8_testbit, Z.lor_spec, u8_testbit, Z.land_spec, Z.lnot_spec by lia.
  rewrite testbit_shiftl_b2z by lia.
  rewrite Z.shiftl_1_l, Z.pow2_bits_eqb by lia.
  rewrite (Z.eqb_sym (3 - ps_address g) j).
  destruct (j =? 3 - ps_address g); cbn.
  - rewrite andb_false_r. reflexivity.
  - rewrite andb_true_r, orb_false_r. reflexivity.
Qed.

Lemma basic_di_commit p g :
  di (rds_parse_group_basic_di p g) =
    if ps_address g =? 3 then di_scratch (rds_parse_group_basic_di p g) else di p.
Proof.
  unfold rds_parse_group_basic_di. cbn [di di_scratch].
  rewrite lnot_land_3. fold (ps_address g).
  pose proof (land_3_range (b g)) as Ha. fold (ps_address g) in Ha.
  destruct (Z.eqb_spec (3 - ps_address g) 0), (Z.eqb_spec (ps_address g) 3);
    try lia; reflexivity.
Qed.

Lemma update_di_scratch_bit p g j :
  is_basic g -> 0 <= j < 8 ->
  Z.testbit (di_scratch (rds_parser_update p g)) j =
    if j =? 3 - ps_address g then di_flag g else Z.testbit (di_scratch p) j.
Proof.
  intros Hb Hj. rewrite (update_basic _ _ Hb).
  pose proof (group_basic_keeps (update_header p g) g) as H. cbn zeta in H.
  destruct H as (_ & _ & _ & _ & _ & _ & ->).
  assert (Hs : di_scratch (rds_parse_group_basic_di (update_header p g) g)
               = di_scratch (rds_parse_group_basic_di p g)) by reflexivity.
  rewrite Hs. apply basic_di_scratch_bit. assumption.
Qed.

Lemma update_di_commit p g :
  is_basic g ->
  di (rds_parser_update p g) =
    if ps_address g =? 3 then di_scratch (rds_parser_update p g) else di p.
Proof.
  intros Hb. rewrite (update_basic _ _ Hb).
  pose proof (group_basic_keeps (update_header p g) g) as H. cbn zeta in H.
  destruct H as (_ & _ & _ & _ & _ & -> & ->).
  rewrite basic_di_commit. reflexivity.
Qed.

(** The decoder identification is assembled from the four segments of the
    station name: a group 0A / 0B with segment address 0, 1, 2, 3 carries bit
    3, 2, 1, 0, and the value readers see changes only with segment 3. After
    the segments 0..3 in order, bit 3 (dynamic PTY) is the flag of the first
    group and bit 0 (stereo) that of the last. *)
Theorem di_assembled_from_four_segments
    (p : rds_parser_t) (g0 g1 g2 g3 : rds_group_t)
    (Hb0 : is_basic g0) (Hb1 : is_basic g1) (Hb2 : is_basic g2) (Hb3 : is_basic g3)
    (Ha0 : ps_address g0 = 0) (Ha1 : ps_address g1 = 1)
    (Ha2 : ps_address g2 = 2) (Ha3 : ps_address g3 = 3) :
  let p' := rds_parser_feed p [g0; g1; g2; g3] in
  di (rds_parser_feed p [g0; g1; g2]) = di p /\
  Z.testbit (di p') 3 = di_flag g0 /\
  Z.testbit (di p') 2 = di_flag g1 /\
  Z.testbit (di p') 1 = di_flag g2 /\
  Z.testbit (di p') 0 = di_flag g3 /\
  rds_has_dynamic_program_type p' = di_flag g0 /\
  rds_has_stereo p' = di_flag g3.
Proof.
  cbn [rds_parser_feed fold_left].
  set (p1 := rds_parser_update p g0).
  set (p2 := rds_parser_update p1 g1).
  set (p3 := rds_parser_update p2 g2).
  set (p4 := rds_parser_update p3 g3).
  assert (Hd3 : di p3 = di p).
  { subst p3 p2 p1. rewrite !update_di_commit by assumption.
    rewrite Ha0, Ha1, Ha2. reflexivity. }
  assert (Hd4 : di p4 = di_scratch p4).
  { subst p4. rewrite update_di_commit by assumption. rewrite Ha3. reflexivity. }
  assert (Hbits : Z.testbit (di p4) 3 = di_flag g0 /\ Z.testbit (di p4) 2 = di_flag g1 /\
                  Z.testbit (di p4) 1 = di_flag g2 /\ Z.testbit (di p4) 0 = di_flag g3).
  { rewrite Hd4. subst p4 p3 p2 p1.
    repeat split;
      repeat (rewrite update_di_scratch_bit by (assumption || lia);
              rewrite ?Ha0, ?Ha1, ?Ha2, ?Ha3; cbn [Z.sub Z.add Z.opp Z.pos_sub Z.eqb Pos.eqb
                                                   Z.succ_double Z.pred_double Z.double
                                                   Pos.pred_double]);
      reflexivity. }
  destruct Hbits as (B3 & B2 & B1 & B0).
  split; [exact Hd3|]. repeat split; try assumption.
  - unfold rds_has_dynamic_program_type. change 0x08 with (2 ^ 3).
    rewrite flag_of_land by lia. exact B3.
  - unfold rds_has_stereo. change 0x01 with (2 ^ 0).
    rewrite flag_of_land by lia. exact B0.
Qed.

(** ** Strings stay terminated *)

Lemma c_str_bound (l : list Z) : forall n : nat,
  l !! n = Some 0 -> (length (c_str l) <= n)%nat.
Proof.
  induction l as [|ch rest IH]; intros n Hn; [discriminate|].
  cbn [c_str]. destruct (Z.eqb_spec ch 0); [cbn; lia|].
  destruct n as [|n]; [cbn in Hn; congruence|].
  cbn in Hn. specialize (IH n Hn). cbn. lia.
Qed.

Lemma get_last_of (l : list Z) (n : nat) :
  length l = S n -> get l (Z.of_nat n) = 0 -> l !! n = Some 0.
Proof.
  intros Hl Hg. unfold get in Hg. rewrite Nat2Z.id in Hg.
  destruct (l !! n) as [x|] eqn:E; [cbn in Hg; congruence|].
  apply lookup_ge_None in E. lia.
Qed.

Lemma memcpy_keeps_tail (dst src : list Z) (n : nat) :
  (n <= length src)%nat -> get (memcpy dst src n) (Z.of_nat n) = get dst (Z.of_nat n).
Proof.
  intros Hn. unfold get, memcpy. rewrite Nat2Z.id.
  rewrite lookup_app_r by (rewrite length_take; lia).
  rewrite length_take, lookup_drop.
  replace (n + (n - n `min` length src))%nat with n by lia. reflexivity.
Qed.

Lemma update_keeps_terminators p g :
  parser_wf p -> 0 <= alt_freq_count p <= 25 ->
  get (ps_str p) 8 = 0 -> get (rt_str p) 64 = 0 ->
  get (ps_str (rds_parser_update p g)) 8 = 0 /\ get (rt_str (rds_parser_update p g)) 64 = 0.
Proof.
  intros Hwf Hc Hps Hrt.
  destruct (update_inv p g Hwf Hc) as [(L1 & L2 & L3 & L4 & L5) _].
  destruct (Z.eqb_spec (rds_get_group_type g) RDS_GROUP_BASIC) as [Hb|Hnb].
  - rewrite (update_ps_str _ _ Hb).
    assert (Hr : rt_str (rds_parser_update p g) = rt_str p).
    { rewrite (update_basic _ _ Hb).
      pose proof (group_basic_frame (update_header p g) g) as H. cbn zeta in H.
      destruct H as (_ & _ & -> & _). reflexivity. }
    rewrite Hr. split; [|assumption].
    destruct (ps_address g =? 3); [|assumption].
    change 8 with (Z.of_nat 8). rewrite memcpy_keeps_tail by lia. assumption.
  - destruct (Z.eqb_spec (rds_get_group_type g) RDS_GROUP_RT) as [Hr|Hnr].
    + assert (Hp : ps_str (rds_parser_update p g) = ps_str p).
      { rewrite (update_rt _ _ Hr).
        pose proof (group_rt_frame (update_header p g) g) as H. cbn zeta in H.
        destruct H as (_ & _ & -> & _). reflexivity. }
      rewrite Hp. split; [assumption|].
      pose proof (update_rt_fields p g Hr) as H. cbn zeta in H. destruct H as [Hs Ht].
      rewrite Ht. destruct (snd _); [|assumption].
      change 64 with (Z.of_nat 64). rewrite memcpy_keeps_tail; [assumption|].
      rewrite rt_consume_length. destruct Hwf as (_ & _ & _ & H4 & _). lia.
    + rewrite update_unfold.
      destruct (Z.eqb_spec (rds_get_group_type g) RDS_GROUP_BASIC); [contradiction|].
      destruct (Z.eqb_spec (rds_get_group_type g) RDS_GROUP_RT); [contradiction|].
      cbn. split; assumption.
Qed.

(** Whatever groups arrive after a reset, in whatever order and with
    whatever contents, the station name and the radio text that readers get
    stay NUL-terminated inside their buffers: the last byte of [ps_str]
    and of [rt_str] is never written, so the name has at most 8
    characters and the text at most 64. *)
Theorem strings_stay_terminated (gs : list rds_group_t) :
  let p := rds_parser_feed rds_parser_reset gs in
  parser_wf p /\
  get (ps_str p) 8 = 0 /\ get (rt_str p) 64 = 0 /\
  (length (rds_get_program_service_name_str p) <= 8)%nat /\
  (length (rds_get_radio_text_str p) <= 64)%nat.
Proof.
  assert (H : forall p,
            parser_wf p /\ 0 <= alt_freq_count p <= 25 /\
            get (ps_str p) 8 = 0 /\ get (rt_str p) 64 = 0 ->
            let q := rds_parser_feed p gs in
            parser_wf q /\ 0 <= alt_freq_count q <= 25 /\
            get (ps_str q) 8 = 0 /\ get (rt_str q) 64 = 0).
  { unfold rds_parser_feed. induction gs as [|g gs IH]; intros p Hp; [exact Hp|].
    cbn [fold_left]. apply IH. destruct Hp as (Hwf & Hc & Hps & Hrt).
    destruct (update_inv p g Hwf Hc). destruct (update_keeps_terminators p g Hwf Hc Hps Hrt).
    tauto. }
  intros p. destruct (H rds_parser_reset) as (Hwf & _ & Hps & Hrt).
  { split; [exact parser_wf_reset|]. cbn. repeat split; lia. }
  fold p in Hwf, Hps, Hrt.
  split; [assumption|]. split; [assumption|]. split; [assumption|].
  destruct Hwf as (L1 & _ & L3 & _).
  split; apply c_str_bound, get_last_of; assumption.
Qed.

(** ** The list of alternative frequencies *)

Lemma add_alt_freq_step p v :
  parser_wf p -> 0 <= alt_freq_count p <= 25 -> is_u8 v ->
  (rds_add_alt_freq p v = p) \/
  (alt_freq_list (rds_add_alt_freq p v) = alt_freq_list p ++ [v] /\
   0 < v < 205 /\ ~ In v (alt_freq_list p) /\
   alt_freq_count (rds_add_alt_freq p v) = alt_freq_count p + 1).
Proof.
  intros Hwf Hc Hv.
  destruct (alt_freq_ok_dec p v) as [Hok|Hno].
  - right. destruct (add_alt_freq_ok p v Hwf Hc Hok) as [H1 H2].
    destruct Hok as (Hr & _ & Hin). tauto.
  - left. apply add_alt_freq_drop; assumption.
Qed.

Lemma u8_is_u8 x : is_u8 (u8 x).
Proof. unfold is_u8, u8. apply Z.mod_pos_bound. lia. Qed.

(** The state in which a group 0A / 0B reaches the alternative-frequency
    step has the list of the state before the group. *)
Lemma basic_prefix_alt_freq p g :
  parser_wf p ->
  let q := rds_parse_group_basic_di (rds_parse_group_basic_ps (update_header p g) g) g in
  parser_wf q /\ alt_freq q = alt_freq p /\ alt_freq_count q = alt_freq_count p.
Proof.
  intros (H1 & H2 & H3 & H4 & H5) q. subst q.
  unfold parser_wf, memcpy, set. cbn.
  repeat split; try assumption; unfold memcpy, set.
  - destruct (Z.land (b g) 3 =? 3); [|assumption].
    rewrite length_app, length_take, length_drop, !length_insert. lia.
  - rewrite !length_insert. assumption.
Qed.

Lemma alt_freq_list_eq p q :
  alt_freq q = alt_freq p -> alt_freq_count q = alt_freq_count p ->
  alt_freq_list q = alt_freq_list p.
Proof. intros H1 H2. unfold alt_freq_list. rewrite H1, H2. reflexivity. Qed.

(** What one group does to the list: nothing, or it appends up to two new
    entries, each in range and not yet present. *)
Lemma update_alt_freq_step p g :
  parser_wf p -> 0 <= alt_freq_count p <= 25 ->
  exists added,
    alt_freq_list (rds_parser_update p g) = alt_freq_list p ++ added /\
    alt_freq_count (rds_parser_update p g) = alt_freq_count p + Z.of_nat (length added) /\
    (length added <= 2)%nat /\
    NoDup added /\
    Forall (fun v => 0 < v < 205 /\ ~ In v (alt_freq_list p)) added /\
    (~ (is_basic g /\ is_version_a g) -> added = []).
Proof.
  intros Hwf Hc.
  assert (Hnil : alt_freq (rds_parser_update p g) = alt_freq p ->
                 alt_freq_count (rds_parser_update p g) = alt_freq_count p ->
                 exists added,
                   alt_freq_list (rds_parser_update p g) = alt_freq_list p ++ added /\
                   alt_freq_count (rds_parser_update p g)
                     = alt_freq_count p + Z.of_nat (length added) /\
                   (length added <= 2)%nat /\ NoDup added /\
                   Forall (fun v => 0 < v < 205 /\ ~ In v (alt_freq_list p)) added /\
                   (~ (is_basic g /\ is_version_a g) -> added = [])).
  { intros E1 E2. exists []. rewrite app_nil_r, (alt_freq_list_eq _ _ E1 E2), E2.
    cbn. repeat split; try lia; try constructor. }
  destruct (Z.eqb_spec (rds_get_group_type g) RDS_GROUP_BASIC) as [Hb|Hnb].
  - rewrite (update_basic _ _ Hb) in *.
    unfold rds_parse_group_basic in *.
    pose proof (basic_prefix_alt_freq p g Hwf) as Hq. cbn zeta in Hq.
    set (q := rds_parse_group_basic_di (rds_parse_group_basic_ps (update_header p g) g) g) in *.
    destruct Hq as (Hqwf & Hqa & Hqc).
    assert (Hql : alt_freq_list q = alt_freq_list p) by (apply alt_freq_list_eq; assumption).
    unfold rds_parse_group_basic_alt_freq in *.
    destruct (Z.eqb_spec (rds_get_group_version g) 0) as [Hv|Hv]; cbn [negb] in *.
    2:{ apply Hnil; assumption. }
    set (f0 := u8 (Z.shiftr (c g) 8)). set (f1 := u8 (Z.land (c g) 255)).
    assert (Hqc' : 0 <= alt_freq_count q <= 25) by lia.
    destruct (add_alt_freq_inv q f0 Hqwf Hqc') as [Hwf1 Hc1].
    destruct (add_alt_freq_step q f0 Hqwf Hqc' (u8_is_u8 _)) as [E0|(L0 & R0 & N0 & C0)];
      destruct (add_alt_freq_step (rds_add_alt_freq q f0) f1 Hwf1 Hc1 (u8_is_u8 _))
        as [E1|(L1 & R1 & N1 & C1)].
    + exists []. rewrite E1, E0, Hql, Hqc, app_nil_r.
      split; [reflexivity|]. split; [cbn; lia|]. split; [cbn; lia|].
      split; [constructor|]. split; [constructor|]. reflexivity.
    + rewrite E0 in *. exists [f1]. rewrite L1, C1, Hql, Hqc.
      rewrite Hql in N1.
      split; [reflexivity|]. split; [cbn; lia|]. split; [cbn; lia|].
      split; [apply NoDup_singleton|].
      split; [repeat constructor; (lia || assumption)|].
      intros Hn. exfalso. apply Hn. split; assumption.
    + exists [f0]. rewrite E1, L0, C0, Hql, Hqc.
      rewrite Hql in N0.
      split; [reflexivity|]. split; [cbn; lia|]. split; [cbn; lia|].
      split; [apply NoDup_singleton|].
      split; [repeat constructor; (lia || assumption)|].
      intros Hn. exfalso. apply Hn. split; assumption.
    + exists [f0; f1]. rewrite L1, C1, L0, C0, Hql, Hqc. rewrite <- app_assoc.
      rewrite L0, Hql in N1. rewrite Hql in N0.
      assert (Hf : f1 <> f0 /\ ~ In f1 (alt_freq_list p)).
      { rewrite in_app_iff in N1. cbn in N1. split; [intros Heq; symmetry in Heq|]; tauto. }
      destruct Hf as [Hne Hnin].
      split; [reflexivity|]. split; [cbn; lia|]. split; [cbn; lia|].
      split.
      { apply NoDup_cons_2; [|apply NoDup_singleton].
        intros Hin. apply list_elem_of_singleton in Hin. congruence. }
      split; [repeat constructor; (lia || assumption)|].
      intros Hn. exfalso. apply Hn. split; assumption.
  - destruct (Z.eqb_spec (rds_get_group_type g) RDS_GROUP_RT) as [Hr|Hnr].
    + destruct Hnil as (added & H); [| |exists added; exact H].
      * rewrite (update_rt _ _ Hr).
        pose proof (group_rt_frame (update_header p g) g) as H. cbn zeta in H.
        destruct H as (_ & _ & _ & _ & -> & _). reflexivity.
      * rewrite (update_rt _ _ Hr).
        pose proof (group_rt_frame (update_header p g) g) as H. cbn zeta in H.
        destruct H as (_ & _ & _ & _ & _ & ->). reflexivity.
    + destruct Hnil as (added & H); [| |exists added; exact H].
      * rewrite update_unfold.
        destruct (Z.eqb_spec (rds_get_group_type g) RDS_GROUP_BASIC); [contradiction|].
        destruct (Z.eqb_spec (rds_get_group_type g) RDS_GROUP_RT); [contradiction|].
        reflexivity.
      * rewrite update_unfold.
        destruct (Z.eqb_spec (rds_get_group_type g) RDS_GROUP_BASIC); [contradiction|].
        destruct (Z.eqb_spec (rds_get_group_type g) RDS_GROUP_RT); [contradiction|].
        reflexivity.
Qed.

(** Whatever groups arrive after a reset, the list of alternative
    frequencies that readers see through the count and the indexed accessor
    has at most 25 entries, holds only raw values 1..204, and holds no value
    twice. *)
Theorem alt_freq_list_invariant (gs : list rds_group_t) :
  let p := rds_parser_feed rds_parser_reset gs in
  0 <= rds_get_alternative_frequency_count p <= 25 /\
  Z.of_nat (length (alt_freq_list p)) = rds_get_alternative_frequency_count p /\
  NoDup (alt_freq_list p) /\
  Forall (fun v => 0 < v < 205) (alt_freq_list p) /\
  (forall i, 0 <= i < rds_get_alternative_frequency_count p ->
     0 < rds_get_alternative_frequency p i < 205).
Proof.
  assert (H : forall p,
            parser_wf p /\ 0 <= alt_freq_count p <= 25 /\
            NoDup (alt_freq_list p) /\ Forall (fun v => 0 < v < 205) (alt_freq_list p) ->
            let q := rds_parser_feed p gs in
            parser_wf q /\ 0 <= alt_freq_count q <= 25 /\
            NoDup (alt_freq_list q) /\ Forall (fun v => 0 < v < 205) (alt_freq_list q)).
  { unfold rds_parser_feed. induction gs as [|g gs IH]; intros p Hp; [exact Hp|].
    cbn [fold_left]. apply IH. destruct Hp as (Hwf & Hc & Hnd & Hall).
    destruct (update_inv p g Hwf Hc) as [Hwf' Hc'].
    destruct (update_alt_freq_step p g Hwf Hc) as (added & -> & _ & _ & Hnda & Hfa & _).
    split; [assumption|]. split; [assumption|]. split.
    - apply list.NoDup_app. split; [assumption|]. split; [|assumption].
      intros x Hx Hxa. rewrite Forall_forall in Hfa.
      apply (proj2 (Hfa x ltac:(apply list_elem_of_In; exact Hxa))).
      apply list_elem_of_In. exact Hx.
    - apply Forall_app. split; [assumption|].
      eapply Forall_impl; [|exact Hfa]. cbn. tauto. }
  intros p. destruct (H rds_parser_reset) as (Hwf & Hc & Hnd & Hall).
  { split; [exact parser_wf_reset|]. cbn. repeat split; try lia; constructor. }
  fold p in Hwf, Hc, Hnd, Hall.
  unfold rds_get_alternative_frequency_count, rds_get_alternative_frequency.
  assert (Hlen : Z.of_nat (length (alt_freq_list p)) = alt_freq_count p).
  { unfold alt_freq_list. rewrite length_take.
    destruct Hwf as (_ & _ & _ & _ & L5). lia. }
  repeat split; try assumption; try lia.
  all: assert (Hi : exists v, alt_freq_list p !! Z.to_nat i = Some v /\ get (alt_freq p) i = v).
  all: try (unfold alt_freq_list, get;
            rewrite lookup_take_lt by lia;
            destruct (alt_freq p !! Z.to_nat i) as [v|] eqn:E;
            [exists v; split; reflexivity|];
            apply lookup_ge_None in E; destruct Hwf as (_ & _ & _ & _ & L5); lia).
  all: destruct Hi as (v & Hv & ->);
       rewrite Forall_forall in Hall;
       apply list_elem_of_lookup_2, list_elem_of_In in Hv; apply Hall in Hv; lia.
Qed.

(** A group never removes or reorders alternative frequencies: the list
    before the group is a prefix of the list after it. At most two entries
    are appended, and only a group 0A appends any (a group 0B, a radio-text
    group or a group of another type leaves the list as it is). *)
Theorem alt_freq_list_only_grows
    (p : rds_parser_t) (g : rds_group_t)
    (Hwf : parser_wf p) (Hcnt : 0 <= alt_freq_count p <= 25) :
  exists added,
    alt_freq_list (rds_parser_update p g) = alt_freq_list p ++ added /\
    (length added <= 2)%nat /\
    (~ (is_basic g /\ is_version_a g) -> added = []).
Proof.
  destruct (update_alt_freq_step p g Hwf Hcnt) as (added & H1 & _ & H2 & _ & _ & H3).
  exists added. tauto.
Qed.

(** ** The radio-text A/B flag *)

Lemma rt_flag_value x : to_bool (Z.land (Z.shiftr x 4) 1) = Z.testbit x 4.
Proof.
  unfold to_bool. change 1 with (Z.ones 1). rewrite Z.land_ones by lia. change (2 ^ 1) with 2.
  rewrite <- Z.bit0_mod, Z.shiftr_spec by lia. rewrite Z.add_0_l.
  destruct (Z.testbit x 4); reflexivity.
Qed.

(** The A/B flag of the radio text is published together with the text: a
    radio-text group either leaves both [rt_str] and the flag as they were,
    or copies the scratch text and takes bit 4 of its own block B as the
    flag. Groups of every other type leave text and flag alone. *)
Theorem rt_flag_published_with_text (q : rds_parser_t) (h : rds_group_t) :
  let q' := rds_parser_update q h in
  (is_rt h ->
     rt_scratch_a_b q' = rt_flag h /\
     ((rt_str q' = rt_str q /\ rds_has_alternative_radio_text q' = rds_has_alternative_radio_text q)
      \/ (rt_str q' = memcpy (rt_str q) (rt_scratch_str q') 64 /\
          rds_has_alternative_radio_text q' = rt_flag h))) /\
  (~ is_rt h ->
     rt_str q' = rt_str q /\
     rds_has_alternative_radio_text q' = rds_has_alternative_radio_text q).
Proof.
  intros q'. subst q'. unfold rds_has_alternative_radio_text. split.
  - intros Hr. rewrite (update_rt _ _ Hr). unfold rds_parse_group_rt.
    destruct (rt_consume _ _ _) as [scratch finished]. cbn.
    rewrite rt_flag_value. fold (rt_flag h). split; [reflexivity|].
    destruct finished; [right|left]; split; reflexivity.
  - intros Hnr. rewrite update_unfold.
    destruct (Z.eqb_spec (rds_get_group_type h) RDS_GROUP_BASIC) as [Hb|Hnb].
    + pose proof (group_basic_frame (update_header q h) h) as H1. cbn zeta in H1.
      pose proof (group_basic_keeps (update_header q h) h) as H2. cbn zeta in H2.
      destruct H1 as (_ & _ & -> & _). destruct H2 as (_ & _ & _ & -> & _).
      split; reflexivity.
    + destruct (Z.eqb_spec (rds_get_group_type h) RDS_GROUP_RT); [contradiction|].
      split; reflexivity.
Qed.

(** ** Group types do not interfere *)

(** A radio-text group leaves the station name, its scratch buffer, the
    decoder identification and the alternative frequencies untouched; a
    group 0A / 0B leaves the radio text, its scratch buffer and both A/B
    flags untouched; a group of any other type changes none of these. *)
Theorem group_types_do_not_interfere (p : rds_parser_t) (g : rds_group_t) :
  let p' := rds_parser_update p g in
  (~ is_basic g ->
     ps_str p' = ps_str p /\ ps_scratch_str p' = ps_scratch_str p /\
     di p' = di p /\ di_scratch p' = di_scratch p /\
     alt_freq p' = alt_freq p /\ alt_freq_count p' = alt_freq_count p) /\
  (~ is_rt g ->
     rt_str p' = rt_str p /\ rt_scratch_str p' = rt_scratch_str p /\
     rt_a_b p' = rt_a_b p /\ rt_scratch_a_b p' = rt_scratch_a_b p).
Proof.
  intros p'. subst p'. rewrite update_unfold. split.
  - intros Hnb.
    destruct (Z.eqb_spec (rds_get_group_type g) RDS_GROUP_BASIC); [contradiction|].
    destruct (Z.eqb_spec (rds_get_group_type g) RDS_GROUP_RT).
    + pose proof (group_rt_frame (update_header p g) g) as H1. cbn zeta in H1.
      pose proof (group_rt_keeps (update_header p g) g) as H2. cbn zeta in H2.
      destruct H1 as (_ & _ & -> & -> & -> & ->).
      destruct H2 as (_ & _ & _ & -> & ->). cbn. tauto.
    + cbn. tauto.
  - intros Hnr.
    destruct (Z.eqb_spec (rds_get_group_type g) RDS_GROUP_BASIC).
    + pose proof (group_basic_frame (update_header p g) g) as H1. cbn zeta in H1.
      pose proof (group_basic_keeps (update_header p g) g) as H2. cbn zeta in H2.
      destruct H1 as (_ & _ & -> & -> & _).
      destruct H2 as (_ & _ & _ & -> & -> & _). cbn. tauto.
    + destruct (Z.eqb_spec (rds_get_group_type g) RDS_GROUP_RT); [contradiction|].
      cbn. tauto.
Qed.

(** ** Witnesses *)

Lemma program_id_hex_round_trip_witness :
  exists c0 c1 c2 c3,
    rds_get_program_id_as_str
      (rds_parser_update rds_parser_reset (mk_group 0xBEEF 0 0 0)) [1; 2; 3; 4; 5; 6]
      = Some (c0 :: c1 :: c2 :: c3 :: 0 :: drop 5 [1; 2; 3; 4; 5; 6]) /\
    Forall is_hex_digit [c0; c1; c2; c3] /\
    ((hex_digit_value c0 * 16 + hex_digit_value c1) * 16 + hex_digit_value c2) * 16
      + hex_digit_value c3
      = rds_get_program_id (rds_parser_update rds_parser_reset (mk_group 0xBEEF 0 0 0)) /\
    c_str (c0 :: c1 :: c2 :: c3 :: 0 :: drop 5 [1; 2; 3; 4; 5; 6]) = [c0; c1; c2; c3].
Proof.
  apply (program_id_hex_round_trip
           (rds_parser_update rds_parser_reset (mk_group 0xBEEF 0 0 0)) [1; 2; 3; 4; 5; 6]).
  - vm_compute. split; [discriminate|reflexivity].
  - cbn. lia.
Defined.

Lemma header_fields_follow_last_group_witness :
  let p' := rds_parser_feed rds_parser_reset ([rt_group 0 72 73 13 0] ++ [mk_group 0xBEEF 0x54A0 0 0]) in
  rds_get_program_id p' = 0xBEEF /\
  rds_get_program_type p' = (0x54A0 / 32) mod 32 /\
  rds_has_traffic_program p' = Z.testbit 0x54A0 10.
Proof.
  apply (header_fields_follow_last_group rds_parser_reset [rt_group 0 72 73 13 0]
           (mk_group 0xBEEF 0x54A0 0 0)).
  vm_compute. intuition discriminate.
Defined.

Lemma di_assembled_from_four_segments_witness :
  let p' := rds_parser_feed rds_parser_reset
              [di_group 0 true; di_group 1 false; di_group 2 false; di_group 3 true] in
  di (rds_parser_feed rds_parser_reset [di_group 0 true; di_group 1 false; di_group 2 false])
    = di rds_parser_reset /\
  Z.testbit (di p') 3 = di_flag (di_group 0 true) /\
  Z.testbit (di p') 2 = di_flag (di_group 1 false) /\
  Z.testbit (di p') 1 = di_flag (di_group 2 false) /\
  Z.testbit (di p') 0 = di_flag (di_group 3 true) /\
  rds_has_dynamic_program_type p' = di_flag (di_group 0 true) /\
  rds_has_stereo p' = di_flag (di_group 3 true).
Proof.
  apply (di_assembled_from_four_segments rds_parser_reset
           (di_group 0 true) (di_group 1 false) (di_group 2 false) (di_group 3 true));
    reflexivity.
Defined.

Lemma alt_freq_list_only_grows_witness :
  exists added,
    alt_freq_list (rds_parser_update (rds_parser_update rds_parser_reset (af_group 100 101))
                     (af_group 101 102))
      = alt_freq_list (rds_parser_update rds_parser_reset (af_group 100 101)) ++ added /\
    (length added <= 2)%nat /\
    (~ (is_basic (af_group 101 102) /\ is_version_a (af_group 101 102)) -> added = []).
Proof.
  apply (alt_freq_list_only_grows (rds_parser_update rds_parser_reset (af_group 100 101))
           (af_group 101 102)).
  - vm_compute. repeat split; reflexivity.
  - vm_compute. split; discriminate.
Defined.

End RdsParserMore.

(** * Frequency and channel conversion in binary32 arithmetic *)

Module FrequencyProps.

Import Rda5807.

Lemma digits2_pos_size (m : positive) : digits2_pos m = Pos.size m.
Proof. induction m; simpl; congruence. Qed.

Lemma digits2_bounds (m : positive) :
  2 ^ (Z.pos (digits2_pos m) - 1) <= Z.pos m < 2 ^ Z.pos (digits2_pos m).
Proof.
  rewrite digits2_pos_size.
  pose proof (Pos.size_gt m) as Hgt. pose proof (Pos.size_le m) as Hle.
  apply Pos2Z.pos_lt_pos in Hgt. apply Pos2Z.pos_le_pos in Hle.
  rewrite Pos2Z.inj_pow in Hgt, Hle.
  change (Z.pos m~0) with (2 * Z.pos m) in Hle.
  replace (2 ^ Z.pos (Pos.size m)) with (2 * 2 ^ (Z.pos (Pos.size m) - 1)) in Hle.
  - lia.
  - rewrite <- Z.pow_succ_r by lia. f_equal. lia.
Qed.

Lemma digits2_unique (m : positive) (n : Z) :
  2 ^ (n - 1) <= Z.pos m < 2 ^ n -> 0 < n -> Z.pos (digits2_pos m) = n.
Proof.
  intros [Hlo Hhi] Hn. pose proof (digits2_bounds m) as [Dlo Dhi].
  set (k := Z.pos (digits2_pos m)) in *. assert (0 < k) by (subst k; lia).
  destruct (Z.lt_trichotomy k n) as [Hlt|[Heq|Hgt]]; [|assumption|].
  - assert (2 ^ k <= 2 ^ (n - 1)) by (apply Z.pow_le_mono_r; lia). lia.
  - assert (2 ^ n <= 2 ^ (k - 1)) by (apply Z.pow_le_mono_r; lia). lia.
Qed.

Lemma pos_iter_xO (m d : positive) : Z.pos (Pos.iter xO m d) = Z.pos m * 2 ^ Z.pos d.
Proof.
  revert m. induction d using Pos.peano_ind; intros m.
  - simpl. lia.
  - rewrite Pos.iter_succ, Pos2Z.inj_xO, IHd, Pos2Z.inj_succ, Z.pow_succ_r by lia. lia.
Qed.

(** binary32 *)

Lemma fexp32 x : fexp 24 128 x = Z.max (x - 24) (-149).
Proof. reflexivity. Qed.

Lemma loc_of_record_of m l : loc_of_shr_record (shr_record_of_loc m l) = l.
Proof. destruct l as [|[]]; reflexivity. Qed.

Lemma shr_m_record_of m l : shr_m (shr_record_of_loc m l) = m.
Proof. destruct l as [|[]]; reflexivity. Qed.

Lemma shr_fexp_24 (m : positive) e l :
  Z.pos (digits2_pos m) = 24 -> -149 <= e ->
  shr_fexp 24 128 (Z.pos m) e l = (shr_record_of_loc (Z.pos m) l, e).
Proof.
  intros Hd He. unfold shr_fexp. rewrite fexp32. cbn [Zdigits2]. rewrite Hd.
  replace (Z.max (24 + e - 24) (-149) - e) with 0 by lia. reflexivity.
Qed.

Lemma shr_fexp_25 (m : positive) e l :
  Z.pos (digits2_pos m) = 25 -> -149 <= e ->
  shr_fexp 24 128 (Z.pos m) e l = (shr_1 (shr_record_of_loc (Z.pos m) l), e + 1).
Proof.
  intros Hd He. unfold shr_fexp. rewrite fexp32. cbn [Zdigits2]. rewrite Hd.
  replace (Z.max (25 + e - 24) (-149) - e) with 1 by lia. reflexivity.
Qed.

(** The second normalisation of [binary_round_aux]: a rounded mantissa is at
    most 2^24, and only 2^24 itself needs one more shift. *)
Lemma renormalize (M : Z) e :
  2 ^ 23 <= M <= 2 ^ 24 -> -149 <= e <= 102 ->
  (let '(mrs, e') := shr_fexp 24 128 M e loc_Exact in
   match shr_m mrs with
   | Z0 => S754_zero false
   | Zpos m => if e' <=? 128 - 24 then S754_finite false m e' else S754_infinity false
   | Zneg _ => S754_nan
   end) =
  if M =? 2 ^ 24 then S754_finite false (2 ^ 23)%positive (e + 1)
  else S754_finite false (Z.to_pos M) e.
Proof.
  intros HM He. destruct M as [|m|m]; try lia.
  destruct (Z.eqb_spec (Z.pos m) (2 ^ 24)) as [E|NE].
  - injection E as ->. rewrite shr_fexp_25 by (reflexivity || lia).
    cbn [shr_record_of_loc shr_1 shr_m].
    destruct (Z.leb_spec (e + 1) (128 - 24)); [reflexivity|lia].
  - assert (Hd : Z.pos (digits2_pos m) = 24) by (apply digits2_unique; lia).
    rewrite shr_fexp_24 by (assumption || lia). cbn [shr_record_of_loc shr_m].
    destruct (Z.leb_spec e (128 - 24)); [reflexivity|lia].
Qed.

Lemma binary_round_aux_unfold mx ex lx :
  binary_round_aux 24 128 false mx ex lx =
    let '(mrs', e') := shr_fexp 24 128 mx ex lx in
    let '(mrs'', e'') :=
      shr_fexp 24 128 (round_nearest_even (shr_m mrs') (loc_of_shr_record mrs')) e' loc_Exact in
    match shr_m mrs'' with
    | Z0 => S754_zero false
    | Zpos m => if e'' <=? 128 - 24 then S754_finite false m e'' else S754_infinity false
    | Zneg _ => S754_nan
    end.
Proof. reflexivity. Qed.

Lemma rne_bounds m l : m <= round_nearest_even m l <= m + 1.
Proof. unfold round_nearest_even. destruct l as [|[]]; try destruct (Z.even m); lia. Qed.

Lemma binary_round_aux_24 (m : positive) e l :
  Z.pos (digits2_pos m) = 24 -> -149 <= e <= 102 ->
  binary_round_aux 24 128 false (Z.pos m) e l =
    let M := round_nearest_even (Z.pos m) l in
    if M =? 2 ^ 24 then S754_finite false (2 ^ 23)%positive (e + 1)
    else S754_finite false (Z.to_pos M) e.
Proof.
  intros Hd He. rewrite binary_round_aux_unfold, shr_fexp_24 by (assumption || lia).
  rewrite loc_of_record_of, shr_m_record_of.
  pose proof (digits2_bounds m) as Hb. rewrite Hd in Hb.
  pose proof (rne_bounds (Z.pos m) l) as Hr.
  change (24 - 1) with 23 in Hb.
  apply (renormalize (round_nearest_even (Z.pos m) l) e); lia.
Qed.

Lemma shr_1_m (m : positive) r s :
  shr_m (shr_1 {| shr_m := Z.pos m; shr_r := r; shr_s := s |}) = Z.pos m / 2.
Proof.
  destruct m as [p|p|]; cbn [shr_1 shr_m].
  - apply (Z.div_unique (Z.pos p~1) 2 (Z.pos p) 1); lia.
  - apply (Z.div_unique (Z.pos p~0) 2 (Z.pos p) 0); lia.
  - reflexivity.
Qed.

Lemma shr_1_r (m : positive) r s :
  shr_r (shr_1 {| shr_m := Z.pos m; shr_r := r; shr_s := s |}) = Z.odd (Z.pos m).
Proof. destruct m; reflexivity. Qed.

Lemma shr_1_s (m : positive) r s :
  shr_s (shr_1 {| shr_m := Z.pos m; shr_r := r; shr_s := s |}) = r || s.
Proof. destruct m; reflexivity. Qed.

Lemma binary_round_aux_25 (m : positive) e l :
  Z.pos (digits2_pos m) = 25 -> -149 <= e <= 101 ->
  binary_round_aux 24 128 false (Z.pos m) e l =
    let mrs := shr_1 (shr_record_of_loc (Z.pos m) l) in
    let M := round_nearest_even (shr_m mrs) (loc_of_shr_record mrs) in
    if M =? 2 ^ 24 then S754_finite false (2 ^ 23)%positive (e + 2)
    else S754_finite false (Z.to_pos M) (e + 1).
Proof.
  intros Hd He. rewrite binary_round_aux_unfold, shr_fexp_25 by (assumption || lia).
  pose proof (digits2_bounds m) as Hb. rewrite Hd in Hb. change (25 - 1) with 24 in Hb.
  set (mrs := shr_1 (shr_record_of_loc (Z.pos m) l)).
  assert (Hm : shr_m mrs = Z.pos m / 2).
  { subst mrs. destruct l as [|[]]; apply shr_1_m. }
  pose proof (rne_bounds (shr_m mrs) (loc_of_shr_record mrs)) as Hr.
  assert (2 ^ 23 <= Z.pos m / 2 < 2 ^ 24).
  { split; [apply Z.div_le_lower_bound; lia | apply Z.div_lt_upper_bound; lia]. }
  cbn zeta.
  replace (e + 2) with (e + 1 + 1) by lia.
  apply (renormalize (round_nearest_even (shr_m mrs) (loc_of_shr_record mrs)) (e + 1)); lia.
Qed.

Lemma shl_align_spec (m : positive) e e' :
  e' <= e ->
  exists M, shl_align m e e' = (M, e') /\ Z.pos M = Z.pos m * 2 ^ (e - e').
Proof.
  intros Hle. unfold shl_align.
  destruct (e' - e) as [|k|k] eqn:Ek; try lia.
  - assert (e' = e) as -> by lia. exists m. rewrite Z.sub_diag. split; [reflexivity|lia].
  - exists (Pos.iter xO m k). split; [reflexivity|].
    rewrite pos_iter_xO. f_equal. f_equal. lia.
Qed.

Lemma digits_shift (m M : positive) k :
  0 <= k -> Z.pos M = Z.pos m * 2 ^ k ->
  Z.pos (digits2_pos M) = Z.pos (digits2_pos m) + k.
Proof.
  intros Hk HM. pose proof (digits2_bounds m) as [Hlo Hhi].
  apply digits2_unique; [|lia]. rewrite HM.
  replace (Z.pos (digits2_pos m) + k - 1) with (Z.pos (digits2_pos m) - 1 + k) by lia.
  rewrite !Z.pow_add_r by lia.
  assert (0 < 2 ^ k) by (apply Z.pow_pos_nonneg; lia). nia.
Qed.

(** A positive integer below 2^24 times a power of two is a binary32 value:
    normalising it loses nothing. *)
Lemma binary_normalize_exact (m : positive) (e : Z) :
  Z.pos m < 2 ^ 24 -> -100 <= e <= 100 ->
  exists M E,
    binary_normalize 24 128 (Z.pos m) e false = S754_finite false M E /\
    Z.pos (digits2_pos M) = 24 /\
    E = e - (24 - Z.pos (digits2_pos m)) /\
    Z.pos M = Z.pos m * 2 ^ (e - E).
Proof.
  intros Hm He. pose proof (digits2_bounds m) as [Hlo Hhi].
  set (d := Z.pos (digits2_pos m)) in *.
  assert (Hd : 1 <= d <= 24).
  { split; [subst d; lia|].
    destruct (Z.le_gt_cases d 24) as [|Hgt]; [assumption|].
    assert (2 ^ 24 <= 2 ^ (d - 1)) by (apply Z.pow_le_mono_r; lia). lia. }
  unfold binary_normalize, binary_round. rewrite fexp32. fold d.
  replace (Z.max (d + e - 24) (-149)) with (d + e - 24) by lia.
  destruct (shl_align_spec m e (d + e - 24)) as (M & -> & HM); [lia|].
  replace (e - (d + e - 24)) with (24 - d) in HM by lia.
  assert (HdM : Z.pos (digits2_pos M) = 24).
  { rewrite (digits_shift m M (24 - d)) by (lia || assumption). fold d. lia. }
  rewrite binary_round_aux_24 by (assumption || lia).
  cbn [round_nearest_even]. cbn zeta.
  pose proof (digits2_bounds M) as HbM. rewrite HdM in HbM.
  destruct (Z.eqb_spec (Z.pos M) (2 ^ 24)); [lia|].
  exists M, (d + e - 24). repeat split; try assumption; try lia.
  rewrite HM. f_equal. f_equal. lia.
Qed.

Lemma div_eucl_pair a b : Z.div_eucl a b = (a / b, a mod b).
Proof. unfold Z.div, Z.modulo. destruct (Z.div_eucl a b). reflexivity. Qed.

Lemma div_core (md ms : positive) ed es :
  Z.pos (digits2_pos md) = 24 -> Z.pos (digits2_pos ms) = 24 -> -125 <= ed - es ->
  SFdiv_core_binary 24 128 (Z.pos md) ed (Z.pos ms) es =
    (Z.pos md * 2 ^ 24 / Z.pos ms, ed - es - 24,
     new_location (Z.pos ms) ((Z.pos md * 2 ^ 24) mod Z.pos ms)).
Proof.
  intros Hd Hs He. unfold SFdiv_core_binary. cbn [Zdigits2]. rewrite Hd, Hs, fexp32.
  replace (Z.min (Z.max (24 + ed - (24 + es) - 24) (-149)) (ed - es)) with (ed - es - 24) by lia.
  replace (ed - es - (ed - es - 24)) with 24 by lia.
  rewrite Z.shiftl_mul_pow2 by lia. rewrite div_eucl_pair. reflexivity.
Qed.

Lemma new_location_spec ms r :
  0 < ms -> 0 <= r < ms ->
  match new_location ms r with
  | loc_Exact => r = 0
  | loc_Inexact Lt => 0 < r /\ 2 * r < ms
  | loc_Inexact Eq => 0 < r /\ 2 * r = ms
  | loc_Inexact Gt => ms < 2 * r
  end.
Proof.
  intros Hms Hr. unfold new_location, new_location_even, new_location_odd.
  destruct (Z.even ms) eqn:Hev; destruct (Z.eqb_spec r 0) as [|Hne]; try assumption.
  - destruct (Z.compare_spec (2 * r) ms); lia.
  - assert (Hodd : Z.odd ms = true) by (rewrite <- Z.negb_even, Hev; reflexivity).
    apply Z.odd_spec in Hodd. destruct Hodd as [k Hk].
    destruct (Z.compare_spec (2 * r + 1) ms); lia.
Qed.

(** Rounding a quotient to nearest: the mantissa [round_nearest_even q loc]
    is within half a unit of the exact quotient [(q * ms + r) / ms]. *)
Lemma rne_quotient q ms r :
  0 < ms -> 0 <= r < ms ->
  let M := round_nearest_even q (new_location ms r) in
  2 * Z.abs (M * ms - (q * ms + r)) <= ms.
Proof.
  intros Hms Hr M. subst M. pose proof (new_location_spec ms r Hms Hr) as Hloc.
  unfold round_nearest_even.
  destruct (new_location ms r) as [|[]]; try destruct (Z.even q); nia.
Qed.

(** The same after one more right shift of the quotient. *)
Lemma rne_quotient_shifted (q : positive) ms r :
  0 < ms -> 0 <= r < ms ->
  let mrs := shr_1 (shr_record_of_loc (Z.pos q) (new_location ms r)) in
  let M := round_nearest_even (shr_m mrs) (loc_of_shr_record mrs) in
  2 * Z.abs (M * ms * 2 - (Z.pos q * ms + r)) <= ms * 2.
Proof.
  intros Hms Hr mrs M. pose proof (new_location_spec ms r Hms Hr) as Hloc.
  assert (Hm : shr_m mrs = Z.pos q / 2)
    by (subst mrs; destruct (new_location ms r) as [|[]]; apply shr_1_m).
  assert (Hr1 : shr_r mrs = Z.odd (Z.pos q))
    by (subst mrs; destruct (new_location ms r) as [|[]]; apply shr_1_r).
  assert (Hs1 : shr_s mrs = negb (r =? 0)).
  { subst mrs. destruct (new_location ms r) as [|[]]; cbn [shr_record_of_loc];
      rewrite shr_1_s; destruct (Z.eqb_spec r 0); cbn; try reflexivity; lia. }
  pose proof (Z.div_mod (Z.pos q) 2 ltac:(lia)) as Hq.
  rewrite Zmod_odd in Hq.
  subst M. destruct mrs as [m1 r1 s1]. cbn [shr_m shr_r shr_s] in *. subst m1 r1 s1.
  unfold loc_of_shr_record, round_nearest_even.
  destruct (Z.odd (Z.pos q)); destruct (Z.eqb_spec r 0); cbn [negb];
    try destruct (Z.even (Z.pos q / 2)); nia.
Qed.

(** Division of two normal positive binary32 numbers: the result is a normal
    number [M * 2^E] within half a unit in the last place of the exact
    quotient. With [t = E - (ed - es - 24)], the inequality reads
    [|M * 2^t - md * 2^24 / ms| <= 2^t / 2]. *)
Lemma SFdiv_spec (md ms : positive) ed es :
  Z.pos (digits2_pos md) = 24 -> Z.pos (digits2_pos ms) = 24 ->
  -100 <= ed - es <= 100 ->
  exists M E t,
    SFdiv 24 128 (S754_finite false md ed) (S754_finite false ms es) = S754_finite false M E /\
    Z.pos (digits2_pos M) = 24 /\
    0 <= t <= 2 /\ E = ed - es - 24 + t /\
    2 * Z.abs (Z.pos M * Z.pos ms * 2 ^ t - Z.pos md * 2 ^ 24) <= Z.pos ms * 2 ^ t.
Proof.
  intros Hd Hs He. unfold SFdiv. rewrite div_core by (assumption || lia).
  cbn [xorb].
  pose proof (digits2_bounds md) as Hbd. rewrite Hd in Hbd.
  pose proof (digits2_bounds ms) as Hbs. rewrite Hs in Hbs.
  change (24 - 1) with 23 in *.
  set (m' := Z.pos md * 2 ^ 24) in *.
  set (q := m' / Z.pos ms). set (r := m' mod Z.pos ms).
  assert (Hm' : m' = q * Z.pos ms + r)
    by (subst q r; rewrite Z.mul_comm; apply Z.div_mod; lia).
  assert (Hr : 0 <= r < Z.pos ms) by (subst r; apply Z.mod_pos_bound; lia).
  assert (Hm'b : 2 ^ 23 * 2 ^ 24 <= m' < 2 ^ 24 * 2 ^ 24) by (subst m'; lia).
  assert (Hq : 2 ^ 23 <= q < 2 ^ 25).
  { split.
    - apply Z.div_le_lower_bound; [lia|].
      change (2 ^ 23 * 2 ^ 24) with (2 ^ 24 * 2 ^ 23) in Hm'b. nia.
    - apply Z.div_lt_upper_bound; [lia|].
      change (2 ^ 24 * 2 ^ 24) with (2 ^ 23 * 2 ^ 25) in Hm'b. nia. }
  destruct q as [|qp|qp] eqn:Eq; try lia.
  destruct (Z.lt_ge_cases (Z.pos qp) (2 ^ 24)) as [Hlt|Hge].
  - (* the quotient has 24 digits *)
    assert (Hdq : Z.pos (digits2_pos qp) = 24) by (apply digits2_unique; lia).
    rewrite binary_round_aux_24 by (assumption || lia). cbn zeta.
    pose proof (rne_quotient (Z.pos qp) (Z.pos ms) r ltac:(lia) Hr) as Herr.
    cbn zeta in Herr. rewrite <- Hm' in Herr.
    pose proof (rne_bounds (Z.pos qp) (new_location (Z.pos ms) r)) as HM.
    set (M := round_nearest_even (Z.pos qp) (new_location (Z.pos ms) r)) in *.
    destruct (Z.eqb_spec M (2 ^ 24)) as [E24|N24].
    + exists (2 ^ 23)%positive, (ed - es - 24 + 1), 1.
      rewrite E24 in Herr. change (2 ^ 24) with (2 ^ 23 * 2) in Herr.
      repeat split; try reflexivity; try lia.
    + exists (Z.to_pos M), (ed - es - 24), 0.
      assert (HMpos : Z.pos (Z.to_pos M) = M) by (apply Z2Pos.id; lia).
      repeat split; try lia. apply digits2_unique; lia.
  - (* the quotient has 25 digits *)
    assert (Hdq : Z.pos (digits2_pos qp) = 25) by (apply digits2_unique; lia).
    rewrite binary_round_aux_25 by (assumption || lia). cbn zeta.
    pose proof (rne_quotient_shifted qp (Z.pos ms) r ltac:(lia) Hr) as Herr.
    cbn zeta in Herr. rewrite <- Hm' in Herr.
    set (mrs := shr_1 (shr_record_of_loc (Z.pos qp) (new_location (Z.pos ms) r))) in *.
    assert (Hmm : shr_m mrs = Z.pos qp / 2)
      by (subst mrs; destruct (new_location (Z.pos ms) r) as [|[]]; apply shr_1_m).
    pose proof (rne_bounds (shr_m mrs) (loc_of_shr_record mrs)) as HM.
    assert (2 ^ 23 <= Z.pos qp / 2 < 2 ^ 24).
    { split; [apply Z.div_le_lower_bound; lia | apply Z.div_lt_upper_bound; lia]. }
    set (M := round_nearest_even (shr_m mrs) (loc_of_shr_record mrs)) in *.
    destruct (Z.eqb_spec M (2 ^ 24)) as [E24|N24].
    + exists (2 ^ 23)%positive, (ed - es - 24 + 2), 2.
      rewrite E24 in Herr. change (2 ^ 24) with (2 ^ 23 * 2) in Herr.
      repeat split; try reflexivity; try lia.
    + exists (Z.to_pos M), (ed - es - 24 + 1), 1.
      assert (HMpos : Z.pos (Z.to_pos M) = M) by (apply Z2Pos.id; lia).
      repeat split; try lia. apply digits2_unique; lia.
Qed.

Lemma to_Z_normalize (n : Z) :
  0 <= n < 2 ^ 24 -> F32.to_Z (binary_normalize 24 128 n 0 false) = n.
Proof.
  intros Hn. destruct n as [|m|m]; try lia; [reflexivity|].
  destruct (binary_normalize_exact m 0) as (M & E & -> & HdM & HE & HM); [lia|lia|].
  pose proof (digits2_bounds m) as [Hlo Hhi].
  assert (Hd : Z.pos (digits2_pos m) <= 24).
  { destruct (Z.le_gt_cases (Z.pos (digits2_pos m)) 24) as [|Hgt]; [assumption|].
    assert (2 ^ 24 <= 2 ^ (Z.pos (digits2_pos m) - 1)) by (apply Z.pow_le_mono_r; lia). lia. }
  unfold F32.to_Z.
  destruct (Z.leb_spec 0 E).
  - assert (E = 0) as -> by lia. rewrite Z.shiftl_0_r. rewrite HM. cbn. lia.
  - rewrite Z.shiftr_div_pow2 by lia. rewrite HM.
    replace (0 - E) with (- E) by lia.
    apply Z.div_mul. apply Z.pow_nonzero; lia.
Qed.

(** [roundf] then conversion to an integer: the nearest integer, at most
    one half away. [P = 2^(-E)] is the weight of one unit. *)
Lemma roundf_to_Z (M : positive) (E : Z) :
  E < 0 -> Z.pos M / 2 ^ (- E) + 1 < 2 ^ 24 ->
  exists n,
    F32.to_Z (F32.roundf (S754_finite false M E)) = n /\
    0 <= n /\
    2 * Z.abs (n * 2 ^ (- E) - Z.pos M) <= 2 ^ (- E).
Proof.
  intros HE Hsmall. unfold F32.roundf.
  destruct (Z.leb_spec 0 E); [lia|].
  set (k := - E) in *. assert (Hk : 0 < k) by lia.
  rewrite Z.shiftr_div_pow2, Z.shiftl_mul_pow2, Z.land_ones by lia.
  rewrite Z.mul_1_l.
  assert (HP : 0 < 2 ^ k) by (apply Z.pow_pos_nonneg; lia).
  assert (Hhalf : 2 ^ k = 2 * 2 ^ (k - 1)).
  { rewrite <- Z.pow_succ_r by lia. f_equal. lia. }
  pose proof (Z.div_mod (Z.pos M) (2 ^ k) ltac:(lia)) as Hdm.
  pose proof (Z.mod_pos_bound (Z.pos M) (2 ^ k) HP) as Hmod.
  assert (Hq0 : 0 <= Z.pos M / 2 ^ k) by (apply Z.div_pos; lia).
  set (qv := Z.pos M / 2 ^ k) in *. set (rv := Z.pos M mod 2 ^ k) in *.
  destruct (Z.leb_spec (2 ^ (k - 1)) rv).
  - exists (qv + 1). rewrite to_Z_normalize by lia. repeat split; nia.
  - exists qv. rewrite to_Z_normalize by lia. repeat split; nia.
Qed.

Lemma SFleb_finite (mx my : positive) ex ey :
  SFleb (S754_finite false mx ex) (S754_finite false my ey) = true <->
  ex < ey \/ (ex = ey /\ Z.pos mx <= Z.pos my).
Proof.
  unfold SFleb, SFcompare.
  destruct (Z.compare_spec ex ey) as [->|Hlt|Hgt].
  - rewrite Pos.compare_cont_spec. cbn [Pos.switch_Eq].
    destruct (Pos.compare_spec mx my) as [->|H|H]; split; intros; try discriminate;
      try reflexivity; try lia.
  - split; [lia|reflexivity].
  - split; [discriminate|lia].
Qed.

(** A binary32 value between two normal positive bounds is a normal positive
    number whose exponent lies between theirs. *)
Lemma in_range_shape (f : spec_float) (mb mt : positive) (eb et : Z) :
  valid_binary 24 128 f = true ->
  SFleb (S754_finite false mb eb) f = true ->
  SFleb f (S754_finite false mt et) = true ->
  -100 <= eb ->
  exists mf ef,
    f = S754_finite false mf ef /\ Z.pos (digits2_pos mf) = 24 /\
    eb <= ef <= et /\ (ef = eb -> Z.pos mb <= Z.pos mf) /\ (ef = et -> Z.pos mf <= Z.pos mt).
Proof.
  intros Hv Hlo Hhi Heb.
  destruct f as [s|s| |s mf ef]; try (cbn in Hlo; discriminate);
    try (destruct s; cbn in Hlo, Hhi; discriminate).
  destruct s; [cbn in Hlo; discriminate|].
  apply SFleb_finite in Hlo, Hhi.
  exists mf, ef. split; [reflexivity|].
  cbn [valid_binary] in Hv. unfold bounded, canonical_mantissa in Hv.
  apply andb_prop in Hv. destruct Hv as [Hc _]. apply Z.eqb_eq in Hc.
  rewrite fexp32 in Hc.
  repeat split; lia.
Qed.

Lemma SFsub_exact (mf mb : positive) ef eb :
  eb <= ef ->
  SFsub 24 128 (S754_finite false mf ef) (S754_finite false mb eb) =
    binary_normalize 24 128 (Z.pos mf * 2 ^ (ef - eb) - Z.pos mb) eb false.
Proof.
  intros Hle. unfold SFsub. cbn [cond_Zopp].
  replace (Z.min ef eb) with eb by lia.
  destruct (shl_align_spec mf ef eb Hle) as (Mf & -> & HMf).
  destruct (shl_align_spec mb eb eb ltac:(lia)) as (Mb & -> & HMb).
  cbn [fst]. rewrite HMf, HMb, Z.sub_diag. f_equal. lia.
Qed.

(** The arithmetic behind the channel bound. [W * P] and [Y] are the spacing
    and the distance from the band bottom in a common unit; [M] is the
    mantissa of the rounded quotient, [n] the channel. *)
Lemma channel_arith (n M W P Y : Z) :
  0 < W -> 0 < P -> 2 ^ 23 <= M -> 0 <= Y ->
  2 * Z.abs (M * W - Y) <= W ->
  2 * Z.abs (n * P - M) <= P ->
  2 * (2 ^ 24 - 1) * Z.abs (n * (W * P) - Y) <= (2 ^ 24 - 1) * (W * P) + 2 * Y.
Proof.
  intros HW HP HM HY Hq Hn.
  assert (Hrel : (2 ^ 24 - 1) * Z.abs (M * W - Y) <= Y).
  { assert (2 ^ 23 * W <= M * W) by nia. lia. }
  assert (Hround : 2 * Z.abs (W * (n * P - M)) <= W * P).
  { rewrite Z.abs_mul, (Z.abs_eq W) by lia. nia. }
  replace (n * (W * P) - Y) with (W * (n * P - M) + (M * W - Y)) by ring.
  pose proof (Z.abs_triangle (W * (n * P - M)) (M * W - Y)). lia.
Qed.


(** The channel computed for a frequency [f] above the band bottom: with the
    distance [f - bottom] and the spacing in units of 2^-28 MHz, the channel
    times the spacing is within half a spacing, plus a relative error of
    2^-24 of the distance, of the distance. *)
Lemma channel_bound (mf mb ms : positive) (ef eb es : Z) (tp : F32.float) :
  Z.pos (digits2_pos ms) = 24 ->
  -18 <= eb <= -17 -> eb <= ef -> -28 <= es <= -26 ->
  0 <= Z.pos mf * 2 ^ (ef - eb) - Z.pos mb < 2 ^ 24 ->
  let f := S754_finite false mf ef in
  let b := S754_finite false mb eb in
  let s := S754_finite false ms es in
  let D28 := F32.units28 f - F32.units28 b in
  let S28 := F32.units28 s in
  exists c,
    fm_frequency_to_channel f (mk_range b tp s) = c /\
    0 <= c /\
    2 * (2 ^ 24 - 1) * Z.abs (c * S28 - D28) <= (2 ^ 24 - 1) * S28 + 2 * D28.
Proof.
  intros Hds Heb Hef Hes HD f b s D28 S28.
  set (D := Z.pos mf * 2 ^ (ef - eb) - Z.pos mb) in *.
  assert (HD28 : D28 = D * 2 ^ (eb + 28)).
  { subst D28 D f b. cbn [F32.units28].
    rewrite Z.mul_sub_distr_r, <- Z.mul_assoc, <- Z.pow_add_r by lia.
    do 3 f_equal. lia. }
  assert (HS28 : S28 = Z.pos ms * 2 ^ (es + 28)) by reflexivity.
  assert (HS28pos : 0 < S28).
  { rewrite HS28. apply Z.mul_pos_pos; [lia|apply Z.pow_pos_nonneg; lia]. }
  unfold fm_frequency_to_channel, F32.sub, F32.div, F32.prec, F32.emax. cbn [bottom spacing].
  subst f b s. rewrite SFsub_exact by assumption. fold D.
  destruct D as [|dp|dp] eqn:ED; try lia.
  - (* f is the band bottom *)
    exists 0. rewrite HD28. cbn. split; [reflexivity|]. split; [lia|]. lia.
  - destruct (binary_normalize_exact dp eb) as (md & ed & -> & Hdmd & Hed & Hmd); [lia|lia|].
    pose proof (digits2_bounds dp) as [Hdlo Hdhi].
    set (dd := Z.pos (digits2_pos dp)) in *.
    assert (Hdd : 1 <= dd <= 24).
    { split; [subst dd; lia|].
      destruct (Z.le_gt_cases dd 24) as [|Hgt]; [assumption|].
      assert (2 ^ 24 <= 2 ^ (dd - 1)) by (apply Z.pow_le_mono_r; lia). lia. }
    destruct (SFdiv_spec md ms ed es) as (M & E & t & -> & HdM & Ht & HE & Hq);
      [assumption|assumption|lia|].
    pose proof (digits2_bounds M) as HbM. rewrite HdM in HbM. change (24 - 1) with 23 in HbM.
    assert (HEneg : E <= -11) by lia.
    set (P := 2 ^ (- E)).
    assert (HP : 2 ^ 11 <= P) by (subst P; apply Z.pow_le_mono_r; lia).
    assert (Hsmall : Z.pos M / P + 1 < 2 ^ 24).
    { assert (Z.pos M / P < 2 ^ 23); [|lia].
      apply Z.div_lt_upper_bound; [lia|]. nia. }
    destruct (roundf_to_Z M E) as (n & -> & Hn0 & Hn); [lia|assumption|].
    fold P in Hn.
    assert (Hn16 : n < 65536).
    { assert ((2 * n - 1) * P <= 2 * Z.pos M) by lia. nia. }
    exists n. unfold u16. rewrite Z.mod_small by lia.
    split; [reflexivity|]. split; [assumption|].
    (* a common unit: G units of 2^-28 *)
    set (kd := eb - ed) in *.
    set (G := 2 ^ (kd - eb - 4)).
    assert (HG : 0 < G) by (subst G; apply Z.pow_pos_nonneg; lia).
    set (W := Z.pos ms * 2 ^ t).
    assert (HW : 0 < W) by (subst W; apply Z.mul_pos_pos; [lia|apply Z.pow_pos_nonneg; lia]).
    assert (HWP : W * P = G * S28).
    { subst W P G. rewrite HS28.
      rewrite <- Z.mul_assoc, <- Z.pow_add_r by lia.
      rewrite (Z.mul_comm (2 ^ (kd - eb - 4))), <- Z.mul_assoc, <- Z.pow_add_r by lia.
      do 2 f_equal. lia. }
    assert (HY : Z.pos md * 2 ^ 24 = G * D28).
    { subst G. rewrite HD28, Hmd. fold kd.
      rewrite <- Z.mul_assoc, <- Z.pow_add_r by lia.
      rewrite (Z.mul_comm (2 ^ (kd - eb - 4))), <- Z.mul_assoc, <- Z.pow_add_r by lia.
      do 2 f_equal. lia. }
    assert (HD28nn : 0 <= D28) by (rewrite HD28; apply Z.mul_nonneg_nonneg; lia).
    pose proof (channel_arith n (Z.pos M) W P (G * D28) HW ltac:(lia) ltac:(lia) ltac:(nia))
      as Harith.
    rewrite <- HY in Harith at 1.
    assert (HqW : 2 * Z.abs (Z.pos M * W - Z.pos md * 2 ^ 24) <= W)
      by (subst W; rewrite Z.mul_assoc; exact Hq).
    specialize (Harith HqW Hn). rewrite HWP in Harith.
    replace (n * (G * S28) - G * D28) with (G * (n * S28 - D28)) in Harith by ring.
    rewrite Z.abs_mul, (Z.abs_eq G) in Harith by lia.
    nia.
Qed.

Lemma forallb_upto (P : Z -> bool) (N : nat) :
  forallb P (map Z.of_nat (seq 0 (S N))) = true ->
  forall c, 0 <= c <= Z.of_nat N -> P c = true.
Proof.
  intros H c Hc. rewrite forallb_forall in H. apply H.
  apply in_map_iff. exists (Z.to_nat c). split; [lia|].
  apply in_seq. lia.
Qed.

Lemma channel_table band sp :
  has_range_case sp = true ->
  forall c, 0 <= c <= max_channel band sp ->
    channel_frequency_ok (fm_frequency_range band sp) c = true.
Proof.
  intros Hcase c Hc.
  apply (forallb_upto (channel_frequency_ok (fm_frequency_range band sp))
           (Z.to_nat (max_channel band sp))).
  - destruct band, sp; try discriminate Hcase; vm_compute; reflexivity.
  - destruct band, sp; cbn in *; lia.
Qed.

(** The round trip for a range given by its three numbers: [N] is the
    highest channel, the table hypothesis bounds the rounding error of
    [fm_channel_to_frequency] on the channels up to [N]. *)
Lemma round_trip_units (mb mt ms : positive) (eb et es N : Z) (f : F32.float) :
  let b := S754_finite false mb eb in
  let tp := S754_finite false mt et in
  let s := S754_finite false ms es in
  let range := mk_range b tp s in
  Z.pos (digits2_pos mb) = 24 -> Z.pos (digits2_pos mt) = 24 ->
  Z.pos (digits2_pos ms) = 24 ->
  -18 <= eb -> et <= -17 -> -28 <= es <= -26 ->
  F32.units28 tp - F32.units28 b <= 2 ^ 33 ->
  2 ^ 25 * (F32.units28 tp - F32.units28 b) < (2 ^ 24 - 1) * (2 * N + 1) * F32.units28 s ->
  (forall c, 0 <= c <= N -> channel_frequency_ok range c = true) ->
  valid_binary 24 128 f = true ->
  F32.leb b f = true -> F32.leb f tp = true ->
  exists mf ef mr er,
    f = S754_finite false mf ef /\ -28 <= ef /\
    fm_channel_to_frequency (fm_frequency_to_channel f range) range
      = S754_finite false mr er /\ -28 <= er /\
    2 * Z.abs (F32.units28 (S754_finite false mr er) - F32.units28 f)
      <= F32.units28 s + 4048.
Proof.
  intros b tp s range Hdb Hdt Hds Heb Het Hes HT HN Htable Hv Hlo Hhi.
  destruct (in_range_shape f mb mt eb et Hv Hlo Hhi ltac:(lia))
    as (mf & ef & -> & Hdf & Hef & Hfb & Hft).
  pose proof (digits2_bounds mb) as Hbb. rewrite Hdb in Hbb.
  pose proof (digits2_bounds mt) as Hbt. rewrite Hdt in Hbt.
  pose proof (digits2_bounds mf) as Hbf. rewrite Hdf in Hbf.
  change (24 - 1) with 23 in *.
  (* the distance from the bottom, in units of 2^eb and of 2^-28 *)
  assert (Hcases : eb = -18 \/ eb = -17) by lia.
  assert (Hefc : ef = -18 \/ ef = -17) by lia.
  assert (Hetc : et = -18 \/ et = -17) by lia.
  assert (HF : F32.units28 (S754_finite false mf ef) = Z.pos mf * 2 ^ (ef + 28)) by reflexivity.
  assert (HB : F32.units28 b = Z.pos mb * 2 ^ (eb + 28)) by reflexivity.
  assert (HTp : F32.units28 tp = Z.pos mt * 2 ^ (et + 28)) by reflexivity.
  assert (HD : 0 <= Z.pos mf * 2 ^ (ef - eb) - Z.pos mb < 2 ^ 24).
  { rewrite HB, HTp in HT.
    destruct Hcases as [-> | ->], Hefc as [-> | ->], Hetc as [-> | ->]; try lia;
      cbn in HT |- *; try specialize (Hfb eq_refl); try specialize (Hft eq_refl); lia. }
  assert (HDT : 0 <= F32.units28 (S754_finite false mf ef) - F32.units28 b
                <= F32.units28 tp - F32.units28 b).
  { rewrite HF, HB, HTp.
    destruct Hcases as [-> | ->], Hefc as [-> | ->], Hetc as [-> | ->]; try lia;
      cbn; try specialize (Hfb eq_refl); try specialize (Hft eq_refl); lia. }
  destruct (channel_bound mf mb ms ef eb es tp Hds ltac:(lia) ltac:(lia) Hes HD)
    as (c & Hc & Hc0 & Hcb).
  fold b s range in Hc. rewrite Hc.
  set (S28 := F32.units28 s) in *.
  set (D28 := F32.units28 (S754_finite false mf ef) - F32.units28 b) in *.
  set (T28 := F32.units28 tp - F32.units28 b) in *.
  change (2 * (2 ^ 24 - 1) * Z.abs (c * S28 - D28) <= (2 ^ 24 - 1) * S28 + 2 * D28) in Hcb.
  change (0 <= D28 <= T28) in HDT.
  change (T28 <= 2 ^ 33) in HT.
  change (2 ^ 25 * T28 < (2 ^ 24 - 1) * (2 * N + 1) * S28) in HN.
  assert (HS28 : 0 < S28).
  { subst S28 s. cbn [F32.units28].
    apply Z.mul_pos_pos; [lia|apply Z.pow_pos_nonneg; lia]. }
  assert (HcN : c <= N).
  { destruct (Z.le_gt_cases c N) as [|Hgt]; [assumption|exfalso].
    assert (2 * (2 ^ 24 - 1) * (c * S28 - D28) <= (2 ^ 24 - 1) * S28 + 2 * D28) by lia.
    assert ((N + 1) * S28 <= c * S28) by nia.
    nia. }
  pose proof (Htable c ltac:(lia)) as Hok. unfold channel_frequency_ok in Hok.
  destruct (fm_channel_to_frequency c range) as [| | |sr mr er]; try discriminate.
  destruct sr; [discriminate|].
  apply andb_prop in Hok. destruct Hok as [Her Herr].
  apply Z.leb_le in Her, Herr.
  exists mf, ef, mr, er. split; [reflexivity|]. split; [lia|].
  split; [reflexivity|]. split; [lia|].
  set (R28 := F32.units28 (S754_finite false mr er)) in *.
  change (Z.abs (R28 - F32.units28 b - c * S28) <= 1000) in Herr.
  change (2 * Z.abs (R28 - F32.units28 (S754_finite false mf ef)) <= S28 + 4048).
  assert (Hrel : 2 * (2 ^ 24 - 1) * Z.abs (c * S28 - D28)
                 <= (2 ^ 24 - 1) * S28 + 2 * 2 ^ 33) by lia.
  assert (Hch : 2 * Z.abs (c * S28 - D28) <= S28 + 2048) by lia.
  subst D28. lia.
Qed.

Lemma to_Q_units28 (sgn : bool) (m : positive) (e : Z) :
  -28 <= e ->
  (F32.to_Q (S754_finite sgn m e)
     == inject_Z (F32.units28 (S754_finite sgn m e)) * (1 # 268435456))%Q.
Proof.
  intros He. unfold F32.to_Q, F32.units28.
  set (z := if sgn then Z.neg m else Z.pos m).
  rewrite inject_Z_mult, Zpower_Qpower by lia.
  change (inject_Z 2) with 2%Q.
  rewrite Qpower_plus by discriminate.
  rewrite <- !Qmult_assoc.
  assert (H28 : (2 ^ 28 * (1 # 268435456) == 1)%Q) by reflexivity.
  rewrite H28, Qmult_1_r. reflexivity.
Qed.

(** Every range [fm_frequency_range] can return, as numbers. *)
Lemma range_params (band : fm_band_t) (sp : fm_channel_spacing_t) :
  has_range_case sp = true ->
  exists mb mt ms eb et es,
    fm_frequency_range band sp =
      mk_range (S754_finite false mb eb) (S754_finite false mt et) (S754_finite false ms es) /\
    Z.pos (digits2_pos mb) = 24 /\ Z.pos (digits2_pos mt) = 24 /\
    Z.pos (digits2_pos ms) = 24 /\
    -18 <= eb /\ et <= -17 /\ -28 <= es <= -26 /\
    Z.pos mt * 2 ^ (et + 28) - Z.pos mb * 2 ^ (eb + 28) <= 2 ^ 33 /\
    2 ^ 25 * (Z.pos mt * 2 ^ (et + 28) - Z.pos mb * 2 ^ (eb + 28))
      < (2 ^ 24 - 1) * (2 * max_channel band sp + 1) * (Z.pos ms * 2 ^ (es + 28)) /\
    (inject_Z (Z.pos ms * 2 ^ (es + 28)) * (1 # 268435456)
       <= spacing_mhz sp + (1 # 268435456))%Q.
Proof.
  intros Hcase.
  destruct band, sp; try discriminate Hcase;
    (do 6 eexists; split; [vm_compute; reflexivity|]);
    repeat split; vm_compute; congruence.
Qed.

(** Claim C5, as amended. For every band, every channel spacing of 200,
    100 or 50 kHz (the spacings [fm_frequency_range] has a case for) and
    every binary32 frequency [f] between the bottom and the top of the band,
    converting [f] to a channel and back gives a finite frequency that
    differs from [f] by at most half the channel spacing plus 2^-17 MHz
    (7.6 Hz). The values compared are the exact rational values of the
    binary32 numbers and the channel spacing is the exact 0.2, 0.1 or 0.05
    MHz; the allowance covers the rounding of the division, of the product
    and of the sum, and of the decimal step itself (0.1f is
    0.100000001490116...). *)
Theorem round_trip_within_half_step_and_rounding
    (band : fm_band_t) (channel_spacing : fm_channel_spacing_t) (f : F32.float)
    (Hcase : has_range_case channel_spacing = true)
    (Hvalid : F32.valid f = true)
    (Hlo : F32.leb (bottom (fm_frequency_range band channel_spacing)) f = true)
    (Hhi : F32.leb f (top (fm_frequency_range band channel_spacing)) = true) :
  let range := fm_frequency_range band channel_spacing in
  let f' := fm_channel_to_frequency (fm_frequency_to_channel f range) range in
  F32.is_finite f' = true /\
  (Qabs (F32.to_Q f' - F32.to_Q f) <= spacing_mhz channel_spacing / 2 + (1 # 131072))%Q.
Proof.
  intros range f'. subst f'.
  destruct (range_params band channel_spacing Hcase)
    as (mb & mt & ms & eb & et & es & Hrange & Hdb & Hdt & Hds & Heb & Het & Hes & HT & HN
        & Hnominal).
  pose proof (channel_table band channel_spacing Hcase) as Htable.
  subst range. rewrite Hrange in *. cbn [bottom top spacing] in *.
  destruct (round_trip_units mb mt ms eb et es (max_channel band channel_spacing) f
              Hdb Hdt Hds Heb Het Hes HT HN Htable Hvalid Hlo Hhi)
    as (mf & ef & mr & er & -> & Hef & -> & Her & Hbound).
  split; [reflexivity|].
  rewrite !to_Q_units28 by lia.
  set (R := F32.units28 (S754_finite false mr er)) in *.
  set (F := F32.units28 (S754_finite false mf ef)) in *.
  change (F32.units28 (S754_finite false ms es)) with (Z.pos ms * 2 ^ (es + 28)) in Hbound.
  set (S := Z.pos ms * 2 ^ (es + 28)) in *.
  assert (H1 : 2 * (R - F) <= S + 4048) by lia.
  assert (H2 : - (S + 4048) <= 2 * (R - F)) by lia.
  rewrite Zle_Qle in H1, H2. unfold Z.sub in H1, H2.
  repeat first [rewrite inject_Z_plus in H1 | rewrite inject_Z_mult in H1
               | rewrite inject_Z_opp in H1].
  repeat first [rewrite inject_Z_plus in H2 | rewrite inject_Z_mult in H2
               | rewrite inject_Z_opp in H2].
  change (inject_Z 2) with 2%Q in *. change (inject_Z 4048) with 4048%Q in *.
  apply Qabs_Qle_condition.
  set (r := inject_Z R) in *. set (x := inject_Z F) in *. set (s := inject_Z S) in *.
  set (nominal := spacing_mhz channel_spacing) in *.
  unfold Qdiv. change (/ 2)%Q with (1 # 2)%Q.
  clearbody r x s nominal. clear - H1 H2 Hnominal. split; lra.
Qed.

(** The theorem above at 87.25 MHz in the European configuration. *)
Lemma round_trip_within_half_step_and_rounding_witness :
  let range := fm_frequency_range FM_BAND_COMMON FM_CHANNEL_SPACING_100 in
  let f := F32.lit 349 4 in
  let f' := fm_channel_to_frequency (fm_frequency_to_channel f range) range in
  F32.is_finite f' = true /\
  (Qabs (F32.to_Q f' - F32.to_Q f) <= spacing_mhz FM_CHANNEL_SPACING_100 / 2 + (1 # 131072))%Q.
Proof.
  apply (round_trip_within_half_step_and_rounding
           FM_BAND_COMMON FM_CHANNEL_SPACING_100 (F32.lit 349 4)); reflexivity.
Defined.

(** Claim C5 as stated fails in binary32 arithmetic. In the European
    configuration (87..108 MHz, step 0.1f) the frequency 87.25 MHz is a
    binary32 number; (87.25 - 87) / 0.1f rounds to 2.5, [roundf] gives
    channel 3, and 3 * 0.1f + 87 rounds to 87.30000305..., which is
    0.05000305... away from 87.25: more than half the step
    (0.05000000074...), both as exact values and when the difference and the
    half step are computed in binary32, and more than half the channel
    spacing of 0.1 MHz. *)
Lemma round_trip_exceeds_half_step_at_87_25 :
  let range := fm_frequency_range FM_BAND_COMMON FM_CHANNEL_SPACING_100 in
  let f := F32.lit 349 4 in
  let f' := fm_channel_to_frequency (fm_frequency_to_channel f range) range in
  F32.valid f = true /\
  F32.leb (bottom range) f = true /\ F32.leb f (top range) = true /\
  (F32.to_Q f == 349 # 4)%Q /\
  F32.div (F32.sub f (bottom range)) (spacing range) = F32.lit 5 2 /\
  fm_frequency_to_channel f range = 3 /\
  f' = S754_finite false 11442586 (-17) /\
  (F32.to_Q (spacing range) / 2 < Qabs (F32.to_Q f' - F32.to_Q f))%Q /\
  F32.ltb (F32.div (spacing range) (F32.of_Z 2)) (F32.sub f' f) = true /\
  (spacing_mhz FM_CHANNEL_SPACING_100 / 2 < Qabs (F32.to_Q f' - F32.to_Q f))%Q.
Proof. repeat split; vm_compute; reflexivity. Qed.

End FrequencyProps.

(** * Decoding a raw alternative frequency *)

Module RdsDecodeProps.

Import RdsDecode.

Lemma decoded_ok_all : forallb decoded_ok (map Z.of_nat (seq 1 204)) = true.
Proof. vm_compute. reflexivity. Qed.

Lemma decoded_ok_in_range (alt_freq : Z) : 0 < alt_freq < 205 -> decoded_ok alt_freq = true.
Proof.
  intros H. pose proof decoded_ok_all as Hall. rewrite forallb_forall in Hall.
  apply Hall. apply in_map_iff. exists (Z.to_nat alt_freq). split; [lia|].
  apply in_seq. lia.
Qed.

(** [rds_decode_alternative_frequency] on every raw value that passes its
    assertion (1..204): the result is a positive finite binary32 number
    within 2^-17 MHz (7.6 Hz) of [87.5 + alt_freq / 10] MHz, and a larger raw
    value decodes to a strictly larger frequency. Outside 1..204 the
    assertion fails. *)
Theorem decode_alternative_frequency_table
    (alt_freq : Z) (Hrange : 0 < alt_freq < 205) :
  (exists m e,
     rds_decode_alternative_frequency alt_freq = Some (S754_finite false m e) /\
     (Qabs (F32.to_Q (S754_finite false m e) - (875 # 10) - inject_Z alt_freq * (1 # 10))
        <= 1 # 131072)%Q /\
     (alt_freq < 204 ->
        exists y, rds_decode_alternative_frequency (alt_freq + 1) = Some y /\
                  F32.ltb (S754_finite false m e) y = true)) /\
  (forall v, ~ 0 < v < 205 -> rds_decode_alternative_frequency v = None).
Proof.
  split.
  - pose proof (decoded_ok_in_range alt_freq Hrange) as Hok.
    unfold decoded_ok in Hok.
    destruct (rds_decode_alternative_frequency alt_freq) as [[| | |s m e]|]; try discriminate.
    destruct s; [discriminate|].
    apply andb_prop in Hok. destruct Hok as [Hq Hnext].
    exists m, e. split; [reflexivity|]. split.
    + apply Qle_bool_iff. exact Hq.
    + intros Hlt.
      destruct (rds_decode_alternative_frequency (alt_freq + 1)) as [y|] eqn:Ey.
      * exists y. split; [reflexivity|exact Hnext].
      * unfold rds_decode_alternative_frequency in Ey.
        destruct (Z.ltb_spec 0 (alt_freq + 1)), (Z.ltb_spec (alt_freq + 1) 205);
          try lia; discriminate.
  - intros v Hv. unfold rds_decode_alternative_frequency.
    destruct (Z.ltb_spec 0 v), (Z.ltb_spec v 205); try lia; reflexivity.
Qed.

Lemma decode_alternative_frequency_table_witness :
  (exists m e,
     rds_decode_alternative_frequency 13 = Some (S754_finite false m e) /\
     (Qabs (F32.to_Q (S754_finite false m e) - (875 # 10) - inject_Z 13 * (1 # 10))
        <= 1 # 131072)%Q /\
     (13 < 204 ->
        exists y, rds_decode_alternative_frequency (13 + 1) = Some y /\
                  F32.ltb (S754_finite false m e) y = true)) /\
  (forall v, ~ 0 < v < 205 -> rds_decode_alternative_frequency v = None).
Proof. apply (decode_alternative_frequency_table 13). lia. Defined.

End RdsDecodeProps.

(** * The bit-field macros of the driver *)

Module RegsProps.

Import Regs BitLemmas.

(** ** Bit by bit *)

Lemma fm_set_bit_testbit reg k (v : bool) n :
  0 <= k -> 0 <= n ->
  Z.testbit (fm_set_bit reg (2 ^ k) v) n =
    (n <? 16) && (if n =? k then v else Z.testbit reg n).
Proof.
  intros Hk Hn. unfold fm_set_bit. destruct v.
  - rewrite testbit_u16, Z.lor_spec, Z.pow2_bits_eqb by lia.
    rewrite (Z.eqb_sym k n). destruct (n =? k); [rewrite orb_true_r|rewrite orb_false_r];
      reflexivity.
  - rewrite testbit_u16, Z.land_spec, Z.lnot_spec, Z.pow2_bits_eqb by lia.
    rewrite (Z.eqb_sym k n). destruct (n =? k); cbn [negb];
      [rewrite andb_false_r|rewrite andb_true_r]; reflexivity.
Qed.

Lemma fm_get_bit_testbit reg k : 0 <= k -> fm_get_bit reg (2 ^ k) = Z.testbit reg k.
Proof. intros Hk. unfold fm_get_bit. apply flag_of_land. exact Hk. Qed.

Lemma field_mask_testbit width lsb n :
  0 <= width -> 0 <= n -> Z.testbit (field_mask width lsb) n = in_field width lsb n.
Proof.
  intros Hw Hn. unfold field_mask, in_field.
  rewrite Z.shiftl_spec, Z.testbit_ones by lia.
  destruct (Z.leb_spec 0 (n - lsb)), (Z.leb_spec lsb n); try lia;
    destruct (Z.ltb_spec (n - lsb) width), (Z.ltb_spec n (lsb + width)); try lia; reflexivity.
Qed.

Lemma fm_set_bits_testbit reg width lsb value n :
  0 <= width -> 0 <= n ->
  Z.testbit (fm_set_bits reg (field_mask width lsb) lsb value) n =
    (n <? 16) && ((Z.testbit reg n && negb (in_field width lsb n)) || Z.testbit value (n - lsb)).
Proof.
  intros Hw Hn. unfold fm_set_bits.
  rewrite testbit_u16, Z.lor_spec, testbit_u16, Z.land_spec, Z.lnot_spec by lia.
  rewrite field_mask_testbit, Z.shiftl_spec by lia.
  destruct (n <? 16); reflexivity.
Qed.

Lemma fm_get_bits_testbit reg width lsb n :
  0 <= width -> 0 <= lsb -> 0 <= n ->
  Z.testbit (fm_get_bits reg (field_mask width lsb) lsb) n =
    Z.testbit reg (n + lsb) && (n <? width).
Proof.
  intros Hw Hl Hn. unfold fm_get_bits.
  rewrite Z.shiftr_spec, Z.land_spec, field_mask_testbit by lia.
  unfold in_field.
  destruct (Z.leb_spec lsb (n + lsb)); [|lia].
  destruct (Z.ltb_spec (n + lsb) (lsb + width)), (Z.ltb_spec n width); try lia; reflexivity.
Qed.

Lemma fm_set_bit_is_u16 reg bit v : is_u16 (fm_set_bit reg bit v).
Proof. unfold fm_set_bit. destruct v; apply is_u16_u16. Qed.

Lemma fm_set_bits_is_u16 reg bits lsb value : is_u16 (fm_set_bits reg bits lsb value).
Proof. unfold fm_set_bits. apply is_u16_u16. Qed.

Lemma small_high_bits value width n :
  0 <= width -> 0 <= value < 2 ^ width -> width <= n -> Z.testbit value n = false.
Proof.
  intros Hw [H0 H1] Hn.
  apply (proj1 (Z.bounded_iff_bits_nonneg width value Hw H0)); assumption.
Qed.

Lemma fm_get_bits_range reg width lsb :
  0 <= width -> 0 <= lsb -> 0 <= fm_get_bits reg (field_mask width lsb) lsb < 2 ^ width.
Proof.
  intros Hw Hl.
  assert (Hnn : 0 <= fm_get_bits reg (field_mask width lsb) lsb).
  { unfold fm_get_bits. apply Z.shiftr_nonneg, Z.land_nonneg. right.
    unfold field_mask. apply Z.shiftl_nonneg. unfold Z.ones.
    rewrite Z.shiftl_1_l. pose proof (Z.pow_pos_nonneg 2 width ltac:(lia) Hw). lia. }
  split; [exact Hnn|].
  apply (proj2 (Z.bounded_iff_bits_nonneg width _ Hw Hnn)).
  intros l Hl'. rewrite fm_get_bits_testbit by lia.
  destruct (Z.ltb_spec l width); [lia|]. apply andb_false_r.
Qed.

(** ** Fields and flags that do not overlap *)

(** Writing one field leaves another field that does not overlap it as it
    was, when the value written fits its field. *)
Lemma fm_get_bits_set_bits_other reg w1 l1 w2 l2 value :
  0 <= w1 -> 0 <= l1 -> 0 <= w2 -> 0 <= l2 -> l2 + w2 <= 16 ->
  l1 + w1 <= l2 \/ l2 + w2 <= l1 ->
  0 <= value < 2 ^ w1 -> is_u16 reg ->
  fm_get_bits (fm_set_bits reg (field_mask w1 l1) l1 value) (field_mask w2 l2) l2 =
    fm_get_bits reg (field_mask w2 l2) l2.
Proof.
  intros Hw1 Hl1 Hw2 Hl2 Hfit Hdis Hv Hreg.
  apply Z.bits_inj'. intros n Hn.
  rewrite !fm_get_bits_testbit, fm_set_bits_testbit by lia.
  destruct (Z.ltb_spec n w2); [|rewrite !andb_false_r; reflexivity].
  rewrite !andb_true_r. unfold in_field.
  destruct (Z.ltb_spec (n + l2) 16); [|lia]. cbn [andb].
  destruct (Z.leb_spec l1 (n + l2)), (Z.ltb_spec (n + l2) (l1 + w1)); try lia; cbn [andb negb];
    rewrite ?andb_true_r.
  all: first [rewrite (small_high_bits value w1) by lia | rewrite (Z.testbit_neg_r value) by lia];
    apply orb_false_r.
Qed.

Lemma fm_get_bit_set_bits_other reg w1 l1 k value :
  0 <= w1 -> 0 <= l1 -> 0 <= k < 16 -> k < l1 \/ l1 + w1 <= k ->
  0 <= value < 2 ^ w1 ->
  fm_get_bit (fm_set_bits reg (field_mask w1 l1) l1 value) (2 ^ k) = fm_get_bit reg (2 ^ k).
Proof.
  intros Hw1 Hl1 Hk Hdis Hv.
  rewrite !fm_get_bit_testbit, fm_set_bits_testbit by lia.
  unfold in_field.
  destruct (Z.ltb_spec k 16); [|lia]. cbn [andb].
  destruct (Z.leb_spec l1 k), (Z.ltb_spec k (l1 + w1)); try lia; cbn [andb negb];
    rewrite ?andb_true_r.
  all: first [rewrite (small_high_bits value w1) by lia | rewrite (Z.testbit_neg_r value) by lia];
    apply orb_false_r.
Qed.

Lemma fm_get_bits_set_bit_other reg w2 l2 k v :
  0 <= w2 -> 0 <= l2 -> l2 + w2 <= 16 -> 0 <= k -> k < l2 \/ l2 + w2 <= k ->
  fm_get_bits (fm_set_bit reg (2 ^ k) v) (field_mask w2 l2) l2 =
    fm_get_bits reg (field_mask w2 l2) l2.
Proof.
  intros Hw2 Hl2 Hfit Hk Hdis.
  apply Z.bits_inj'. intros n Hn.
  rewrite !fm_get_bits_testbit, fm_set_bit_testbit by lia.
  destruct (Z.ltb_spec n w2); [|rewrite !andb_false_r; reflexivity].
  destruct (Z.ltb_spec (n + l2) 16); [|lia].
  destruct (Z.eqb_spec (n + l2) k); [lia|]. reflexivity.
Qed.

Lemma fm_get_bit_set_bit reg k1 k2 v :
  0 <= k1 -> 0 <= k2 < 16 ->
  fm_get_bit (fm_set_bit reg (2 ^ k1) v) (2 ^ k2) =
    if k2 =? k1 then v else fm_get_bit reg (2 ^ k2).
Proof.
  intros Hk1 Hk2.
  rewrite !fm_get_bit_testbit, fm_set_bit_testbit by lia.
  destruct (Z.ltb_spec k2 16); [|lia]. reflexivity.
Qed.

Lemma fm_get_bits_set_bits_same reg width lsb value :
  0 <= width -> 0 <= lsb -> lsb + width <= 16 -> 0 <= value < 2 ^ width ->
  fm_get_bits (fm_set_bits reg (field_mask width lsb) lsb value) (field_mask width lsb) lsb
    = value.
Proof.
  intros Hw Hl Hfit Hv.
  apply Z.bits_inj'. intros n Hn.
  rewrite fm_get_bits_testbit, fm_set_bits_testbit by lia.
  unfold in_field.
  destruct (Z.ltb_spec n width).
  - destruct (Z.ltb_spec (n + lsb) 16); [|lia].
    destruct (Z.leb_spec lsb (n + lsb)), (Z.ltb_spec (n + lsb) (lsb + width)); try lia.
    cbn [andb negb]. rewrite andb_false_r, andb_true_r. cbn [orb].
    f_equal. lia.
  - rewrite andb_false_r. symmetry. apply (small_high_bits value width); lia.
Qed.

(** ** The macros as a field store *)

(** [fm_set_bits] followed by [fm_get_bits] on the same field of a 16-bit
    register gives back the value, provided the value fits the field. The
    register stays a 16-bit value, every bit outside the field keeps its
    state, and so does every other field and flag of the register. *)
Theorem set_bits_then_get_bits
    (reg width lsb value : Z)
    (Hreg : is_u16 reg)
    (Hlsb : 0 <= lsb) (Hwidth : 0 < width) (Hfit : lsb + width <= 16)
    (Hvalue : 0 <= value < 2 ^ width) :
  let reg' := fm_set_bits reg (field_mask width lsb) lsb value in
  fm_get_bits reg' (field_mask width lsb) lsb = value /\
  is_u16 reg' /\
  (forall n, 0 <= n -> in_field width lsb n = false -> Z.testbit reg' n = Z.testbit reg n) /\
  (forall w2 l2, 0 <= w2 -> 0 <= l2 -> l2 + w2 <= 16 -> lsb + width <= l2 \/ l2 + w2 <= lsb ->
     fm_get_bits reg' (field_mask w2 l2) l2 = fm_get_bits reg (field_mask w2 l2) l2) /\
  (forall k, 0 <= k < 16 -> in_field width lsb k = false ->
     fm_get_bit reg' (2 ^ k) = fm_get_bit reg (2 ^ k)).
Proof.
  intros reg'. subst reg'.
  split; [apply fm_get_bits_set_bits_same; lia|].
  split; [apply fm_set_bits_is_u16|].
  split; [|split].
  - intros n Hn Hout. rewrite fm_set_bits_testbit by lia. rewrite Hout. cbn [negb].
    rewrite andb_true_r. unfold in_field in Hout.
    destruct (Z.ltb_spec n 16).
    + cbn [andb].
      destruct (Z.leb_spec lsb n), (Z.ltb_spec n (lsb + width)); try discriminate.
      all: first [rewrite (small_high_bits value width) by lia
                 | rewrite (Z.testbit_neg_r value) by lia];
        apply orb_false_r.
    + cbn [andb]. symmetry. apply is_u16_high; [assumption|lia].
  - intros w2 l2 Hw2 Hl2 Hfit2 Hdis.
    apply fm_get_bits_set_bits_other; (assumption || lia).
  - intros k Hk Hout. apply fm_get_bit_set_bits_other; try lia.
    unfold in_field in Hout.
    destruct (Z.leb_spec lsb k), (Z.ltb_spec k (lsb + width)); try discriminate; lia.
Qed.

(** [fm_set_bits] does not mask the value it stores: bit [n] of the result
    is bit [n - lsb] of the value OR-ed with the old bit outside the field.
    A value that does not fit its field therefore sets bits above the
    field, up to bit 15. *)
Theorem set_bits_does_not_mask_value
    (reg width lsb value n : Z)
    (Hwidth : 0 <= width) (Hn : 0 <= n < 16) :
  let reg' := fm_set_bits reg (field_mask width lsb) lsb value in
  Z.testbit reg' n =
    (Z.testbit reg n && negb (in_field width lsb n)) || Z.testbit value (n - lsb).
Proof.
  intros reg'. subst reg'. rewrite fm_set_bits_testbit by lia.
  destruct (Z.ltb_spec n 16); [reflexivity|lia].
Qed.

(** [fm_set_bit] and [fm_get_bit] on bit [k] of a 16-bit register: the flag
    reads back as written, the register stays a 16-bit value, and every
    other bit keeps its state. *)
Theorem set_bit_then_get_bit
    (reg k : Z) (v : bool)
    (Hreg : is_u16 reg) (Hk : 0 <= k < 16) :
  let reg' := fm_set_bit reg (2 ^ k) v in
  fm_get_bit reg' (2 ^ k) = v /\
  is_u16 reg' /\
  (forall n, 0 <= n -> n <> k -> Z.testbit reg' n = Z.testbit reg n) /\
  (forall k2, 0 <= k2 < 16 -> k2 <> k -> fm_get_bit reg' (2 ^ k2) = fm_get_bit reg (2 ^ k2)).
Proof.
  intros reg'. subst reg'.
  split.
  { rewrite fm_get_bit_set_bit by lia. rewrite Z.eqb_refl. reflexivity. }
  split; [apply fm_set_bit_is_u16|].
  split.
  - intros n Hn Hne. rewrite fm_set_bit_testbit by lia.
    destruct (Z.eqb_spec n k); [contradiction|].
    destruct (Z.ltb_spec n 16); [reflexivity|].
    cbn [andb]. symmetry. apply is_u16_high; [assumption|lia].
  - intros k2 Hk2 Hne. rewrite fm_get_bit_set_bit by lia.
    destruct (Z.eqb_spec k2 k); [contradiction|reflexivity].
Qed.

(** ** The constants of the header as fields *)

Lemma header_fields :
  CHAN_BITS = field_mask 10 CHAN_LSB /\ VOLUME_BITS = field_mask 4 VOLUME_LSB /\
  SEEKTH_BITS = field_mask 4 SEEKTH_LSB /\ SPACE_BITS = field_mask 2 SPACE_LSB /\
  BAND_BITS = field_mask 2 BAND_LSB /\ READCHAN_BITS = field_mask 10 READCHAN_LSB /\
  RSSI_BITS = field_mask 7 RSSI_LSB.
Proof. repeat split. Qed.

(** ** Witnesses *)

Lemma set_bits_then_get_bits_witness :
  let reg' := fm_set_bits 0x888B VOLUME_BITS VOLUME_LSB 5 in
  fm_get_bits reg' VOLUME_BITS VOLUME_LSB = 5 /\
  is_u16 reg' /\
  fm_get_bits reg' SEEKTH_BITS SEEKTH_LSB = fm_get_bits 0x888B SEEKTH_BITS SEEKTH_LSB.
Proof.
  pose proof (set_bits_then_get_bits 0x888B 4 VOLUME_LSB 5) as H.
  cbn zeta in H.
  destruct H as (H1 & H2 & _ & H4 & _);
    [unfold is_u16; lia|unfold VOLUME_LSB; lia|lia|unfold VOLUME_LSB; lia|lia|].
  split; [exact H1|]. split; [exact H2|].
  apply (H4 4 SEEKTH_LSB); unfold SEEKTH_LSB, VOLUME_LSB; lia.
Defined.

Lemma set_bits_does_not_mask_value_witness :
  Z.testbit (fm_set_bits 0x8880 VOLUME_BITS VOLUME_LSB 30) 4 =
    (Z.testbit 0x8880 4 && negb (in_field 4 VOLUME_LSB 4)) || Z.testbit 30 (4 - VOLUME_LSB).
Proof.
  apply (set_bits_does_not_mask_value 0x8880 4 VOLUME_LSB 30 4); lia.
Defined.

Lemma set_bit_then_get_bit_witness :
  let reg' := fm_set_bit 0x800D DMUTE_BIT true in
  fm_get_bit reg' DMUTE_BIT = true /\
  is_u16 reg' /\
  fm_get_bit reg' ENABLE_BIT = fm_get_bit 0x800D ENABLE_BIT.
Proof.
  pose proof (set_bit_then_get_bit 0x800D 14 true) as H.
  cbn zeta in H.
  destruct H as (H1 & H2 & _ & H4); [unfold is_u16; lia|lia|].
  split; [exact H1|]. split; [exact H2|].
  apply (H4 0); lia.
Defined.

End RegsProps.

(** * Properties of the tuner driver *)

Module Rda5807Props.

Import Regs Rda5807 BitLemmas RegsProps.

Section DriverProps.
Context {hw : Type} {platform : Platform hw}.

(** Entering a call that asserts "powered up" and "no task in flight". *)
Ltac enter Hup Hidle :=
  unfold bind at 1; unfold get_radio;
  unfold bind at 1; unfold assert at 1; rewrite Hup;
  unfold bind at 1; unfold assert at 1; rewrite Hidle; cbn [task_eqb negb].

Lemma fm_write_registers_run n (w : world hw) :
  n <= 7 ->
  exists ok chip',
    fm_write_registers n w =
      Ret ok (mk_world (radio w) chip'
                (i2c_log w ++ [I2cWrite RDA5807_ADDR_SEQUENTIAL
                                 (pack_registers (regs (radio w)) 0x2 (Z.to_nat n)) false])).
Proof.
  intros Hn. unfold fm_write_registers, bind, assert, get_radio, i2c_write, ret.
  destruct (Z.leb_spec n 7); [|lia].
  destruct (i2c_write_blocking _ _ _ _) as [res chip']. eauto.
Qed.

Lemma fm_write_registers_up_to_run reg_index (w : world hw) :
  2 <= reg_index <= 8 ->
  exists ok chip',
    fm_write_registers_up_to reg_index w =
      Ret ok (mk_world (radio w) chip'
                (i2c_log w ++ [I2cWrite RDA5807_ADDR_SEQUENTIAL
                   (pack_registers (regs (radio w)) 0x2 (Z.to_nat (reg_index - 1))) false])).
Proof.
  intros Hr. unfold fm_write_registers_up_to. unfold bind at 1. unfold assert.
  destruct (Z.leb_spec 2 reg_index); [|lia]. destruct (Z.leb_spec reg_index 8); [|lia].
  cbn [andb]. apply fm_write_registers_run. lia.
Qed.

Lemma fm_write_single_register_run reg_index (w : world hw) :
  2 <= reg_index <= 8 ->
  exists ok chip',
    fm_write_single_register reg_index w =
      Ret ok (mk_world (radio w) chip' (i2c_log w ++ [write_single_event (radio w) reg_index])).
Proof.
  intros Hr. unfold fm_write_single_register, write_single_event.
  unfold bind at 1. unfold assert.
  destruct (Z.leb_spec 2 reg_index); [|lia]. destruct (Z.leb_spec reg_index 8); [|lia].
  cbn [andb].
  destruct (Z.eqb_spec reg_index 2).
  - apply fm_write_registers_run. lia.
  - unfold bind, get_radio, i2c_write, ret.
    destruct (i2c_write_blocking _ _ _ _) as [res chip']. eauto.
Qed.

Lemma fm_read_registers_total n (w : world hw) :
  n <= 6 -> exists ok w', fm_read_registers n w = Ret ok w'.
Proof.
  intros Hn. unfold fm_read_registers, bind, assert, i2c_read, modify_radio, ret.
  destruct (Z.leb_spec n 6); [|lia].
  destruct (i2c_read_blocking _ _ _ _) as [[res buf] chip'].
  destruct (negb _); eauto.
Qed.

Lemma fm_read_single_register_total reg_index (w : world hw) :
  reg_index <= 15 -> exists ok w', fm_read_single_register reg_index w = Ret ok w'.
Proof.
  intros Hr. unfold fm_read_single_register. unfold bind at 1. unfold assert.
  destruct (Z.leb_spec reg_index 15); [|lia].
  destruct (reg_index =? 10); [apply fm_read_registers_total; lia|].
  unfold bind, i2c_write, i2c_read, modify_radio, ret.
  destruct (i2c_write_blocking _ _ _ _) as [res chip'].
  destruct (negb _); [eauto|]. cbn.
  destruct (i2c_read_blocking _ _ _ _) as [[res2 buf] chip2].
  destruct (negb _); eauto.
Qed.

(** Cancelling returns: the task function takes its [cancel] path, which has
    no loop and no further assertion. *)
Lemma call_task_cancel_total (w : world hw) :
  task (async (radio w)) <> NULL -> state (async (radio w)) = 1 ->
  exists pr w', call_task (task (async (radio w))) true w = Ret pr w'.
Proof.
  intros Ht Hs. destruct (task (async (radio w))) eqn:Etask; [congruence| |]; cbn [call_task].
  - unfold fm_set_frequency_async_task.
    unfold bind at 1. unfold get_radio. unfold bind at 1. unfold assert at 1.
    rewrite Etask. cbn [task_eqb]. unfold bind at 1. unfold assert at 1. rewrite Hs. cbn [Z.eqb Pos.eqb].
    unfold bind at 1. unfold modify_radio at 1. unfold bind at 1.
    match goal with |- context [fm_write_single_register 3 ?w0] =>
      destruct (fm_write_single_register_run 3 w0) as (ok & c1 & E1); [lia|]; rewrite E1 end.
    unfold bind at 1.
    match goal with |- context [fm_read_single_register 10 ?w0] =>
      destruct (fm_read_single_register_total 10 w0) as (ok2 & w2 & E2); [lia|]; rewrite E2 end.
    unfold bind, modify_radio, ret. eauto.
  - unfold fm_seek_async_task.
    unfold bind at 1. unfold get_radio. unfold bind at 1. unfold assert at 1.
    rewrite Etask. cbn [task_eqb]. unfold bind at 1. unfold assert at 1. rewrite Hs. cbn [Z.eqb Pos.eqb].
    unfold bind at 1. unfold modify_radio at 1. unfold bind at 1.
    match goal with |- context [fm_write_single_register 2 ?w0] =>
      destruct (fm_write_single_register_run 2 w0) as (ok & c1 & E1); [lia|]; rewrite E1 end.
    unfold bind at 1.
    match goal with |- context [fm_read_single_register 10 ?w0] =>
      destruct (fm_read_single_register_total 10 w0) as (ok2 & w2 & E2); [lia|]; rewrite E2 end.
    unfold bind, modify_radio, ret. eauto.
Qed.

Lemma fm_async_task_cancel_total (w : world hw) :
  task (async (radio w)) <> NULL -> state (async (radio w)) = 1 ->
  exists wc, fm_async_task_cancel w = Ret tt wc /\ async (radio wc) = no_task.
Proof.
  intros Ht Hs. unfold fm_async_task_cancel.
  unfold bind at 1. unfold get_radio. unfold bind at 1. unfold assert.
  destruct (task (async (radio w))) eqn:Etask; [congruence| |]; cbn [task_eqb negb];
    rewrite <- Etask;
    destruct (call_task_cancel_total w) as (pr & w' & E); try congruence;
    unfold bind; rewrite E; unfold modify_radio; eexists; split; reflexivity.
Qed.

(** After the optional cancel, [fm_power_down] edits one bit of the register
    mirror and issues one transfer. *)
Lemma power_down_tail (w : world hw) :
  exists chip',
    bind (modify_radio (fun r => with_reg 0x2 (fm_set_bit (get (regs r) 0x2) ENABLE_BIT false) r))
      (fun _ => bind (fm_write_single_register 0x2) (fun _ => ret tt)) w =
    Ret tt (mk_world
              (with_reg 0x2 (fm_set_bit (get (regs (radio w)) 0x2) ENABLE_BIT false) (radio w))
              chip'
              (i2c_log w ++
                 [write_single_event
                    (with_reg 0x2 (fm_set_bit (get (regs (radio w)) 0x2) ENABLE_BIT false)
                       (radio w)) 0x2])).
Proof.
  unfold bind at 1. unfold modify_radio at 1. unfold bind at 1.
  match goal with |- context [fm_write_single_register 2 ?w0] =>
    destruct (fm_write_single_register_run 2 w0) as (ok & c1 & E1); [lia|]; rewrite E1 end.
  unfold ret. cbn. eauto.
Qed.

Lemma clear_enable_bits (reg : Z) :
  is_u16 reg ->
  forall k, 0 <= k ->
    Z.testbit (fm_set_bit reg ENABLE_BIT false) k = if k =? 0 then false else Z.testbit reg k.
Proof.
  intros Hreg k Hk. unfold fm_set_bit, u16, ENABLE_BIT, is_u16 in *.
  change (Z.shiftl 1 0) with (2 ^ 0). change 65536 with (2 ^ 16).
  destruct (Z.ltb_spec k 16) as [Hlt|Hge].
  - rewrite Z.mod_pow2_bits_low by lia.
    rewrite Z.land_spec, Z.lnot_spec, Z.pow2_bits_eqb by lia.
    destruct (Z.eqb_spec 0 k), (Z.eqb_spec k 0); try lia; cbn [negb];
      first [apply andb_false_r | apply andb_true_r].
  - rewrite Z.mod_pow2_bits_high by lia.
    destruct (Z.eqb_spec k 0); [lia|].
    rewrite <- (Z.mod_small reg (2 ^ 16)) by (change (2 ^ 16) with 65536; lia).
    symmetry. apply Z.mod_pow2_bits_high. lia.
Qed.

Lemma get_set_same (arr : list Z) (i v : Z) :
  0 <= i -> (Z.to_nat i < length arr)%nat -> get (set arr i v) i = v.
Proof.
  intros Hi Hlen. unfold get, set. rewrite list_lookup_insert_eq by assumption. reflexivity.
Qed.

Lemma get_set_other (arr : list Z) (i j v : Z) :
  0 < i -> i <> j -> get (set arr i v) j = get arr j.
Proof.
  intros Hi Hne. unfold get, set. rewrite list_lookup_insert_ne; [reflexivity|]. lia.
Qed.

Lemma get_is_u16 (arr : list Z) (i : Z) : Forall is_u16 arr -> is_u16 (get arr i).
Proof.
  intros H. unfold get. destruct (arr !! Z.to_nat i) eqn:E; cbn.
  - rewrite Forall_forall in H. apply H. apply list_elem_of_In. eapply list_elem_of_lookup_2. exact E.
  - unfold is_u16. lia.
Qed.

Lemma powered_down_frame (r : rda5807_t) :
  radio_wf r ->
  let r' := powered_down r in
  frequency r' = frequency r /\ volume r' = volume r /\ mute r' = mute r /\
  softmute r' = softmute r /\ mono r' = mono r /\ bass_boost r' = bass_boost r /\
  seek_threshold r' = seek_threshold r /\ config r' = config r /\
  frequency_range r' = frequency_range r /\ async r' = async r /\
  (forall i, i <> 2 -> get (regs r') i = get (regs r) i) /\
  (forall k, 0 <= k ->
     Z.testbit (get (regs r') 2) k = if k =? 0 then false else Z.testbit (get (regs r) 2) k) /\
  fm_is_powered_up r' = false.
Proof.
  intros [Hlen Hu16] r'. subst r'. unfold powered_down, with_reg, with_regs.
  cbn [frequency volume mute softmute mono bass_boost seek_threshold config
       frequency_range async regs].
  assert (Hbits : forall k, 0 <= k ->
            Z.testbit (fm_set_bit (get (regs r) 2) ENABLE_BIT false) k =
              if k =? 0 then false else Z.testbit (get (regs r) 2) k)
    by (intros k Hk; apply clear_enable_bits; [apply get_is_u16|]; assumption).
  repeat split; try reflexivity.
  - intros i Hi. apply get_set_other; lia.
  - intros k Hk. rewrite get_set_same by (simpl; lia). apply Hbits; assumption.
  - unfold fm_is_powered_up. cbn [regs]. rewrite get_set_same by (simpl; lia).
    unfold fm_get_bit. specialize (Hbits 0 ltac:(lia)). cbn [Z.eqb] in Hbits.
    change ENABLE_BIT with (Z.ones 1) at 2. rewrite Z.land_ones by lia.
    change (2 ^ 1) with 2. rewrite <- Z.bit0_mod, Hbits. reflexivity.
Qed.

Lemma schedule_run (interval_ms : Z) (w : world hw) :
  schedule interval_ms w =
    Ret tt (mk_world
              (with_async (mk_async (task (async (radio w))) (state (async (radio w)))
                             (u64 (time_us_64 (chip w) + interval_ms * 1000))) (radio w))
              (chip w) (i2c_log w)).
Proof. reflexivity. Qed.

(** Starting a tune returns, with one transfer issued and the task installed,
    whatever the mirror holds. *)
Lemma fm_set_frequency_async_run (w : world hw) (f : F32.float) :
  fm_is_powered_up (radio w) = true -> task (async (radio w)) = NULL ->
  exists w' e,
    fm_set_frequency_async f w = Ret tt w' /\
    i2c_log w' = i2c_log w ++ [e] /\
    task (async (radio w')) = fm_set_frequency_async_task_ptr /\
    state (async (radio w')) = 1.
Proof.
  intros Hup Hidle. unfold fm_set_frequency_async. enter Hup Hidle.
  cbn zeta.
  unfold bind at 1. unfold modify_radio at 1.
  unfold bind at 1. unfold modify_radio at 1.
  unfold bind at 1.
  match goal with |- context [fm_write_single_register 3 ?w0] =>
    destruct (fm_write_single_register_run 3 w0) as (ok & c1 & E1); [lia|]; rewrite E1 end.
  unfold bind at 1. unfold modify_radio at 1. rewrite schedule_run.
  do 2 eexists. split; [reflexivity|]. cbn. repeat split; reflexivity.
Qed.

(** The transfers of the register writes, tied to what the bus call
    returns. *)
Lemma fm_write_registers_exact n (w : world hw) (res : Z) (chip' : hw) :
  n <= 7 ->
  i2c_write_blocking (chip w) RDA5807_ADDR_SEQUENTIAL
    (pack_registers (regs (radio w)) 0x2 (Z.to_nat n)) false = (res, chip') ->
  fm_write_registers n w =
    Ret (res =? n * 2)
      (mk_world (radio w) chip'
         (i2c_log w ++ [I2cWrite RDA5807_ADDR_SEQUENTIAL
                          (pack_registers (regs (radio w)) 0x2 (Z.to_nat n)) false])).
Proof.
  intros Hn E. unfold fm_write_registers, bind, assert, get_radio, i2c_write, ret.
  destruct (Z.leb_spec n 7); [|lia]. rewrite E. reflexivity.
Qed.

Lemma fm_write_registers_up_to_exact reg_index (w : world hw) (res : Z) (chip' : hw) :
  2 <= reg_index <= 8 ->
  i2c_write_blocking (chip w) RDA5807_ADDR_SEQUENTIAL
    (pack_registers (regs (radio w)) 0x2 (Z.to_nat (reg_index - 1))) false = (res, chip') ->
  fm_write_registers_up_to reg_index w =
    Ret (res =? (reg_index - 1) * 2)
      (mk_world (radio w) chip'
         (i2c_log w ++ [I2cWrite RDA5807_ADDR_SEQUENTIAL
            (pack_registers (regs (radio w)) 0x2 (Z.to_nat (reg_index - 1))) false])).
Proof.
  intros Hr E. unfold fm_write_registers_up_to. unfold bind at 1. unfold assert.
  destruct (Z.leb_spec 2 reg_index); [|lia]. destruct (Z.leb_spec reg_index 8); [|lia].
  cbn [andb]. apply fm_write_registers_exact; [lia|exact E].
Qed.

Lemma fm_write_register_2_exact (w : world hw) (res : Z) (chip' : hw) :
  i2c_write_blocking (chip w) RDA5807_ADDR_SEQUENTIAL
    (pack_registers (regs (radio w)) 0x2 1) false = (res, chip') ->
  fm_write_single_register 0x2 w =
    Ret (res =? 2)
      (mk_world (radio w) chip'
         (i2c_log w ++ [I2cWrite RDA5807_ADDR_SEQUENTIAL
                          (pack_registers (regs (radio w)) 0x2 1) false])).
Proof.
  intros E. unfold fm_write_single_register. unfold bind at 1. unfold assert.
  cbn [Z.leb Z.compare Pos.compare Pos.compare_cont andb Z.eqb Pos.eqb].
  apply (fm_write_registers_exact 1 w res chip'); [lia|exact E].
Qed.

Lemma fm_write_register_exact reg_index (w : world hw) (res : Z) (chip' : hw) :
  3 <= reg_index <= 8 ->
  let reg := get (regs (radio w)) reg_index in
  let bytes := [u8 reg_index; u8 (Z.shiftr reg 8); u8 (Z.land reg 0xFF)] in
  i2c_write_blocking (chip w) RDA5807_ADDR_RANDOM_ACCESS bytes false = (res, chip') ->
  fm_write_single_register reg_index w =
    Ret (res =? 3)
      (mk_world (radio w) chip'
         (i2c_log w ++ [I2cWrite RDA5807_ADDR_RANDOM_ACCESS bytes false])).
Proof.
  intros Hr reg bytes E. unfold fm_write_single_register.
  unfold bind at 1. unfold assert.
  destruct (Z.leb_spec 2 reg_index); [|lia]. destruct (Z.leb_spec reg_index 8); [|lia].
  cbn [andb].
  destruct (Z.eqb_spec reg_index 2); [lia|].
  unfold bind, get_radio, i2c_write, ret. fold reg. fold bytes. rewrite E. reflexivity.
Qed.

(** Claim C1, as amended. On a powered-up radio with no task in flight
    (every setter asserts both), a setter that finds a new value (after
    clamping) edits the register mirror (one flag or field of one register), issues
    exactly one bus write, of the register of that flag or field as the
    edited mirror holds it, and then stores the value in the mirrored state
    field. The result [res] of the bus write is never looked at: whatever
    [i2c_write_blocking] returns, the radio ends with the register edited and
    the field stored. This holds on every platform, so also on a bus whose
    writes fail. The mute, mono and bass boost setters write register 2 by
    the sequential address, the softmute setter writes registers 2..4 by the
    sequential address, the volume and seek threshold setters write register
    5 by random access. *)
Theorem setters_store_whatever_the_write_returns
    (w : world hw)
    (Hup : fm_is_powered_up (radio w) = true)
    (Hidle : task (async (radio w)) = NULL) :
  (forall v res chip', v <> mute (radio w) ->
     let r1 := with_reg 0x2 (fm_set_bit (get (regs (radio w)) 0x2) DMUTE_BIT (negb v))
                 (radio w) in
     let bytes := pack_registers (regs r1) 0x2 1 in
     i2c_write_blocking (chip w) RDA5807_ADDR_SEQUENTIAL bytes false = (res, chip') ->
     fm_set_mute v w =
       Ret tt (mk_world (with_mute v r1) chip'
                 (i2c_log w ++ [I2cWrite RDA5807_ADDR_SEQUENTIAL bytes false]))) /\
  (forall v res chip', v <> softmute (radio w) ->
     let r1 := with_reg 0x4 (fm_set_bit (get (regs (radio w)) 0x4) SOFTMUTE_EN_BIT v)
                 (radio w) in
     let bytes := pack_registers (regs r1) 0x2 3 in
     i2c_write_blocking (chip w) RDA5807_ADDR_SEQUENTIAL bytes false = (res, chip') ->
     fm_set_softmute v w =
       Ret tt (mk_world (with_softmute v r1) chip'
                 (i2c_log w ++ [I2cWrite RDA5807_ADDR_SEQUENTIAL bytes false]))) /\
  (forall v res chip', v <> mono (radio w) ->
     let r1 := with_reg 0x2 (fm_set_bit (get (regs (radio w)) 0x2) MONO_BIT v) (radio w) in
     let bytes := pack_registers (regs r1) 0x2 1 in
     i2c_write_blocking (chip w) RDA5807_ADDR_SEQUENTIAL bytes false = (res, chip') ->
     fm_set_mono v w =
       Ret tt (mk_world (with_mono v r1) chip'
                 (i2c_log w ++ [I2cWrite RDA5807_ADDR_SEQUENTIAL bytes false]))) /\
  (forall v res chip', v <> bass_boost (radio w) ->
     let r1 := with_reg 0x2 (fm_set_bit (get (regs (radio w)) 0x2) BASS_BIT v) (radio w) in
     let bytes := pack_registers (regs r1) 0x2 1 in
     i2c_write_blocking (chip w) RDA5807_ADDR_SEQUENTIAL bytes false = (res, chip') ->
     fm_set_bass_boost v w =
       Ret tt (mk_world (with_bass_boost v r1) chip'
                 (i2c_log w ++ [I2cWrite RDA5807_ADDR_SEQUENTIAL bytes false]))) /\
  (forall v res chip', MIN_z v FM_MAX_VOLUME <> volume (radio w) ->
     let v' := MIN_z v FM_MAX_VOLUME in
     let r1 := with_reg 0x5 (fm_set_bits (get (regs (radio w)) 0x5) VOLUME_BITS VOLUME_LSB v')
                 (radio w) in
     let reg := get (regs r1) 0x5 in
     let bytes := [u8 0x5; u8 (Z.shiftr reg 8); u8 (Z.land reg 0xFF)] in
     i2c_write_blocking (chip w) RDA5807_ADDR_RANDOM_ACCESS bytes false = (res, chip') ->
     fm_set_volume v w =
       Ret tt (mk_world (with_volume v' r1) chip'
                 (i2c_log w ++ [I2cWrite RDA5807_ADDR_RANDOM_ACCESS bytes false]))) /\
  (forall v res chip', MIN_z v FM_MAX_SEEK_THRESHOLD <> seek_threshold (radio w) ->
     let v' := MIN_z v FM_MAX_SEEK_THRESHOLD in
     let r1 := with_reg 0x5 (fm_set_bits (get (regs (radio w)) 0x5) SEEKTH_BITS SEEKTH_LSB v')
                 (radio w) in
     let reg := get (regs r1) 0x5 in
     let bytes := [u8 0x5; u8 (Z.shiftr reg 8); u8 (Z.land reg 0xFF)] in
     i2c_write_blocking (chip w) RDA5807_ADDR_RANDOM_ACCESS bytes false = (res, chip') ->
     fm_set_seek_threshold v w =
       Ret tt (mk_world (with_seek_threshold v' r1) chip'
                 (i2c_log w ++ [I2cWrite RDA5807_ADDR_RANDOM_ACCESS bytes false]))).
Proof.
  repeat split; intros v res chip' Hv.
  - intros r1 bytes E. unfold fm_set_mute. enter Hup Hidle.
    destruct (Bool.eqb_spec (mute (radio w)) v) as [Ev|_]; [congruence|].
    unfold bind at 1. unfold modify_radio at 1. unfold bind at 1. fold r1.
    rewrite (fm_write_register_2_exact (mk_world r1 (chip w) (i2c_log w)) res chip' E).
    reflexivity.
  - intros r1 bytes E. unfold fm_set_softmute. enter Hup Hidle.
    destruct (Bool.eqb_spec (softmute (radio w)) v) as [Ev|_]; [congruence|].
    unfold bind at 1. unfold modify_radio at 1. unfold bind at 1. fold r1.
    rewrite (fm_write_registers_up_to_exact 4 (mk_world r1 (chip w) (i2c_log w)) res chip'
               ltac:(lia) E).
    reflexivity.
  - intros r1 bytes E. unfold fm_set_mono. enter Hup Hidle.
    destruct (Bool.eqb_spec (mono (radio w)) v) as [Ev|_]; [congruence|].
    unfold bind at 1. unfold modify_radio at 1. unfold bind at 1. fold r1.
    rewrite (fm_write_register_2_exact (mk_world r1 (chip w) (i2c_log w)) res chip' E).
    reflexivity.
  - intros r1 bytes E. unfold fm_set_bass_boost. enter Hup Hidle.
    destruct (Bool.eqb_spec (bass_boost (radio w)) v) as [Ev|_]; [congruence|].
    unfold bind at 1. unfold modify_radio at 1. unfold bind at 1. fold r1.
    rewrite (fm_write_register_2_exact (mk_world r1 (chip w) (i2c_log w)) res chip' E).
    reflexivity.
  - intros v' r1 reg bytes E. unfold fm_set_volume. enter Hup Hidle.
    fold v'. destruct (Z.eqb_spec v' (volume (radio w))) as [Ev|_]; [contradiction|].
    unfold bind at 1. unfold modify_radio at 1. unfold bind at 1. fold r1.
    rewrite (fm_write_register_exact 5 (mk_world r1 (chip w) (i2c_log w)) res chip'
               ltac:(lia) E).
    reflexivity.
  - intros v' r1 reg bytes E. unfold fm_set_seek_threshold. enter Hup Hidle.
    fold v'. destruct (Z.eqb_spec v' (seek_threshold (radio w))) as [Ev|_]; [contradiction|].
    unfold bind at 1. unfold modify_radio at 1. unfold bind at 1. fold r1.
    rewrite (fm_write_register_exact 5 (mk_world r1 (chip w) (i2c_log w)) res chip'
               ltac:(lia) E).
    reflexivity.
Qed.

(** Editing one register of the mirror twice in a row is one edit. *)
Lemma with_reg_edit_twice (r : rda5807_t) (i x : Z) (g : Z -> Z) :
  0 <= i -> (Z.to_nat i < length (regs r))%nat ->
  with_reg i (g (get (regs (with_reg i x r)) i)) (with_reg i x r) = with_reg i (g x) r.
Proof.
  intros Hi Hlen. unfold with_reg. cbn [regs with_regs].
  rewrite get_set_same by assumption.
  unfold set. rewrite list_insert_insert_eq. reflexivity.
Qed.

(** Claim C2, as amended. On a powered-up radio with no task in flight,
    the setters for mute, softmute, mono, bass boost, volume and seek
    threshold, and [fm_set_frequency_blocking], called with the value in
    effect, return with the radio, the platform and the transfer log all
    unchanged (for any amount of fuel of the polling loop). The asynchronous
    variant has no such test. Whatever frequency it is given, the one in
    effect included, [fm_set_frequency_async] returns with one more transfer
    issued and the tune task installed; on a mirror of sixteen 16-bit
    registers (the array the C structure declares) it puts the channel of
    the clamped frequency and the TUNE flag into register 3 of the mirror,
    writes that register to the bus by random access (one transfer of three
    bytes: the register index and the two bytes of the word) and installs
    the tune task with its first poll 5 ms after the clock reading; the
    result of the write is not looked at. *)
Theorem setters_idempotent
    (w : world hw) (fuel : nat)
    (Hup : fm_is_powered_up (radio w) = true)
    (Hidle : task (async (radio w)) = NULL) :
  fm_set_mute (mute (radio w)) w = Ret tt w /\
  fm_set_softmute (softmute (radio w)) w = Ret tt w /\
  fm_set_mono (mono (radio w)) w = Ret tt w /\
  fm_set_bass_boost (bass_boost (radio w)) w = Ret tt w /\
  (forall v, MIN_z v FM_MAX_VOLUME = volume (radio w) -> fm_set_volume v w = Ret tt w) /\
  (forall v, MIN_z v FM_MAX_SEEK_THRESHOLD = seek_threshold (radio w) ->
     fm_set_seek_threshold v w = Ret tt w) /\
  (forall f, F32.eqb (frequency (radio w)) f = true ->
     fm_set_frequency_blocking fuel f w = Ret tt w) /\
  (forall f, exists w' e,
     fm_set_frequency_async f w = Ret tt w' /\
     i2c_log w' = i2c_log w ++ [e] /\
     task (async (radio w')) = fm_set_frequency_async_task_ptr /\
     state (async (radio w')) = 1) /\
  (forall f res chip', radio_wf (radio w) ->
     let range := frequency_range (radio w) in
     let channel :=
       fm_frequency_to_channel (MIN_f (MAX_f f (bottom range)) (top range)) range in
     let reg3 :=
       fm_set_bit (fm_set_bits (get (regs (radio w)) 0x3) CHAN_BITS CHAN_LSB channel)
         TUNE_BIT true in
     let bytes := [u8 0x3; u8 (Z.shiftr reg3 8); u8 (Z.land reg3 0xFF)] in
     i2c_write_blocking (chip w) RDA5807_ADDR_RANDOM_ACCESS bytes false = (res, chip') ->
     fm_set_frequency_async f w =
       Ret tt
         (mk_world
            (with_async
               (mk_async fm_set_frequency_async_task_ptr 1
                  (u64 (time_us_64 chip' + TUNE_POLL_INTERVAL_MS * 1000)))
               (with_reg 0x3 reg3 (radio w)))
            chip'
            (i2c_log w ++ [I2cWrite RDA5807_ADDR_RANDOM_ACCESS bytes false])) /\
     fm_get_bit reg3 TUNE_BIT = true /\
     (0 <= channel < 2 ^ 10 -> fm_get_bits reg3 CHAN_BITS CHAN_LSB = channel)).
Proof.
  split; [|split; [|split; [|split; [|split; [|split; [|split; [|split]]]]]]].
  - unfold fm_set_mute. enter Hup Hidle. rewrite Bool.eqb_reflx. reflexivity.
  - unfold fm_set_softmute. enter Hup Hidle. rewrite Bool.eqb_reflx. reflexivity.
  - unfold fm_set_mono. enter Hup Hidle. rewrite Bool.eqb_reflx. reflexivity.
  - unfold fm_set_bass_boost. enter Hup Hidle. rewrite Bool.eqb_reflx. reflexivity.
  - intros v Hv. unfold fm_set_volume. enter Hup Hidle. rewrite Hv, Z.eqb_refl. reflexivity.
  - intros v Hv. unfold fm_set_seek_threshold. enter Hup Hidle.
    rewrite Hv, Z.eqb_refl. reflexivity.
  - intros f Hf. unfold fm_set_frequency_blocking. enter Hup Hidle. rewrite Hf. reflexivity.
  - intros f. apply fm_set_frequency_async_run; assumption.
  - intros f res chip' [Hlen _] range channel reg3 bytes E.
    split; [|split].
    + unfold fm_set_frequency_async. enter Hup Hidle. cbn zeta.
    fold range. fold channel.
    unfold bind at 1. unfold modify_radio at 1.
    unfold bind at 1. unfold modify_radio at 1.
    cbn [radio chip i2c_log].
    rewrite (with_reg_edit_twice (radio w) 3
               (fm_set_bits (get (regs (radio w)) 3) CHAN_BITS CHAN_LSB channel)
               (fun reg => fm_set_bit reg TUNE_BIT true)) by lia.
    fold reg3.
    unfold bind at 1.
    assert (Hget : get (regs (with_reg 3 reg3 (radio w))) 3 = reg3).
    { unfold with_reg. cbn [regs with_regs]. apply get_set_same; lia. }
    rewrite (fm_write_register_exact 3 (mk_world (with_reg 3 reg3 (radio w)) (chip w) (i2c_log w))
               res chip' ltac:(lia));
      [|cbn [radio chip]; rewrite Hget; assumption].
    cbn [radio]. rewrite Hget.
    unfold bind at 1. unfold modify_radio at 1. rewrite schedule_run. reflexivity.
    + subst reg3. change TUNE_BIT with (2 ^ 4).
      rewrite fm_get_bit_set_bit by lia. reflexivity.
    + intros Hch. subst reg3. change TUNE_BIT with (2 ^ 4).
      change CHAN_BITS with (field_mask 10 6). change CHAN_LSB with 6.
      rewrite fm_get_bits_set_bit_other by lia.
      apply fm_get_bits_set_bits_same; lia.
Qed.

(** Claim C6. With a task in flight, a tick made while [time_us_64()] is
    earlier than the task's resume time returns not-done and leaves the
    radio, the platform and the transfer log unchanged; at or after the
    resume time the tick is the call of the task's step function (followed
    by clearing the task state when it reports done). *)
Theorem tick_before_resume_time_is_noop
    (w : world hw)
    (Htask : task (async (radio w)) <> NULL) :
  (time_us_64 (chip w) < resume_time (async (radio w)) ->
     fm_async_task_tick w = Ret (mk_progress false 0) w) /\
  (resume_time (async (radio w)) <= time_us_64 (chip w) ->
     fm_async_task_tick w =
       bind (call_task (task (async (radio w))) false)
         (fun progress =>
            bind (if done progress then modify_radio (with_async no_task) else ret tt)
              (fun _ => ret progress)) w).
Proof.
  assert (Ht : negb (task_eqb (task (async (radio w))) NULL) = true)
    by (destruct (task (async (radio w))); [congruence|reflexivity|reflexivity]).
  split; intros Htime; unfold fm_async_task_tick;
    unfold bind at 1; unfold get_radio;
    unfold bind at 1; unfold assert; rewrite Ht;
    unfold bind at 1; unfold now.
  - destruct (Z.ltb_spec (time_us_64 (chip w)) (resume_time (async (radio w)))); [|lia].
    reflexivity.
  - destruct (Z.ltb_spec (time_us_64 (chip w)) (resume_time (async (radio w)))); [lia|].
    reflexivity.
Qed.

End DriverProps.

(** The theorems above at concrete inputs. *)

Lemma setters_store_whatever_the_write_returns_witness :
  @fm_set_mute Z dead_bus false sample_world =
    Ret tt (mk_world (with_mute false (with_reg 0x2 0xC00D sample_radio)) 1000
              [I2cWrite RDA5807_ADDR_SEQUENTIAL [0xC0; 0x0D] false]).
Proof.
  apply (proj1 (@setters_store_whatever_the_write_returns Z dead_bus sample_world
                  eq_refl eq_refl) false (-1) 1000);
    [discriminate | reflexivity].
Defined.

Lemma setters_idempotent_witness :
  @fm_set_volume Z stub_chip 0 sample_world = Ret tt sample_world /\
  @fm_set_frequency_blocking Z stub_chip 5 (F32.of_Z 87) sample_world = Ret tt sample_world /\
  @fm_set_frequency_async Z stub_chip (F32.of_Z 87) sample_world =
    Ret tt (mk_world
              (with_async (mk_async fm_set_frequency_async_task_ptr 1 6000)
                 (with_reg 0x3 16 sample_radio))
              1000 [I2cWrite RDA5807_ADDR_RANDOM_ACCESS [3; 0; 16] false]).
Proof.
  pose proof (@setters_idempotent Z stub_chip sample_world 5) as H.
  destruct H as (_ & _ & _ & _ & Hv & _ & Hf & _ & Ha).
  - reflexivity.
  - reflexivity.
  - split; [apply Hv; reflexivity|]. split; [apply Hf; reflexivity|].
    apply (Ha (F32.of_Z 87) 3 1000); [|reflexivity].
    split; [reflexivity|].
    repeat (constructor; [unfold is_u16; cbn; lia|]). constructor.
Defined.

Lemma tick_before_resume_time_is_noop_witness :
  @fm_async_task_tick Z stub_chip tuning_world = Ret (mk_progress false 0) tuning_world.
Proof.
  apply (@tick_before_resume_time_is_noop Z stub_chip tuning_world).
  - vm_compute. discriminate.
  - vm_compute. reflexivity.
Defined.

(** Counterexamples to the claims as first stated. *)

(** Claim C1 as stated fails: on a bus where every write fails,
    [fm_set_mute(radio, false)] on a muted radio returns with [mute] changed
    to false, and [fm_set_volume(radio, 5)] with [volume] changed from 0
    to 5. *)
Lemma failed_write_still_updates_mirror :
  (forall chip addr bytes nostop,
     fst (@i2c_write_blocking Z dead_bus chip addr bytes nostop) = -1) /\
  mute (radio sample_world) = true /\
  volume (radio sample_world) = 0 /\
  (exists w', @fm_set_mute Z dead_bus false sample_world = Ret tt w' /\
              mute (radio w') = false) /\
  (exists w', @fm_set_volume Z dead_bus 5 sample_world = Ret tt w' /\
              volume (radio w') = 5).
Proof.
  split; [reflexivity|]. split; [reflexivity|]. split; [reflexivity|].
  split; eexists; (split; [vm_compute; reflexivity | reflexivity]).
Qed.

(** Claim C2 as stated fails for the asynchronous frequency setter: the
    sample radio is tuned to 87.0 MHz, and [fm_set_frequency_async(radio,
    87.0f)] writes register 3 and leaves a tune task in flight. *)
Lemma set_frequency_async_is_not_idempotent :
  F32.eqb (frequency (radio sample_world)) (F32.of_Z 87) = true /\
  i2c_log sample_world = [] /\
  task (async (radio sample_world)) = NULL /\
  exists w', @fm_set_frequency_async Z stub_chip (F32.of_Z 87) sample_world = Ret tt w' /\
    i2c_log w' = [I2cWrite 0x11 [3; 0; 16] false] /\
    task (async (radio w')) = fm_set_frequency_async_task_ptr /\
    get (regs (radio w')) 3 = 16 /\ get (regs (radio sample_world)) 3 = 0.
Proof.
  split; [reflexivity|]. split; [reflexivity|]. split; [reflexivity|].
  eexists. split; [vm_compute; reflexivity|]. repeat split; reflexivity.
Qed.

(** Claim C8 as stated fails when a task is in flight: powering down the
    radio that is tuning from 87.0 to 88.0 MHz cancels the tune, which clears
    the TUNE bit of register 3, refreshes register 0xA from the chip and sets
    [frequency] to the channel read back (88.0 MHz here). *)
Lemma power_down_during_tune_changes_frequency :
  fm_is_powered_up (radio tuning_world) = true /\
  task (async (radio tuning_world)) = fm_set_frequency_async_task_ptr /\
  frequency (radio tuning_world) = F32.of_Z 87 /\
  get (regs (radio tuning_world)) 3 = 656 /\
  exists w', @fm_power_down Z stub_chip tuning_world = Ret tt w' /\
    frequency (radio w') = F32.of_Z 88 /\
    get (regs (radio w')) 3 = 640 /\
    get (regs (radio w')) 10 <> get (regs (radio tuning_world)) 10.
Proof.
  split; [reflexivity|]. split; [reflexivity|]. split; [reflexivity|]. split; [reflexivity|].
  eexists. split; [vm_compute; reflexivity|]. repeat split; try reflexivity.
  vm_compute. discriminate.
Qed.

End Rda5807Props.

(** * More about the tuner driver: the wire format, the register mirror,
      tuning, status reads and power up *)

Module Rda5807More.

Import Regs Rda5807 BitLemmas RegsProps Rda5807Props FrequencyProps.

(** ** Arrays *)

Lemma get_app_at (pre rest : list Z) (x : Z) :
  get (pre ++ x :: rest) (Z.of_nat (length pre)) = x.
Proof.
  unfold get. rewrite Nat2Z.id, lookup_app_r by lia.
  rewrite Nat.sub_diag. reflexivity.
Qed.

Lemma get_set_eq (arr : list Z) (i v : Z) :
  0 <= i -> (Z.to_nat i < length arr)%nat -> get (set arr i v) i = v.
Proof.
  intros Hi Hlen. unfold get, set. rewrite list_lookup_insert_eq by lia. reflexivity.
Qed.

Lemma get_set_ne (arr : list Z) (i j v : Z) :
  0 <= i -> 0 <= j -> i <> j -> get (set arr i v) j = get arr j.
Proof.
  intros Hi Hj Hne. unfold get, set. rewrite list_lookup_insert_ne by lia. reflexivity.
Qed.

Lemma set_get_same (arr : list Z) (i : Z) :
  (Z.to_nat i < length arr)%nat -> set arr i (get arr i) = arr.
Proof.
  intros Hlen. unfold get, set.
  destruct (lookup_lt_is_Some_2 arr (Z.to_nat i) Hlen) as [x Hx].
  rewrite Hx. cbn. apply list_insert_id. exact Hx.
Qed.

Lemma set_length (arr : list Z) (i v : Z) : length (set arr i v) = length arr.
Proof. apply length_insert. Qed.

Lemma set_is_u16 (arr : list Z) (i v : Z) :
  Forall is_u16 arr -> is_u16 v -> Forall is_u16 (set arr i v).
Proof.
  intros Harr Hv. unfold set.
  apply Forall_forall. intros x Hx. rewrite Forall_forall in Harr.
  apply list_elem_of_In, list_elem_of_lookup in Hx. destruct Hx as [k Hk].
  destruct (Nat.eq_dec k (Z.to_nat i)) as [->|Hne].
  - destruct (Nat.lt_ge_cases (Z.to_nat i) (length arr)) as [Hlt|Hge].
    + rewrite list_lookup_insert_eq in Hk by assumption. congruence.
    + rewrite list_insert_ge in Hk by assumption.
      apply Harr, list_elem_of_In, list_elem_of_lookup. eauto.
  - rewrite list_lookup_insert_ne in Hk by congruence.
    apply Harr, list_elem_of_In, list_elem_of_lookup. eauto.
Qed.

Lemma get_u16 (arr : list Z) (i : Z) : Forall is_u16 arr -> is_u16 (get arr i).
Proof.
  intros H. unfold get. destruct (arr !! Z.to_nat i) as [x|] eqn:E; cbn.
  - rewrite Forall_forall in H. apply H, list_elem_of_In, list_elem_of_lookup. eauto.
  - unfold is_u16. lia.
Qed.

(** ** The wire format of a register *)

Lemma byte_join (r : Z) :
  is_u16 r ->
  u16 (Z.lor (u16 (Z.shiftl (u8 (Z.shiftr r 8)) 8)) (u8 (Z.land r 0xFF))) = r.
Proof.
  intros Hr. apply Z.bits_inj'. intros n Hn.
  rewrite testbit_u16, Z.lor_spec, testbit_u16, Z.shiftl_spec, !testbit_u8 by lia.
  rewrite Z.land_spec. change 0xFF with (Z.ones 8). rewrite Z.testbit_ones by lia.
  destruct (Z.ltb_spec n 16).
  - destruct (Z.ltb_spec n 8).
    + rewrite (Z.testbit_neg_r _ (n - 8)) by lia.
      destruct (Z.ltb_spec (n - 8) 8); [|lia].
      destruct (Z.leb_spec 0 n); [|lia].
      cbn [andb orb]. rewrite andb_true_r. reflexivity.
    + destruct (Z.ltb_spec (n - 8) 8); [|lia].
      rewrite Z.shiftr_spec by lia. replace (n - 8 + 8) with n by lia.
      cbn [andb]. rewrite orb_false_r. reflexivity.
  - cbn [andb]. symmetry. apply is_u16_high; [assumption|lia].
Qed.

Lemma pack_registers_length (regs : list Z) (n : nat) : forall p,
  length (pack_registers regs p n) = (2 * n)%nat.
Proof.
  induction n as [|n IH]; intros p; [reflexivity|].
  cbn [pack_registers length]. rewrite IH. lia.
Qed.

Lemma pack_registers_bytes (regs : list Z) (n : nat) : forall p,
  Forall is_u8 (pack_registers regs p n).
Proof.
  induction n as [|n IH]; intros p; [constructor|].
  cbn [pack_registers]. repeat constructor; try apply IH;
    unfold is_u8, u8; apply Z.mod_pos_bound; lia.
Qed.

Lemma unpack_pack (src : list Z) (n : nat) :
  Forall is_u16 src ->
  forall (pre dst : list Z) (p q : Z),
    0 <= p -> 0 <= q -> (Z.to_nat q + n <= length dst)%nat ->
    let dst' := unpack_registers (pre ++ pack_registers src p n)
                  (Z.of_nat (length pre)) q n dst in
    length dst' = length dst /\
    forall j, 0 <= j ->
      get dst' j =
        if (q <=? j) && (j <? q + Z.of_nat n) then get src (p + (j - q)) else get dst j.
Proof.
  intros Hsrc. induction n as [|n IH]; intros pre dst p q Hp Hq Hfit.
  - cbn [unpack_registers]. split; [reflexivity|]. intros j Hj.
    destruct (Z.leb_spec q j), (Z.ltb_spec j (q + Z.of_nat 0)); try lia; reflexivity.
  - cbn [pack_registers unpack_registers]. cbn zeta.
    set (r := get src p).
    set (hi := u8 (Z.shiftr r 8)). set (lo := u8 (Z.land r 0xFF)).
    rewrite get_app_at.
    replace (pre ++ hi :: lo :: pack_registers src (p + 1) n)
      with ((pre ++ [hi]) ++ lo :: pack_registers src (p + 1) n)
      by (rewrite <- app_assoc; reflexivity).
    replace (Z.of_nat (length pre) + 1) with (Z.of_nat (length (pre ++ [hi])))
      by (rewrite length_app; cbn; lia).
    rewrite get_app_at.
    replace ((pre ++ [hi]) ++ lo :: pack_registers src (p + 1) n)
      with ((pre ++ [hi; lo]) ++ pack_registers src (p + 1) n)
      by (rewrite <- !app_assoc; reflexivity).
    replace (Z.of_nat (length pre) + 2)
      with (Z.of_nat (length (pre ++ [hi; lo])))
      by (rewrite !length_app; cbn; lia).
    subst hi lo. rewrite byte_join by (apply get_u16; assumption).
    specialize (IH (pre ++ [u8 (Z.shiftr r 8); u8 (Z.land r 0xFF)]) (set dst q r)
                  (p + 1) (q + 1) ltac:(lia) ltac:(lia)
                  ltac:(rewrite set_length; lia)).
    cbn zeta in IH. destruct IH as [IHlen IHget].
    split; [rewrite IHlen; apply set_length|].
    intros j Hj. rewrite IHget by assumption.
    destruct (Z.leb_spec (q + 1) j), (Z.ltb_spec j (q + 1 + Z.of_nat n)),
             (Z.leb_spec q j), (Z.ltb_spec j (q + Z.of_nat (S n))); try lia; cbn [andb].
    all: first [ f_equal; lia
               | rewrite get_set_ne by lia; reflexivity
               | assert (j = q) as -> by lia;
                 rewrite get_set_eq by lia; subst r; f_equal; lia ].
Qed.

(** The bytes that [fm_write_registers] puts on the bus for [n] registers
    are two per register, and the unpacking loop of [fm_read_registers]
    turns them back into the same [n] register values, high byte first:
    the destination holds the source registers in the [n] places written
    and its old contents elsewhere. *)
Theorem registers_survive_the_wire
    (src dst : list Z) (p q : Z) (n : nat)
    (Hsrc : Forall is_u16 src) (Hp : 0 <= p) (Hq : 0 <= q)
    (Hfit : (Z.to_nat q + n <= length dst)%nat) :
  let bytes := pack_registers src p n in
  let dst' := unpack_registers bytes 0 q n dst in
  length bytes = (2 * n)%nat /\
  Forall is_u8 bytes /\
  length dst' = length dst /\
  (forall j, 0 <= j ->
     get dst' j =
       if (q <=? j) && (j <? q + Z.of_nat n) then get src (p + (j - q)) else get dst j).
Proof.
  intros bytes dst'. subst bytes dst'.
  split; [apply pack_registers_length|].
  split; [apply pack_registers_bytes|].
  exact (unpack_pack src n Hsrc [] dst p q Hp Hq Hfit).
Qed.

Lemma registers_survive_the_wire_witness :
  let bytes := pack_registers (regs sample_radio) 2 6 in
  let dst' := unpack_registers bytes 0 0xA 6 (replicate 16 0) in
  length bytes = (2 * 6)%nat /\
  Forall is_u8 bytes /\
  length dst' = length (replicate 16 0) /\
  (forall j, 0 <= j ->
     get dst' j =
       if (0xA <=? j) && (j <? 0xA + Z.of_nat 6)
       then get (regs sample_radio) (2 + (j - 0xA)) else get (replicate 16 0) j).
Proof.
  apply (registers_survive_the_wire (regs sample_radio) (replicate 16 0) 2 0xA 6).
  - repeat (constructor; [unfold is_u16; cbn; lia|]). constructor.
  - lia.
  - lia.
  - cbn. lia.
Defined.

(** ** Running the driver's calls *)

Section Runs.

Context {hw : Type} {platform : Platform hw}.

Lemma returns_bind {A B : Type} (m : M hw A) (k : A -> M hw B) (w : world hw)
    (Q : B -> world hw -> Prop) :
  returns m w (fun x w' => returns (k x) w' Q) -> returns (bind m k) w Q.
Proof.
  intros (x & w' & Hm & y & w'' & Hk & HQ). exists y, w''. split; [|exact HQ].
  unfold bind. rewrite Hm. exact Hk.
Qed.

Lemma returns_ret {A : Type} (x : A) (w : world hw) (Q : A -> world hw -> Prop) :
  Q x w -> returns (ret x) w Q.
Proof. intros HQ. exists x, w. split; [reflexivity|exact HQ]. Qed.

Lemma returns_assert (cond : bool) (w : world hw) (Q : unit -> world hw -> Prop) :
  cond = true -> Q tt w -> returns (assert cond) w Q.
Proof. intros -> HQ. exists tt, w. split; [reflexivity|exact HQ]. Qed.

Lemma returns_get_radio (w : world hw) (Q : rda5807_t -> world hw -> Prop) :
  Q (radio w) w -> returns get_radio w Q.
Proof. intros HQ. exists (radio w), w. split; [reflexivity|exact HQ]. Qed.

Lemma returns_modify (f : rda5807_t -> rda5807_t) (w : world hw)
    (Q : unit -> world hw -> Prop) :
  Q tt (mk_world (f (radio w)) (chip w) (i2c_log w)) -> returns (modify_radio f) w Q.
Proof. intros HQ. eexists tt, _. split; [reflexivity|exact HQ]. Qed.

Lemma returns_sleep (ms : Z) (w : world hw) (Q : unit -> world hw -> Prop) :
  Q tt (mk_world (radio w) (sleep_ms ms (chip w)) (i2c_log w)) -> returns (sleep ms) w Q.
Proof. intros HQ. eexists tt, _. split; [reflexivity|exact HQ]. Qed.

Lemma returns_now (w : world hw) (Q : Z -> world hw -> Prop) :
  Q (time_us_64 (chip w)) w -> returns now w Q.
Proof. intros HQ. eexists _, _. split; [reflexivity|exact HQ]. Qed.

Lemma returns_i2c_read (addr len : Z) (nostop : bool) (w : world hw)
    (Q : Z * list Z -> world hw -> Prop) :
  (forall n bytes h,
     i2c_read_blocking (chip w) addr len nostop = (n, bytes, h) ->
     Q (n, bytes) (mk_world (radio w) h (i2c_log w ++ [I2cRead addr len nostop]))) ->
  returns (i2c_read addr len nostop) w Q.
Proof.
  intros HQ. unfold returns, i2c_read.
  destruct (i2c_read_blocking (chip w) addr len nostop) as [[n bytes] h] eqn:E.
  eexists _, _. split; [reflexivity|apply HQ; reflexivity].
Qed.

Lemma returns_i2c_write (addr : Z) (bytes : list Z) (nostop : bool) (w : world hw)
    (Q : Z -> world hw -> Prop) :
  (forall n h,
     i2c_write_blocking (chip w) addr bytes nostop = (n, h) ->
     Q n (mk_world (radio w) h (i2c_log w ++ [I2cWrite addr bytes nostop]))) ->
  returns (i2c_write addr bytes nostop) w Q.
Proof.
  intros HQ. unfold returns, i2c_write.
  destruct (i2c_write_blocking (chip w) addr bytes nostop) as [n h] eqn:E.
  eexists _, _. split; [reflexivity|apply HQ; reflexivity].
Qed.

Lemma returns_weaken {A : Type} (m : M hw A) (w : world hw) (P Q : A -> world hw -> Prop) :
  returns m w P -> (forall x w', P x w' -> Q x w') -> returns m w Q.
Proof. intros (x & w' & Hm & HP) H. exists x, w'. split; [exact Hm|apply H; exact HP]. Qed.

Lemma returns_schedule (interval_ms : Z) (w : world hw) (Q : unit -> world hw -> Prop) :
  Q tt (mk_world
          (with_async (mk_async (task (async (radio w))) (state (async (radio w)))
                         (u64 (time_us_64 (chip w) + interval_ms * 1000))) (radio w))
          (chip w) (i2c_log w)) ->
  returns (schedule interval_ms) w Q.
Proof. intros HQ. eexists tt, _. split; [apply schedule_run|exact HQ]. Qed.

(** A write of one register returns whatever the bus does; only the
    platform state and the log change. *)
Lemma returns_write_single (reg_index : Z) (w : world hw) (Q : bool -> world hw -> Prop) :
  2 <= reg_index <= 8 ->
  (forall ok h,
     Q ok (mk_world (radio w) h (i2c_log w ++ [write_single_event (radio w) reg_index]))) ->
  returns (fm_write_single_register reg_index) w Q.
Proof.
  intros Hr HQ. destruct (fm_write_single_register_run reg_index w Hr) as (ok & h & E).
  eexists ok, _. split; [exact E|apply HQ].
Qed.

Lemma returns_write_up_to (reg_index : Z) (w : world hw) (Q : bool -> world hw -> Prop) :
  2 <= reg_index <= 8 ->
  (forall ok h,
     Q ok (mk_world (radio w) h
             (i2c_log w ++ [I2cWrite RDA5807_ADDR_SEQUENTIAL
                (pack_registers (regs (radio w)) 0x2 (Z.to_nat (reg_index - 1))) false]))) ->
  returns (fm_write_registers_up_to reg_index) w Q.
Proof.
  intros Hr HQ. destruct (fm_write_registers_up_to_run reg_index w Hr) as (ok & h & E).
  eexists ok, _. split; [exact E|apply HQ].
Qed.

Lemma with_reg_same (r : rda5807_t) (i : Z) :
  (Z.to_nat i < length (regs r))%nat -> with_reg i (get (regs r) i) r = r.
Proof.
  intros Hlen. unfold with_reg. rewrite set_get_same by assumption. destruct r. reflexivity.
Qed.

(** A read of one register returns whatever the bus does. The mirror
    changes at that register only: it takes the word received, or keeps its
    value when a transfer fails. *)
Lemma returns_read_single (reg_index : Z) (w : world hw) (Q : bool -> world hw -> Prop) :
  0 <= reg_index <= 15 -> radio_wf (radio w) ->
  (forall ok v h evs,
     is_u16 v -> (ok = false -> v = get (regs (radio w)) reg_index) ->
     Q ok (mk_world (with_reg reg_index v (radio w)) h (i2c_log w ++ evs))) ->
  returns (fm_read_single_register reg_index) w Q.
Proof.
  intros Hr [Hlen Hu16] HQ.
  assert (Hkeep : forall h evs,
            Q false (mk_world (radio w) h (i2c_log w ++ evs))).
  { intros h evs.
    rewrite <- (with_reg_same (radio w) reg_index) at 1 by lia.
    apply HQ; [apply get_u16; assumption|reflexivity]. }
  unfold fm_read_single_register. apply returns_bind, returns_assert.
  { apply Z.leb_le. lia. }
  destruct (Z.eqb_spec reg_index 0xA) as [->|Hne].
  - unfold fm_read_registers. apply returns_bind, returns_assert; [reflexivity|].
    apply returns_bind, returns_i2c_read. intros res buf h _.
    destruct (negb (res =? 1 * 2)).
    + apply returns_ret. apply Hkeep.
    + apply returns_bind, returns_modify, returns_ret. cbn [radio chip i2c_log].
      apply (HQ true (u16 (Z.lor (u16 (Z.shiftl (get buf 0) 8)) (get buf (0 + 1))))).
      * apply is_u16_u16.
      * discriminate.
  - apply returns_bind, returns_i2c_write. intros res h _.
    destruct (negb (res =? 1)).
    + apply returns_ret. apply Hkeep.
    + apply returns_bind, returns_i2c_read. cbn [radio chip i2c_log]. intros res2 buf h2 _.
      destruct (negb (res2 =? 2)).
      * apply returns_ret. rewrite <- app_assoc. apply Hkeep.
      * apply returns_bind, returns_modify, returns_ret. cbn [radio chip i2c_log].
        rewrite <- app_assoc.
        apply (HQ true (u16 (Z.lor (Z.shiftl (get buf 0) 8) (get buf 1)))).
        -- apply is_u16_u16.
        -- discriminate.
Qed.

(** A poll of the status register: the mirror takes the answer of the
    chip, or keeps its word when the read fails. *)
Lemma returns_read_status (w : world hw) (Q : bool -> world hw -> Prop) :
  radio_wf (radio w) ->
  (forall ok h,
     Q ok (mk_world (with_reg 0xA (polled_status (radio w) (chip w)) (radio w)) h
             (i2c_log w ++ [I2cRead RDA5807_ADDR_SEQUENTIAL 2 false]))) ->
  returns (fm_read_single_register 0xA) w Q.
Proof.
  intros [Hlen Hu] HQ.
  unfold fm_read_single_register. apply returns_bind, returns_assert; [reflexivity|].
  change (0xA =? 0xA) with true. cbv iota.
  unfold fm_read_registers. apply returns_bind, returns_assert; [reflexivity|].
  change (1 * 2) with 2.
  apply returns_bind, returns_i2c_read. intros res buf h E.
  specialize (HQ (negb (negb (res =? 2))) h).
  unfold polled_status, status_answer in HQ. rewrite E in HQ.
  destruct (negb (res =? 2)); cbn [negb default] in HQ.
  - apply returns_ret. rewrite with_reg_same in HQ by lia. exact HQ.
  - apply returns_bind, returns_modify, returns_ret. exact HQ.
Qed.

End Runs.

(** One step of a call on the pure parts of the state. *)
Ltac run_step :=
  lazymatch goal with
  | |- returns (bind _ _) _ _ => apply returns_bind
  | |- returns get_radio _ _ => apply returns_get_radio
  | |- returns (modify_radio _) _ _ => apply returns_modify
  | |- returns (ret _) _ _ => apply returns_ret
  | |- returns (sleep _) _ _ => apply returns_sleep
  | |- returns now _ _ => apply returns_now
  | |- returns (schedule _) _ _ => apply returns_schedule
  end.

Ltac run := repeat (cbv beta; run_step); cbv beta; cbn [radio chip i2c_log].

(** ** The setters and the register mirror *)

Ltac regs_norm :=
  repeat first [ rewrite get_set_eq by (rewrite ?set_length; lia)
               | rewrite get_set_ne by lia ].

Lemma bit_constants :
  ENABLE_BIT = 2 ^ 0 /\ SOFT_RESET_BIT = 2 ^ 1 /\ NEW_METHOD_BIT = 2 ^ 2 /\
  RDS_EN_BIT = 2 ^ 3 /\ SKMODE_BIT = 2 ^ 7 /\ SEEK_BIT = 2 ^ 8 /\ SEEKUP_BIT = 2 ^ 9 /\
  BASS_BIT = 2 ^ 12 /\ MONO_BIT = 2 ^ 13 /\ DMUTE_BIT = 2 ^ 14 /\ DHIZ_BIT = 2 ^ 15 /\
  TUNE_BIT = 2 ^ 4 /\ SOFTMUTE_EN_BIT = 2 ^ 9 /\ DE_BIT = 2 ^ 11 /\
  BAND_65M_50M_MODE_BIT = 2 ^ 9 /\ ST_BIT = 2 ^ 10 /\ SF_BIT = 2 ^ 13 /\
  STC_BIT = 2 ^ 14 /\ RDSR_BIT = 2 ^ 15.
Proof. repeat split. Qed.

(** The constants of the header in the form the lemmas about the macros
    take. *)
Ltac as_fields :=
  change ENABLE_BIT with (2 ^ 0) in *; change SOFT_RESET_BIT with (2 ^ 1) in *;
  change NEW_METHOD_BIT with (2 ^ 2) in *; change RDS_EN_BIT with (2 ^ 3) in *;
  change SKMODE_BIT with (2 ^ 7) in *; change SEEK_BIT with (2 ^ 8) in *;
  change SEEKUP_BIT with (2 ^ 9) in *; change BASS_BIT with (2 ^ 12) in *;
  change MONO_BIT with (2 ^ 13) in *; change DMUTE_BIT with (2 ^ 14) in *;
  change DHIZ_BIT with (2 ^ 15) in *; change TUNE_BIT with (2 ^ 4) in *;
  change SOFTMUTE_EN_BIT with (2 ^ 9) in *; change DE_BIT with (2 ^ 11) in *;
  change BAND_65M_50M_MODE_BIT with (2 ^ 9) in *; change ST_BIT with (2 ^ 10) in *;
  change SF_BIT with (2 ^ 13) in *; change STC_BIT with (2 ^ 14) in *;
  change RDSR_BIT with (2 ^ 15) in *;
  change CHAN_BITS with (field_mask 10 6) in *; change CHAN_LSB with 6 in *;
  change VOLUME_BITS with (field_mask 4 0) in *; change VOLUME_LSB with 0 in *;
  change SEEKTH_BITS with (field_mask 4 8) in *; change SEEKTH_LSB with 8 in *;
  change SPACE_BITS with (field_mask 2 0) in *; change SPACE_LSB with 0 in *;
  change BAND_BITS with (field_mask 2 2) in *; change BAND_LSB with 2 in *;
  change READCHAN_BITS with (field_mask 10 0) in *; change READCHAN_LSB with 0 in *;
  change RSSI_BITS with (field_mask 7 9) in *; change RSSI_LSB with 9 in *.

Ltac bits_norm :=
  repeat first [ rewrite fm_get_bit_set_bit by lia
               | rewrite fm_get_bits_set_bits_same by lia
               | rewrite fm_get_bits_set_bit_other by lia
               | rewrite fm_get_bit_set_bits_other by lia ];
  cbn [Z.eqb Pos.eqb].

(** Editing one flag of register 2 keeps a powered-up, idle radio powered up
    and well-formed. *)
Lemma edit_reg2_flag (r : rda5807_t) (k : Z) (v : bool) :
  radio_wf r -> fm_is_powered_up r = true -> 0 < k < 16 ->
  let r' := with_reg 0x2 (fm_set_bit (get (regs r) 0x2) (2 ^ k) v) r in
  radio_wf r' /\ fm_is_powered_up r' = true /\ async r' = async r.
Proof.
  intros [Hlen Hu] Hup Hk r'. subst r'. unfold radio_wf, fm_is_powered_up, with_reg in *.
  cbn [regs async with_regs]. rewrite set_length.
  split; [split; [assumption|apply set_is_u16; [assumption|apply fm_set_bit_is_u16]]|].
  split; [|reflexivity].
  regs_norm. as_fields. rewrite fm_get_bit_set_bit by lia.
  destruct (Z.eqb_spec 0 k); [lia|assumption].
Qed.

Lemma edit_other_reg (r : rda5807_t) (i v : Z) :
  radio_wf r -> fm_is_powered_up r = true -> 2 < i < 16 -> is_u16 v ->
  let r' := with_reg i v r in
  radio_wf r' /\ fm_is_powered_up r' = true /\ async r' = async r /\
  get (regs r') 0x2 = get (regs r) 0x2.
Proof.
  intros [Hlen Hu] Hup Hi Hv r'. subst r'. unfold radio_wf, fm_is_powered_up, with_reg in *.
  cbn [regs async with_regs]. rewrite set_length.
  split; [split; [assumption|apply set_is_u16; assumption]|].
  regs_norm. tauto.
Qed.

Section Setters.

Context {hw : Type} {platform : Platform hw}.

Lemma sync_set_mute (r : rda5807_t) (v : bool) :
  ready_in_sync r ->
  ready_in_sync
    (with_mute v (with_reg 0x2 (fm_set_bit (get (regs r) 0x2) DMUTE_BIT (negb v)) r)).
Proof.
  intros (Hwf & Hup & Hidle & S1 & S2 & S3 & S4 & S5 & S6).
  as_fields.
  destruct (edit_reg2_flag r 14 (negb v) Hwf Hup ltac:(lia)) as ([Hlen Hu] & Hup' & Ha).
  destruct Hwf as [Hlen0 Hu0].
  unfold ready_in_sync, radio_wf, mirror_in_sync, fm_is_powered_up in *.
  unfold with_reg in *. cbn [regs async mute softmute bass_boost mono volume seek_threshold
                             with_mute with_regs] in *.
  split; [split; assumption|]. split; [assumption|]. split; [assumption|].
  as_fields. regs_norm. bits_norm. tauto.
Qed.

Lemma sync_set_bass_boost (r : rda5807_t) (v : bool) :
  ready_in_sync r ->
  ready_in_sync
    (with_bass_boost v (with_reg 0x2 (fm_set_bit (get (regs r) 0x2) BASS_BIT v) r)).
Proof.
  intros (Hwf & Hup & Hidle & S1 & S2 & S3 & S4 & S5 & S6).
  as_fields.
  destruct (edit_reg2_flag r 12 v Hwf Hup ltac:(lia)) as ([Hlen Hu] & Hup' & Ha).
  destruct Hwf as [Hlen0 Hu0].
  unfold ready_in_sync, radio_wf, mirror_in_sync, fm_is_powered_up in *.
  unfold with_reg in *. cbn [regs async mute softmute bass_boost mono volume seek_threshold
                             with_bass_boost with_regs] in *.
  split; [split; assumption|]. split; [assumption|]. split; [assumption|].
  as_fields. regs_norm. bits_norm. tauto.
Qed.

Lemma sync_set_mono (r : rda5807_t) (v : bool) :
  ready_in_sync r ->
  ready_in_sync
    (with_mono v (with_reg 0x2 (fm_set_bit (get (regs r) 0x2) MONO_BIT v) r)).
Proof.
  intros (Hwf & Hup & Hidle & S1 & S2 & S3 & S4 & S5 & S6).
  as_fields.
  destruct (edit_reg2_flag r 13 v Hwf Hup ltac:(lia)) as ([Hlen Hu] & Hup' & Ha).
  destruct Hwf as [Hlen0 Hu0].
  unfold ready_in_sync, radio_wf, mirror_in_sync, fm_is_powered_up in *.
  unfold with_reg in *. cbn [regs async mute softmute bass_boost mono volume seek_threshold
                             with_mono with_regs] in *.
  split; [split; assumption|]. split; [assumption|]. split; [assumption|].
  as_fields. regs_norm. bits_norm. tauto.
Qed.

Lemma sync_set_softmute (r : rda5807_t) (v : bool) :
  ready_in_sync r ->
  ready_in_sync
    (with_softmute v (with_reg 0x4 (fm_set_bit (get (regs r) 0x4) SOFTMUTE_EN_BIT v) r)).
Proof.
  intros (Hwf & Hup & Hidle & S1 & S2 & S3 & S4 & S5 & S6).
  destruct (edit_other_reg r 4 (fm_set_bit (get (regs r) 0x4) SOFTMUTE_EN_BIT v) Hwf Hup
              ltac:(lia) (fm_set_bit_is_u16 _ _ _)) as ([Hlen Hu] & Hup' & Ha & H2).
  as_fields. destruct Hwf as [Hlen0 Hu0].
  unfold ready_in_sync, radio_wf, mirror_in_sync, fm_is_powered_up in *.
  unfold with_reg in *. cbn [regs async mute softmute bass_boost mono volume seek_threshold
                             with_softmute with_regs] in *.
  split; [split; assumption|]. split; [assumption|]. split; [assumption|].
  as_fields. regs_norm. bits_norm. tauto.
Qed.

Lemma min_z_range (v m : Z) : 0 <= v -> 0 <= m -> 0 <= MIN_z v m <= m.
Proof. intros Hv Hm. unfold MIN_z. destruct (Z.ltb_spec v m); lia. Qed.

Lemma sync_set_volume (r : rda5807_t) (v : Z) :
  ready_in_sync r -> 0 <= v <= 15 ->
  ready_in_sync
    (with_volume v (with_reg 0x5 (fm_set_bits (get (regs r) 0x5) VOLUME_BITS VOLUME_LSB v) r)).
Proof.
  intros (Hwf & Hup & Hidle & S1 & S2 & S3 & S4 & S5 & S6) Hv.
  destruct (edit_other_reg r 5 (fm_set_bits (get (regs r) 0x5) VOLUME_BITS VOLUME_LSB v)
              Hwf Hup ltac:(lia) (fm_set_bits_is_u16 _ _ _ _)) as ([Hlen Hu] & Hup' & Ha & H2).
  as_fields. destruct Hwf as [Hlen0 Hu0].
  unfold ready_in_sync, radio_wf, mirror_in_sync, fm_is_powered_up in *.
  unfold with_reg in *. cbn [regs async mute softmute bass_boost mono volume seek_threshold
                             with_volume with_regs] in *.
  split; [split; assumption|]. split; [assumption|]. split; [assumption|].
  as_fields. regs_norm.
  rewrite fm_get_bits_set_bits_same by (cbn; lia).
  rewrite (fm_get_bits_set_bits_other _ 4 0 4 8)
    by (try apply get_u16; try assumption; cbn; lia).
  tauto.
Qed.

Lemma sync_set_seek_threshold (r : rda5807_t) (v : Z) :
  ready_in_sync r -> 0 <= v <= 15 ->
  ready_in_sync
    (with_seek_threshold v
       (with_reg 0x5 (fm_set_bits (get (regs r) 0x5) SEEKTH_BITS SEEKTH_LSB v) r)).
Proof.
  intros (Hwf & Hup & Hidle & S1 & S2 & S3 & S4 & S5 & S6) Hv.
  destruct (edit_other_reg r 5 (fm_set_bits (get (regs r) 0x5) SEEKTH_BITS SEEKTH_LSB v)
              Hwf Hup ltac:(lia) (fm_set_bits_is_u16 _ _ _ _)) as ([Hlen Hu] & Hup' & Ha & H2).
  as_fields. destruct Hwf as [Hlen0 Hu0].
  unfold ready_in_sync, radio_wf, mirror_in_sync, fm_is_powered_up in *.
  unfold with_reg in *. cbn [regs async mute softmute bass_boost mono volume seek_threshold
                             with_seek_threshold with_regs] in *.
  split; [split; assumption|]. split; [assumption|]. split; [assumption|].
  as_fields. regs_norm.
  rewrite fm_get_bits_set_bits_same by (cbn; lia).
  rewrite (fm_get_bits_set_bits_other _ 4 8 4 0)
    by (try apply get_u16; try assumption; cbn; lia).
  tauto.
Qed.

(** Entering a setter: the two assertions hold on a powered-up, idle
    radio. *)
Ltac enter_setter Hup Hidle :=
  apply returns_bind, returns_get_radio;
  apply returns_bind, returns_assert; [exact Hup|];
  apply returns_bind, returns_assert; [rewrite Hidle; reflexivity|].

(** Every setter keeps the register mirror in sync with the cached
    settings: called on a powered-up, idle radio whose control bits agree
    with its cached fields, with any argument a [bool] or [uint8_t] can hold,
    it returns, and the radio is again powered up, idle and in sync. *)
Theorem setters_keep_mirror_in_sync
    (w : world hw) (Hready : ready_in_sync (radio w)) :
  let kept := fun (_ : unit) (w' : world hw) => ready_in_sync (radio w') in
  (forall v, returns (fm_set_mute v) w kept) /\
  (forall v, returns (fm_set_softmute v) w kept) /\
  (forall v, returns (fm_set_bass_boost v) w kept) /\
  (forall v, returns (fm_set_mono v) w kept) /\
  (forall v, is_u8 v -> returns (fm_set_volume v) w kept) /\
  (forall v, is_u8 v -> returns (fm_set_seek_threshold v) w kept).
Proof.
  intros kept. subst kept.
  pose proof Hready as (Hwf & Hup & Hidle & Hsync).
  repeat split.
  - intros v. unfold fm_set_mute. enter_setter Hup Hidle.
    destruct (Bool.eqb (mute (radio w)) v); [apply returns_ret; exact Hready|].
    run. apply returns_write_single; [lia|]. intros ok h. run.
    apply sync_set_mute. exact Hready.
  - intros v. unfold fm_set_softmute. enter_setter Hup Hidle.
    destruct (Bool.eqb (softmute (radio w)) v); [apply returns_ret; exact Hready|].
    run. apply returns_write_up_to; [lia|]. intros ok h. run.
    apply sync_set_softmute. exact Hready.
  - intros v. unfold fm_set_bass_boost. enter_setter Hup Hidle.
    destruct (Bool.eqb (bass_boost (radio w)) v); [apply returns_ret; exact Hready|].
    run. apply returns_write_single; [lia|]. intros ok h. run.
    apply sync_set_bass_boost. exact Hready.
  - intros v. unfold fm_set_mono. enter_setter Hup Hidle.
    destruct (Bool.eqb (mono (radio w)) v); [apply returns_ret; exact Hready|].
    run. apply returns_write_single; [lia|]. intros ok h. run.
    apply sync_set_mono. exact Hready.
  - intros v Hv. unfold fm_set_volume. enter_setter Hup Hidle.
    destruct (MIN_z v FM_MAX_VOLUME =? volume (radio w)); [apply returns_ret; exact Hready|].
    run. apply returns_write_single; [lia|]. intros ok h. run.
    apply sync_set_volume; [exact Hready|].
    apply min_z_range; [apply Hv|unfold FM_MAX_VOLUME; lia].
  - intros v Hv. unfold fm_set_seek_threshold. enter_setter Hup Hidle.
    destruct (MIN_z v FM_MAX_SEEK_THRESHOLD =? seek_threshold (radio w));
      [apply returns_ret; exact Hready|].
    run. apply returns_write_single; [lia|]. intros ok h. run.
    apply sync_set_seek_threshold; [exact Hready|].
    apply min_z_range; [apply Hv|unfold FM_MAX_SEEK_THRESHOLD; lia].
Qed.

End Setters.

(** ** Starting a tune *)

(** The channel of a frequency inside the band lies between 0 and the
    highest channel of the band. *)
Lemma channel_in_band (band : fm_band_t) (sp : fm_channel_spacing_t) (f : F32.float) :
  has_range_case sp = true ->
  F32.valid f = true ->
  F32.leb (bottom (fm_frequency_range band sp)) f = true ->
  F32.leb f (top (fm_frequency_range band sp)) = true ->
  0 <= fm_frequency_to_channel f (fm_frequency_range band sp) <= max_channel band sp.
Proof.
  intros Hcase Hv Hlo Hhi.
  destruct (range_params band sp Hcase)
    as (mb & mt & ms & eb & et & es & Hrange & Hdb & Hdt & Hds & Heb & Het & Hes & HT & HN & _).
  rewrite Hrange in *. cbn [bottom top spacing] in *.
  set (N := max_channel band sp) in *.
  destruct (in_range_shape f mb mt eb et Hv Hlo Hhi ltac:(lia))
    as (mf & ef & -> & Hdf & Hef & Hfb & Hft).
  pose proof (digits2_bounds mb) as Hbb. rewrite Hdb in Hbb.
  pose proof (digits2_bounds mt) as Hbt. rewrite Hdt in Hbt.
  pose proof (digits2_bounds mf) as Hbf. rewrite Hdf in Hbf.
  change (24 - 1) with 23 in *.
  assert (Hcases : eb = -18 \/ eb = -17) by lia.
  assert (Hefc : ef = -18 \/ ef = -17) by lia.
  assert (Hetc : et = -18 \/ et = -17) by lia.
  assert (HD : 0 <= Z.pos mf * 2 ^ (ef - eb) - Z.pos mb < 2 ^ 24).
  { destruct Hcases as [-> | ->], Hefc as [-> | ->], Hetc as [-> | ->]; try lia;
      cbn in HT |- *; try specialize (Hfb eq_refl); try specialize (Hft eq_refl); lia. }
  assert (HDT : 0 <= Z.pos mf * 2 ^ (ef + 28) - Z.pos mb * 2 ^ (eb + 28)
                <= Z.pos mt * 2 ^ (et + 28) - Z.pos mb * 2 ^ (eb + 28)).
  { destruct Hcases as [-> | ->], Hefc as [-> | ->], Hetc as [-> | ->]; try lia;
      cbn; try specialize (Hfb eq_refl); try specialize (Hft eq_refl); lia. }
  destruct (channel_bound mf mb ms ef eb es (S754_finite false mt et)
              Hds ltac:(lia) ltac:(lia) Hes HD) as (c & Hc & Hc0 & Hcb).
  rewrite Hc. split; [assumption|].
  cbn [F32.units28] in Hcb.
  set (S28 := Z.pos ms * 2 ^ (es + 28)) in *.
  set (D28 := Z.pos mf * 2 ^ (ef + 28) - Z.pos mb * 2 ^ (eb + 28)) in *.
  set (T28 := Z.pos mt * 2 ^ (et + 28) - Z.pos mb * 2 ^ (eb + 28)) in *.
  assert (HS28 : 0 < S28).
  { subst S28. apply Z.mul_pos_pos; [lia|apply Z.pow_pos_nonneg; lia]. }
  destruct (Z.le_gt_cases c N) as [|Hgt]; [assumption|exfalso].
  assert (2 * (2 ^ 24 - 1) * (c * S28 - D28) <= (2 ^ 24 - 1) * S28 + 2 * D28) by lia.
  assert ((N + 1) * S28 <= c * S28) by nia.
  nia.
Qed.

Lemma band_ends (band : fm_band_t) (sp : fm_channel_spacing_t) :
  has_range_case sp = true ->
  let range := fm_frequency_range band sp in
  fm_frequency_to_channel (bottom range) range = 0 /\
  fm_frequency_to_channel (top range) range = max_channel band sp /\
  F32.ltb (bottom range) (top range) = true /\
  0 <= max_channel band sp < 2 ^ 10.
Proof.
  intros Hcase. destruct band, sp; try discriminate Hcase; vm_compute; repeat split; congruence.
Qed.

Lemma ltb_leb (x y : F32.float) : F32.ltb x y = true -> F32.leb x y = true.
Proof.
  unfold F32.ltb, F32.leb, SFltb, SFleb.
  destruct (SFcompare x y) as [[| |]|]; congruence.
Qed.

(** The clamping of [fm_set_frequency_async]: what [MIN(MAX(f, bottom), top)]
    is for every [f], not-a-number included. *)
Lemma clamp_cases (range : fm_frequency_range_t) (f : F32.float) :
  F32.ltb (bottom range) (top range) = true ->
  let g := MIN_f (MAX_f f (bottom range)) (top range) in
  (F32.ltb (bottom range) f = false /\ g = bottom range) \/
  (F32.ltb (bottom range) f = true /\ F32.ltb f (top range) = false /\ g = top range) \/
  (F32.ltb (bottom range) f = true /\ F32.ltb f (top range) = true /\ g = f).
Proof.
  intros Hbt g. subst g. unfold MAX_f, MIN_f.
  destruct (F32.ltb (bottom range) f) eqn:E1.
  - destruct (F32.ltb f (top range)) eqn:E2; [right; right|right; left]; tauto.
  - rewrite Hbt. left. tauto.
Qed.

Section Tune.

Context {hw : Type} {platform : Platform hw}.

(** [fm_set_frequency_async] programs a channel of the band whatever
    frequency it is given. On a powered-up, idle radio whose range is the one
    of its band and of a spacing of 200, 100 or 50 kHz (the spacings
    [fm_frequency_range] has a case for), the CHAN field of register 3
    receives the channel of the frequency clamped to the band, which lies
    between 0 and the highest channel of the band (its width divided by the
    spacing): channel 0 for every frequency that is not above the bottom (a
    NaN included), the highest channel for every frequency not below the
    top. The TUNE flag is set, the band and spacing fields of register 3
    keep their contents, the tune task is installed, and the cached
    frequency is not touched yet. *)
Theorem set_frequency_async_programs_a_channel_of_the_band
    (w : world hw) (band : fm_band_t) (sp : fm_channel_spacing_t) (f : F32.float)
    (Hwf : radio_wf (radio w))
    (Hup : fm_is_powered_up (radio w) = true)
    (Hidle : task (async (radio w)) = NULL)
    (Hcase : has_range_case sp = true)
    (Hrange : frequency_range (radio w) = fm_frequency_range band sp)
    (Hvalid : F32.valid f = true) :
  let range := fm_frequency_range band sp in
  returns (fm_set_frequency_async f) w (fun _ w' =>
    let reg3 := get (regs (radio w)) 0x3 in
    let reg3' := get (regs (radio w')) 0x3 in
    let channel := fm_get_bits reg3' CHAN_BITS CHAN_LSB in
    channel = fm_frequency_to_channel (MIN_f (MAX_f f (bottom range)) (top range)) range /\
    0 <= channel <= max_channel band sp /\
    (F32.ltb (bottom range) f = false -> channel = 0) /\
    (F32.ltb (bottom range) f = true -> F32.ltb f (top range) = false ->
       channel = max_channel band sp) /\
    fm_get_bit reg3' TUNE_BIT = true /\
    fm_get_bits reg3' BAND_BITS BAND_LSB = fm_get_bits reg3 BAND_BITS BAND_LSB /\
    fm_get_bits reg3' SPACE_BITS SPACE_LSB = fm_get_bits reg3 SPACE_BITS SPACE_LSB /\
    task (async (radio w')) = fm_set_frequency_async_task_ptr /\
    state (async (radio w')) = 1 /\
    frequency (radio w') = frequency (radio w) /\
    radio_wf (radio w') /\ fm_is_powered_up (radio w') = true).
Proof.
  intros range.
  destruct (band_ends band sp Hcase) as (Hbot & Htop & Hbt & HN).
  cbn zeta in Hbot, Htop, Hbt.
  fold range in Hbot, Htop, Hbt.
  set (g := MIN_f (MAX_f f (bottom range)) (top range)).
  set (c := fm_frequency_to_channel g range).
  assert (Hc : 0 <= c <= max_channel band sp /\
               (F32.ltb (bottom range) f = false -> c = 0) /\
               (F32.ltb (bottom range) f = true -> F32.ltb f (top range) = false ->
                  c = max_channel band sp)).
  { subst c.
    destruct (clamp_cases range f Hbt) as [(E1 & Eg)|[(E1 & E2 & Eg)|(E1 & E2 & Eg)]];
      fold g in Eg; rewrite Eg.
    - rewrite Hbot. split; [lia|]. split; [reflexivity|]. congruence.
    - rewrite Htop. split; [lia|]. split; [congruence|]. reflexivity.
    - split; [apply channel_in_band; [assumption|assumption|apply ltb_leb; assumption..]|].
      split; congruence. }
  destruct Hc as (Hc1 & Hc2 & Hc3).
  unfold fm_set_frequency_async.
  apply returns_bind, returns_get_radio.
  apply returns_bind, returns_assert; [exact Hup|].
  apply returns_bind, returns_assert; [rewrite Hidle; reflexivity|].
  rewrite Hrange. fold range. fold g. fold c.
  run. apply returns_write_single; [lia|]. intros ok h. run.
  destruct Hwf as [Hlen Hu].
  unfold with_reg, radio_wf, fm_is_powered_up.
  cbn [regs async task state resume_time frequency with_regs with_async].
  rewrite !set_length. regs_norm. as_fields.
  assert (Hc10 : 0 <= c < 2 ^ 10) by lia.
  assert (Hr3 : is_u16 (get (regs (radio w)) 3)) by (apply get_u16; assumption).
  rewrite fm_get_bits_set_bit_other by lia.
  rewrite fm_get_bits_set_bits_same by lia.
  rewrite fm_get_bit_set_bit by lia. cbn [Z.eqb Pos.eqb].
  rewrite !fm_get_bits_set_bit_other by lia.
  rewrite !(fm_get_bits_set_bits_other _ 10 6) by (assumption || lia).
  repeat split; try assumption; try lia; try reflexivity.
  repeat apply set_is_u16; try assumption.
  - apply fm_set_bits_is_u16.
  - apply fm_set_bit_is_u16.
Qed.

End Tune.

(** ** The tune and seek tasks *)

Lemma with_reg_wf (r : rda5807_t) (i v : Z) :
  radio_wf r -> is_u16 v -> radio_wf (with_reg i v r).
Proof.
  intros [Hlen Hu] Hv. unfold radio_wf, with_reg. cbn [regs with_regs].
  rewrite set_length. split; [assumption|apply set_is_u16; assumption].
Qed.

Lemma readchan_u16 (reg : Z) :
  u16 (fm_get_bits reg READCHAN_BITS READCHAN_LSB) = fm_get_bits reg READCHAN_BITS READCHAN_LSB.
Proof.
  as_fields. pose proof (fm_get_bits_range reg 10 0 ltac:(lia) ltac:(lia)) as H.
  apply u16_small. unfold is_u16. change (2 ^ 10) with 1024 in H. lia.
Qed.

Section Tasks.

Context {hw : Type} {platform : Platform hw}.

(** The end of a tune, by completion or by cancel: clear TUNE, write
    register 3, read the status register, take the frequency of the channel
    it reports. *)
Lemma tune_finish_run (result : Z) (w : world hw) (Q : fm_async_progress_t -> world hw -> Prop) :
  radio_wf (radio w) ->
  (forall r' h log,
     radio_wf r' ->
     settings_kept (radio w) r' -> async r' = async (radio w) ->
     fm_get_bit (get (regs r') 0x3) TUNE_BIT = false ->
     (forall n, 0 <= n -> n <> 4 ->
        Z.testbit (get (regs r') 0x3) n = Z.testbit (get (regs (radio w)) 0x3) n) ->
     regs_agree_except [0x3; 0xA] (radio w) r' ->
     frequency r' = reported_frequency r' ->
     Q (mk_progress true result) (mk_world r' h log)) ->
  returns
    (bind (modify_radio (fun r => with_reg 0x3 (fm_set_bit (get (regs r) 0x3) TUNE_BIT false) r))
       (fun _ => bind (fm_write_single_register 0x3)
       (fun _ => bind (fm_read_single_register 0xA)
       (fun _ => bind (modify_radio (fun r =>
                   let channel := u16 (fm_get_bits (get (regs r) 0xA)
                                         READCHAN_BITS READCHAN_LSB) in
                   with_frequency (fm_channel_to_frequency channel (frequency_range r)) r))
       (fun _ => ret (mk_progress true result)))))) w Q.
Proof.
  intros Hwf HQ. pose proof Hwf as [Hlen Hu].
  run. apply returns_write_single; [lia|]. intros ok h. run.
  apply returns_read_single; [lia| |].
  { cbn [radio]. apply with_reg_wf; [assumption|apply fm_set_bit_is_u16]. }
  intros ok2 v h2 evs Hv _. run. rewrite readchan_u16.
  apply HQ.
  - unfold with_frequency, radio_wf; cbn [regs].
    apply (with_reg_wf _ 0xA v); [|assumption].
    apply with_reg_wf; [assumption|apply fm_set_bit_is_u16].
  - unfold settings_kept. cbn. tauto.
  - reflexivity.
  - unfold with_reg. cbn [regs with_frequency with_regs]. regs_norm. as_fields.
    rewrite fm_get_bit_set_bit by lia. reflexivity.
  - intros n Hn Hne. unfold with_reg. cbn [regs with_frequency with_regs]. regs_norm.
    as_fields. rewrite fm_set_bit_testbit by lia.
    destruct (Z.eqb_spec n 4); [contradiction|].
    destruct (Z.ltb_spec n 16); [reflexivity|]. cbn [andb]. symmetry.
    apply is_u16_high; [apply get_u16; assumption|lia].
  - intros i Hi Hskip. cbn [In] in Hskip.
    unfold with_reg. cbn [regs with_frequency with_regs].
    rewrite !get_set_ne by (try lia; intros ->; tauto). reflexivity.
  - unfold reported_frequency, with_reg.
    cbn [regs frequency frequency_range with_frequency with_regs]. regs_norm.
    reflexivity.
Qed.

(** The end of a seek: the same with the SEEK flag of register 2. *)
Lemma seek_finish_run (result : Z) (w : world hw) (Q : fm_async_progress_t -> world hw -> Prop) :
  radio_wf (radio w) ->
  (forall r' h log,
     radio_wf r' ->
     settings_kept (radio w) r' -> async r' = async (radio w) ->
     fm_get_bit (get (regs r') 0x2) SEEK_BIT = false ->
     (forall n, 0 <= n -> n <> 8 ->
        Z.testbit (get (regs r') 0x2) n = Z.testbit (get (regs (radio w)) 0x2) n) ->
     regs_agree_except [0x2; 0xA] (radio w) r' ->
     frequency r' = reported_frequency r' ->
     Q (mk_progress true result) (mk_world r' h log)) ->
  returns
    (bind (modify_radio (fun r => with_reg 0x2 (fm_set_bit (get (regs r) 0x2) SEEK_BIT false) r))
       (fun _ => bind (fm_write_single_register 0x2)
       (fun _ => bind (fm_read_single_register 0xA)
       (fun _ => bind (modify_radio (fun r =>
                   let channel := u16 (fm_get_bits (get (regs r) 0xA)
                                         READCHAN_BITS READCHAN_LSB) in
                   with_frequency (fm_channel_to_frequency channel (frequency_range r)) r))
       (fun _ => ret (mk_progress true result)))))) w Q.
Proof.
  intros Hwf HQ. pose proof Hwf as [Hlen Hu].
  run. apply returns_write_single; [lia|]. intros ok h. run.
  apply returns_read_single; [lia| |].
  { cbn [radio]. apply with_reg_wf; [assumption|apply fm_set_bit_is_u16]. }
  intros ok2 v h2 evs Hv _. run. rewrite readchan_u16.
  apply HQ.
  - unfold with_frequency, radio_wf; cbn [regs].
    apply (with_reg_wf _ 0xA v); [|assumption].
    apply with_reg_wf; [assumption|apply fm_set_bit_is_u16].
  - unfold settings_kept. cbn. tauto.
  - reflexivity.
  - unfold with_reg. cbn [regs with_frequency with_regs]. regs_norm. as_fields.
    rewrite fm_get_bit_set_bit by lia. reflexivity.
  - intros n Hn Hne. unfold with_reg. cbn [regs with_frequency with_regs]. regs_norm.
    as_fields. rewrite fm_set_bit_testbit by lia.
    destruct (Z.eqb_spec n 8); [contradiction|].
    destruct (Z.ltb_spec n 16); [reflexivity|]. cbn [andb]. symmetry.
    apply is_u16_high; [apply get_u16; assumption|lia].
  - intros i Hi Hskip. cbn [In] in Hskip.
    unfold with_reg. cbn [regs with_frequency with_regs].
    rewrite !get_set_ne by (try lia; intros ->; tauto). reflexivity.
  - unfold reported_frequency, with_reg.
    cbn [regs frequency frequency_range with_frequency with_regs]. regs_norm.
    reflexivity.
Qed.

Lemma settings_kept_with_reg (r : rda5807_t) (i v : Z) : settings_kept r (with_reg i v r).
Proof. unfold settings_kept. cbn. tauto. Qed.

Lemma regs_agree_with_reg (r : rda5807_t) (i v : Z) (skip : list Z) :
  0 <= i -> In i skip -> regs_agree_except skip r (with_reg i v r).
Proof.
  intros Hi Hin j Hj Hskip. unfold with_reg. cbn [regs with_regs].
  apply get_set_ne; try lia. intros ->. contradiction.
Qed.

Lemma tune_tick_run
    (w : world hw)
    (Hwf : radio_wf (radio w))
    (Htask : task (async (radio w)) = fm_set_frequency_async_task_ptr)
    (Hstate : state (async (radio w)) = 1)
    (Hdue : resume_time (async (radio w)) <= time_us_64 (chip w)) :
  returns fm_async_task_tick w (fun progress w' =>
    let r := radio w in
    let r' := radio w' in
    result progress = 0 /\
    done progress = fm_get_bit (polled_status r (chip w)) STC_BIT /\
    radio_wf r' /\ settings_kept r r' /\ regs_agree_except [0x3; 0xA] r r' /\
    if done progress then
      async r' = no_task /\
      fm_get_bit (get (regs r') 0x3) TUNE_BIT = false /\
      fm_get_frequency r' = reported_frequency r'
    else
      fm_get_bit (get (regs r') 0xA) STC_BIT = false /\
      task (async r') = fm_set_frequency_async_task_ptr /\
      state (async r') = 1 /\
      resume_time (async r') = u64 (time_us_64 (chip w') + 5000) /\
      fm_get_frequency r' = fm_get_frequency r /\
      get (regs r') 0x3 = get (regs r) 0x3).
Proof.
  unfold fm_async_task_tick.
  apply returns_bind, returns_get_radio.
  apply returns_bind, returns_assert; [rewrite Htask; reflexivity|].
  apply returns_bind, returns_now.
  destruct (Z.ltb_spec (time_us_64 (chip w)) (resume_time (async (radio w)))); [lia|].
  apply returns_bind. rewrite Htask. cbn [call_task].
  unfold fm_set_frequency_async_task. cbn zeta.
  apply returns_bind, returns_get_radio.
  apply returns_bind, returns_assert; [rewrite Htask; reflexivity|].
  apply returns_bind, returns_assert; [rewrite Hstate; reflexivity|].
  apply returns_bind, returns_read_status; [assumption|].
  intros ok h.
  set (v := polled_status (radio w) (chip w)).
  assert (Hv : is_u16 v).
  { subst v. unfold polled_status, status_answer.
    destruct (i2c_read_blocking _ _ _ _) as [[n buf] h0].
    destruct (negb (n =? 2)); cbn [default];
      [apply get_u16; apply Hwf|apply is_u16_u16]. }
  apply returns_bind, returns_get_radio. cbn [radio].
  unfold with_reg at 1. cbn [regs with_regs].
  destruct Hwf as [Hlen Hu].
  rewrite get_set_eq by lia.
  destruct (fm_get_bit v STC_BIT) eqn:Hstc; cbn [negb].
  - apply tune_finish_run; [apply with_reg_wf; [split|]; assumption|].
    intros r' h' log Hwf' Hkept Hasync Htune Hbits Hagree Hfreq.
    cbn [done]. run. cbn [result done].
    split; [reflexivity|]. split; [reflexivity|].
    split; [exact Hwf'|]. split; [exact Hkept|].
    split.
    { intros i Hi Hskip. cbn [regs with_async]. rewrite (Hagree i Hi Hskip). cbn [radio].
      apply (regs_agree_with_reg (radio w) 0xA v [0x3; 0xA]); [lia|cbn; tauto|assumption..]. }
    split; [reflexivity|]. split; [exact Htune|]. exact Hfreq.
  - run. cbn [done]. run. cbn [result done].
    split; [reflexivity|]. split; [reflexivity|].
    split; [apply (with_reg_wf (radio w) 0xA v); [split|]; assumption|].
    split; [apply settings_kept_with_reg|].
    split; [apply regs_agree_with_reg; [lia|cbn; tauto]|].
    unfold with_reg. cbn [regs async task state resume_time frequency with_async with_regs
                          fm_get_frequency].
    regs_norm. rewrite Hstc, Htask, Hstate.
    repeat split; try reflexivity.
Qed.

Lemma seek_tick_run
    (w : world hw)
    (Hwf : radio_wf (radio w))
    (Htask : task (async (radio w)) = fm_seek_async_task_ptr)
    (Hstate : state (async (radio w)) = 1)
    (Hdue : resume_time (async (radio w)) <= time_us_64 (chip w)) :
  returns fm_async_task_tick w (fun progress w' =>
    let r := radio w in
    let r' := radio w' in
    done progress = fm_get_bit (polled_status r (chip w)) STC_BIT /\
    radio_wf r' /\ settings_kept r r' /\ regs_agree_except [0x2; 0xA] r r' /\
    fm_is_powered_up r' = fm_is_powered_up r /\
    fm_get_frequency r' = reported_frequency r' /\
    if done progress then
      result progress = (if fm_get_bit (polled_status r (chip w)) SF_BIT then -1 else 0) /\
      async r' = no_task /\
      fm_get_bit (get (regs r') 0x2) SEEK_BIT = false
    else
      result progress = 0 /\
      fm_get_bit (get (regs r') 0xA) STC_BIT = false /\
      task (async r') = fm_seek_async_task_ptr /\
      state (async r') = 1 /\
      resume_time (async r') = u64 (time_us_64 (chip w') + 200000) /\
      get (regs r') 0x2 = get (regs r) 0x2).
Proof.
  unfold fm_async_task_tick.
  apply returns_bind, returns_get_radio.
  apply returns_bind, returns_assert; [rewrite Htask; reflexivity|].
  apply returns_bind, returns_now.
  destruct (Z.ltb_spec (time_us_64 (chip w)) (resume_time (async (radio w)))); [lia|].
  apply returns_bind. rewrite Htask. cbn [call_task].
  unfold fm_seek_async_task. cbn zeta.
  apply returns_bind, returns_get_radio.
  apply returns_bind, returns_assert; [rewrite Htask; reflexivity|].
  apply returns_bind, returns_assert; [rewrite Hstate; reflexivity|].
  apply returns_bind, returns_read_status; [assumption|].
  intros ok h.
  set (v := polled_status (radio w) (chip w)).
  assert (Hv : is_u16 v).
  { subst v. unfold polled_status, status_answer.
    destruct (i2c_read_blocking _ _ _ _) as [[n buf] h0].
    destruct (negb (n =? 2)); cbn [default];
      [apply get_u16; apply Hwf|apply is_u16_u16]. }
  apply returns_bind, returns_get_radio. cbn [radio].
  unfold with_reg at 1 2. cbn [regs with_regs].
  destruct Hwf as [Hlen Hu].
  rewrite !get_set_eq by lia.
  destruct (fm_get_bit v STC_BIT) eqn:Hstc; cbn [negb].
  - apply seek_finish_run; [apply with_reg_wf; [split|]; assumption|].
    intros r' h' log Hwf' Hkept Hasync Hseek Hbits Hagree Hfreq.
    cbn [done]. run. cbn [result done].
    split; [reflexivity|].
    split; [exact Hwf'|]. split; [exact Hkept|].
    split.
    { intros i Hi Hskip. cbn [regs with_async]. rewrite (Hagree i Hi Hskip). cbn [radio].
      apply (regs_agree_with_reg (radio w) 0xA v [0x2; 0xA]); [lia|cbn; tauto|assumption..]. }
    split.
    { unfold fm_is_powered_up. cbn [regs with_async]. as_fields.
      rewrite !fm_get_bit_testbit by lia. rewrite (Hbits 0) by lia.
      cbn [radio]. unfold with_reg. cbn [regs with_regs]. regs_norm. reflexivity. }
    split; [exact Hfreq|].
    split.
    { unfold with_reg. cbn [regs with_regs]. rewrite ?get_set_eq by lia. reflexivity. }
    split; [reflexivity|exact Hseek].
  - run. cbn [done]. run. cbn [result done]. rewrite readchan_u16.
    split; [reflexivity|].
    split.
    { unfold with_frequency, radio_wf. cbn [regs].
      apply (with_reg_wf (radio w) 0xA v); [split|]; assumption. }
    split; [unfold settings_kept; cbn; tauto|].
    split.
    { intros i Hi Hskip. cbn [In] in Hskip. unfold with_reg.
      cbn [regs with_async with_frequency with_regs].
      apply get_set_ne; lia. }
    split.
    { unfold fm_is_powered_up, with_reg. cbn [regs with_async with_frequency with_regs].
      regs_norm. reflexivity. }
    unfold reported_frequency, with_reg.
    cbn [regs async task state resume_time frequency frequency_range with_async
         with_frequency with_regs fm_get_frequency].
    regs_norm. rewrite Hstc, Htask, Hstate.
    repeat split; reflexivity.
Qed.

(** One due tick of a tune in flight. The tick returns with result 0, and
    it reports done exactly when the status word it polls (the answer of the
    chip, or the stale mirror when the read fails) has STC set. If done, the
    task slot is empty, the TUNE flag of register 3 is clear and the cached
    frequency is the one of the channel in the mirrored status register.
    If not, the mirrored status has STC clear, the task stays installed
    with its next poll 5 ms after the clock reading, and the cached
    frequency and register 3 are as before. Either way only registers 3
    and 0xA of the mirror can have changed, and the settings are kept. *)
Theorem tune_tick_outcome
    (w : world hw)
    (Hwf : radio_wf (radio w))
    (Htask : task (async (radio w)) = fm_set_frequency_async_task_ptr)
    (Hstate : state (async (radio w)) = 1)
    (Hdue : resume_time (async (radio w)) <= time_us_64 (chip w)) :
  returns fm_async_task_tick w (fun progress w' =>
    let r := radio w in
    let r' := radio w' in
    result progress = 0 /\
    done progress = fm_get_bit (polled_status r (chip w)) STC_BIT /\
    radio_wf r' /\ settings_kept r r' /\ regs_agree_except [0x3; 0xA] r r' /\
    if done progress then
      async r' = no_task /\
      fm_get_bit (get (regs r') 0x3) TUNE_BIT = false /\
      fm_get_frequency r' = reported_frequency r'
    else
      fm_get_bit (get (regs r') 0xA) STC_BIT = false /\
      task (async r') = fm_set_frequency_async_task_ptr /\
      state (async r') = 1 /\
      resume_time (async r') = u64 (time_us_64 (chip w') + 5000) /\
      fm_get_frequency r' = fm_get_frequency r /\
      get (regs r') 0x3 = get (regs r) 0x3).
Proof. exact (tune_tick_run w Hwf Htask Hstate Hdue). Qed.

(** One due tick of a seek in flight. The tick returns, it reports done
    exactly when the status word it polls has STC set, and whether or not
    it reports done the cached frequency is the one of the channel in the
    mirrored status register, so the caller can follow the seek. If done,
    the result is -1 when the polled status has the seek-fail flag SF and
    0 otherwise, the task slot is empty and the SEEK flag of register 2 is
    clear. If not, the result is 0, the mirrored status has STC clear, the
    task stays installed with its next poll 200 ms after the clock
    reading, and register 2 is as before. Either way only registers 2 and
    0xA of the mirror can have changed. *)
Theorem seek_tick_outcome
    (w : world hw)
    (Hwf : radio_wf (radio w))
    (Htask : task (async (radio w)) = fm_seek_async_task_ptr)
    (Hstate : state (async (radio w)) = 1)
    (Hdue : resume_time (async (radio w)) <= time_us_64 (chip w)) :
  returns fm_async_task_tick w (fun progress w' =>
    let r := radio w in
    let r' := radio w' in
    done progress = fm_get_bit (polled_status r (chip w)) STC_BIT /\
    radio_wf r' /\ settings_kept r r' /\ regs_agree_except [0x2; 0xA] r r' /\
    fm_is_powered_up r' = fm_is_powered_up r /\
    fm_get_frequency r' = reported_frequency r' /\
    if done progress then
      result progress = (if fm_get_bit (polled_status r (chip w)) SF_BIT then -1 else 0) /\
      async r' = no_task /\
      fm_get_bit (get (regs r') 0x2) SEEK_BIT = false
    else
      result progress = 0 /\
      fm_get_bit (get (regs r') 0xA) STC_BIT = false /\
      task (async r') = fm_seek_async_task_ptr /\
      state (async r') = 1 /\
      resume_time (async r') = u64 (time_us_64 (chip w') + 200000) /\
      get (regs r') 0x2 = get (regs r) 0x2).
Proof. exact (seek_tick_run w Hwf Htask Hstate Hdue). Qed.

(** Cancelling a task in flight stops the tuner: the call returns, the task
    slot is empty, the flag that started the operation (TUNE in register
    3, or SEEK in register 2) is clear in the mirror, and the cached
    frequency is the one of the channel in the mirrored status register,
    not the frequency before the operation. Only that control register
    and the status register of the mirror can have changed. *)
Theorem cancel_stops_the_tuner
    (w : world hw)
    (Hwf : radio_wf (radio w))
    (Htask : task (async (radio w)) <> NULL)
    (Hstate : state (async (radio w)) = 1) :
  returns fm_async_task_cancel w (fun _ w' =>
    let r := radio w in
    let r' := radio w' in
    radio_wf r' /\ settings_kept r r' /\
    async r' = no_task /\
    fm_get_frequency r' = reported_frequency r' /\
    match task (async r) with
    | fm_seek_async_task_ptr =>
        fm_get_bit (get (regs r') 0x2) SEEK_BIT = false /\
        regs_agree_except [0x2; 0xA] r r'
    | _ =>
        fm_get_bit (get (regs r') 0x3) TUNE_BIT = false /\
        regs_agree_except [0x3; 0xA] r r'
    end).
Proof.
  unfold fm_async_task_cancel.
  apply returns_bind, returns_get_radio.
  apply returns_bind, returns_assert.
  { destruct (task (async (radio w))); [contradiction|reflexivity..]. }
  apply returns_bind.
  destruct (task (async (radio w))) eqn:Et; [contradiction| |]; cbn [call_task].
  - unfold fm_set_frequency_async_task. cbn zeta.
    apply returns_bind, returns_get_radio.
    apply returns_bind, returns_assert; [rewrite Et; reflexivity|].
    apply returns_bind, returns_assert; [rewrite Hstate; reflexivity|].
    apply tune_finish_run; [assumption|].
    intros r' h' log Hwf' Hkept Hasync Htune Hbits Hagree Hfreq. run.
    split; [exact Hwf'|]. split; [exact Hkept|]. split; [reflexivity|].
    split; [exact Hfreq|]. split; [exact Htune|exact Hagree].
  - unfold fm_seek_async_task. cbn zeta.
    apply returns_bind, returns_get_radio.
    apply returns_bind, returns_assert; [rewrite Et; reflexivity|].
    apply returns_bind, returns_assert; [rewrite Hstate; reflexivity|].
    apply seek_finish_run; [assumption|].
    intros r' h' log Hwf' Hkept Hasync Hseek Hbits Hagree Hfreq. run.
    split; [exact Hwf'|]. split; [exact Hkept|]. split; [reflexivity|].
    split; [exact Hfreq|]. split; [exact Hseek|exact Hagree].
Qed.

(** ** The blocking calls *)

Lemma tick_not_due (w : world hw) :
  task (async (radio w)) <> NULL ->
  time_us_64 (chip w) < resume_time (async (radio w)) ->
  fm_async_task_tick w = Ret (mk_progress false 0) w.
Proof.
  intros Htask Hearly. unfold fm_async_task_tick, bind, get_radio, assert, now, ret.
  destruct (task (async (radio w))); [contradiction| |]; cbn [task_eqb negb];
    destruct (Z.ltb_spec (time_us_64 (chip w)) (resume_time (async (radio w))));
    try lia; reflexivity.
Qed.

(** What a started tune leaves for the polling loop. *)
Lemma fm_set_frequency_async_started (w : world hw) (f : F32.float) :
  radio_wf (radio w) -> fm_is_powered_up (radio w) = true -> task (async (radio w)) = NULL ->
  returns (fm_set_frequency_async f) w (fun _ w' =>
    radio_wf (radio w') /\ settings_kept (radio w) (radio w') /\
    regs_agree_except [0x3] (radio w) (radio w') /\
    frequency (radio w') = frequency (radio w) /\
    task (async (radio w')) = fm_set_frequency_async_task_ptr /\
    state (async (radio w')) = 1 /\
    resume_time (async (radio w')) = u64 (time_us_64 (chip w') + 5000)).
Proof.
  intros Hwf Hup Hidle. unfold fm_set_frequency_async.
  apply returns_bind, returns_get_radio.
  apply returns_bind, returns_assert; [exact Hup|].
  apply returns_bind, returns_assert; [rewrite Hidle; reflexivity|].
  run. apply returns_write_single; [lia|]. intros ok h. run.
  split.
  { unfold with_async, radio_wf. cbn [regs].
    repeat apply with_reg_wf; try assumption;
      [apply fm_set_bits_is_u16|apply fm_set_bit_is_u16]. }
  split; [unfold settings_kept; cbn; tauto|].
  split.
  { intros i Hi Hskip. cbn [In] in Hskip. unfold with_reg.
    cbn [regs with_async with_regs]. rewrite !get_set_ne by lia. reflexivity. }
  repeat split; reflexivity.
Qed.

(** What a started seek leaves for the polling loop. *)
Lemma fm_seek_async_started (w : world hw) (direction : fm_seek_direction_t) :
  radio_wf (radio w) -> fm_is_powered_up (radio w) = true -> task (async (radio w)) = NULL ->
  returns (fm_seek_async direction) w (fun _ w' =>
    radio_wf (radio w') /\ settings_kept (radio w) (radio w') /\
    regs_agree_except [0x2] (radio w) (radio w') /\
    fm_is_powered_up (radio w') = true /\
    frequency (radio w') = frequency (radio w) /\
    task (async (radio w')) = fm_seek_async_task_ptr /\
    state (async (radio w')) = 1 /\
    resume_time (async (radio w')) = u64 (time_us_64 (chip w') + 200000)).
Proof.
  intros Hwf Hup Hidle. unfold fm_seek_async.
  apply returns_bind, returns_get_radio.
  apply returns_bind, returns_assert; [exact Hup|].
  apply returns_bind, returns_assert; [rewrite Hidle; reflexivity|].
  run. apply returns_write_single; [lia|]. intros ok h. run.
  split.
  { unfold with_async, radio_wf. cbn [regs].
    repeat apply with_reg_wf; try assumption; apply fm_set_bit_is_u16. }
  split; [unfold settings_kept; cbn; tauto|].
  split.
  { intros i Hi Hskip. cbn [In] in Hskip. unfold with_reg.
    cbn [regs with_async with_regs]. rewrite !get_set_ne by lia. reflexivity. }
  split.
  { destruct Hwf as [Hlen Hu]. unfold fm_is_powered_up, with_reg in *.
    cbn [regs with_async with_regs]. rewrite ?set_length. regs_norm. as_fields.
    rewrite !fm_get_bit_set_bit by lia. cbn [Z.eqb]. exact Hup. }
  repeat split; reflexivity.
Qed.

Lemma polled_status_some (r : rda5807_t) (h : hw) (v : Z) :
  status_answer h = Some v -> polled_status r h = v.
Proof. intros E. unfold polled_status. rewrite E. reflexivity. Qed.

Lemma polled_status_none (r : rda5807_t) (h : hw) :
  status_answer h = None -> polled_status r h = get (regs r) 0xA.
Proof. intros E. unfold polled_status. rewrite E. reflexivity. Qed.

Lemma powered_up_agree (r r' : rda5807_t) (skip : list Z) :
  regs_agree_except skip r r' -> ~ In 0x2 skip ->
  fm_is_powered_up r' = fm_is_powered_up r.
Proof.
  intros Hagree Hskip. unfold fm_is_powered_up. rewrite (Hagree 0x2); [reflexivity|lia|assumption].
Qed.

Lemma regs_agree_trans (s1 s2 s3 : list Z) (r1 r2 r3 : rda5807_t) :
  regs_agree_except s1 r1 r2 -> regs_agree_except s2 r2 r3 ->
  (forall i, In i s1 \/ In i s2 -> In i s3) ->
  regs_agree_except s3 r1 r3.
Proof.
  intros H12 H23 Hsub i Hi Hskip.
  rewrite H23, H12; try assumption; try reflexivity; intros Hin; apply Hskip, Hsub; tauto.
Qed.

Lemma settings_kept_trans (r1 r2 r3 : rda5807_t) :
  settings_kept r1 r2 -> settings_kept r2 r3 -> settings_kept r1 r3.
Proof. unfold settings_kept. intuition congruence. Qed.

(** A run that returns is the run. *)
Lemma returns_run {A : Type} (m : M hw A) (w w1 : world hw) (x : A)
    (Q : A -> world hw -> Prop) :
  returns m w Q -> m w = Ret x w1 -> Q x w1.
Proof. intros (y & w' & E & HQ) E1. rewrite E1 in E. injection E as <- <-. exact HQ. Qed.

(** [fm_set_frequency_blocking] with a frequency other than the cached one
    returns after its first poll when that poll is due and answered. The
    start, [fm_set_frequency_async], leaves the radio in [w1]; if the clock
    after the 5 ms sleep that follows has reached the resume time of [w1],
    and the chip answers the poll of the status register made then with a
    word [v] that has STC set, the call returns (one unit of fuel is enough,
    more changes nothing): no task is left, the TUNE flag is clear, the radio
    is still powered up with its settings, and the cached frequency is the
    one of the channel in the mirrored status register. *)
Theorem blocking_tune_returns_after_one_poll
    (w w1 : world hw) (f : F32.float) (fuel : nat) (v : Z)
    (Hwf : radio_wf (radio w))
    (Hup : fm_is_powered_up (radio w) = true)
    (Hidle : task (async (radio w)) = NULL)
    (Hother : F32.eqb (frequency (radio w)) f = false)
    (Hstart : fm_set_frequency_async f w = Ret tt w1)
    (Hdue : resume_time (async (radio w1))
            <= time_us_64 (sleep_ms TUNE_POLL_INTERVAL_MS (chip w1)))
    (Hanswer : status_answer (sleep_ms TUNE_POLL_INTERVAL_MS (chip w1)) = Some v)
    (Hstc : fm_get_bit v STC_BIT = true) :
  returns (fm_set_frequency_blocking (S fuel) f) w (fun _ w' =>
    let r := radio w in
    let r' := radio w' in
    radio_wf r' /\ settings_kept r r' /\ regs_agree_except [0x3; 0xA] r r' /\
    fm_is_powered_up r' = true /\
    async r' = no_task /\
    fm_get_bit (get (regs r') 0x3) TUNE_BIT = false /\
    fm_get_frequency r' = reported_frequency r').
Proof.
  pose proof (returns_run _ _ _ _ _ (fm_set_frequency_async_started w f Hwf Hup Hidle) Hstart)
    as (Hwf1 & Hkept1 & Hagree1 & Hfreq1 & Htask1 & Hstate1 & Hres1).
  unfold fm_set_frequency_blocking.
  apply returns_bind, returns_get_radio.
  apply returns_bind, returns_assert; [exact Hup|].
  apply returns_bind, returns_assert; [rewrite Hidle; reflexivity|].
  rewrite Hother.
  apply returns_bind. exists tt, w1. split; [exact Hstart|].
  apply returns_bind. cbn [poll].
  apply returns_bind, returns_sleep.
  apply returns_bind.
  eapply returns_weaken.
  { apply tune_tick_run; cbn [radio chip]; assumption. }
  cbv beta zeta. cbn [radio chip].
  intros p w2 (Hresult & Hdone & Hwf2 & Hkept2 & Hagree2 & Hrest).
  rewrite (polled_status_some _ _ _ Hanswer), Hstc in Hdone.
  rewrite Hdone in Hrest |- *. destruct Hrest as (Hasync & Htune & Hfreq).
  run.
  assert (Hagree : regs_agree_except [0x3; 0xA] (radio w) (radio w2)).
  { apply (regs_agree_trans [0x3] [0x3; 0xA] _ _ _ _ Hagree1 Hagree2). cbn. tauto. }
  split; [assumption|].
  split; [apply (settings_kept_trans _ _ _ Hkept1 Hkept2)|].
  split; [assumption|].
  split.
  { rewrite (powered_up_agree _ _ _ Hagree); [exact Hup|]. cbn. lia. }
  tauto.
Qed.

(** [fm_seek_blocking] returns after its first poll when that poll is due
    and answered. The start, [fm_seek_async], leaves the radio in [w1]; if
    the clock after the 200 ms
    sleep that follows has reached the resume time of [w1], and the chip
    answers the poll of the status register made then with a word [v] that
    has STC set, the call returns, and it returns [true] exactly when the
    seek-fail flag SF of [v] is clear. No task is left, the SEEK flag is
    clear, the radio is still powered up with its settings, and the cached
    frequency is the one of the channel in the mirrored status register. *)
Theorem blocking_seek_returns_after_one_poll
    (w w1 : world hw) (direction : fm_seek_direction_t) (fuel : nat) (v : Z)
    (Hwf : radio_wf (radio w))
    (Hup : fm_is_powered_up (radio w) = true)
    (Hidle : task (async (radio w)) = NULL)
    (Hstart : fm_seek_async direction w = Ret tt w1)
    (Hdue : resume_time (async (radio w1))
            <= time_us_64 (sleep_ms SEEK_POLL_INTERVAL_MS (chip w1)))
    (Hanswer : status_answer (sleep_ms SEEK_POLL_INTERVAL_MS (chip w1)) = Some v)
    (Hstc : fm_get_bit v STC_BIT = true) :
  returns (fm_seek_blocking (S fuel) direction) w (fun success w' =>
    let r := radio w in
    let r' := radio w' in
    success = negb (fm_get_bit v SF_BIT) /\
    radio_wf r' /\ settings_kept r r' /\ regs_agree_except [0x2; 0xA] r r' /\
    fm_is_powered_up r' = true /\
    async r' = no_task /\
    fm_get_bit (get (regs r') 0x2) SEEK_BIT = false /\
    fm_get_frequency r' = reported_frequency r').
Proof.
  pose proof (returns_run _ _ _ _ _ (fm_seek_async_started w direction Hwf Hup Hidle) Hstart)
    as (Hwf1 & Hkept1 & Hagree1 & Hup1 & Hfreq1 & Htask1 & Hstate1 & Hres1).
  unfold fm_seek_blocking.
  apply returns_bind, returns_get_radio.
  apply returns_bind, returns_assert; [exact Hup|].
  apply returns_bind, returns_assert; [rewrite Hidle; reflexivity|].
  apply returns_bind. exists tt, w1. split; [exact Hstart|].
  apply returns_bind. cbn [poll].
  apply returns_bind, returns_sleep.
  apply returns_bind.
  eapply returns_weaken.
  { apply seek_tick_run; cbn [radio chip]; assumption. }
  cbv beta zeta. cbn [radio chip].
  intros p w2 (Hdone & Hwf2 & Hkept2 & Hagree2 & Hup2 & Hfreq & Hrest).
  rewrite (polled_status_some _ _ _ Hanswer) in Hdone, Hrest. rewrite Hstc in Hdone.
  rewrite Hdone in Hrest |- *. destruct Hrest as (Hresult & Hasync & Hseek).
  run. rewrite Hresult.
  assert (Hagree : regs_agree_except [0x2; 0xA] (radio w) (radio w2)).
  { apply (regs_agree_trans [0x2] [0x2; 0xA] _ _ _ _ Hagree1 Hagree2). cbn. tauto. }
  split; [destruct (fm_get_bit v SF_BIT); reflexivity|].
  split; [assumption|].
  split; [apply (settings_kept_trans _ _ _ Hkept1 Hkept2)|].
  split; [assumption|].
  split; [rewrite Hup2; exact Hup1|].
  tauto.
Qed.

Section DeadBus.

(** A bus on which no poll of the status register is answered. *)
Hypothesis bus_dead : forall h : hw, status_answer h = None.

Lemma poll_tune_never (fuel : nat) : forall w : world hw,
  radio_wf (radio w) ->
  task (async (radio w)) = fm_set_frequency_async_task_ptr ->
  state (async (radio w)) = 1 ->
  fm_get_bit (get (regs (radio w)) 0xA) STC_BIT = false ->
  poll TUNE_POLL_INTERVAL_MS fuel w = OutOfFuel.
Proof.
  induction fuel as [|fuel IH]; intros w Hwf Htask Hstate Hstc; [reflexivity|].
  cbn [poll]. unfold bind at 1. unfold sleep. cbv beta iota.
  set (w1 := mk_world (radio w) (sleep_ms TUNE_POLL_INTERVAL_MS (chip w)) (i2c_log w)).
  unfold bind at 1.
  destruct (Z.lt_ge_cases (time_us_64 (chip w1)) (resume_time (async (radio w1))))
    as [Hearly|Hdue].
  - rewrite tick_not_due; [|subst w1; cbn [radio]; rewrite Htask; discriminate|assumption].
    cbn [done]. apply IH; assumption.
  - destruct (tune_tick_run w1 Hwf Htask Hstate Hdue)
      as (p & w2 & E & _ & Hdone & Hwf2 & _ & _ & Hrest).
    rewrite E.
    rewrite polled_status_none in Hdone by apply bus_dead.
    subst w1. cbn [radio] in Hdone. rewrite Hstc in Hdone.
    rewrite Hdone in Hrest |- *.
    destruct Hrest as (Hstc2 & Htask2 & Hstate2 & _).
    apply IH; assumption.
Qed.

Lemma poll_seek_never (fuel : nat) : forall w : world hw,
  radio_wf (radio w) ->
  task (async (radio w)) = fm_seek_async_task_ptr ->
  state (async (radio w)) = 1 ->
  fm_get_bit (get (regs (radio w)) 0xA) STC_BIT = false ->
  poll SEEK_POLL_INTERVAL_MS fuel w = OutOfFuel.
Proof.
  induction fuel as [|fuel IH]; intros w Hwf Htask Hstate Hstc; [reflexivity|].
  cbn [poll]. unfold bind at 1. unfold sleep. cbv beta iota.
  set (w1 := mk_world (radio w) (sleep_ms SEEK_POLL_INTERVAL_MS (chip w)) (i2c_log w)).
  unfold bind at 1.
  destruct (Z.lt_ge_cases (time_us_64 (chip w1)) (resume_time (async (radio w1))))
    as [Hearly|Hdue].
  - rewrite tick_not_due; [|subst w1; cbn [radio]; rewrite Htask; discriminate|assumption].
    cbn [done]. apply IH; assumption.
  - destruct (seek_tick_run w1 Hwf Htask Hstate Hdue)
      as (p & w2 & E & Hdone & Hwf2 & _ & _ & _ & _ & Hrest).
    rewrite E.
    rewrite polled_status_none in Hdone by apply bus_dead.
    subst w1. cbn [radio] in Hdone. rewrite Hstc in Hdone.
    rewrite Hdone in Hrest |- *.
    destruct Hrest as (_ & Hstc2 & Htask2 & Hstate2 & _).
    apply IH; assumption.
Qed.

(** The blocking calls have no timeout. On a bus where no poll of the
    status register is answered, and with a status mirror that does not
    show a completed operation, [fm_set_frequency_blocking] (with a
    frequency other than the cached one) and [fm_seek_blocking] never
    return: whatever number of polls the loop is allowed, it is still
    polling when they are used up. *)
Theorem blocking_calls_never_return_on_a_dead_bus
    (w : world hw)
    (Hwf : radio_wf (radio w))
    (Hup : fm_is_powered_up (radio w) = true)
    (Hidle : task (async (radio w)) = NULL)
    (Hquiet : fm_get_bit (get (regs (radio w)) 0xA) STC_BIT = false) :
  (forall (fuel : nat) (f : F32.float),
     F32.eqb (frequency (radio w)) f = false ->
     fm_set_frequency_blocking fuel f w = OutOfFuel) /\
  (forall (fuel : nat) (direction : fm_seek_direction_t),
     fm_seek_blocking fuel direction w = OutOfFuel).
Proof.
  split.
  - intros fuel f Hother.
    unfold fm_set_frequency_blocking, bind at 1 2 3, get_radio, assert.
    rewrite Hup, Hidle. cbn [task_eqb]. rewrite Hother. cbn [negb].
    destruct (fm_set_frequency_async_started w f Hwf Hup Hidle)
      as ([] & w1 & E & Hwf1 & _ & Hagree1 & _ & Htask1 & Hstate1 & _).
    unfold bind at 1. rewrite E. unfold bind at 1.
    rewrite poll_tune_never; try assumption; [reflexivity|].
    rewrite (Hagree1 0xA); [assumption|lia|cbn; lia].
  - intros fuel direction.
    unfold fm_seek_blocking, bind at 1 2 3, get_radio, assert.
    rewrite Hup, Hidle. cbn [task_eqb].
    destruct (fm_seek_async_started w direction Hwf Hup Hidle)
      as ([] & w1 & E & Hwf1 & _ & Hagree1 & _ & _ & Htask1 & Hstate1 & _).
    unfold bind at 1. rewrite E. unfold bind at 1.
    rewrite poll_seek_never; try assumption; [reflexivity|].
    rewrite (Hagree1 0xA); [assumption|lia|cbn; lia].
Qed.

End DeadBus.

End Tasks.

End Rda5807More.

(** * The driver: status reads and power up *)

Module Rda5807Reads.

Import Regs Rda5807 BitLemmas RegsProps Rda5807Props FrequencyProps Rda5807More.

(** ** Words from the bus *)

Lemma word_forms (hi lo : Z) :
  u16 (Z.lor (u16 (Z.shiftl hi 8)) lo) = word_of_bytes hi lo.
Proof.
  unfold word_of_bytes. apply Z.bits_inj'. intros n Hn.
  rewrite !testbit_u16, !Z.lor_spec, testbit_u16 by lia.
  destruct (n <? 16); [reflexivity|]. cbn [andb]. reflexivity.
Qed.

Lemma word_of_bytes_u16 (hi lo : Z) : is_u16 (word_of_bytes hi lo).
Proof. apply is_u16_u16. Qed.

(** The unpacking loop stores the big-endian words of the buffer at the
    target indices and leaves the other entries alone. *)
Lemma unpack_registers_get (buf : list Z) (n : nat) : forall (i q : Z) (regs : list Z),
  0 <= q -> (Z.to_nat q + n <= length regs)%nat ->
  length (unpack_registers buf i q n regs) = length regs /\
  (Forall is_u16 regs -> Forall is_u16 (unpack_registers buf i q n regs)) /\
  (forall j, 0 <= j ->
     get (unpack_registers buf i q n regs) j =
       if (q <=? j) && (j <? q + Z.of_nat n)
       then word_of_bytes (get buf (i + 2 * (j - q))) (get buf (i + 2 * (j - q) + 1))
       else get regs j).
Proof.
  induction n as [|n IH]; intros i q regs Hq Hfit.
  - cbn [unpack_registers]. split; [reflexivity|]. split; [tauto|].
    intros j Hj. replace ((q <=? j) && (j <? q + Z.of_nat 0)) with false; [reflexivity|].
    symmetry. apply andb_false_iff. destruct (Z.leb_spec q j); [right|left; reflexivity].
    apply Z.ltb_ge. lia.
  - cbn [unpack_registers]. rewrite word_forms.
    destruct (IH (i + 2) (q + 1) (set regs q (word_of_bytes (get buf i) (get buf (i + 1)))))
      as (Hlen & Hu & Hget); [lia|rewrite set_length; lia|].
    rewrite set_length in Hlen.
    split; [exact Hlen|]. split.
    + intros Hregs. apply Hu, set_is_u16; [assumption|apply word_of_bytes_u16].
    + intros j Hj. rewrite Hget by assumption.
      destruct (Z.eq_dec j q) as [->|Hne].
      * replace ((q + 1 <=? q) && (q <? q + 1 + Z.of_nat n)) with false
          by (symmetry; apply andb_false_iff; left; apply Z.leb_gt; lia).
        replace ((q <=? q) && (q <? q + Z.of_nat (S n))) with true
          by (symmetry; apply andb_true_iff; split; [apply Z.leb_le|apply Z.ltb_lt]; lia).
        rewrite get_set_eq by lia.
        replace (i + 2 * (q - q)) with i by lia. reflexivity.
      * rewrite get_set_ne by lia.
        replace (q + 1 <=? j) with (q <=? j)
          by (destruct (Z.leb_spec q j), (Z.leb_spec (q + 1) j); try reflexivity; lia).
        replace (q + 1 + Z.of_nat n) with (q + Z.of_nat (S n)) by lia.
        destruct ((q <=? j) && (j <? q + Z.of_nat (S n))); [|reflexivity].
        replace (i + 2 + 2 * (j - (q + 1))) with (i + 2 * (j - q)) by lia. reflexivity.
Qed.

Lemma take_4_drop_12 (l : list Z) :
  length l = 16%nat -> take 4 (drop 12 l) = [get l 0xC; get l 0xD; get l 0xE; get l 0xF].
Proof.
  intros Hlen. do 16 (destruct l as [|? l]; [discriminate|]).
  destruct l; [reflexivity|discriminate].
Qed.

Lemma rssi_field (v : Z) : is_u16 v -> fm_get_bits v RSSI_BITS RSSI_LSB = v / 512.
Proof.
  intros Hv. change RSSI_BITS with (field_mask 7 9). change RSSI_LSB with 9.
  apply Z.bits_inj'. intros n Hn.
  rewrite fm_get_bits_testbit by lia.
  change 512 with (2 ^ 9). rewrite Z.div_pow2_bits by lia.
  destruct (Z.ltb_spec n 7) as [Hlt|Hge].
  - apply andb_true_r.
  - rewrite andb_false_r. symmetry. apply is_u16_high; [assumption|lia].
Qed.

Section Reads.

Context {hw : Type} {platform : Platform hw}.

(** A read of one register by random access: the mirror takes the answer
    of the chip at that register, or keeps its value when a transfer
    fails, and the call reports which. *)
Lemma returns_read_register (reg_index : Z) (w : world hw) (Q : bool -> world hw -> Prop) :
  0 <= reg_index <= 15 -> reg_index <> 0xA -> radio_wf (radio w) ->
  (forall h evs,
     Q (match register_answer reg_index (chip w) with Some _ => true | None => false end)
       (mk_world
          (with_reg reg_index
             (default (get (regs (radio w)) reg_index) (register_answer reg_index (chip w)))
             (radio w))
          h (i2c_log w ++ evs))) ->
  returns (fm_read_single_register reg_index) w Q.
Proof.
  intros Hr Hne [Hlen Hu] HQ.
  unfold fm_read_single_register. apply returns_bind, returns_assert.
  { apply Z.leb_le. lia. }
  destruct (Z.eqb_spec reg_index 0xA) as [|_]; [contradiction|].
  unfold register_answer in HQ.
  apply returns_bind, returns_i2c_write. intros res h E. rewrite E in HQ.
  destruct (negb (res =? 1)); cbn [default] in HQ.
  - apply returns_ret. specialize (HQ h [I2cWrite RDA5807_ADDR_RANDOM_ACCESS [u8 reg_index] true]).
    rewrite with_reg_same in HQ by lia. exact HQ.
  - apply returns_bind, returns_i2c_read. cbn [radio chip i2c_log]. intros res2 buf h2 E2.
    rewrite E2 in HQ.
    destruct (negb (res2 =? 2)); cbn [default] in HQ.
    + apply returns_ret. rewrite <- app_assoc.
      specialize (HQ h2 ([I2cWrite RDA5807_ADDR_RANDOM_ACCESS [u8 reg_index] true] ++
                         [I2cRead RDA5807_ADDR_RANDOM_ACCESS 2 false])).
      rewrite with_reg_same in HQ by lia. exact HQ.
    + apply returns_bind, returns_modify, returns_ret. cbn [radio chip i2c_log].
      rewrite <- app_assoc. apply HQ.
Qed.

Lemma register_answer_u16 (reg_index : Z) (h : hw) (v : Z) :
  register_answer reg_index h = Some v -> is_u16 v.
Proof.
  unfold register_answer.
  destruct (i2c_write_blocking h RDA5807_ADDR_RANDOM_ACCESS [u8 reg_index] true) as [n h1].
  destruct (negb (n =? 1)); [discriminate|].
  destruct (i2c_read_blocking h1 RDA5807_ADDR_RANDOM_ACCESS 2 false) as [[n2 buf] h2].
  destruct (negb (n2 =? 2)); [discriminate|].
  intros [= <-]. apply word_of_bytes_u16.
Qed.

Lemma status_answer_u16 (h : hw) (v : Z) : status_answer h = Some v -> is_u16 v.
Proof.
  unfold status_answer.
  destruct (i2c_read_blocking h RDA5807_ADDR_SEQUENTIAL 2 false) as [[n2 buf] h2].
  destruct (negb (n2 =? 2)); [discriminate|].
  intros [= <-]. apply is_u16_u16.
Qed.

Lemma polled_status_u16 (r : rda5807_t) (h : hw) : radio_wf r -> is_u16 (polled_status r h).
Proof.
  intros [_ Hu]. unfold polled_status.
  destruct (status_answer h) as [v|] eqn:E; cbn [default].
  - eapply status_answer_u16; eassumption.
  - apply get_u16; assumption.
Qed.

(** ** Signal strength and stereo indicator *)

(** [fm_get_rssi] and [fm_get_stereo_indicator] on a powered-up radio
    return, and they answer from the mirror after one read: the signal
    strength is the top seven bits of register 0xB, a number from 0 to 127,
    and the stereo indicator is bit 10 of register 0xA. The register read
    takes the answer of the chip, or keeps its old word when the bus
    transfer fails; the failure is not reported, the old reading is
    returned. No other register and no setting changes, and a task in
    flight is not disturbed. *)
Theorem signal_readings_come_from_the_mirror
    (w : world hw)
    (Hwf : radio_wf (radio w))
    (Hup : fm_is_powered_up (radio w) = true) :
  returns fm_get_rssi w (fun rssi w' =>
    let r := radio w in
    let r' := radio w' in
    0 <= rssi <= 127 /\
    rssi = get (regs r') 0xB / 512 /\
    get (regs r') 0xB = default (get (regs r) 0xB) (register_answer 0xB (chip w)) /\
    radio_wf r' /\ settings_kept r r' /\ regs_agree_except [0xB] r r' /\
    async r' = async r /\ fm_get_frequency r' = fm_get_frequency r) /\
  returns fm_get_stereo_indicator w (fun stereo w' =>
    let r := radio w in
    let r' := radio w' in
    stereo = Z.testbit (get (regs r') 0xA) 10 /\
    get (regs r') 0xA = polled_status r (chip w) /\
    radio_wf r' /\ settings_kept r r' /\ regs_agree_except [0xA] r r' /\
    async r' = async r /\ fm_get_frequency r' = fm_get_frequency r).
Proof.
  pose proof Hwf as [Hlen Hu].
  split.
  - unfold fm_get_rssi. run. apply returns_assert; [exact Hup|].
    apply returns_bind, returns_read_register; [lia|lia|assumption|].
    intros h evs. run.
    set (v := default (get (regs (radio w)) 0xB) (register_answer 0xB (chip w))).
    assert (Hv : is_u16 v).
    { subst v. destruct (register_answer 0xB (chip w)) as [x|] eqn:E; cbn [default].
      - eapply register_answer_u16; eassumption.
      - apply get_u16; assumption. }
    assert (Hget : get (regs (with_reg 0xB v (radio w))) 0xB = v).
    { unfold with_reg. cbn [regs with_regs]. apply get_set_eq; lia. }
    rewrite Hget. rewrite (rssi_field v Hv).
    assert (Hrange : 0 <= v / 512 <= 127).
    { destruct Hv as [Hv0 Hv1]. split; [apply Z.div_pos; lia|].
      apply Z.lt_succ_r. apply Z.div_lt_upper_bound; lia. }
    rewrite u8_small by (unfold is_u8; lia).
    split; [exact Hrange|]. split; [reflexivity|]. split; [reflexivity|].
    split; [apply with_reg_wf; assumption|].
    split; [apply settings_kept_with_reg|].
    split; [apply regs_agree_with_reg; [lia|left; reflexivity]|].
    split; reflexivity.
  - unfold fm_get_stereo_indicator. run. apply returns_assert; [exact Hup|].
    apply returns_bind, returns_read_status; [assumption|].
    intros ok h. run.
    set (v := polled_status (radio w) (chip w)).
    assert (Hv : is_u16 v) by (apply polled_status_u16; assumption).
    assert (Hget : get (regs (with_reg 0xA v (radio w))) 0xA = v).
    { unfold with_reg. cbn [regs with_regs]. apply get_set_eq; lia. }
    rewrite Hget.
    split; [change ST_BIT with (2 ^ 10); apply fm_get_bit_testbit; lia|].
    split; [reflexivity|].
    split; [apply with_reg_wf; assumption|].
    split; [apply settings_kept_with_reg|].
    split; [apply regs_agree_with_reg; [lia|left; reflexivity]|].
    split; reflexivity.
Qed.

(** ** Reading an RDS group *)

(** [fm_read_rds_group] on a powered-up radio reads the six status
    registers in one transfer of 12 bytes and returns. When the transfer
    moves its 12 bytes, registers 0xA..0xF of the mirror are the words of
    the buffer, high byte first; when it does not, the mirror is as before
    and the failure is not reported. Either way the call answers from the
    mirror: its result is the RDSR flag (bit 15) of register 0xA, and when
    the flag is set the first four entries of [blocks] are registers
    0xC..0xF, so that after a failed read the previous group is delivered
    again if it was ready. When the flag is clear [blocks] is not
    touched. Registers 0x0..0x9, the settings, the cached frequency and a
    task in flight are never changed. *)
Theorem read_rds_group_answers_from_the_mirror
    (w : world hw) (blocks : list Z) (n : Z) (buf : list Z) (h : hw)
    (Hwf : radio_wf (radio w))
    (Hup : fm_is_powered_up (radio w) = true)
    (Hread : i2c_read_blocking (chip w) RDA5807_ADDR_SEQUENTIAL 12 false = (n, buf, h)) :
  returns (fm_read_rds_group blocks) w (fun res w' =>
    let r := radio w in
    let r' := radio w' in
    chip w' = h /\
    i2c_log w' = i2c_log w ++ [I2cRead RDA5807_ADDR_SEQUENTIAL 12 false] /\
    radio_wf r' /\ settings_kept r r' /\
    async r' = async r /\ fm_get_frequency r' = fm_get_frequency r /\
    regs_agree_except [0xA; 0xB; 0xC; 0xD; 0xE; 0xF] r r' /\
    (if n =? 12
     then forall k, 0 <= k < 6 ->
            get (regs r') (0xA + k) = word_of_bytes (get buf (2 * k)) (get buf (2 * k + 1))
     else r' = r) /\
    fst res = Z.testbit (get (regs r') 0xA) 15 /\
    snd res =
      if fst res
      then [get (regs r') 0xC; get (regs r') 0xD; get (regs r') 0xE; get (regs r') 0xF]
             ++ drop 4 blocks
      else blocks).
Proof.
  pose proof Hwf as [Hlen Hu].
  assert (Hflag : forall v, fm_get_bit v RDSR_BIT = Z.testbit v 15).
  { intros v. change RDSR_BIT with (2 ^ 15). apply fm_get_bit_testbit. lia. }
  assert (Hanswer : forall (r' : rda5807_t) (w' : world hw) (Q : bool * list Z -> Prop),
    radio_wf r' ->
    (let res := (Z.testbit (get (regs r') 0xA) 15,
                 if Z.testbit (get (regs r') 0xA) 15
                 then [get (regs r') 0xC; get (regs r') 0xD; get (regs r') 0xE;
                       get (regs r') 0xF] ++ drop 4 blocks
                 else blocks) in Q res) ->
    Q (if negb (fm_get_bit (get (regs r') 0xA) RDSR_BIT) then (false, blocks)
       else (true, memcpy blocks (drop 0xC (regs r')) 4))).
  { intros r' w' Q [Hlen' _] HQ. cbv zeta in HQ. rewrite Hflag.
    destruct (Z.testbit (get (regs r') 0xA) 15); cbn [negb]; [|exact HQ].
    unfold memcpy. rewrite take_4_drop_12 by assumption. exact HQ. }
  unfold fm_read_rds_group. run. apply returns_assert; [exact Hup|].
  apply returns_bind. unfold fm_read_registers_up_to.
  apply returns_bind, returns_assert; [reflexivity|].
  unfold fm_read_registers. apply returns_bind, returns_assert; [reflexivity|].
  change ((0xF - 9) * 2) with 12.
  apply returns_bind, returns_i2c_read. intros n' buf' h' E.
  rewrite Hread in E. injection E as <- <- <-.
  destruct (Z.eqb_spec n 12) as [->|Hne]; cbn [negb].
  - change (Z.to_nat (0xF - 9)) with 6%nat.
    destruct (unpack_registers_get buf 6 0 0xA (regs (radio w)))
      as (Hlen' & Hu' & Hget); [lia|lia|].
    run.
    set (r' := with_regs (unpack_registers buf 0 0xA 6 (regs (radio w))) (radio w)).
    assert (Hwf' : radio_wf r').
    { split; subst r'; cbn [regs with_regs]; [lia|apply Hu'; assumption]. }
    match goal with
    | |- returns (if ?c then ret ?a else ret ?b) ?w0 ?Q =>
        replace (if c then ret a else ret b) with (@ret hw _ (if c then a else b))
          by (destruct c; reflexivity)
    end.
    apply returns_ret. cbn [radio chip i2c_log].
    apply (Hanswer r' w); [exact Hwf'|]. cbv zeta. cbn [fst snd].
    split; [reflexivity|]. split; [reflexivity|]. split; [exact Hwf'|].
    split; [unfold settings_kept; cbn; tauto|].
    split; [reflexivity|]. split; [reflexivity|].
    split.
    { intros i Hi Hskip. subst r'. cbn [regs with_regs]. rewrite Hget by assumption.
      destruct (Z.leb_spec 0xA i); cbn [andb]; [|reflexivity].
      destruct (Z.ltb_spec i (0xA + Z.of_nat 6)); [|reflexivity].
      exfalso. apply Hskip. cbn [In].
      assert (i = 10 \/ i = 11 \/ i = 12 \/ i = 13 \/ i = 14 \/ i = 15) by lia.
      intuition. }
    split.
    { intros k Hk. subst r'. cbn [regs with_regs]. rewrite Hget by lia.
      replace ((0xA <=? 0xA + k) && (0xA + k <? 0xA + Z.of_nat 6)) with true
        by (symmetry; apply andb_true_iff; split; [apply Z.leb_le|apply Z.ltb_lt]; lia).
      replace (0xA + k - 0xA) with k by lia. reflexivity. }
    split; reflexivity.
  - replace (n =? 12) with false by (symmetry; apply Z.eqb_neq; exact Hne). cbn [negb].
    run.
    match goal with
    | |- returns (if ?c then ret ?a else ret ?b) ?w0 ?Q =>
        replace (if c then ret a else ret b) with (@ret hw _ (if c then a else b))
          by (destruct c; reflexivity)
    end.
    apply returns_ret. cbn [radio chip i2c_log].
    apply (Hanswer (radio w) w); [exact Hwf|]. cbv zeta. cbn [fst snd].
    split; [reflexivity|]. split; [reflexivity|]. split; [exact Hwf|].
    split; [unfold settings_kept; tauto|].
    split; [reflexivity|]. split; [reflexivity|].
    split; [intros i _ _; reflexivity|].
    split; [reflexivity|]. split; reflexivity.
Qed.

(** ** Starting a seek *)

(** [fm_seek_async] on a powered-up, idle radio returns whatever the bus
    does with its write. In register 2 of the mirror SEEK is set, SEEKUP
    tells the direction and SKMODE is clear (the seek wraps at the band
    limit); the other thirteen bits of the register, and with them the
    audio settings and ENABLE, are as before, and so is every other
    register. The seek task is installed with its first poll 200 ms after
    the clock reading, the cached frequency is not touched, and the one bus
    transfer is the write of register 2 as the mirror holds it. *)
Theorem seek_async_starts_a_wrapping_seek
    (w : world hw) (direction : fm_seek_direction_t)
    (Hwf : radio_wf (radio w))
    (Hup : fm_is_powered_up (radio w) = true)
    (Hidle : task (async (radio w)) = NULL) :
  returns (fm_seek_async direction) w (fun _ w' =>
    let r := radio w in
    let r' := radio w' in
    let reg2 := get (regs r) 0x2 in
    let reg2' := get (regs r') 0x2 in
    fm_get_bit reg2' SEEK_BIT = true /\
    fm_get_bit reg2' SEEKUP_BIT =
      match direction with FM_SEEK_UP => true | FM_SEEK_DOWN => false end /\
    fm_get_bit reg2' SKMODE_BIT = false /\
    (forall k, 0 <= k < 16 -> k <> 7 -> k <> 8 -> k <> 9 ->
       Z.testbit reg2' k = Z.testbit reg2 k) /\
    radio_wf r' /\ settings_kept r r' /\ regs_agree_except [0x2] r r' /\
    fm_get_frequency r' = fm_get_frequency r /\
    task (async r') = fm_seek_async_task_ptr /\
    state (async r') = 1 /\
    resume_time (async r') = u64 (time_us_64 (chip w') + 200000) /\
    i2c_log w' =
      i2c_log w ++ [I2cWrite RDA5807_ADDR_SEQUENTIAL (pack_registers (regs r') 0x2 1) false]).
Proof.
  pose proof Hwf as [Hlen Hu].
  unfold fm_seek_async.
  apply returns_bind, returns_get_radio.
  apply returns_bind, returns_assert; [exact Hup|].
  apply returns_bind, returns_assert; [rewrite Hidle; reflexivity|].
  run. apply returns_write_single; [lia|]. intros ok h. run.
  set (up := match direction with FM_SEEK_UP => true | FM_SEEK_DOWN => false end).
  cbv zeta. unfold with_reg. cbn [regs with_async with_regs async].
  rewrite ?set_length. regs_norm. as_fields.
  split; [rewrite !fm_get_bit_set_bit by lia; reflexivity|].
  split; [rewrite !fm_get_bit_set_bit by lia; reflexivity|].
  split; [rewrite !fm_get_bit_set_bit by lia; reflexivity|].
  split.
  { intros k Hk H7 H8 H9. rewrite !fm_set_bit_testbit by lia.
    destruct (Z.ltb_spec k 16); [|lia]. cbn [andb].
    destruct (Z.eqb_spec k 8); [lia|]. destruct (Z.eqb_spec k 9); [lia|].
    destruct (Z.eqb_spec k 7); [lia|]. reflexivity. }
  split.
  { unfold radio_wf. cbn [regs with_async with_regs]. rewrite ?set_length.
    split; [assumption|].
    repeat apply set_is_u16; try assumption; apply fm_set_bit_is_u16. }
  split; [unfold settings_kept; cbn; tauto|].
  split.
  { intros i Hi Hskip. cbn [In] in Hskip. cbn [regs with_async with_regs].
    rewrite !get_set_ne by lia. reflexivity. }
  split; [reflexivity|]. split; [reflexivity|]. split; [reflexivity|].
  split; reflexivity.
Qed.

End Reads.

(** ** Power up *)

(** The mirror after the "setup" block, register by register. *)
Lemma setup_registers_regs (config : fm_config_t) (r : rda5807_t)
    (a0 a1 a2 a3 a4 a5 a6 a7 a8 a9 a10 a11 a12 a13 a14 a15 : Z) :
  regs r = [a0; a1; a2; a3; a4; a5; a6; a7; a8; a9; a10; a11; a12; a13; a14; a15] ->
  regs (setup_registers config r) =
    [a0; a1;
     fm_set_bit
       (fm_set_bit
          (fm_set_bit
             (fm_set_bit (fm_set_bit (fm_set_bit a2 NEW_METHOD_BIT true) RDS_EN_BIT true)
                BASS_BIT (bass_boost r))
             MONO_BIT (mono r))
          DMUTE_BIT (negb (mute r)))
       DHIZ_BIT true;
     fm_set_bits
       (fm_set_bits (fm_set_bits a3 CHAN_BITS CHAN_LSB 0) BAND_BITS BAND_LSB
          (band_code (band config)))
       SPACE_BITS SPACE_LSB (spacing_code (channel_spacing config));
     fm_set_bit (fm_set_bit a4 SOFTMUTE_EN_BIT (softmute r)) DE_BIT
       match deemphasis config with FM_DEEMPHASIS_50 => true | FM_DEEMPHASIS_75 => false end;
     fm_set_bits a5 VOLUME_BITS VOLUME_LSB (volume r);
     a6;
     match band config with
     | FM_BAND_EAST_EUROPE => fm_set_bit a7 BAND_65M_50M_MODE_BIT false
     | FM_BAND_EAST_EUROPE_UPPER => fm_set_bit a7 BAND_65M_50M_MODE_BIT true
     | _ => a7
     end;
     a8; a9; a10; a11; a12; a13; a14; a15].
Proof.
  intros H. unfold setup_registers. cbn [regs with_regs]. rewrite H.
  destruct config as [b s d]. destruct b, s; reflexivity.
Qed.

Lemma get16_0 (a0 a1 a2 a3 a4 a5 a6 a7 a8 a9 a10 a11 a12 a13 a14 a15 : Z) :
  get [a0; a1; a2; a3; a4; a5; a6; a7; a8; a9; a10; a11; a12; a13; a14; a15] 0x0 = a0.
Proof. reflexivity. Qed.

Lemma get16_2 (a0 a1 a2 a3 a4 a5 a6 a7 a8 a9 a10 a11 a12 a13 a14 a15 : Z) :
  get [a0; a1; a2; a3; a4; a5; a6; a7; a8; a9; a10; a11; a12; a13; a14; a15] 0x2 = a2.
Proof. reflexivity. Qed.

Lemma get16_3 (a0 a1 a2 a3 a4 a5 a6 a7 a8 a9 a10 a11 a12 a13 a14 a15 : Z) :
  get [a0; a1; a2; a3; a4; a5; a6; a7; a8; a9; a10; a11; a12; a13; a14; a15] 0x3 = a3.
Proof. reflexivity. Qed.

Lemma get16_4 (a0 a1 a2 a3 a4 a5 a6 a7 a8 a9 a10 a11 a12 a13 a14 a15 : Z) :
  get [a0; a1; a2; a3; a4; a5; a6; a7; a8; a9; a10; a11; a12; a13; a14; a15] 0x4 = a4.
Proof. reflexivity. Qed.

Lemma get16_5 (a0 a1 a2 a3 a4 a5 a6 a7 a8 a9 a10 a11 a12 a13 a14 a15 : Z) :
  get [a0; a1; a2; a3; a4; a5; a6; a7; a8; a9; a10; a11; a12; a13; a14; a15] 0x5 = a5.
Proof. reflexivity. Qed.

Lemma get16_7 (a0 a1 a2 a3 a4 a5 a6 a7 a8 a9 a10 a11 a12 a13 a14 a15 : Z) :
  get [a0; a1; a2; a3; a4; a5; a6; a7; a8; a9; a10; a11; a12; a13; a14; a15] 0x7 = a7.
Proof. reflexivity. Qed.

Lemma band_code_range (b : fm_band_t) : 0 <= band_code b < 2 ^ 2.
Proof. destruct b; cbn; lia. Qed.

Lemma spacing_code_range (s : fm_channel_spacing_t) : 0 <= spacing_code s < 2 ^ 2.
Proof. destruct s; cbn; lia. Qed.

(** The "setup" block writes registers only. *)
Lemma setup_registers_fields (config : fm_config_t) (r : rda5807_t) :
  setup_registers config r = with_regs (regs (setup_registers config r)) r.
Proof. reflexivity. Qed.

(** The cached fields of two radios agree, the frequency and the task
    included. *)
Lemma setup_configured (config : fm_config_t) (r0 pre : rda5807_t) (v3 v4 v5 v6 v7 v8 : Z) :
  regs pre = [0x5804; 0; ENABLE_BIT; v3; v4; v5; v6; v7; v8; 0; 0; 0; 0; 0; 0; 0] ->
  Rda5807.config pre = config ->
  frequency_range pre = fm_frequency_range (band config) (channel_spacing config) ->
  sdio_pin pre = sdio_pin r0 -> sclk_pin pre = sclk_pin r0 ->
  enable_pull_ups pre = enable_pull_ups r0 ->
  seek_threshold pre = seek_threshold r0 -> volume pre = volume r0 ->
  mute pre = mute r0 -> softmute pre = softmute r0 ->
  bass_boost pre = bass_boost r0 -> mono pre = mono r0 ->
  frequency pre = frequency r0 -> async pre = async r0 ->
  is_u16 v3 -> is_u16 v4 -> is_u16 v5 -> is_u16 v6 -> is_u16 v7 -> is_u16 v8 ->
  0 <= volume r0 <= FM_MAX_VOLUME ->
  configured_for config r0 (setup_registers config pre).
Proof.
  intros Hpre Hconfig Hrange Hsdio Hsclk Hpull Hseek Hvolume Hmute Hsoft Hbass Hmono
    Hfreq Hasync H3 H4 H5 H6 H7 H8 Hvol.
  pose proof (setup_registers_regs config pre _ _ _ _ _ _ _ _ _ _ _ _ _ _ _ _ Hpre) as Hregs.
  rewrite Hbass, Hmono, Hmute, Hsoft, Hvolume in Hregs.
  pose proof (band_code_range (band config)) as Hband.
  pose proof (spacing_code_range (channel_spacing config)) as Hspace.
  unfold FM_MAX_VOLUME in Hvol.
  rewrite setup_registers_fields.
  generalize dependent (regs (setup_registers config pre)). intros regs' ->.
  unfold configured_for, radio_wf, fm_is_powered_up, fm_get_config, fm_get_frequency_range.
  cbn [regs with_regs Rda5807.config frequency_range sdio_pin sclk_pin enable_pull_ups
       seek_threshold volume mute softmute bass_boost mono frequency async].
  rewrite !get16_0, !get16_2, !get16_3, !get16_4, !get16_5.
  as_fields.
  split.
  { split; [reflexivity|].
    repeat (constructor;
            [first [ apply fm_set_bit_is_u16 | apply fm_set_bits_is_u16 | assumption
                   | (unfold is_u16; lia)
                   | (destruct (band config); first [apply fm_set_bit_is_u16|assumption]) ]|]).
    constructor. }
  split; [bits_norm; reflexivity|].
  split; [assumption|]. split; [assumption|].
  do 11 (split; [assumption|]).
  split; [reflexivity|].
  split.
  { cbv zeta. bits_norm. repeat match goal with |- _ /\ _ => split end; reflexivity. }
  split.
  { cbv zeta.
    split.
    - rewrite fm_get_bits_set_bits_other; try lia; [|apply fm_set_bits_is_u16].
      rewrite fm_get_bits_set_bits_other; try lia; [|apply fm_set_bits_is_u16].
      apply fm_get_bits_set_bits_same; lia.
    - split.
      + rewrite fm_get_bits_set_bits_other; try lia; [|apply fm_set_bits_is_u16].
        apply fm_get_bits_set_bits_same; lia.
      + apply fm_get_bits_set_bits_same; lia. }
  split.
  { cbv zeta. bits_norm. split; reflexivity. }
  split.
  { apply fm_get_bits_set_bits_same; change (2 ^ 4) with 16; lia. }
  destruct (band config); try exact I; rewrite get16_7; bits_norm; reflexivity.
Qed.

Ltac wf_goal :=
  first [ assumption | apply is_u16_u16
        | match goal with |- radio_wf (with_regs (replicate 16 0) _) => split; [reflexivity|] end;
          cbn [regs with_regs]; apply Forall_forall; intros x Hx;
          apply list_elem_of_In, elem_of_replicate in Hx; destruct Hx as [-> _];
          unfold is_u16; lia
        | (unfold is_u16; vm_compute; split; [discriminate|reflexivity]) ].

Section PowerUp.

Context {hw : Type} {platform : Platform hw} {gpio : Gpio hw}.

Lemma returns_on_chip (f : hw -> hw) (w : world hw) (Q : unit -> world hw -> Prop) :
  Q tt (mk_world (radio w) (f (chip w)) (i2c_log w)) -> returns (on_chip f) w Q.
Proof. intros HQ. eexists tt, _. split; [reflexivity|exact HQ]. Qed.

Lemma returns_pull_ups (r : rda5807_t) (w : world hw) (Q : unit -> world hw -> Prop) :
  Q tt (mk_world (radio w)
          (if enable_pull_ups r
           then gpio_pull_up (sclk_pin r) (gpio_pull_up (sdio_pin r) (chip w))
           else chip w)
          (i2c_log w)) ->
  returns (if enable_pull_ups r
           then bind (on_chip (gpio_pull_up (sdio_pin r)))
                  (fun _ => on_chip (gpio_pull_up (sclk_pin r)))
           else ret tt) w Q.
Proof.
  intros HQ. destruct (enable_pull_ups r).
  - apply returns_bind, returns_on_chip, returns_on_chip. exact HQ.
  - apply returns_ret. destruct w. exact HQ.
Qed.

Lemma cleared_wf (r : rda5807_t) : radio_wf (with_regs (replicate 16 0) r).
Proof.
  split; [reflexivity|]. cbn [regs with_regs].
  apply Forall_forall. intros x Hx. apply list_elem_of_In, elem_of_replicate in Hx.
  destruct Hx as [-> _]. unfold is_u16. lia.
Qed.

(** [fm_power_up] up to the sequential write of the control registers,
    when the chip answers the read of register 0 with its identification:
    what is left to run is the restore of the frequency, from a radio that
    is [configured_for] the configuration. *)
Lemma power_up_run (fuel : nat) (config : fm_config_t) (w : world hw)
    (Q : unit -> world hw -> Prop) :
  fm_is_powered_up (radio w) = false ->
  register_answer 0x0 (pads_configured (radio w) (chip w)) = Some 0x5804 ->
  0 <= volume (radio w) <= FM_MAX_VOLUME ->
  (forall rc h evs,
     configured_for config (radio w) rc ->
     let w' := mk_world rc h
                 (i2c_log w ++ evs ++
                    [I2cWrite RDA5807_ADDR_SEQUENTIAL (pack_registers (regs rc) 0x2 7) false]) in
     returns
       (if negb (F32.eqb (frequency rc) (S754_zero false))
        then bind (modify_radio (with_frequency (S754_zero false)))
               (fun _ => fm_set_frequency_blocking fuel (frequency rc))
        else ret tt) w' Q) ->
  returns (fm_power_up fuel config) w Q.
Proof.
  intros Hdown Hchip Hvol HQ.
  unfold fm_power_up. run. apply returns_assert; [rewrite Hdown; reflexivity|].
  run. apply returns_on_chip. run. apply returns_on_chip. run.
  unfold pads_configured in Hchip. cbv zeta in Hchip.
  apply returns_pull_ups. run.
  apply returns_read_register; [lia|lia|apply cleared_wf|].
  cbn [radio chip i2c_log]. rewrite Hchip. cbn [default from_option id negb].
  intros h0 evs0. run. apply returns_assert.
  { unfold with_reg. cbn [regs with_regs]. rewrite get_set_eq; [reflexivity|lia|cbn; lia]. }
  run.
  apply returns_write_single; [lia|]. intros ok1 h1. run.
  apply returns_write_single; [lia|]. intros ok2 h2. run.
  apply returns_read_single; [lia| |].
  { repeat apply with_reg_wf; wf_goal. }
  intros ok3 v3 h3 evs3 Hv3 _. run.
  apply returns_read_single; [lia| |].
  { repeat apply with_reg_wf; wf_goal. }
  intros ok4 v4 h4 evs4 Hv4 _. run.
  apply returns_read_single; [lia| |].
  { repeat apply with_reg_wf; wf_goal. }
  intros ok5 v5 h5 evs5 Hv5 _. run.
  apply returns_read_single; [lia| |].
  { repeat apply with_reg_wf; wf_goal. }
  intros ok6 v6 h6 evs6 Hv6 _. run.
  apply returns_read_single; [lia| |].
  { repeat apply with_reg_wf; wf_goal. }
  intros ok7 v7 h7 evs7 Hv7 _. run.
  apply returns_read_single; [lia| |].
  { repeat apply with_reg_wf; wf_goal. }
  intros ok8 v8 h8 evs8 Hv8 _. run.
  apply returns_write_up_to; [lia|]. intros ok9 h9. run.
  change (Z.to_nat (0x8 - 1)) with 7%nat.
  match goal with
  | |- returns _ (mk_world (setup_registers config ?pre) _ _) _ =>
      pose proof (setup_configured config (radio w) pre v3 v4 v5 v6 v7 v8
                    eq_refl eq_refl eq_refl eq_refl eq_refl eq_refl eq_refl eq_refl
                    eq_refl eq_refl eq_refl eq_refl eq_refl eq_refl
                    Hv3 Hv4 Hv5 Hv6 Hv7 Hv8 Hvol) as Hconf
  end.
  specialize (HQ _ h9
    (evs0 ++ [write_single_event
                (with_reg 0x2 (u16 (Z.lor ENABLE_BIT SOFT_RESET_BIT))
                   (with_reg 0x0 0x5804
                      (with_regs (replicate 16 0)
                         (with_frequency_range
                            (fm_frequency_range (band config) (channel_spacing config))
                            (with_config config (radio w)))))) 0x2] ++
             [write_single_event
                (with_reg 0x2 ENABLE_BIT
                   (with_reg 0x2 (u16 (Z.lor ENABLE_BIT SOFT_RESET_BIT))
                      (with_reg 0x0 0x5804
                         (with_regs (replicate 16 0)
                            (with_frequency_range
                               (fm_frequency_range (band config) (channel_spacing config))
                               (with_config config (radio w))))))) 0x2] ++
             evs3 ++ evs4 ++ evs5 ++ evs6 ++ evs7 ++ evs8) Hconf).
  cbv zeta in HQ. rewrite <- !app_assoc in HQ. rewrite <- !app_assoc.
  exact HQ.
Qed.

(** A call aborts when what runs first returns into a state in which the
    rest aborts. *)
Lemma aborts_after {A B : Type} (m : M hw A) (k : A -> M hw B) (w : world hw) :
  returns m w (fun x w' => k x w' = Abort) -> bind m k w = Abort.
Proof. intros (x & w' & Hm & Hk). unfold bind. rewrite Hm. exact Hk. Qed.

(** [fm_power_up] on a radio that is not powered up, with a volume in
    range and no frequency to restore, when the chip answers the read of
    register 0 with its identification 0x5804: the call returns, and the
    radio is powered up and configured. It carries the new configuration
    and the frequency range of its band and spacing; every cached setting
    is as before; the mirror holds the chip identification, ENABLE,
    NEW_METHOD, RDS_EN and DHIZ set, SOFT_RESET and SEEK clear, the bass,
    mono, mute, softmute and volume bits of the cached settings, channel 0,
    and the codes of the band, the spacing and the de-emphasis. The last
    bus transfer is the sequential write of the seven control registers
    2..8 as the mirror holds them. *)
Theorem power_up_configures_the_chip
    (w : world hw) (config : fm_config_t) (fuel : nat)
    (Hdown : fm_is_powered_up (radio w) = false)
    (Hchip : register_answer 0x0 (pads_configured (radio w) (chip w)) = Some 0x5804)
    (Hvolume : 0 <= volume (radio w) <= FM_MAX_VOLUME)
    (Hfresh : F32.eqb (frequency (radio w)) (S754_zero false) = true) :
  returns (fm_power_up fuel config) w (fun _ w' =>
    configured_for config (radio w) (radio w') /\
    exists evs,
      i2c_log w' =
        i2c_log w ++ evs ++
          [I2cWrite RDA5807_ADDR_SEQUENTIAL (pack_registers (regs (radio w')) 0x2 7) false]).
Proof.
  apply power_up_run; try assumption.
  intros rc h evs Hconf w'.
  assert (Hfreq : frequency rc = frequency (radio w)) by apply Hconf.
  rewrite Hfreq, Hfresh. cbn [negb].
  apply returns_ret. subst w'. cbn [radio i2c_log].
  split; [exact Hconf|]. exists evs. reflexivity.
Qed.

(** [fm_power_up] does not return on a radio that is already powered up,
    nor when the chip does not answer the read of register 0 with the
    identification 0x5804: a read that fails ends in [panic], another
    identification fails the assertion. *)
Theorem power_up_stops_without_the_chip
    (w : world hw) (config : fm_config_t) (fuel : nat)
    (Hbad : fm_is_powered_up (radio w) = true \/
            register_answer 0x0 (pads_configured (radio w) (chip w)) <> Some 0x5804) :
  fm_power_up fuel config w = Abort.
Proof.
  unfold fm_power_up. apply aborts_after, returns_get_radio. cbv beta.
  destruct (fm_is_powered_up (radio w)) eqn:Hup; [reflexivity|].
  destruct Hbad as [Hbad|Hbad]; [discriminate|].
  apply aborts_after, returns_assert; [reflexivity|].
  apply aborts_after, returns_modify. cbv beta.
  apply aborts_after, returns_modify. cbv beta.
  apply aborts_after, returns_on_chip. cbv beta.
  apply aborts_after, returns_on_chip. cbv beta.
  apply aborts_after, returns_pull_ups. cbv beta.
  apply aborts_after, returns_modify. cbv beta.
  unfold pads_configured in Hbad. cbv zeta in Hbad.
  apply aborts_after, returns_read_register; [lia|lia|apply cleared_wf|].
  cbn [radio chip i2c_log]. intros h evs.
  destruct (register_answer 0x0 _) as [v|] eqn:E; cbn [default from_option id negb];
    [|reflexivity].
  apply aborts_after, returns_ret. apply aborts_after, returns_get_radio. cbn [radio].
  unfold with_reg. cbn [regs with_regs]. rewrite get_set_eq by (cbn; lia).
  destruct (Z.eqb_spec v 0x5804) as [->|Hne]; [contradiction|reflexivity].
Qed.

End PowerUp.


End Rda5807Reads.

(** * Power down *)

Module Rda5807Power.

Import Regs Rda5807 BitLemmas RegsProps Rda5807Props Rda5807More Rda5807Reads.

Section PowerDown.

Context {hw : Type} {platform : Platform hw}.

(** A write of one register, tied to what the bus call does. *)
Lemma returns_write_single_tied (reg_index : Z) (w : world hw)
    (Q : bool -> world hw -> Prop) :
  2 <= reg_index <= 8 ->
  (forall ok,
     Q ok (mk_world (radio w)
             (snd (bus_transfer (chip w) (write_single_event (radio w) reg_index)))
             (i2c_log w ++ [write_single_event (radio w) reg_index]))) ->
  returns (fm_write_single_register reg_index) w Q.
Proof.
  intros Hr HQ. unfold write_single_event in HQ.
  destruct (Z.eqb_spec reg_index 2) as [->|Hne].
  - cbn [bus_transfer] in HQ.
    destruct (i2c_write_blocking (chip w) RDA5807_ADDR_SEQUENTIAL
                (pack_registers (regs (radio w)) 0x2 1) false) as [res h] eqn:E.
    eexists _, _. split; [apply (fm_write_register_2_exact w res h E)|apply HQ].
  - cbv zeta in HQ. cbn [bus_transfer] in HQ.
    destruct (i2c_write_blocking (chip w) RDA5807_ADDR_RANDOM_ACCESS
                [u8 reg_index; u8 (Z.shiftr (get (regs (radio w)) reg_index) 8);
                 u8 (Z.land (get (regs (radio w)) reg_index) 0xFF)] false)
      as [res h] eqn:E.
    eexists _, _.
    split; [apply (fm_write_register_exact reg_index w res h ltac:(lia) E)|apply HQ].
Qed.

(** The cancel of a task in flight, step by step: the flag that started the
    operation is cleared in the mirror, the control register is written, the
    status register is read, and the frequency is taken from the channel it
    reports. *)
Lemma cancel_run (w : world hw) :
  radio_wf (radio w) ->
  task (async (radio w)) <> NULL -> state (async (radio w)) = 1 ->
  let r := radio w in
  let k := control_register (task (async r)) in
  let r1 := with_reg k (fm_set_bit (get (regs r) k) (start_flag (task (async r))) false) r in
  let write := write_single_event r1 k in
  let h1 := snd (bus_transfer (chip w) write) in
  let r2 := with_reg 0xA (polled_status r h1) r1 in
  exists wc,
    fm_async_task_cancel w = Ret tt wc /\
    radio wc = with_async no_task (with_frequency (reported_frequency r2) r2) /\
    i2c_log wc = i2c_log w ++ [write; I2cRead RDA5807_ADDR_SEQUENTIAL 2 false].
Proof.
  intros Hwf Htask Hstate r k r1 write h1 r2.
  assert (Hpoll : forall h, polled_status r1 h = polled_status r h).
  { intros h. unfold polled_status. f_equal. subst r1. unfold with_reg.
    cbn [regs with_regs]. apply get_set_ne; subst k; destruct (task (async r)); cbn; lia. }
  assert (Hwf1 : radio_wf r1).
  { subst r1. apply with_reg_wf; [assumption|apply fm_set_bit_is_u16]. }
  assert (Hk : 2 <= k <= 8) by (subst k; destruct (task (async r)); cbn; lia).
  enough (Hret : returns fm_async_task_cancel w (fun _ wc =>
            radio wc = with_async no_task (with_frequency (reported_frequency r2) r2) /\
            i2c_log wc = i2c_log w ++ [write; I2cRead RDA5807_ADDR_SEQUENTIAL 2 false])).
  { destruct Hret as ([] & wc & E & H). exists wc. split; [exact E|exact H]. }
  unfold fm_async_task_cancel.
  apply returns_bind, returns_get_radio.
  apply returns_bind, returns_assert.
  { destruct (task (async (radio w))); [contradiction|reflexivity..]. }
  apply returns_bind.
  assert (Hfinish : forall result,
    returns
      (bind (modify_radio (fun r => with_reg k (fm_set_bit (get (regs r) k)
                                      (start_flag (task (async (radio w)))) false) r))
         (fun _ => bind (fm_write_single_register k)
         (fun _ => bind (fm_read_single_register 0xA)
         (fun _ => bind (modify_radio (fun r =>
                     let channel := u16 (fm_get_bits (get (regs r) 0xA)
                                           READCHAN_BITS READCHAN_LSB) in
                     with_frequency (fm_channel_to_frequency channel (frequency_range r)) r))
         (fun _ => ret (mk_progress true result)))))) w
      (fun _ w' =>
         returns (modify_radio (with_async no_task)) w' (fun _ wc =>
           radio wc = with_async no_task (with_frequency (reported_frequency r2) r2) /\
           i2c_log wc = i2c_log w ++ [write; I2cRead RDA5807_ADDR_SEQUENTIAL 2 false]))).
  { intros result. run. fold r. fold r1.
    apply returns_write_single_tied; [exact Hk|]. intros ok. cbn [radio chip i2c_log].
    fold write. fold h1. run.
    apply returns_read_status; [exact Hwf1|]. intros ok2 h2. run.
    rewrite Hpoll. fold r2. rewrite readchan_u16.
    split; [reflexivity|]. rewrite <- app_assoc. reflexivity. }
  subst k. unfold r in *.
  destruct (task (async (radio w))) eqn:Et; [contradiction| |]; cbn [call_task].
  - unfold fm_set_frequency_async_task. cbn zeta.
    apply returns_bind, returns_get_radio.
    apply returns_bind, returns_assert; [rewrite Et; reflexivity|].
    apply returns_bind, returns_assert; [rewrite Hstate; reflexivity|].
    apply (Hfinish (-1)).
  - unfold fm_seek_async_task. cbn zeta.
    apply returns_bind, returns_get_radio.
    apply returns_bind, returns_assert; [rewrite Et; reflexivity|].
    apply returns_bind, returns_assert; [rewrite Hstate; reflexivity|].
    apply (Hfinish (-1)).
Qed.

(** Claim C8, as amended. With no task in flight, [fm_power_down] leaves
    the radio [powered_down r]: bit ENABLE of register 2 cleared, every other
    bit of the register mirror and every state field as before, and one
    transfer issued, the write of register 2. With a task in flight (in
    state 1, which the task functions assert) it first runs
    [fm_async_task_cancel], which returns with the task slot empty, and then
    does to the radio the cancel left what it does to an idle one: what the
    cancel changed is not undone. And the cancel itself changes the radio: on
    a mirror of sixteen 16-bit registers (the array the C structure
    declares) it clears the flag that started the operation (TUNE in
    register 3, or SEEK in register 2) and writes that register, reads the
    status register 0xA into the mirror (the answer of the chip, or the old
    word when the read fails), sets the cached frequency to the one of the
    channel the mirrored status reports, and empties the task slot; the
    settings and the other registers are as before. *)
Theorem power_down_clears_enable_only
    (w : world hw)
    (Hup : fm_is_powered_up (radio w) = true) :
  (task (async (radio w)) = NULL ->
     forall res chip',
       let bytes := pack_registers (regs (powered_down (radio w))) 0x2 1 in
       i2c_write_blocking (chip w) RDA5807_ADDR_SEQUENTIAL bytes false = (res, chip') ->
       fm_power_down w =
         Ret tt (mk_world (powered_down (radio w)) chip'
                   (i2c_log w ++ [I2cWrite RDA5807_ADDR_SEQUENTIAL bytes false]))) /\
  (task (async (radio w)) <> NULL -> state (async (radio w)) = 1 ->
     exists wc w' e,
       fm_async_task_cancel w = Ret tt wc /\
       async (radio wc) = no_task /\
       fm_power_down w = Ret tt w' /\
       radio w' = powered_down (radio wc) /\
       i2c_log w' = i2c_log wc ++ [e]) /\
  (task (async (radio w)) <> NULL -> state (async (radio w)) = 1 -> radio_wf (radio w) ->
     let r := radio w in
     let k := control_register (task (async r)) in
     let flag := start_flag (task (async r)) in
     let write := write_single_event (with_reg k (fm_set_bit (get (regs r) k) flag false) r) k in
     exists wc w',
       fm_async_task_cancel w = Ret tt wc /\
       let rc := radio wc in
       get (regs rc) k = fm_set_bit (get (regs r) k) flag false /\
       fm_get_bit (get (regs rc) k) flag = false /\
       get (regs rc) 0xA = polled_status r (snd (bus_transfer (chip w) write)) /\
       regs_agree_except [k; 0xA] r rc /\
       fm_get_frequency rc = reported_frequency rc /\
       async rc = no_task /\
       settings_kept r rc /\ radio_wf rc /\
       i2c_log wc = i2c_log w ++ [write; I2cRead RDA5807_ADDR_SEQUENTIAL 2 false] /\
       fm_power_down w = Ret tt w' /\
       radio w' = powered_down rc /\
       i2c_log w' =
         i2c_log wc ++
           [I2cWrite RDA5807_ADDR_SEQUENTIAL (pack_registers (regs (radio w')) 0x2 1) false]) /\
  (forall r, radio_wf r ->
     let r' := powered_down r in
     frequency r' = frequency r /\ volume r' = volume r /\ mute r' = mute r /\
     softmute r' = softmute r /\ mono r' = mono r /\ bass_boost r' = bass_boost r /\
     seek_threshold r' = seek_threshold r /\ config r' = config r /\
     frequency_range r' = frequency_range r /\ async r' = async r /\
     (forall i, i <> 2 -> get (regs r') i = get (regs r) i) /\
     (forall k, 0 <= k ->
        Z.testbit (get (regs r') 2) k =
          if k =? 0 then false else Z.testbit (get (regs r) 2) k) /\
     fm_is_powered_up r' = false).
Proof.
  split; [|split; [|split]].
  - intros Hidle res chip' bytes E. unfold fm_power_down.
    unfold bind at 1; unfold get_radio.
    unfold bind at 1; unfold assert at 1; rewrite Hup.
    rewrite Hidle. cbn [task_eqb negb]. unfold bind at 1. unfold ret at 1.
    unfold bind at 1. unfold modify_radio at 1. unfold bind at 1.
    fold (powered_down (radio w)).
    rewrite (fm_write_register_2_exact
               (mk_world (powered_down (radio w)) (chip w) (i2c_log w)) res chip' E).
    reflexivity.
  - intros Htask Hstate. unfold fm_power_down.
    unfold bind at 1; unfold get_radio.
    unfold bind at 1; unfold assert at 1; rewrite Hup.
    assert (Ht : negb (task_eqb (task (async (radio w))) NULL) = true)
      by (destruct (task (async (radio w))); [congruence|reflexivity|reflexivity]).
    rewrite Ht. unfold bind at 1.
    destruct (fm_async_task_cancel_total w Htask Hstate) as (wc & Ec & Hc).
    rewrite Ec.
    destruct (power_down_tail wc) as (chip' & E). rewrite E.
    exists wc. do 2 eexists. repeat split; try reflexivity. exact Hc.
  - intros Htask Hstate Hwf r k flag write.
    destruct (cancel_run w Hwf Htask Hstate) as (wc & Ec & Hrc & Hlog).
    cbv zeta in Hrc, Hlog. fold r k flag in Hrc, Hlog. fold write in Hrc, Hlog.
    set (r1 := with_reg k (fm_set_bit (get (regs r) k) flag false) r) in *.
    set (h1 := snd (bus_transfer (chip w) write)) in *.
    set (r2 := with_reg 0xA (polled_status r h1) r1) in *.
    destruct Hwf as [Hlen Hu]. fold r in Hlen, Hu.
    assert (Hk : k = 2 \/ k = 3) by (subst k; destruct (task (async r)); cbn; lia).
    assert (Hflag : exists b, 0 <= b < 16 /\ flag = 2 ^ b).
    { subst flag. destruct (task (async r));
        [exists 4|exists 4|exists 8]; split; try lia; reflexivity. }
    destruct Hflag as (b & Hb & Eflag).
    assert (Hregs : regs (radio wc) =
              set (set (regs r) k (fm_set_bit (get (regs r) k) flag false))
                0xA (polled_status r h1)) by (rewrite Hrc; reflexivity).
    assert (Hgk : get (regs (radio wc)) k = fm_set_bit (get (regs r) k) flag false).
    { rewrite Hregs. rewrite get_set_ne by lia. apply get_set_eq; lia. }
    assert (Hpu : is_u16 (polled_status r h1)) by (apply polled_status_u16; split; assumption).
    unfold fm_power_down.
    unfold bind at 1; unfold get_radio.
    unfold bind at 1; unfold assert at 1; rewrite Hup.
    assert (Ht : negb (task_eqb (task (async (radio w))) NULL) = true)
      by (destruct (task (async (radio w))); [congruence|reflexivity|reflexivity]).
    rewrite Ht. unfold bind at 1. rewrite Ec.
    destruct (power_down_tail wc) as (chip' & E). rewrite E.
    exists wc. eexists. split; [reflexivity|]. cbv zeta.
    split; [exact Hgk|].
    split; [rewrite Hgk, Eflag; rewrite fm_get_bit_set_bit by lia;
            rewrite Z.eqb_refl; reflexivity|].
    split; [rewrite Hregs; apply get_set_eq; [lia|rewrite set_length; lia]|].
    split.
    { intros i Hi Hskip. cbn [In] in Hskip. rewrite Hregs.
      rewrite !get_set_ne by lia. reflexivity. }
    split; [rewrite Hrc; reflexivity|].
    split; [rewrite Hrc; reflexivity|].
    split; [rewrite Hrc; unfold settings_kept; cbn; tauto|].
    split.
    { split; rewrite Hregs; [rewrite !set_length; assumption|].
      repeat apply set_is_u16; try assumption. apply fm_set_bit_is_u16. }
    split; [exact Hlog|].
    split; [reflexivity|]. split; reflexivity.
  - intros r Hwf. apply powered_down_frame. exact Hwf.
Qed.

End PowerDown.

(** The theorem above on the sample radio tuning from 87.0 to 88.0 MHz:
    register 3 goes from 0x0290 to 0x0280 and the frequency to 88.0 MHz, the
    one of channel 10 that the chip reports. *)
Lemma power_down_clears_enable_only_witness :
  exists wc w',
    @fm_async_task_cancel Z stub_chip tuning_world = Ret tt wc /\
    get (regs (radio wc)) 0x3 = 0x0280 /\
    fm_get_frequency (radio wc) = reported_frequency (radio wc) /\
    async (radio wc) = no_task /\
    @fm_power_down Z stub_chip tuning_world = Ret tt w' /\
    radio w' = powered_down (radio wc).
Proof.
  destruct (proj1 (proj2 (proj2
              (@power_down_clears_enable_only Z stub_chip tuning_world eq_refl))))
    as (wc & w' & Ec & Hk & _ & _ & _ & Hfreq & Hasync & _ & _ & _ & Ed & Hr & _).
  - vm_compute. discriminate.
  - vm_compute. reflexivity.
  - split; [vm_compute; reflexivity|].
    set (l := regs _). vm_compute in l. subst l.
    repeat (constructor; [unfold is_u16; lia|]). constructor.
  - exists wc, w'. split; [exact Ec|]. split; [exact Hk|]. split; [exact Hfreq|].
    split; [exact Hasync|]. split; [exact Ed|exact Hr].
Defined.

End Rda5807Power.

(** * Sample runs of the driver properties *)

Module Rda5807Samples.

Import Regs Rda5807 BitLemmas RegsProps Rda5807Props Rda5807More Rda5807Reads.

Lemma sample_radio_wf : radio_wf sample_radio.
Proof.
  split; [reflexivity|].
  repeat (constructor; [unfold is_u16; cbn; lia|]). constructor.
Qed.

Lemma sample_radio_ready : ready_in_sync sample_radio.
Proof.
  split; [exact sample_radio_wf|].
  repeat split; vm_compute; reflexivity.
Qed.

Lemma setters_keep_mirror_in_sync_witness :
  @returns Z unit (@fm_set_mute Z stub_chip false) sample_world
     (fun _ w' => ready_in_sync (radio w')) /\
  @returns Z unit (@fm_set_volume Z stub_chip 200) sample_world
     (fun _ w' => ready_in_sync (radio w')).
Proof.
  pose proof (@setters_keep_mirror_in_sync Z stub_chip sample_world sample_radio_ready)
    as (Hmute & _ & _ & _ & Hvolume & _).
  split; [apply Hmute|apply Hvolume].
  unfold is_u8. lia.
Defined.

Lemma set_frequency_async_programs_a_channel_of_the_band_witness :
  @returns Z unit (@fm_set_frequency_async Z stub_chip (F32.of_Z 200)) sample_world
     (fun _ w' =>
        fm_get_bits (get (regs (radio w')) 0x3) CHAN_BITS CHAN_LSB = 210 /\
        frequency (radio w') = F32.of_Z 87).
Proof.
  eapply returns_weaken.
  - apply (@set_frequency_async_programs_a_channel_of_the_band Z stub_chip sample_world
             FM_BAND_COMMON FM_CHANNEL_SPACING_100 (F32.of_Z 200)).
    + exact sample_radio_wf.
    + reflexivity.
    + reflexivity.
    + reflexivity.
    + reflexivity.
    + vm_compute. reflexivity.
  - cbv zeta. intros _ w' (_ & _ & _ & Htop & _ & _ & _ & _ & _ & Hfreq & _).
    split; [|exact Hfreq].
    apply Htop; vm_compute; reflexivity.
Defined.

Lemma due_tuning_world_wf : radio_wf (radio due_tuning_world).
Proof.
  split; [vm_compute; reflexivity|].
  set (l := regs _). vm_compute in l. subst l.
  repeat (constructor; [unfold is_u16; lia|]). constructor.
Qed.

Lemma due_seeking_world_wf : radio_wf (radio due_seeking_world).
Proof.
  split; [vm_compute; reflexivity|].
  set (l := regs _). vm_compute in l. subst l.
  repeat (constructor; [unfold is_u16; lia|]). constructor.
Qed.

Lemma tune_tick_outcome_witness :
  @returns Z _ (@fm_async_task_tick Z stub_chip) due_tuning_world
     (fun progress w' =>
        done progress = true /\ result progress = 0 /\ async (radio w') = no_task /\
        fm_get_frequency (radio w') = reported_frequency (radio w')).
Proof.
  eapply returns_weaken.
  - apply (@tune_tick_outcome Z stub_chip due_tuning_world).
    + exact due_tuning_world_wf.
    + vm_compute. reflexivity.
    + vm_compute. reflexivity.
    + vm_compute. discriminate.
  - cbv zeta. intros progress w' (Hres & Hdone & _ & _ & _ & Hrest).
    assert (Hd : done progress = true) by (rewrite Hdone; vm_compute; reflexivity).
    rewrite Hd in Hrest. destruct Hrest as (Hasync & _ & Hfreq).
    repeat split; assumption.
Defined.

Lemma seek_tick_outcome_witness :
  @returns Z _ (@fm_async_task_tick Z stub_chip) due_seeking_world
     (fun progress w' =>
        done progress = true /\ result progress = 0 /\ async (radio w') = no_task /\
        fm_get_bit (get (regs (radio w')) 0x2) SEEK_BIT = false).
Proof.
  eapply returns_weaken.
  - apply (@seek_tick_outcome Z stub_chip due_seeking_world).
    + exact due_seeking_world_wf.
    + vm_compute. reflexivity.
    + vm_compute. reflexivity.
    + vm_compute. discriminate.
  - cbv zeta. intros progress w' (Hdone & _ & _ & _ & _ & _ & Hrest).
    assert (Hd : done progress = true) by (rewrite Hdone; vm_compute; reflexivity).
    rewrite Hd in Hrest. destruct Hrest as (Hres & Hasync & Hseek).
    repeat split; assumption.
Defined.

Lemma cancel_stops_the_tuner_witness :
  @returns Z _ (@fm_async_task_cancel Z stub_chip) tuning_world
     (fun _ w' =>
        async (radio w') = no_task /\
        fm_get_bit (get (regs (radio w')) 0x3) TUNE_BIT = false /\
        fm_get_frequency (radio w') = reported_frequency (radio w')).
Proof.
  eapply returns_weaken.
  - apply (@cancel_stops_the_tuner Z stub_chip tuning_world).
    + exact due_tuning_world_wf.
    + vm_compute. discriminate.
    + vm_compute. reflexivity.
  - cbv zeta. intros _ w' (_ & _ & Hasync & Hfreq & Hrest).
    change (task (async (radio tuning_world))) with fm_set_frequency_async_task_ptr in Hrest.
    destruct Hrest as (Htune & _).
    repeat split; assumption.
Defined.

Lemma quiet_radio_wf : radio_wf quiet_radio.
Proof.
  split; [reflexivity|].
  repeat (constructor; [unfold is_u16; cbn; lia|]). constructor.
Qed.

Lemma blocking_tune_returns_after_one_poll_witness :
  @returns Z _ (@fm_set_frequency_blocking Z wrapping_chip 1 (F32.of_Z 88)) late_world
     (fun _ w' =>
        async (radio w') = no_task /\
        fm_get_frequency (radio w') = reported_frequency (radio w')).
Proof.
  eapply returns_weaken.
  - apply (@blocking_tune_returns_after_one_poll Z wrapping_chip late_world late_tuning_world
             (F32.of_Z 88) 0 0x400A).
    + exact quiet_radio_wf.
    + reflexivity.
    + reflexivity.
    + vm_compute. reflexivity.
    + vm_compute. reflexivity.
    + vm_compute. discriminate.
    + reflexivity.
    + reflexivity.
  - cbv zeta. intros _ w' (_ & _ & _ & _ & Hasync & _ & Hfreq). split; assumption.
Defined.

Lemma blocking_seek_returns_after_one_poll_witness :
  @returns Z _ (@fm_seek_blocking Z wrapping_chip 1 FM_SEEK_UP) late_world
     (fun success w' =>
        success = true /\ async (radio w') = no_task /\
        fm_get_frequency (radio w') = reported_frequency (radio w')).
Proof.
  eapply returns_weaken.
  - apply (@blocking_seek_returns_after_one_poll Z wrapping_chip late_world
             late_seeking_world FM_SEEK_UP 0 0x400A).
    + exact quiet_radio_wf.
    + reflexivity.
    + reflexivity.
    + vm_compute. reflexivity.
    + vm_compute. discriminate.
    + reflexivity.
    + reflexivity.
  - cbv zeta. intros success w' (Hs & _ & _ & _ & _ & Hasync & _ & Hfreq).
    repeat match goal with |- _ /\ _ => split end; assumption.
Defined.

Lemma blocking_calls_never_return_on_a_dead_bus_witness :
  @fm_set_frequency_blocking N dead_chip 1000 (F32.of_Z 88) quiet_world = OutOfFuel /\
  @fm_seek_blocking N dead_chip 1000 FM_SEEK_DOWN quiet_world = OutOfFuel.
Proof.
  pose proof (@blocking_calls_never_return_on_a_dead_bus N dead_chip) as H.
  destruct (H (fun h => eq_refl) quiet_world quiet_radio_wf eq_refl eq_refl eq_refl)
    as (Htune & Hseek).
  split; [apply Htune; vm_compute; reflexivity|apply Hseek].
Defined.

Lemma signal_readings_come_from_the_mirror_witness :
  @returns Z _ (@fm_get_rssi Z stub_chip) sample_world
     (fun rssi w' => 0 <= rssi <= 127 /\ rssi = get (regs (radio w')) 0xB / 512) /\
  @returns Z _ (@fm_get_stereo_indicator Z stub_chip) sample_world
     (fun stereo w' => stereo = Z.testbit (get (regs (radio w')) 0xA) 10).
Proof.
  destruct (@signal_readings_come_from_the_mirror Z stub_chip sample_world
              sample_radio_wf eq_refl) as (Hrssi & Hstereo).
  split.
  - eapply returns_weaken; [exact Hrssi|].
    cbv zeta. intros rssi w' (Hrange & Hvalue & _). split; assumption.
  - eapply returns_weaken; [exact Hstereo|].
    cbv zeta. intros stereo w' (Hvalue & _). exact Hvalue.
Defined.

Lemma read_rds_group_answers_from_the_mirror_witness :
  @returns Z _ (@fm_read_rds_group Z stub_chip [1; 2; 3; 4]) sample_world
     (fun res w' =>
        fst res = Z.testbit (get (regs (radio w')) 0xA) 15 /\
        get (regs (radio w')) 0xA = 0x400A).
Proof.
  eapply returns_weaken.
  - apply (@read_rds_group_answers_from_the_mirror Z stub_chip sample_world [1; 2; 3; 4]
             12 (take 12 ([0x40; 0x0A] ++ replicate 10 0)) 1000).
    + exact sample_radio_wf.
    + reflexivity.
    + reflexivity.
  - cbv zeta. intros res w' (_ & _ & _ & _ & _ & _ & _ & Hwords & Hres & _).
    split; [exact Hres|].
    change (12 =? 12) with true in Hwords. cbv iota in Hwords.
    exact (Hwords 0 ltac:(lia)).
Defined.

Lemma power_up_configures_the_chip_witness :
  @returns Z _ (@fm_power_up Z id_chip no_gpio 0 fm_config_europe) fresh_world
     (fun _ w' =>
        fm_is_powered_up (radio w') = true /\ fm_get_config (radio w') = fm_config_europe).
Proof.
  eapply returns_weaken.
  - apply (@power_up_configures_the_chip Z id_chip no_gpio fresh_world fm_config_europe 0).
    + reflexivity.
    + reflexivity.
    + vm_compute. split; discriminate.
    + reflexivity.
  - cbv beta. intros _ w' ((_ & Hup & Hconfig & _) & _). split; assumption.
Defined.

Lemma power_up_stops_without_the_chip_witness :
  @fm_power_up Z stub_chip no_gpio 0 fm_config_europe fresh_world = Abort /\
  @fm_power_up Z dead_bus no_gpio 0 fm_config_europe fresh_world = Abort /\
  @fm_power_up Z id_chip no_gpio 0 fm_config_europe sample_world = Abort.
Proof.
  split; [|split].
  - apply (@power_up_stops_without_the_chip Z stub_chip no_gpio fresh_world).
    right. vm_compute. discriminate.
  - apply (@power_up_stops_without_the_chip Z dead_bus no_gpio fresh_world).
    right. vm_compute. discriminate.
  - apply (@power_up_stops_without_the_chip Z id_chip no_gpio sample_world).
    left. reflexivity.
Defined.

Lemma seek_async_starts_a_wrapping_seek_witness :
  @returns Z _ (@fm_seek_async Z stub_chip FM_SEEK_DOWN) sample_world
     (fun _ w' =>
        fm_get_bit (get (regs (radio w')) 0x2) SEEK_BIT = true /\
        fm_get_bit (get (regs (radio w')) 0x2) SEEKUP_BIT = false /\
        task (async (radio w')) = fm_seek_async_task_ptr).
Proof.
  eapply returns_weaken.
  - apply (@seek_async_starts_a_wrapping_seek Z stub_chip sample_world FM_SEEK_DOWN).
    + exact sample_radio_wf.
    + reflexivity.
    + reflexivity.
  - cbv zeta. intros _ w' (Hseek & Hdir & _ & _ & _ & _ & _ & _ & Htask & _).
    repeat match goal with |- _ /\ _ => split end; assumption.
Defined.

End Rda5807Samples.

(** * Waking after a power down *)

Module Rda5807Wake.

Import Regs Rda5807 BitLemmas RegsProps Rda5807Props Rda5807More Rda5807Reads.

Section Wake.

Context {hw : Type} {platform : Platform hw} {gpio : Gpio hw}.






















End Wake.


End Rda5807Wake.
